(* ===== verification/_CoqProject ===== *)
-Q . S2P
Prelude.v
Endian.v
Fabric.v
Virtio.v
VirtioMmio.v
MmioHistory.v
Posix.v
BlockBackend.v
QueueService.v
Rings.v
LinuxUio.v
UioMirror.v
AxiPool.v
AxiService.v
AxiRegistry.v
QemuSocket.v
QemuPeer.v
QemuService.v
VirtioConsole.v
ConsoleService.v
VirtioBlk.v
BlkSafety.v
BlkRequest.v
BlkService.v
CStrings.v
Endpoints.v
UioScan.v
BlkMirror.v
UioNotify.v
DevMem.v
DevMemMirror.v
ChipletsUio.v
DaemonConfig.v
UioRun.v
AxiProbe.v
QemuRun.v
Membench.v
Doorbell.v
BlkQueue.v
GuestDriver.v
BlkSocket.v
UioKick.v
BlkUio.v
ConsoleSocket.v
QemuDevice.v
QemuRealize.v
QemuControl.v
ConsoleUio.v
UioBytes.v
