(* ===== verification/Prelude.v ===== *)
(** * acs-virt: a verification development of the C backend and kernel drivers

    acs-virt moves virtio-mmio devices of a guest to another machine (a "chiplet"). A
    backend daemon, [virtio-blkd] or [virtio-consoled], implements the device. It is
    linked with one fabric, which carries the guest's register accesses to the daemon
    and the daemon's DMA and interrupts to the guest. On the guest side a kernel driver
    confines the DMA of the virtio driver to an aperture the fabric can reach.

    ** Parts of the program and where they are modelled

    - [src/virtio.h], [src/virtio.c], the split-ring core: [Endian.v] (byte order) and
      [Virtio.v] (queues, descriptors, [virtio_read_desc], [virtio_next_avail],
      [virtio_add_used], device reset).
    - [src/virtio-mmio.c], the register file: [VirtioMmio.v]; [MmioHistory.v] has its
      contents as a function of the history of register writes and interrupts.
    - [src/fabrics/fabric.h], the interface between drivers and fabrics: [Fabric.v]. The
      class [Fabric] has the entry points; [FabricSafe] and [RamFabric] state what a
      fabric promises: safety whatever the other side does, and, while the guest is
      quiescent, being a byte memory. Driver theorems are proved against these classes.
    - [src/fabrics/linux_uio.c], shared memory through UIO: [LinuxUio.v] (DMA window,
      with a guest that stores concurrently; discharges both classes), [UioMirror.v]
      (publishing registers, scanning for writes, deferred interrupts, event loop),
      [Endpoints.v] (endpoint string, sysfs files, resource mapping) and [UioRun.v]
      ([fabric_run] from the endpoint to the loop). [UioScan.v] adds the guest's side of
      the register page (the stores QEMU makes in its UIO mode) and compares the scan
      with direct register access; [BlkMirror.v] instantiates that for the block daemon,
      [UioNotify.v] is about notifications during a callback.
    - [src/fabrics/linux_devmem.c], polling physical memory: [Endpoints.v] (environment
      and endpoint), [DevMem.v] (page-aligned mappings of [/dev/mem], DMA, interrupts;
      discharges both classes), [DevMemMirror.v] (register page, polling, [fabric_run]).
    - [src/fabrics/qemu_socket.c], messages over a stream socket: [QemuSocket.v]
      (codec, DMA, register service for any peer; discharges [FabricSafe]) and
      [QemuPeer.v] (the QEMU side of [patches/qemu/0001-chiplets-qemu-support.patch];
      with it the fabric discharges [RamFabric]); theorems in [QemuService.v].
      [QemuRun.v]: directories of the socket path, listening socket, accept loop.
    - The daemons behind the fabrics as one system: [GuestDriver.v] (the register writes
      of a virtio-mmio driver and their session over the socket) with [BlkSocket.v] and
      [ConsoleSocket.v]; [UioKick.v] (a notification through the shared page) with
      [BlkUio.v] and [ConsoleUio.v]. [UioBytes.v]: the byte stores a register store of
      the UIO daemon is made of.
    - [patches/qemu/0001-chiplets-qemu-support.patch], the device in QEMU: [QemuDevice.v]
      (its socket mode, statement by statement), [QemuControl.v] (its UIO mode with a
      control connection that may be absent or fail), [QemuRealize.v] (properties,
      realisation, device-tree nodes and ACPI entries, and the kernel drivers they
      match).
    - [src/drivers/virtio-blkd.c]: [Posix.v] (system calls that transfer bytes, with
      interruptions, errors and short counts), [BlockBackend.v] (the image file),
      [VirtioBlk.v] (requests, notification, register binding); theorems in
      [BlkSafety.v], [BlkRequest.v], [BlkService.v], and [BlkQueue.v] with the sequential
      reference [serve_queue] of a queue of requests of any kind.
    - [src/drivers/virtio-consoled.c]: [VirtioConsole.v]; theorems in
      [ConsoleService.v].
    - Configuration strings and [main] of both daemons: [DaemonConfig.v], over the C string
      functions of [CStrings.v].
    - The service loop both drivers share: [QueueService.v]; predicates on rings and
      descriptor chains in guest memory: [Rings.v].
    - [src/kernel/axi_mmio.c]: [AxiPool.v] (page allocator, bounce buffers, every DMA
      operation), [AxiRegistry.v] (the shared, reference-counted list of pools as a
      step relation over interleaved critical sections), [AxiProbe.v] (the probe, the
      child device and the managed releases of the driver core); theorems on the first
      in [AxiService.v].
    - [src/kernel/chiplets_uio.c]: [ChipletsUio.v] (interrupt state machine, [mmap],
      probe).
    - The notifications of the UIO topology, across the UIO mode of the QEMU patch on both
      machines, the control socket, the kernel module and the event loop of
      [linux_uio.c]: [Doorbell.v], a step relation in which the parties interleave.
    - [src/tools/uio-membench.c], the memory benchmark: [Membench.v].
    - The argument strings of the daemons as [src/scripts/chiplets-launcher.py] builds them:
      [DaemonConfig.v]. The rest of the scripts is not modelled.

    ** Conventions

    C code is translated function by function into a state monad [M St A] with three
    outcomes: [Done], [UB] (an operation the C standard leaves undefined: division by
    zero, an access outside an object, a wild pointer) and [NoFuel]. A theorem that a
    computation equals [Done ..], or satisfies [wp], states that it returns and
    performs nothing undefined; [wlp] allows running out of fuel only. Failing calls
    return [None] or [false] and are chained with [←?] and [check], which leave the
    function as the early returns of the source do. Unsigned integers are [Z] with the
    truncations [u8] to [u64] written where C applies them. Structs are records, [D]
    is the state behind an [opaque] pointer, pointers to queues are list positions.
    Choices of the environment (interrupted or short system calls, failing
    allocations, stores of the guest) are explicit lists consumed one per call.

    ** What the theorems show

    - Register file: after any interleaving of register writes and used-buffer interrupts
      every field is the value its last accepted write since the last reset gave it
      ([mmio_state_is_history]); a status write of 0 restores the initial state, ring
      addresses are programmed half by half, written registers read back.
    - Block device: for every fabric and every guest, a session of register writes does nothing undefined and returns unless the guest supplies requests forever
      ([blkd_session_safe], with fuel as the bound on served requests), provided the
      device starts with an initialised payload buffer and the guest programs no queue
      size whose low 16 bits are zero; what happens otherwise is
      [payload_buffer_uninitialized] and [queue_size_unchecked]. A chain of any shape
      is followed for at most [num + 1] descriptors ([process_chain_returns]) unless
      [num] is the largest 32-bit value, where the bound of the code never fires
      ([chain_bound_never_fires]). On quiescent memory write, read, flush and refused requests have
      exactly their specified effect on image, guest memory and status, for both data
      paths, and one notification with any mix of requests, refused ones included, has
      the effect of executing them one after the other ([blk_queue_refines], a
      refinement of [serve_queue]; [blk_kick_serves_all] is the closed form for writes).
      The same holds end to end for a notification through the shared page
      ([uio_kick_serves]) and for a whole session over the socket ([blk_socket_serves]).
    - Image backend: the transfer loops return for every sequence of interruptions and
      short counts ([loop_fuel]: one step per event and two more), are exact, and never
      leave the addressed range.
    - Console: a notification transmits all pending chains in order; receive buffers
      are kept; sessions are safe. End to end, a whole session over the socket
      ([console_socket_transmits]) and a notification through the shared page
      ([console_uio_transmits]).
    - UIO mirror: every readable register and configuration word is published and no
      other byte of the page changes; a deferred interrupt level is stored once. A program each of whose writes changes its register has, through the page, the outcome
      of the same register writes made directly, every one of them reaching the device
      ([scan_is_direct_access]); a write of the value a register already holds is not
      seen ([repeated_features_lost]). A notification stored while a callback runs
      reaches the device ([notify_during_callback]). Set-up yields usable windows or releases
      everything ([uio_open_sound]).
    - devmem fabric: DMA through page-granular mappings touches exactly its range
      ([devmem_write_confined]), for every answer of [mmap].
    - Configuration: printed endpoint strings, and the argument strings the launcher builds,
      parse back to the configuration ([blkd_config_roundtrip], [cond_config_roundtrip]),
      values that do not fit their buffers are refused, [main] closes what
      it opened on every path.
    - QEMU socket: guest memory through the socket behaves as memory, processing does
      not depend on how the stream is cut, and a connection executes the guest's
      register accesses one by one and in order ([qemu_serves_program]; [length + 1]
      messages are enough fuel, and the last read sees the end of the stream). The run
      serves one guest after the other ([qemu_run_serves]; the list of results of
      [accept] bounds its loop), and its path buffer cannot overflow
      ([qemu_parent_dirs]).
    - QEMU device: on every input from the backend a register access returns and does
      what the event machine of [QemuPeer.v] does ([qemu_device_is_peer]; more fuel than
      bytes of input is enough, since every message has a header), and without a backend
      reads give 0 and the failure is reported once ([qemu_backend_absent]). Realisation
      accepts exactly the valid devices ([axi_realize_outcome]); for every accepted device the tables show exactly its windows, first and last address,
      and are matched by the intended drivers, with the two exceptions the theorem
      spells out: a DMA window without memory behind it on ARM, and ACPI properties
      left at their defaults ([tables_show_windows], [acpi_lists_devices]); on ARM a UIO
      master is served by [uio_pdrv_genirq], as [flake.nix] configures it. An access of
      the UIO mode completes and stays inside the page whatever the control connection
      does and whatever the daemon stores meanwhile, and a value is read back unless the
      access touches a word the daemon stores to ([uio_access_roundtrip]).
    - Doorbell: the notification register is one word for all queues, read and reset byte by
      byte. Under every interleaving of those accesses the machine comes to rest within
      [potential] steps with the interrupt line equal to the interrupt status and every
      request of a queue taken whose last notification was not overwritten or torn in
      the shared register ([doorbell_delivers]; both happen: [doorbell_overwritten],
      [notify_torn_load]), except for the combination of asynchronous notifications
      and acknowledgements ([doorbell_wedges]); the edge of an interrupt can be lost
      ([interrupt_edge_lost]).
    - Benchmark: the measured window is restored byte for byte and everything is released
      ([membench_transparent]).
    - DMA pool: allocations of less than [2^44 - 4095] bytes are exclusive, aligned and inside
      the aperture (a larger one can reserve nothing, [huge_alloc_reserves_nothing]), release
      restores the pool exactly, scatterlists are mapped completely or not at all,
      bounce buffers carry data both ways, and the pool registry is sound under every
      interleaving of its critical sections. Binding a device is all or nothing, and the
      child that uses the pool is gone before the pool is released.
    - UIO kernel module: the interrupt line is enabled and disabled in balance under
      every interleaving, and mappings stay inside the regions of the device.
    - Several theorems record where the code misbehaves: [queue_size_unchecked],
      [payload_buffer_uninitialized], [console_cycle_diverges],
      [console_rows_unpublished], [irq_offset_wraps], [devmem_notify_lost],
      [resource_size_stale], [doorbell_wedges], [interrupt_edge_lost],
      [console_notify_overwritten], [torn_notify_ignored], [early_notify_silences],
      [chain_bound_never_fires], [repeated_features_lost], [doorbell_overwritten],
      [notify_torn_load], [huge_alloc_reserves_nothing],
      [fdt_window_unmapped], [acpi_default_role_missing], [microvm_irqs_shared].

    ** Not modelled

    Log output of the daemons (their switches and profiling counters are in
    [DaemonConfig.v], which also bounds the counters), the floating-point throughput the
    benchmark prints, the registration of the device type and of machine properties with
    QEMU, tests and scripts other than the launcher's argument strings. In [Doorbell.v] each queue
    is a pair of counts of published requests,
    the guest does not reset the device and the control connection does not break; a
    connection that breaks is in [QemuControl.v], for one device at a time, without the
    delays and the order of main-loop handlers. Over the shared page a driver's set-up is
    covered register by register ([scan_is_direct_access]) and its notifications as
    whole rounds. QEMU's memory, property and interrupt interfaces, the driver core and
    platform-device calls of [AxiProbe.v] and [ChipletsUio.v] and the functions of the
    Linux bitmap, scatterlist and mapping interfaces that [axi_mmio.c] calls are modelled
    by their documented behaviour. *)

From stdpp Require Export base numbers list option decidable.
From Stdlib Require Export ZArith Lia.

#[local] Open Scope Z_scope.

(** ** Machine integers

    An unsigned [w]-bit C value is a [Z]; conversions and arithmetic that can
    wrap are written with these truncations. *)

Definition u8 (x : Z) : Z := x mod 2 ^ 8.
Definition u16 (x : Z) : Z := x mod 2 ^ 16.
Definition u32 (x : Z) : Z := x mod 2 ^ 32.
Definition u64 (x : Z) : Z := x mod 2 ^ 64.

(** [in_width w x]: [x] is a value of a [w]-bit unsigned type. *)
Definition in_width (w x : Z) : Prop := 0 <= x < 2 ^ w.

Definition is_byte (b : Z) : Prop := 0 <= b < 256.

#[global] Instance in_width_dec w x : Decision (in_width w x).
Proof. unfold in_width. apply _. Defined.

#[global] Instance is_byte_dec b : Decision (is_byte b).
Proof. unfold is_byte. apply _. Defined.

(** A buffer: a list of bytes. *)
Definition bytes (l : list Z) : Prop := Forall is_byte l.

#[global] Instance bytes_dec l : Decision (bytes l).
Proof. unfold bytes. apply _. Defined.

(** Nonzero test of a bit mask, C's [x & mask] used as a condition. *)
Definition has_bit (x mask : Z) : bool := negb (Z.land x mask =? 0).

(** ** Outcomes and the state monad

    A C function is a state transformer whose run either returns ([Done]),
    performs an operation C leaves undefined ([UB]: division by zero, access
    outside an object, use of an indeterminate pointer), or exhausts the
    iteration bound of one of its loops ([NoFuel]). *)

Inductive outcome (A : Type) : Type :=
| Done (a : A)
| UB
| NoFuel.
Arguments Done {A} a.
Arguments UB {A}.
Arguments NoFuel {A}.

Definition M (St A : Type) : Type := St -> outcome (A * St).

Definition ret {St A} (a : A) : M St A := fun s => Done (a, s).

Definition bind {St A B} (m : M St A) (k : A -> M St B) : M St B := fun s =>
  match m s with
  | Done (a, s') => k a s'
  | UB => UB
  | NoFuel => NoFuel
  end.

Definition get {St} : M St St := fun s => Done (s, s).
Definition gets {St A} (f : St -> A) : M St A := fun s => Done (f s, s).
Definition modify {St} (f : St -> St) : M St unit := fun s => Done (tt, f s).
Definition undefined {St A} : M St A := fun _ => UB.
Definition out_of_fuel {St A} : M St A := fun _ => NoFuel.

(** Running a computation on a component of a larger state. *)
Definition zoom {St T A} (prj : St -> T) (upd : T -> St -> St) (m : M T A)
  : M St A := fun s =>
  match m (prj s) with
  | Done (a, t) => Done (a, upd t s)
  | UB => UB
  | NoFuel => NoFuel
  end.

(** *** Early return

    The C functions report failure by returning [false]; those with an output
    parameter are modelled with an [option] result. [CFail] is the value such
    a function returns when it gives up. *)

Class CFail (R : Type) : Type := cfail : R.
#[global] Instance CFail_bool : CFail bool := false.
#[global] Instance CFail_option {A} : CFail (option A) := None.

Definition try_bind {St A R} `{CFail R} (m : M St (option A))
    (k : A -> M St R) : M St R :=
  bind m (fun o => match o with Some a => k a | None => ret cfail end).

Definition check_then {St R} `{CFail R} (m : M St bool) (k : M St R)
  : M St R :=
  bind m (fun b => if b then k else ret cfail).

Declare Scope c_scope.
Delimit Scope c_scope with c.
Notation "x ← m ; k" := (bind m (fun x => k))
  (at level 20, m at level 100, k at level 200, only parsing) : c_scope.
Notation "' x ← m ; k" := (bind m (fun x => k))
  (at level 20, x pattern, m at level 100, k at level 200, only parsing)
  : c_scope.
Notation "m ;; k" := (bind m (fun _ => k))
  (at level 100, k at level 200, right associativity, only parsing) : c_scope.
Notation "x ←? m ; k" := (try_bind m (fun x => k))
  (at level 20, m at level 100, k at level 200, only parsing) : c_scope.
Notation "'check' m ; k" := (check_then m k)
  (at level 20, m at level 100, k at level 200, only parsing) : c_scope.
#[global] Open Scope c_scope.

(** ** Postconditions

    [wpx term m s Q]: run from [s], [m] performs no undefined operation and, if
    it returns, [Q] holds of the result and the final state. With
    [term = true] it also returns (total correctness), with [term = false] an
    exhausted loop bound is allowed. *)

Definition wpx {St A} (term : bool) (m : M St A) (s : St)
    (Q : A -> St -> Prop) : Prop :=
  match m s with
  | Done (a, s') => Q a s'
  | UB => False
  | NoFuel => term = false
  end.

Abbreviation wp := (wpx true).
Abbreviation wlp := (wpx false).

(** The returned value, if any. *)
Definition returned {St A} (o : outcome (A * St)) : option A :=
  match o with Done (a, _) => Some a | _ => None end.

Section wpx.
Context {St : Type}.

Lemma wpx_bind {A B} term (m : M St A) (k : A -> M St B) s Q :
  wpx term (bind m k) s Q <->
  wpx term m s (fun a s' => wpx term (k a) s' Q).
Proof.
  unfold wpx, bind. destruct (m s) as [[a s']| |]; reflexivity.
Qed.

Lemma wpx_ret {A} term (a : A) (s : St) Q :
  wpx term (ret a) s Q <-> Q a s.
Proof. reflexivity. Qed.

Lemma wpx_mono {A} term (m : M St A) s (Q Q' : A -> St -> Prop) :
  wpx term m s Q -> (forall a s', Q a s' -> Q' a s') -> wpx term m s Q'.
Proof. unfold wpx. destruct (m s) as [[a s']| |]; auto. Qed.

Lemma wpx_done {A} term (m : M St A) s a s' (Q : A -> St -> Prop) :
  m s = Done (a, s') -> (wpx term m s Q <-> Q a s').
Proof. unfold wpx. intros ->. reflexivity. Qed.

Lemma wp_elim {A} (m : M St A) s Q :
  wp m s Q -> exists a s', m s = Done (a, s') /\ Q a s'.
Proof. unfold wpx. destruct (m s) as [[a s']| |]; try easy; eauto. Qed.

Lemma wpx_try {A R} `{CFail R} term (m : M St (option A)) k s
    (Q : R -> St -> Prop) :
  wpx term (try_bind m k) s Q <->
  wpx term m s (fun o s' =>
    match o with Some a => wpx term (k a) s' Q | None => Q cfail s' end).
Proof.
  unfold try_bind. rewrite wpx_bind. unfold wpx.
  destruct (m s) as [[[a|] s']| |]; reflexivity.
Qed.

Lemma wpx_check {R} `{CFail R} term (m : M St bool) k s
    (Q : R -> St -> Prop) :
  wpx term (check_then m k) s Q <->
  wpx term m s (fun b s' => if b then wpx term k s' Q else Q cfail s').
Proof.
  unfold check_then. rewrite wpx_bind. unfold wpx.
  destruct (m s) as [[[|] s']| |]; reflexivity.
Qed.

Lemma wpx_gets {A} term (f : St -> A) s Q :
  wpx term (gets f) s Q <-> Q (f s) s.
Proof. reflexivity. Qed.

Lemma wpx_modify term (f : St -> St) s Q :
  wpx term (modify f) s Q <-> Q tt (f s).
Proof. reflexivity. Qed.

Lemma wpx_zoom {T A} term (prj : St -> T) upd (m : M T A) s Q :
  wpx term (zoom prj upd m) s Q <->
  wpx term m (prj s) (fun a t => Q a (upd t s)).
Proof.
  unfold wpx, zoom. destruct (m (prj s)) as [[a t]| |]; reflexivity.
Qed.

Lemma wpx_if {A} term (b : bool) (m1 m2 : M St A) s Q :
  wpx term (if b then m1 else m2) s Q <->
  (if b then wpx term m1 s Q else wpx term m2 s Q).
Proof. destruct b; reflexivity. Qed.

(** A total result holds under either reading. *)
Lemma wp_wpx {A} term (m : M St A) s Q : wp m s Q -> wpx term m s Q.
Proof. unfold wpx. destruct (m s) as [[a s']| |]; easy. Qed.

Lemma wpx_conj {A} term (m : M St A) s (Q Q' : A -> St -> Prop) :
  wpx term m s Q -> wpx term m s Q' ->
  wpx term m s (fun a s' => Q a s' /\ Q' a s').
Proof. unfold wpx. destruct (m s) as [[a s']| |]; auto. Qed.

Lemma bind_done {A B} (m : M St A) (k : A -> M St B) s a s' :
  m s = Done (a, s') -> (bind m k) s = k a s'.
Proof. unfold bind. now intros ->. Qed.

Lemma try_done {A R} `{CFail R} (m : M St (option A))
    (k : A -> M St R) s a s' :
  m s = Done (Some a, s') -> try_bind m k s = k a s'.
Proof. intros E. unfold try_bind. now rewrite (bind_done _ _ _ _ _ E). Qed.

Lemma check_done {R} `{CFail R} (m : M St bool) (k : M St R) s s' :
  m s = Done (true, s') -> check_then m k s = k s'.
Proof. intros E. unfold check_then. now rewrite (bind_done _ _ _ _ _ E). Qed.
End wpx.

Create Rewrite HintDb wpx.
#[global] Hint Rewrite @wpx_bind @wpx_ret @wpx_try @wpx_check @wpx_gets
  @wpx_modify @wpx_zoom @wpx_if : wpx.

(** Push a postcondition through the monadic structure. *)
Ltac wpsimpl := autorewrite with wpx; cbn beta iota.

(** Use a specification of the first computation of the goal. *)
Tactic Notation "wpuse" uconstr(H) := eapply wpx_mono; [eapply H | cbn beta].

(** The same when the specification is a total one and the goal may not be. *)
Tactic Notation "wptotal" uconstr(H) :=
  eapply wpx_mono; [apply wp_wpx; eapply H | cbn beta].

(** A closed decidable fact, by evaluation. *)
Ltac decided := apply (bool_decide_unpack _); vm_compute; exact I.

(** ** Buffers

    [slice off len l] is the C range [l[off] .. l[off + len - 1]];
    [splice off data l] is [l] after [memcpy(l + off, data, length data)]. *)

Definition slice (off len : Z) (l : list Z) : list Z :=
  take (Z.to_nat len) (drop (Z.to_nat off) l).

Definition splice (off : Z) (data l : list Z) : list Z :=
  take (Z.to_nat off) l ++ data ++ drop (Z.to_nat off + length data) l.

Definition zlen (l : list Z) : Z := Z.of_nat (length l).

Create HintDb acs.

Section buffers.
Implicit Types (l data : list Z) (off len : Z).

Lemma zlen_app l1 l2 : zlen (l1 ++ l2) = zlen l1 + zlen l2.
Proof. unfold zlen. rewrite length_app. lia. Qed.

Lemma zlen_slice off len l :
  0 <= off -> 0 <= len -> off + len <= zlen l -> zlen (slice off len l) = len.
Proof.
  unfold zlen, slice. intros. rewrite length_take, length_drop. lia.
Qed.

Lemma zlen_splice off data l :
  0 <= off -> off + zlen data <= zlen l ->
  zlen (splice off data l) = zlen l.
Proof.
  unfold zlen, splice. intros.
  rewrite !length_app, length_take, length_drop. lia.
Qed.

Lemma lookup_slice off len l (i : nat) :
  0 <= off -> Z.of_nat i < len ->
  slice off len l !! i = l !! (Z.to_nat off + i)%nat.
Proof.
  intros. unfold slice. rewrite lookup_take_lt by lia. now rewrite lookup_drop.
Qed.

Lemma lookup_splice_in off data l (i : nat) :
  0 <= off -> off + zlen data <= zlen l -> (i < length data)%nat ->
  splice off data l !! (Z.to_nat off + i)%nat = data !! i.
Proof.
  unfold zlen, splice. intros.
  rewrite lookup_app_r by (rewrite length_take; lia).
  rewrite length_take, lookup_app_l; [f_equal|]; lia.
Qed.

Lemma lookup_splice_out off data l (i : nat) :
  0 <= off -> off + zlen data <= zlen l ->
  Z.of_nat i < off \/ off + zlen data <= Z.of_nat i ->
  splice off data l !! i = l !! i.
Proof.
  unfold zlen, splice. intros ? ? [?|?].
  - rewrite lookup_app_l by (rewrite length_take; lia).
    now rewrite lookup_take_lt by lia.
  - rewrite lookup_app_r by (rewrite length_take; lia).
    rewrite length_take, lookup_app_r by lia.
    rewrite lookup_drop. f_equal. lia.
Qed.

Lemma slice_splice_same off data l :
  0 <= off -> off + zlen data <= zlen l ->
  slice off (zlen data) (splice off data l) = data.
Proof.
  intros. apply list_eq. intros i.
  destruct (decide (i < length data)%nat).
  - rewrite lookup_slice by (unfold zlen; lia).
    now rewrite lookup_splice_in.
  - rewrite !(proj2 (lookup_ge_None _ _)); [easy | lia |].
    unfold slice, zlen. rewrite length_take. lia.
Qed.

Lemma slice_splice_disjoint off len data off' l :
  0 <= off -> off + zlen data <= zlen l -> 0 <= off' -> 0 <= len ->
  off' + len <= off \/ off + zlen data <= off' ->
  slice off' len (splice off data l) = slice off' len l.
Proof.
  intros. apply list_eq. intros i.
  destruct (decide (Z.of_nat i < len)).
  - rewrite !lookup_slice by lia. apply lookup_splice_out; lia.
  - unfold slice.
    rewrite !(proj2 (lookup_ge_None _ _)); rewrite ?length_take; lia || easy.
Qed.

(** A second store replaces the first. *)
Lemma splice_splice off d d' (l : list Z) :
  0 <= off -> off + zlen d <= zlen l -> length d = length d' ->
  splice off d' (splice off d l) = splice off d' l.
Proof.
  intros H1 H2 Hl. unfold splice, zlen in *. rewrite <- Hl.
  rewrite take_app_le by (rewrite length_take; lia). rewrite take_take, Nat.min_id.
  f_equal. f_equal. rewrite drop_app_ge by (rewrite length_take; lia).
  rewrite drop_app_ge by (rewrite length_take; lia). rewrite drop_drop. f_equal.
  rewrite length_take. lia.
Qed.

Lemma splice_nil off l : 0 <= off -> splice off [] l = l.
Proof.
  intros. unfold splice. cbn. rewrite Nat.add_0_r. apply take_drop.
Qed.

Lemma splice_app off d1 d2 l :
  0 <= off -> off + zlen d1 + zlen d2 <= zlen l ->
  splice (off + zlen d1) d2 (splice off d1 l) = splice off (d1 ++ d2) l.
Proof.
  intros Hoff Hlen. pose proof (zlen_app d1 d2) as Happ.
  assert (zlen (splice off d1 l) = zlen l) as Hs
    by (apply zlen_splice; unfold zlen in *; lia).
  apply list_eq. intros i. unfold zlen in *.
  destruct (decide (off <= Z.of_nat i < off + Z.of_nat (length d1)))
    as [Hin|Hout].
  - rewrite lookup_splice_out by (unfold zlen; lia).
    replace i with (Z.to_nat off + (i - Z.to_nat off))%nat by lia.
    rewrite !lookup_splice_in by (unfold zlen; lia).
    now rewrite lookup_app_l by lia.
  - destruct (decide (off + Z.of_nat (length d1) <= Z.of_nat i
        < off + Z.of_nat (length d1) + Z.of_nat (length d2))) as [Hin2|].
    + replace i with (Z.to_nat off + (i - Z.to_nat off))%nat at 2 by lia.
      rewrite lookup_splice_in by (unfold zlen; lia).
      rewrite lookup_app_r by lia.
      replace i with (Z.to_nat (off + Z.of_nat (length d1))
        + (i - Z.to_nat off - length d1))%nat at 1 by lia.
      now rewrite lookup_splice_in by (unfold zlen; lia).
    + now rewrite !lookup_splice_out by (unfold zlen; lia).
Qed.

Lemma bytes_app l1 l2 : bytes (l1 ++ l2) <-> bytes l1 /\ bytes l2.
Proof. apply Forall_app. Qed.

Lemma bytes_slice off len l : bytes l -> bytes (slice off len l).
Proof. intros. apply Forall_take, Forall_drop. assumption. Qed.

Lemma bytes_splice off data l :
  bytes data -> bytes l -> bytes (splice off data l).
Proof.
  intros. unfold splice. apply Forall_app. split; [now apply Forall_take|].
  apply Forall_app. split; [assumption | now apply Forall_drop].
Qed.
End buffers.

#[export] Hint Resolve bytes_slice bytes_splice : acs.

(** ** Width lemmas *)

Lemma pow2_8 : 2 ^ 8 = 256. Proof. reflexivity. Qed.

Section widths.
Implicit Types x : Z.

Lemma u8_range x : in_width 8 (u8 x).
Proof. apply Z.mod_pos_bound. reflexivity. Qed.
Lemma u16_range x : in_width 16 (u16 x).
Proof. apply Z.mod_pos_bound. reflexivity. Qed.
Lemma u32_range x : in_width 32 (u32 x).
Proof. apply Z.mod_pos_bound. reflexivity. Qed.
Lemma u64_range x : in_width 64 (u64 x).
Proof. apply Z.mod_pos_bound. reflexivity. Qed.

Lemma u16_small x : in_width 16 x -> u16 x = x.
Proof. apply Z.mod_small. Qed.
Lemma u32_small x : in_width 32 x -> u32 x = x.
Proof. apply Z.mod_small. Qed.
Lemma u64_small x : in_width 64 x -> u64 x = x.
Proof. apply Z.mod_small. Qed.

Lemma in_width_mono w w' x : 0 <= w <= w' -> in_width w x -> in_width w' x.
Proof.
  unfold in_width. intros. pose proof (Z.pow_le_mono_r 2 w w'). lia.
Qed.

Lemma in_width_lor w x y :
  0 <= w -> in_width w x -> in_width w y -> in_width w (Z.lor x y).
Proof.
  unfold in_width. intros Hw [Hx0 Hx] [Hy0 Hy].
  assert (0 <= Z.lor x y) by (apply Z.lor_nonneg; lia).
  split; [assumption|].
  destruct (decide (Z.lor x y = 0)) as [->|]; [lia|].
  apply Z.log2_lt_pow2; [lia|]. rewrite Z.log2_lor by lia.
  destruct (decide (w = 0)) as [->|].
  { assert (x = 0 /\ y = 0) as [-> ->] by lia. easy. }
  apply Z.max_lub_lt.
  - destruct (decide (x = 0)) as [->|]; [cbn; lia|].
    apply Z.log2_lt_pow2; lia.
  - destruct (decide (y = 0)) as [->|]; [cbn; lia|].
    apply Z.log2_lt_pow2; lia.
Qed.

Lemma land_in_width w x y : 0 <= w -> in_width w x -> in_width w (Z.land x y).
Proof.
  unfold in_width. intros Hw Hx.
  assert (0 <= Z.land x y) by (apply Z.land_nonneg; lia).
  split; [assumption|].
  rewrite <- (Z.mod_small x (2 ^ w)), <- Z.land_ones by lia.
  rewrite <- Z.land_assoc, (Z.land_comm (Z.ones w)), Z.land_assoc.
  rewrite Z.land_ones by lia. apply Z.mod_pos_bound. lia.
Qed.

(** Disjoint bit fields: [low | (high << n)] is a sum. *)
Lemma lor_shiftl_add n low high :
  0 <= n -> in_width n low ->
  Z.lor low (Z.shiftl high n) = low + high * 2 ^ n.
Proof.
  intros Hn Hlow. rewrite <- Z.shiftl_mul_pow2 by lia. symmetry.
  apply Z.add_nocarry_lor. apply Z.bits_inj'. intros i Hi.
  rewrite Z.land_spec, Z.bits_0, Z.shiftl_spec by lia.
  destruct (decide (i < n)).
  - rewrite (Z.testbit_neg_r high) by lia. apply andb_false_r.
  - rewrite <- (Z.mod_small low (2 ^ n)) by apply Hlow.
    rewrite Z.mod_pow2_bits_high by lia. reflexivity.
Qed.

Lemma land_ff x : Z.land x 255 = x mod 256.
Proof. apply (Z.land_ones x 8). lia. Qed.
End widths.

#[export] Hint Resolve u8_range u16_range u32_range u64_range : acs.

(** ** Abstract guest memory

    A partial map from physical addresses to bytes; the interface between the
    drivers and the fabrics is stated on it. Equality is pointwise. *)

Definition mem : Type := Z -> option Z.

Definition mem_eq (m1 m2 : mem) : Prop := forall a, m1 a = m2 a.
Infix "≡m" := mem_eq (at level 70).

#[global] Instance mem_eq_equiv : Equivalence mem_eq.
Proof.
  split; unfold mem_eq; [easy | easy | intros x y z Hxy Hyz a; congruence].
Qed.

(** [m] with [data] stored from address [a] on. *)
Definition mem_write (m : mem) (a : Z) (data : list Z) : mem := fun x =>
  if (a <=? x) && (x <? a + zlen data) then data !! Z.to_nat (x - a) else m x.

(** [data] is stored at [a]. *)
Definition mem_at (m : mem) (a : Z) (data : list Z) : Prop :=
  forall i b, data !! i = Some b -> m (a + Z.of_nat i) = Some b.

(** Every address of the range is backed by memory. *)
Definition mapped (m : mem) (a len : Z) : Prop :=
  forall x, a <= x < a + len -> is_Some (m x).

Definition disjoint_ranges (a la b lb : Z) : Prop :=
  a + la <= b \/ b + lb <= a.

Section memory.
Implicit Types m : mem.

#[global] Instance mem_write_proper :
  Proper (mem_eq ==> eq ==> eq ==> mem_eq) mem_write.
Proof.
  intros m1 m2 Hm a ? <- d ? <- x. unfold mem_write.
  destruct (_ && _); [reflexivity | apply Hm].
Qed.

#[global] Instance mem_at_proper :
  Proper (mem_eq ==> eq ==> eq ==> iff) mem_at.
Proof.
  intros m1 m2 Hm a ? <- d ? <-. unfold mem_at.
  split; intros H i b E; specialize (H i b E); specialize (Hm (a + Z.of_nat i));
    congruence.
Qed.

#[global] Instance mapped_proper :
  Proper (mem_eq ==> eq ==> eq ==> iff) mapped.
Proof.
  intros m1 m2 Hm a ? <- d ? <-. unfold mapped.
  split; intros H x Hx; specialize (H x Hx); [rewrite <- Hm|rewrite Hm];
    assumption.
Qed.

Lemma mem_write_in m a data x :
  a <= x < a + zlen data -> mem_write m a data x = data !! Z.to_nat (x - a).
Proof.
  unfold mem_write. intros.
  now rewrite (proj2 (Z.leb_le _ _)), (proj2 (Z.ltb_lt _ _)) by lia.
Qed.

Lemma mem_write_out m a data x :
  x < a \/ a + zlen data <= x -> mem_write m a data x = m x.
Proof.
  unfold mem_write. intros.
  destruct (a <=? x) eqn:E1; [|easy].
  destruct (x <? a + zlen data) eqn:E2; [|easy]. lia.
Qed.

Lemma mem_at_write_same m a data : mem_at (mem_write m a data) a data.
Proof.
  intros i b E. pose proof (lookup_lt_Some _ _ _ E).
  rewrite mem_write_in by (unfold zlen; lia).
  now replace (Z.to_nat (a + Z.of_nat i - a)) with i by lia.
Qed.

Lemma mem_at_write_disjoint m a data a' data' :
  disjoint_ranges a (zlen data) a' (zlen data') ->
  mem_at m a' data' -> mem_at (mem_write m a data) a' data'.
Proof.
  unfold disjoint_ranges, zlen. intros D H i b E.
  pose proof (lookup_lt_Some _ _ _ E).
  rewrite mem_write_out by (unfold zlen; lia). now apply H.
Qed.

Lemma mem_at_mapped m a data : mem_at m a data -> mapped m a (zlen data).
Proof.
  unfold zlen. intros H x Hx.
  destruct (lookup_lt_is_Some_2 data (Z.to_nat (x - a))) as [b E]; [lia|].
  specialize (H _ _ E). rewrite Z2Nat.id in H by lia.
  replace (a + (x - a)) with x in H by lia. eauto.
Qed.

Lemma mapped_write m a data a' len :
  mapped m a' len -> mapped (mem_write m a data) a' len.
Proof.
  intros H x Hx. unfold mem_write.
  destruct ((a <=? x) && (x <? a + zlen data)) eqn:E; [|auto].
  apply lookup_lt_is_Some_2. unfold zlen in *. lia.
Qed.

Lemma mapped_sub m a len a' len' :
  mapped m a len -> a <= a' -> a' + len' <= a + len -> mapped m a' len'.
Proof. intros H ? ? x Hx. apply H. lia. Qed.

Lemma mem_at_app m a d1 d2 :
  mem_at m a (d1 ++ d2) <-> mem_at m a d1 /\ mem_at m (a + zlen d1) d2.
Proof.
  unfold zlen. split.
  - intros H. split; intros i b E.
    + apply H. now apply lookup_app_l_Some.
    + rewrite <- (H (length d1 + i)%nat b); [f_equal; lia|].
      rewrite lookup_app_r by lia. now replace (_ - _)%nat with i by lia.
  - intros [H1 H2] i b [E|[Hle E]]%lookup_app_Some; [now apply H1|].
    rewrite <- (H2 _ _ E). f_equal. lia.
Qed.

Lemma mem_at_inj m a d1 d2 :
  length d1 = length d2 -> mem_at m a d1 -> mem_at m a d2 -> d1 = d2.
Proof.
  intros Hl H1 H2. apply list_eq_same_length with (length d1); auto.
  intros i x y _ E1 E2. specialize (H1 _ _ E1). specialize (H2 _ _ E2).
  congruence.
Qed.

(** The bytes of a range, when all of it is backed. *)
Definition load_range (m : mem) (a : Z) (len : nat) : option (list Z) :=
  mapM (fun i => m (a + Z.of_nat i)) (seq 0 len).

Lemma load_range_mapped m a len : mapped m a (Z.of_nat len) ->
  exists data, load_range m a len = Some data /\ length data = len /\ mem_at m a data.
Proof.
  intros Hm. unfold load_range.
  assert (forall n k, (k + n <= len)%nat -> exists data,
    mapM (fun i => m (a + Z.of_nat i)) (seq k n) = Some data /\ length data = n /\
    forall j x, data !! j = Some x -> m (a + Z.of_nat (k + j)) = Some x) as Hgen.
  { induction n as [|n IH]; intros k Hk; [now exists []|].
    destruct (Hm (a + Z.of_nat k)) as [x Ex]; [lia|].
    destruct (IH (S k)) as (data & E & El & Hd); [lia|].
    exists (x :: data). cbn. rewrite Ex. cbn. rewrite E. cbn.
    split; [reflexivity|]. split; [lia|]. intros [|j] y Hj.
    - injection Hj as <-. now rewrite Nat.add_0_r.
    - specialize (Hd j y Hj). now replace (k + S j)%nat with (S k + j)%nat by lia. }
  destruct (Hgen len 0%nat) as (data & E & El & Hd); [lia|].
  exists data. split; [assumption|]. split; [assumption|]. exact Hd.
Qed.

Lemma load_range_at m a data : mem_at m a data ->
  load_range m a (length data) = Some data.
Proof.
  intros Hm. destruct (load_range_mapped m a (length data)) as (d & -> & Hl & Hd).
  { fold (zlen data). now apply mem_at_mapped. }
  f_equal. now apply (mem_at_inj m a).
Qed.

Lemma load_range_length m a len data : load_range m a len = Some data -> length data = len.
Proof.
  intros E. apply mapM_Some_1, Forall2_length in E. now rewrite length_seq in E.
Qed.
End memory.
