(* ===== verification/Endian.v ===== *)
(** * Little-endian byte order helpers

    The inline helpers of [src/virtio.h]. A pointer to an encoded value is the
    list of the bytes it points to; a store returns the bytes it writes. The
    reference semantics is stdpp's [little_endian_to_Z] and
    [Z_to_little_endian] on 8-bit digits. *)

From S2P Require Import Prelude.

#[local] Open Scope Z_scope.

Definition virtio_load_le16 (p : list Z) : Z :=
  Z.lor (p !!! 0%nat) (Z.shiftl (p !!! 1%nat) 8).

Definition virtio_load_le32 (p : list Z) : Z :=
  Z.lor (Z.lor (Z.lor (p !!! 0%nat) (Z.shiftl (p !!! 1%nat) 8))
               (Z.shiftl (p !!! 2%nat) 16))
        (Z.shiftl (p !!! 3%nat) 24).

Definition virtio_load_le64 (p : list Z) : Z :=
  Z.lor (virtio_load_le32 p) (Z.shiftl (virtio_load_le32 (drop 4 p)) 32).

Definition virtio_store_le16 (v : Z) : list Z :=
  [Z.land v 0xff; Z.land (Z.shiftr v 8) 0xff].

Definition virtio_store_le32 (v : Z) : list Z :=
  [Z.land v 0xff; Z.land (Z.shiftr v 8) 0xff; Z.land (Z.shiftr v 16) 0xff;
   Z.land (Z.shiftr v 24) 0xff].

Definition virtio_store_le64 (v : Z) : list Z :=
  virtio_store_le32 (u32 v) ++ virtio_store_le32 (u32 (Z.shiftr v 32)).

(** ** Helper lemmas *)

Section endian.
Implicit Types (v : Z) (p : list Z).

(** The four bytes of a 32-bit value as a positional sum. *)
Lemma load_le16_sum b0 b1 r :
  is_byte b0 -> virtio_load_le16 (b0 :: b1 :: r) = b0 + b1 * 2 ^ 8.
Proof.
  intros. unfold virtio_load_le16. cbn. now apply lor_shiftl_add.
Qed.

Lemma load_le32_sum b0 b1 b2 b3 r :
  is_byte b0 -> is_byte b1 -> is_byte b2 ->
  virtio_load_le32 (b0 :: b1 :: b2 :: b3 :: r)
  = b0 + b1 * 2 ^ 8 + b2 * 2 ^ 16 + b3 * 2 ^ 24.
Proof.
  unfold is_byte. intros. unfold virtio_load_le32. cbn -[Z.shiftl Z.pow].
  rewrite (lor_shiftl_add 8) by (unfold in_width; lia).
  rewrite (lor_shiftl_add 16) by (unfold in_width; lia).
  rewrite (lor_shiftl_add 24) by (unfold in_width; lia). reflexivity.
Qed.

Lemma store_le16_digits v :
  virtio_store_le16 v = [v mod 256; v / 2 ^ 8 mod 256].
Proof.
  unfold virtio_store_le16. now rewrite !land_ff, !Z.shiftr_div_pow2 by lia.
Qed.

Lemma store_le32_digits v :
  virtio_store_le32 v =
  [v mod 256; v / 2 ^ 8 mod 256; v / 2 ^ 16 mod 256; v / 2 ^ 24 mod 256].
Proof.
  unfold virtio_store_le32. now rewrite !land_ff, !Z.shiftr_div_pow2 by lia.
Qed.

Lemma length_store_le16 v : length (virtio_store_le16 v) = 2%nat.
Proof. reflexivity. Qed.
Lemma length_store_le32 v : length (virtio_store_le32 v) = 4%nat.
Proof. reflexivity. Qed.
Lemma length_store_le64 v : length (virtio_store_le64 v) = 8%nat.
Proof. reflexivity. Qed.

Lemma bytes_store_le16 v : bytes (virtio_store_le16 v).
Proof.
  rewrite store_le16_digits. unfold bytes.
  repeat constructor; apply Z.mod_pos_bound; lia.
Qed.
Lemma bytes_store_le32 v : bytes (virtio_store_le32 v).
Proof.
  rewrite store_le32_digits. unfold bytes.
  repeat constructor; apply Z.mod_pos_bound; lia.
Qed.
Lemma bytes_store_le64 v : bytes (virtio_store_le64 v).
Proof. apply bytes_app. split; apply bytes_store_le32. Qed.

Lemma load_store_le16 v r :
  virtio_load_le16 (virtio_store_le16 v ++ r) = u16 v.
Proof.
  rewrite store_le16_digits. cbn [app].
  rewrite load_le16_sum by (apply Z.mod_pos_bound; lia).
  unfold u16. Z.div_mod_to_equations. lia.
Qed.

Lemma load_store_le32 v r :
  virtio_load_le32 (virtio_store_le32 v ++ r) = u32 v.
Proof.
  rewrite store_le32_digits. cbn [app].
  rewrite load_le32_sum by (apply Z.mod_pos_bound; lia).
  unfold u32. Z.div_mod_to_equations. lia.
Qed.

Lemma drop_store_le32 v r : drop 4 (virtio_store_le32 v ++ r) = r.
Proof. reflexivity. Qed.

Lemma load_store_le64 v r :
  virtio_load_le64 (virtio_store_le64 v ++ r) = u64 v.
Proof.
  unfold virtio_load_le64, virtio_store_le64.
  rewrite <- app_assoc, load_store_le32.
  rewrite drop_store_le32, load_store_le32, lor_shiftl_add by (lia || apply u32_range).
  rewrite Z.shiftr_div_pow2 by lia. unfold u32, u64.
  Z.div_mod_to_equations. lia.
Qed.

Lemma load_le16_range p : bytes p -> (2 <= length p)%nat ->
  in_width 16 (virtio_load_le16 p).
Proof.
  destruct p as [|b0 [|b1 r]]; cbn [length]; try lia.
  unfold bytes. rewrite !Forall_cons_iff. intros (H0 & H1 & _) _.
  rewrite load_le16_sum by assumption. unfold in_width, is_byte in *. lia.
Qed.

Lemma load_le32_range p : bytes p -> (4 <= length p)%nat ->
  in_width 32 (virtio_load_le32 p).
Proof.
  destruct p as [|b0 [|b1 [|b2 [|b3 r]]]]; cbn [length]; try lia.
  unfold bytes. rewrite !Forall_cons_iff. intros (H0 & H1 & H2 & H3 & _) _.
  rewrite load_le32_sum by assumption. unfold in_width, is_byte in *. lia.
Qed.

Lemma load_le64_range p : bytes p -> (8 <= length p)%nat ->
  in_width 64 (virtio_load_le64 p).
Proof.
  intros Hb Hl. pose proof (load_le32_range p Hb ltac:(lia)) as H0.
  assert (in_width 32 (virtio_load_le32 (drop 4 p))) as H1.
  { apply load_le32_range; [now apply Forall_drop|].
    rewrite length_drop. lia. }
  unfold virtio_load_le64. rewrite lor_shiftl_add by (lia || assumption).
  unfold in_width in *. lia.
Qed.

(** Decoding is injective: encoding the decoded value gives the bytes
    back. *)
Lemma store_load_le32 p : bytes p -> (4 <= length p)%nat ->
  virtio_store_le32 (virtio_load_le32 p) = take 4 p.
Proof.
  destruct p as [|b0 [|b1 [|b2 [|b3 r]]]]; cbn [length]; try lia.
  unfold bytes. rewrite !Forall_cons_iff. intros (H0 & H1 & H2 & H3 & _) _.
  rewrite load_le32_sum, store_le32_digits by assumption.
  unfold is_byte in *. cbn [take].
  repeat f_equal; Z.div_mod_to_equations; lia.
Qed.

Lemma store_load_le16 p : bytes p -> (2 <= length p)%nat ->
  virtio_store_le16 (virtio_load_le16 p) = take 2 p.
Proof.
  destruct p as [|b0 [|b1 r]]; cbn [length]; try lia.
  unfold bytes. rewrite !Forall_cons_iff. intros (H0 & H1 & _) _.
  rewrite load_le16_sum, store_le16_digits by assumption.
  unfold is_byte in *. cbn [take].
  repeat f_equal; Z.div_mod_to_equations; lia.
Qed.

Lemma store_load_le64 p : bytes p -> (8 <= length p)%nat ->
  virtio_store_le64 (virtio_load_le64 p) = take 8 p.
Proof.
  intros Hb Hl. pose proof (load_le32_range p Hb ltac:(lia)) as H0.
  assert (bytes (drop 4 p)) as Hb' by now apply Forall_drop.
  assert (4 <= length (drop 4 p))%nat as Hl' by (rewrite length_drop; lia).
  pose proof (load_le32_range _ Hb' Hl') as H1.
  unfold virtio_store_le64, virtio_load_le64.
  rewrite lor_shiftl_add by (lia || assumption).
  rewrite Z.shiftr_div_pow2 by lia.
  set (x := virtio_load_le32 p) in *.
  set (y := virtio_load_le32 (drop 4 p)) in *.
  assert (u32 (x + y * 2 ^ 32) = x) as ->.
  { unfold u32, in_width in *. Z.div_mod_to_equations. lia. }
  assert (u32 ((x + y * 2 ^ 32) / 2 ^ 32) = y) as ->.
  { unfold u32, in_width in *. Z.div_mod_to_equations. lia. }
  unfold x, y. rewrite !store_load_le32 by (assumption || lia).
  apply (take_take_drop p 4 4).
Qed.

(** The stores agree with the reference digit expansion. *)
Lemma store_le32_reference v :
  virtio_store_le32 v = Z_to_little_endian 4 8 v.
Proof.
  rewrite store_le32_digits. change 4 with (Z.succ (Z.succ (Z.succ (Z.succ 0)))).
  rewrite !Z_to_little_endian_succ by lia.
  rewrite !Z.land_ones, !Z.shiftr_shiftr, !Z.shiftr_div_pow2 by lia.
  reflexivity.
Qed.

(** Truncating first does not change the low digits. *)
Lemma store_le32_trunc v : virtio_store_le32 (u32 v) = virtio_store_le32 v.
Proof.
  rewrite !store_le32_digits. unfold u32.
  repeat apply (f_equal2 cons); try reflexivity;
    Z.div_mod_to_equations; lia.
Qed.

Lemma store_le64_reference v :
  virtio_store_le64 v = Z_to_little_endian 8 8 v.
Proof.
  unfold virtio_store_le64. rewrite !store_le32_trunc, !store_le32_digits.
  change (Z_to_little_endian 8 8 v) with (Z_to_little_endian (Z.succ (Z.succ
    (Z.succ (Z.succ (Z.succ (Z.succ (Z.succ (Z.succ 0)))))))) 8 v).
  rewrite !Z_to_little_endian_succ by lia.
  rewrite !Z.land_ones, !Z.shiftr_shiftr, !Z.shiftr_div_pow2 by lia.
  now rewrite !Z.div_div by lia.
Qed.
End endian.

#[export] Hint Resolve bytes_store_le16 bytes_store_le32 bytes_store_le64
  load_le16_range load_le32_range load_le64_range : acs.

Lemma zlen_store_le16 v : zlen (virtio_store_le16 v) = 2.
Proof. reflexivity. Qed.
Lemma zlen_store_le32 v : zlen (virtio_store_le32 v) = 4.
Proof. reflexivity. Qed.
Lemma zlen_store_le64 v : zlen (virtio_store_le64 v) = 8.
Proof. reflexivity. Qed.

(** Side conditions on widths and buffer lengths. *)
Ltac width :=
  rewrite ?zlen_store_le16, ?zlen_store_le32, ?zlen_store_le64;
  unfold in_width in *; lia.

(** ** Bytes of a value *)

Definition digit (x : Z) (i : Z) : Z := Z.land (Z.shiftr x (8 * i)) 0xff.

Section digits.
Lemma digit_mod x i s : 0 <= i -> 0 <= s ->
  digit (x mod 2 ^ (8 * s)) i = if i <? s then digit x i else 0.
Proof.
  intros Hi Hs. unfold digit. apply Z.bits_inj'. intros n Hn.
  change 0xff with (Z.ones 8). rewrite Z.land_spec, Z.shiftr_spec, Z.testbit_ones_nonneg by lia.
  rewrite Z.testbit_mod_pow2 by lia.
  destruct (Z.ltb_spec i s).
  - rewrite Z.land_spec, Z.shiftr_spec, Z.testbit_ones_nonneg by lia.
    destruct (Z.ltb_spec n 8); [|now rewrite !andb_false_r].
    rewrite (proj2 (Z.ltb_lt (n + 8 * i) _)) by lia. now cbn [andb].
  - rewrite Z.bits_0. destruct (Z.ltb_spec n 8); [|apply andb_false_r].
    rewrite (proj2 (Z.ltb_ge (n + 8 * i) _)) by lia. reflexivity.
Qed.

Lemma store_le32_bytes v : virtio_store_le32 v = map (digit v) [0; 1; 2; 3].
Proof. unfold virtio_store_le32, digit. cbn [map]. now rewrite Z.shiftr_0_r. Qed.

Lemma store_le64_bytes v : virtio_store_le64 v = map (digit v) [0; 1; 2; 3; 4; 5; 6; 7].
Proof.
  unfold virtio_store_le64. rewrite !store_le32_bytes.
  assert (forall x i, 0 <= i < 4 -> digit (u32 x) i = digit x i) as Hu.
  { intros x i Hi. unfold u32. change (2 ^ 32) with (2 ^ (8 * 4)).
    rewrite digit_mod by lia. now rewrite (proj2 (Z.ltb_lt _ _)) by lia. }
  assert (forall i, 0 <= i -> digit (Z.shiftr v 32) i = digit v (4 + i)) as Hs.
  { intros i Hi. unfold digit. rewrite Z.shiftr_shiftr by lia. do 2 f_equal. lia. }
  cbn [map app]. rewrite !Hu, !Hs by lia. reflexivity.
Qed.

(** A value of [size] bytes, padded with zeros. *)
Lemma load_padded size v : 0 <= size <= 8 ->
  virtio_load_le64 (take (Z.to_nat size) (virtio_store_le64 v)
                    ++ replicate (8 - Z.to_nat size) 0) = u64 v mod 2 ^ (8 * size).
Proof.
  intros Hs. set (w := u64 v mod 2 ^ (8 * size)).
  assert (in_width 64 w) as Hw.
  { pose proof (u64_range v). pose proof (Z.mod_le (u64 v) (2 ^ (8 * size))).
    pose proof (Z.mod_pos_bound (u64 v) (2 ^ (8 * size))). unfold in_width in *. lia. }
  replace (take _ _ ++ _) with (virtio_store_le64 w ++ []).
  { rewrite load_store_le64. now apply u64_small. }
  rewrite app_nil_r, !store_le64_bytes. unfold w, u64. change (2 ^ 64) with (2 ^ (8 * 8)).
  assert (size = 0 \/ size = 1 \/ size = 2 \/ size = 3 \/ size = 4 \/ size = 5 \/ size = 6
          \/ size = 7 \/ size = 8) as Hcase by lia.
  cbn [map]. rewrite !digit_mod by lia.
  repeat destruct Hcase as [->|Hcase]; try subst size; reflexivity.
Qed.
End digits.
