(* ===== verification/Fabric.v ===== *)
(** * The backend fabric interface

    [src/fabrics/fabric.h]: the API the virtio core and the drivers are written
    against, one implementation of which is linked into a daemon. [Fabric] is
    the table of its data-path entry points over the state [F] of a fabric;
    [FabricSafe] and [RamFabric] are what a fabric promises to its clients.
    The registration functions, identical in the three implementations, are
    modelled here too. *)

From stdpp Require Export strings.
From S2P Require Import Prelude Endian.

#[local] Open Scope Z_scope.
#[local] Open Scope c_scope.

(** ** Devices and registration *)

Definition FABRIC_MAX_DEVICES : Z := 8.

(** Device callbacks. [D] is the driver-owned state behind [opaque], [F] the
    fabric state reached through [struct fabric_io]; a null function pointer is
    [None]. *)
Record fabric_device_ops (F D : Type) : Type := {
  op_connect : option (D -> D);
  op_read : option (D -> Z -> Z -> Z);
  op_write : option (Z -> Z -> Z -> M (F * D) bool);
}.
Arguments op_connect {F D} _.
Arguments op_read {F D} _.
Arguments op_write {F D} _.

Record fabric_device (F D : Type) : Type := {
  fd_name : string;
  fd_socket_path : string;
  fd_addr : Z;
  fd_size : Z;
  fd_ops : option (fabric_device_ops F D);
}.
Arguments fd_name {F D} _.
Arguments fd_socket_path {F D} _.
Arguments fd_addr {F D} _.
Arguments fd_size {F D} _.
Arguments fd_ops {F D} _.

(** [devices[0 .. device_count - 1]]: the populated prefix of the array. *)
Record fabric (F D : Type) : Type := {
  fb_devices : list (fabric_device F D);
  fb_device_count : Z;
}.
Arguments fb_devices {F D} _.
Arguments fb_device_count {F D} _.
Arguments Build_fabric {F D} _ _.

(** [fabric_init] leaves the array contents alone and clears the count. *)
Definition fabric_init {F D} (bus : fabric F D) : fabric F D :=
  {| fb_devices := fb_devices bus; fb_device_count := 0 |}.

Definition fabric_register {F D} (bus : fabric F D) (device : fabric_device F D)
  : bool * fabric F D :=
  if (FABRIC_MAX_DEVICES <=? fb_device_count bus)
     || match fd_ops device with
        | None => true
        | Some ops =>
            match op_read ops, op_write ops with
            | Some _, Some _ => false
            | _, _ => true
            end
        end
  then (false, bus)
  else
    (true,
     {| fb_devices := take (Z.to_nat (fb_device_count bus)) (fb_devices bus)
                      ++ device :: drop (S (Z.to_nat (fb_device_count bus)))
                                        (fb_devices bus);
        fb_device_count := u32 (fb_device_count bus + 1) |}).

(** ** Data path *)

(** A pointer into guest memory handed out by [fabric_dma_map]. *)
Inductive dma_ptr : Type :=
| DmaNull
| DmaAt (off : Z).

(** The entry points used by the drivers. The [len] argument of
    [fabric_dma_write] is the length of its data. [fabric_ptr_store] is a store
    through a mapped pointer, [fabric_usleep] the passing of time, during which
    the guest may run. *)
Class Fabric (F : Type) : Type := {
  fabric_dma_read : Z -> Z -> M F (option (list Z));
  fabric_dma_read_into : Z -> Z -> M F (option (list Z));
  fabric_dma_map : Z -> Z -> M F (option dma_ptr);
  fabric_ptr_store : dma_ptr -> list Z -> M F unit;
  fabric_dma_read_u16 : Z -> M F (option Z);
  fabric_dma_write : Z -> list Z -> M F bool;
  fabric_raise_irq : M F bool;
  fabric_lower_irq : M F bool;
  fabric_usleep : Z -> M F unit;
}.

(** What every fabric guarantees, whatever the guest does: the calls return,
    perform no undefined operation, keep the fabric's own invariant, deliver
    exactly the requested number of bytes, and a mapping covers the range it was
    requested for. *)
Class FabricSafe (F : Type) `{Fabric F} : Type := {
  fab_ok : F -> Prop;
  ptr_ok : F -> dma_ptr -> Z -> Prop;
  fs_read f gpa len :
    fab_ok f -> in_width 64 gpa -> in_width 32 len ->
    wp (fabric_dma_read gpa len) f (fun r f' =>
      fab_ok f' /\ forall l, r = Some l -> bytes l /\ zlen l = len);
  fs_read_into f gpa len :
    fab_ok f -> in_width 64 gpa -> in_width 32 len ->
    wp (fabric_dma_read_into gpa len) f (fun r f' =>
      fab_ok f' /\ forall l, r = Some l -> bytes l /\ zlen l = len);
  fs_read_u16 f gpa :
    fab_ok f -> in_width 64 gpa ->
    wp (fabric_dma_read_u16 gpa) f (fun r f' =>
      fab_ok f' /\ forall v, r = Some v -> in_width 16 v);
  fs_map f gpa len :
    fab_ok f -> in_width 64 gpa -> in_width 32 len ->
    wp (fabric_dma_map gpa len) f (fun r f' =>
      fab_ok f' /\ forall p, r = Some p -> ptr_ok f' p len);
  fs_store f p len data :
    fab_ok f -> ptr_ok f p len -> zlen data <= len -> bytes data ->
    wp (fabric_ptr_store p data) f (fun _ f' => fab_ok f');
  fs_write f gpa data :
    fab_ok f -> in_width 64 gpa -> in_width 32 (zlen data) -> bytes data ->
    wp (fabric_dma_write gpa data) f (fun _ f' => fab_ok f');
  fs_raise f : fab_ok f -> wp fabric_raise_irq f (fun _ f' => fab_ok f');
  fs_lower f : fab_ok f -> wp fabric_lower_irq f (fun _ f' => fab_ok f');
  fs_usleep f us : fab_ok f -> wp (fabric_usleep us) f (fun _ f' => fab_ok f');
}.

(** A range that does not run past the end of the 64-bit address space. *)
Definition addr_range (a len : Z) : Prop := 0 <= a /\ 0 <= len /\ a + len <= 2 ^ 64.

(** The memory contract: while the guest is quiescent, a fabric is a byte
    memory. [ram_ok f] says that the fabric is in such a state, [peek f] is the guest
    memory behind it. Every access inside mapped memory succeeds, reads return the
    stored bytes, writes change exactly the bytes written, interrupt requests and
    the passing of time leave memory alone, and the fabric stays in such a state. *)
Class RamFabric (F : Type) `{Fabric F} : Type := {
  ram_ok : F -> Prop;
  peek : F -> mem;
  ram_read f gpa data :
    ram_ok f -> in_width 64 gpa -> addr_range gpa (zlen data) ->
    in_width 32 (zlen data) -> mem_at (peek f) gpa data ->
    wp (fabric_dma_read gpa (zlen data)) f (fun r f' =>
      r = Some data /\ peek f' ≡m peek f /\ ram_ok f');
  ram_read_into f gpa data :
    ram_ok f -> in_width 64 gpa -> addr_range gpa (zlen data) ->
    in_width 32 (zlen data) -> mem_at (peek f) gpa data ->
    wp (fabric_dma_read_into gpa (zlen data)) f (fun r f' =>
      r = Some data /\ peek f' ≡m peek f /\ ram_ok f');
  ram_read_u16 f gpa b0 b1 :
    ram_ok f -> in_width 64 gpa -> addr_range gpa 2 -> mem_at (peek f) gpa [b0; b1] ->
    wp (fabric_dma_read_u16 gpa) f (fun r f' =>
      r = Some (Z.lor b0 (Z.shiftl b1 8)) /\ peek f' ≡m peek f /\ ram_ok f');
  ram_map f gpa len :
    ram_ok f -> in_width 64 gpa -> addr_range gpa len -> in_width 32 len ->
    wp (fabric_dma_map gpa len) f (fun r f' =>
      peek f' ≡m peek f /\ ram_ok f' /\
      forall p, r = Some p ->
        forall data, zlen data <= len -> bytes data ->
          wp (fabric_ptr_store p data) f' (fun _ f3 =>
            peek f3 ≡m mem_write (peek f') gpa data /\ ram_ok f3));
  ram_write f gpa data :
    ram_ok f -> in_width 64 gpa -> addr_range gpa (zlen data) ->
    in_width 32 (zlen data) -> bytes data -> mapped (peek f) gpa (zlen data) ->
    wp (fabric_dma_write gpa data) f (fun b f' =>
      b = true /\ peek f' ≡m mem_write (peek f) gpa data /\ ram_ok f');
  ram_raise f : ram_ok f ->
    wp fabric_raise_irq f (fun b f' => b = true /\ peek f' ≡m peek f /\ ram_ok f');
  ram_lower f : ram_ok f ->
    wp fabric_lower_irq f (fun b f' => b = true /\ peek f' ≡m peek f /\ ram_ok f');
  ram_usleep f us : ram_ok f ->
    wp (fabric_usleep us) f (fun _ f' => peek f' ≡m peek f /\ ram_ok f');
}.

(** ** Properties of the registry *)

Section registry.
Context {F D : Type}.

(** The registered devices: the first [device_count] slots. *)
Definition registered (bus : fabric F D) : list (fabric_device F D) :=
  take (Z.to_nat (fb_device_count bus)) (fb_devices bus).

Definition fabric_wf (bus : fabric F D) : Prop :=
  length (fb_devices bus) = 8%nat /\ 0 <= fb_device_count bus <= 8.

Definition callable (device : fabric_device F D) : Prop :=
  exists ops r w, fd_ops device = Some ops /\ op_read ops = Some r /\
                  op_write ops = Some w.

Lemma fabric_init_empty bus : registered (fabric_init bus) = [].
Proof. reflexivity. Qed.

Lemma fabric_register_accept bus device :
  fabric_wf bus -> fb_device_count bus < 8 -> callable device ->
  exists bus', fabric_register bus device = (true, bus') /\
    fabric_wf bus' /\ registered bus' = registered bus ++ [device].
Proof.
  intros [Hl Hc] Hlt (ops & r & w & E & Er & Ew).
  unfold fabric_register, FABRIC_MAX_DEVICES. rewrite E, Er, Ew.
  destruct (8 <=? fb_device_count bus) eqn:E8; [lia|]. cbn [orb].
  eexists. split; [reflexivity|].
  assert (u32 (fb_device_count bus + 1) = fb_device_count bus + 1) as Hu
    by (apply u32_small; unfold in_width; lia).
  unfold fabric_wf, registered. cbn [fb_devices fb_device_count]. rewrite Hu.
  repeat split; try lia.
  - rewrite length_app. cbn [length]. rewrite length_take, length_drop. lia.
  - rewrite Z2Nat.inj_add by lia. cbn [Z.to_nat Pos.to_nat].
    change (Pos.to_nat 1) with 1%nat.
    rewrite take_app_ge by (rewrite length_take; lia).
    f_equal. rewrite length_take, Nat.min_l by lia.
    now replace (_ + 1 - _)%nat with 1%nat by lia.
Qed.

Lemma fabric_register_reject bus device :
  (8 <= fb_device_count bus \/ ~ callable device) <->
  fabric_register bus device = (false, bus).
Proof.
  unfold fabric_register, FABRIC_MAX_DEVICES, callable.
  destruct (8 <=? fb_device_count bus) eqn:E8; cbn [orb].
  { split; [reflexivity | intros _; left; lia]. }
  destruct (fd_ops device) as [ops|]; [destruct (op_read ops) as [r|] eqn:Er;
    [destruct (op_write ops) as [w|] eqn:Ew|]|].
  - split; [intros [?|Hn]; [lia | destruct Hn; eauto 8] | congruence].
  - split; [reflexivity | intros _; right; intros (?&?&?&?&?&?); congruence].
  - split; [reflexivity | intros _; right; intros (?&?&?&?&?&?); congruence].
  - split; [reflexivity | intros _; right; intros (?&?&?&?&?&?); congruence].
Qed.
End registry.

(** ** Accesses given by a length or a value *)

Section ram.
Context {F : Type} `{RamFabric F}.

Lemma dma_read_into_ram f gpa data len :
  ram_ok f -> addr_range gpa len -> in_width 32 len -> zlen data = len ->
  in_width 64 gpa -> mem_at (peek f) gpa data ->
  wp (fabric_dma_read_into gpa len) f (fun r f' =>
    r = Some data /\ peek f' ≡m peek f /\ ram_ok f').
Proof. intros Hok Ha Hl <- Hg Hm. now apply ram_read_into. Qed.

Lemma dma_read_ram f gpa data len :
  ram_ok f -> addr_range gpa len -> in_width 32 len -> zlen data = len ->
  in_width 64 gpa -> mem_at (peek f) gpa data ->
  wp (fabric_dma_read gpa len) f (fun r f' =>
    r = Some data /\ peek f' ≡m peek f /\ ram_ok f').
Proof. intros Hok Ha Hl <- Hg Hm. now apply ram_read. Qed.

Lemma dma_read_u16_ram f gpa v :
  ram_ok f -> addr_range gpa 2 -> in_width 64 gpa -> in_width 16 v ->
  mem_at (peek f) gpa (virtio_store_le16 v) ->
  wp (fabric_dma_read_u16 gpa) f (fun r f' =>
    r = Some v /\ peek f' ≡m peek f /\ ram_ok f').
Proof.
  intros Hok Ha Hg Hv Hm. eapply wpx_mono.
  { apply (ram_read_u16 f gpa (Z.land v 0xff) (Z.land (Z.shiftr v 8) 0xff));
      assumption. }
  cbn. intros r f' (-> & Hp). split; [|exact Hp]. f_equal.
  transitivity (u16 v); [apply (load_store_le16 v []) | now apply u16_small].
Qed.

Lemma dma_write_ram f gpa data :
  ram_ok f -> addr_range gpa (zlen data) -> in_width 32 (zlen data) ->
  in_width 64 gpa -> bytes data -> mapped (peek f) gpa (zlen data) ->
  wp (fabric_dma_write gpa data) f (fun b f' =>
    b = true /\ peek f' ≡m mem_write (peek f) gpa data /\ ram_ok f').
Proof. intros. now apply ram_write. Qed.
End ram.
