(* ===== verification/Virtio.v ===== *)
(** * Transport-independent virtio core

    [src/virtio.h] and [src/virtio.c]: device and queue state, reset, and the
    split-ring helpers over the fabric's DMA entry points. *)

From S2P Require Import Prelude Endian Fabric.

#[local] Open Scope Z_scope.
#[local] Open Scope c_scope.

Definition VIRTIO_VENDOR_ID_LOCAL : Z := 0x43484950.
Definition VIRTIO_INTERRUPT_VRING : Z := 1.

(** Descriptor flags of [linux/virtio_ring.h]. *)
Definition VRING_DESC_F_NEXT : Z := 1.
Definition VRING_DESC_F_WRITE : Z := 2.

Record virtio_queue : Type := {
  q_num : Z;             (* uint32_t *)
  q_ready : Z;           (* uint32_t *)
  q_desc : Z;            (* uint64_t *)
  q_avail : Z;           (* uint64_t *)
  q_used : Z;            (* uint64_t *)
  q_last_avail_idx : Z;  (* uint16_t *)
}.

Record virtio_desc : Type := {
  d_addr : Z;   (* uint64_t *)
  d_len : Z;    (* uint32_t *)
  d_flags : Z;  (* uint16_t *)
  d_next : Z;   (* uint16_t *)
}.

(** The operation table. [D] is the state behind [opaque]. The queue
    notification callback works on the whole device and is bound statically by
    the drivers. *)
Record virtio_device_ops (D : Type) : Type := {
  vo_get_features : option (D -> Z);
  vo_get_config : option (D -> Z -> Z -> Z);
  vo_reset : option (D -> D);
}.
Arguments vo_get_features {D} _.
Arguments vo_get_config {D} _.
Arguments vo_reset {D} _.

(** [v_queues] is the driver-owned array [queues] points to: the drivers and
    the transport share this storage. *)
Record virtio_device (D : Type) : Type := {
  v_device_id : Z;
  v_vendor_id : Z;
  v_queue_count : Z;
  v_queue_size : Z;
  v_queues : list virtio_queue;
  v_driver_features : Z;
  v_status : Z;
  v_interrupt_status : Z;
  v_config_generation : Z;
  v_opaque : D;
  v_ops : option (virtio_device_ops D);
}.
Arguments v_device_id {D} _.
Arguments v_vendor_id {D} _.
Arguments v_queue_count {D} _.
Arguments v_queue_size {D} _.
Arguments v_queues {D} _.
Arguments v_driver_features {D} _.
Arguments v_status {D} _.
Arguments v_interrupt_status {D} _.
Arguments v_config_generation {D} _.
Arguments v_opaque {D} _.
Arguments v_ops {D} _.

#[global] Instance virtio_queue_eq_dec : EqDecision virtio_queue.
Proof. solve_decision. Defined.
#[global] Instance virtio_desc_eq_dec : EqDecision virtio_desc.
Proof. solve_decision. Defined.
#[global] Instance virtio_queue_inhabited : Inhabited virtio_queue :=
  populate {| q_num := 0; q_ready := 0; q_desc := 0; q_avail := 0; q_used := 0;
              q_last_avail_idx := 0 |}.

(** ** Reset and initialization *)

(** The body of the reset loop for one queue. *)
Definition queue_reset (queue_size : Z) (_ : virtio_queue) : virtio_queue :=
  {| q_num := queue_size; q_ready := 0; q_desc := 0; q_avail := 0; q_used := 0;
     q_last_avail_idx := 0 |}.

(** [for (i = 0; i < queue_count; i++)] over the queue array. *)
Definition reset_queues (queue_count queue_size : Z) (qs : list virtio_queue)
  : list virtio_queue :=
  fold_left (fun qs i => alter (queue_reset queue_size) i qs)
            (seq 0 (Z.to_nat queue_count)) qs.

Definition virtio_device_reset {D} (dev : virtio_device D) : virtio_device D :=
  {| v_device_id := v_device_id dev;
     v_vendor_id := v_vendor_id dev;
     v_queue_count := v_queue_count dev;
     v_queue_size := v_queue_size dev;
     v_queues := reset_queues (v_queue_count dev) (v_queue_size dev) (v_queues dev);
     v_driver_features := 0;
     v_status := 0;
     v_interrupt_status := 0;
     v_config_generation := 0;
     v_opaque := match v_ops dev with
                 | Some ops => match vo_reset ops with
                               | Some reset => reset (v_opaque dev)
                               | None => v_opaque dev
                               end
                 | None => v_opaque dev
                 end;
     v_ops := v_ops dev |}.

(** The fields not assigned here before the reset keep what [dev] held. *)
Definition virtio_device_init {D} (dev : virtio_device D)
    (device_id vendor_id queue_count queue_size : Z)
    (queues : list virtio_queue) (opaque : D)
    (ops : option (virtio_device_ops D)) : virtio_device D :=
  virtio_device_reset
    {| v_device_id := device_id;
       v_vendor_id := vendor_id;
       v_queue_count := queue_count;
       v_queue_size := queue_size;
       v_queues := queues;
       v_driver_features := v_driver_features dev;
       v_status := v_status dev;
       v_interrupt_status := v_interrupt_status dev;
       v_config_generation := v_config_generation dev;
       v_opaque := opaque;
       v_ops := ops |}.

(** ** Split-ring helpers *)

Section ring.
Context {F : Type} `{Fabric F}.

Definition decode_desc (data : list Z) : virtio_desc :=
  {| d_addr := virtio_load_le64 data;
     d_len := virtio_load_le32 (drop 8 data);
     d_flags := virtio_load_le16 (drop 12 data);
     d_next := virtio_load_le16 (drop 14 data) |}.

Definition virtio_read_desc (queue : virtio_queue) (index : Z)
  : M F (option virtio_desc) :=
  data ←? fabric_dma_read_into (u64 (q_desc queue + index * 16)) 16;
  ret (Some (decode_desc data)).

Definition virtio_add_used (queue : virtio_queue) (head len : Z) : M F bool :=
  used_idx ←? fabric_dma_read_u16 (u64 (q_used queue + 2));
  if u16 (q_num queue) =? 0 then undefined else
  let elem :=
    u64 (q_used queue + 4 + (used_idx mod u16 (q_num queue)) * 8) in
  check fabric_dma_write elem (virtio_store_le32 head);
  check fabric_dma_write (u64 (elem + 4)) (virtio_store_le32 len);
  fabric_dma_write (u64 (q_used queue + 2))
                   (virtio_store_le16 (u16 (used_idx + 1))).

(** [None]: DMA failure. [Some None]: nothing available. [Some (Some head)]:
    [*available = true] with [*head = head]. *)
Definition virtio_next_avail (queue : virtio_queue)
  : M F (option (option Z)) :=
  avail_idx ←? fabric_dma_read_u16 (u64 (q_avail queue + 2));
  if q_last_avail_idx queue =? avail_idx then ret (Some None) else
  if u16 (q_num queue) =? 0 then undefined else
  let ring_off := 4 + (q_last_avail_idx queue mod u16 (q_num queue)) * 2 in
  head ←? fabric_dma_read_u16 (u64 (q_avail queue + ring_off));
  ret (Some (Some head)).
End ring.

(** ** Well-formedness *)

Record queue_wf (q : virtio_queue) : Prop := {
  qw_num : in_width 32 (q_num q);
  qw_ready : in_width 32 (q_ready q);
  qw_desc : in_width 64 (q_desc q);
  qw_avail : in_width 64 (q_avail q);
  qw_used : in_width 64 (q_used q);
  qw_last : in_width 16 (q_last_avail_idx q);
}.

Record desc_wf (d : virtio_desc) : Prop := {
  dw_addr : in_width 64 (d_addr d);
  dw_len : in_width 32 (d_len d);
  dw_flags : in_width 16 (d_flags d);
  dw_next : in_width 16 (d_next d);
}.

Record device_wf {D} (dev : virtio_device D) : Prop := {
  vw_device_id : in_width 32 (v_device_id dev);
  vw_vendor_id : in_width 32 (v_vendor_id dev);
  vw_queue_count : in_width 32 (v_queue_count dev);
  vw_queue_size : in_width 32 (v_queue_size dev);
  vw_queues : Forall queue_wf (v_queues dev);
  vw_length : Z.of_nat (length (v_queues dev)) = v_queue_count dev;
  vw_features : in_width 64 (v_driver_features dev);
  vw_status : in_width 32 (v_status dev);
  vw_interrupt : in_width 32 (v_interrupt_status dev);
  vw_generation : in_width 32 (v_config_generation dev);
}.

(** The state of a queue after a device reset. *)
Definition fresh_queue (queue_size : Z) : virtio_queue :=
  {| q_num := queue_size; q_ready := 0; q_desc := 0; q_avail := 0; q_used := 0;
     q_last_avail_idx := 0 |}.

(** The guest's encoding of a descriptor-table entry. *)
Definition encode_desc (d : virtio_desc) : list Z :=
  virtio_store_le64 (d_addr d) ++ virtio_store_le32 (d_len d)
  ++ virtio_store_le16 (d_flags d) ++ virtio_store_le16 (d_next d).

Section reset_facts.
Lemma fold_alter_seq {A} (g : A -> A) (l : list A) (pre : list A) :
  fold_left (fun qs i => alter g i qs) (seq (length pre) (length l)) (pre ++ l)
  = pre ++ (g <$> l).
Proof.
  revert pre. induction l as [|x l IH]; intros pre; [reflexivity|].
  cbn [length seq fold_left].
  replace (alter g (length pre) (pre ++ x :: l)) with ((pre ++ [g x]) ++ l).
  - specialize (IH (pre ++ [g x])). rewrite length_app in IH. cbn in IH.
    rewrite Nat.add_1_r in IH. rewrite IH. now rewrite <- app_assoc.
  - rewrite <- (Nat.add_0_r (length pre)), alter_app_r.
    now rewrite <- app_assoc.
Qed.

Lemma reset_queues_fresh (count size : Z) qs :
  Z.of_nat (length qs) = count ->
  reset_queues count size qs = replicate (length qs) (fresh_queue size).
Proof.
  intros <-. unfold reset_queues. rewrite Nat2Z.id.
  etransitivity; [apply (fold_alter_seq (queue_reset size) qs [])|]. cbn [app].
  induction qs as [|q qs IH]; [reflexivity|]. cbn. now f_equal.
Qed.

Lemma fresh_queue_wf size : in_width 32 size -> queue_wf (fresh_queue size).
Proof. intros. split; cbn; unfold in_width in *; lia. Qed.

Lemma device_reset_wf {D} (dev : virtio_device D) :
  device_wf dev -> device_wf (virtio_device_reset dev).
Proof.
  intros Hw. destruct Hw.
  split; cbn; try assumption; try (unfold in_width; lia).
  - rewrite reset_queues_fresh by assumption.
    apply Forall_replicate, fresh_queue_wf. assumption.
  - rewrite reset_queues_fresh by assumption. now rewrite length_replicate.
Qed.
End reset_facts.

Section ring_facts.
Lemma decode_encode_desc d r :
  desc_wf d -> decode_desc (encode_desc d ++ r) = d.
Proof.
  intros [Ha Hl Hf Hn]. destruct d as [a l f n]. cbn [d_addr d_len d_flags d_next] in *.
  unfold encode_desc, decode_desc. cbn [d_addr d_len d_flags d_next].
  rewrite <- !app_assoc. f_equal.
  - rewrite load_store_le64. now apply u64_small.
  - etransitivity; [apply (load_store_le32 l) | now apply u32_small].
  - etransitivity; [apply (load_store_le16 f) | now apply u16_small].
  - etransitivity; [apply (load_store_le16 n) | now apply u16_small].
Qed.

Lemma decode_desc_wf data : bytes data -> length data = 16%nat ->
  desc_wf (decode_desc data).
Proof.
  intros Hb Hl.
  split; cbn; [apply load_le64_range | apply load_le32_range
    | apply load_le16_range | apply load_le16_range];
    rewrite ?length_drop; try lia; try assumption; now apply Forall_drop.
Qed.

Lemma zlen_encode_desc d : zlen (encode_desc d) = 16.
Proof. reflexivity. Qed.

Context {F : Type} `{FabricSafe F}.

Lemma virtio_read_desc_safe q index f : fab_ok f ->
  wp (virtio_read_desc q index) f (fun r f' =>
    fab_ok f' /\ forall d, r = Some d -> desc_wf d).
Proof.
  intros Hok. unfold virtio_read_desc. wpsimpl.
  wpuse fs_read_into; [assumption | apply u64_range | width |].
  intros [data|] f1 [Hok1 Hr]; wpsimpl; (split; [assumption|]); [|easy].
  intros d [= <-]. destruct (Hr data eq_refl) as [Hb Hl].
  apply decode_desc_wf; [assumption|]. unfold zlen in Hl. lia.
Qed.

Lemma virtio_add_used_safe q head len f :
  fab_ok f -> u16 (q_num q) <> 0 ->
  wp (virtio_add_used q head len) f (fun _ f' => fab_ok f').
Proof.
  intros Hok Hn. unfold virtio_add_used. wpsimpl.
  wpuse fs_read_u16; [assumption | apply u64_range |].
  intros [idx|] f1 [Hok1 _]; [|assumption].
  rewrite (proj2 (Z.eqb_neq _ _) Hn). wpsimpl.
  wpuse fs_write; try eassumption; [apply u64_range | width | auto with acs |].
  intros [] f2 Hok2; [|assumption]. wpsimpl.
  wpuse fs_write; try eassumption; [apply u64_range | width | auto with acs |].
  intros [] f3 Hok3; [|assumption].
  apply fs_write; try assumption; [apply u64_range | width | auto with acs].
Qed.

Lemma virtio_next_avail_safe q f :
  fab_ok f -> u16 (q_num q) <> 0 ->
  wp (virtio_next_avail q) f (fun r f' =>
    fab_ok f' /\ forall h, r = Some (Some h) -> in_width 16 h).
Proof.
  intros Hok Hn. unfold virtio_next_avail. wpsimpl.
  wpuse fs_read_u16; [assumption | apply u64_range |].
  intros [idx|] f1 [Hok1 _]; [|easy].
  rewrite (proj2 (Z.eqb_neq _ _) Hn). wpsimpl.
  destruct (q_last_avail_idx q =? idx); wpsimpl; [easy|].
  wpuse fs_read_u16; [assumption | apply u64_range |].
  intros [h|] f2 [Hok2 Hh]; wpsimpl; (split; [assumption|]); [|easy].
  intros ? [= <-]. now apply Hh.
Qed.
End ring_facts.

(** ** The rings in quiescent memory *)

(** Number of ring slots as the code computes it: [(uint16_t)queue->num]. *)
Definition ring_size (q : virtio_queue) : Z := u16 (q_num q).

Definition used_slot (q : virtio_queue) (idx : Z) : Z :=
  q_used q + 4 + idx mod ring_size q * 8.

Definition avail_slot (q : virtio_queue) (idx : Z) : Z :=
  q_avail q + 4 + idx mod ring_size q * 2.

Definition desc_slot (q : virtio_queue) (index : Z) : Z :=
  q_desc q + index * 16.

(** The used ring after publishing element [(head, len)] when the index field
    held [idx]. *)
Definition used_push (m : mem) (q : virtio_queue) (idx head len : Z) : mem :=
  mem_write
    (mem_write (mem_write m (used_slot q idx) (virtio_store_le32 head))
               (used_slot q idx + 4) (virtio_store_le32 len))
    (q_used q + 2) (virtio_store_le16 (u16 (idx + 1))).

(** The rings lie inside the address space and the used ring is backed by
    memory; a queue has at least one slot. *)
Record rings_ok (m : mem) (q : virtio_queue) : Prop := {
  ro_size : 0 < ring_size q;
  ro_avail : addr_range (q_avail q) (4 + ring_size q * 2);
  ro_used : addr_range (q_used q) (4 + ring_size q * 8);
  ro_mapped : mapped m (q_used q) (4 + ring_size q * 8);
}.

Section ring_memory.
Context {F : Type} `{RamFabric F}.

Lemma rings_ok_proper m1 m2 q : m1 ≡m m2 -> rings_ok m1 q -> rings_ok m2 q.
Proof. intros E [? ? ? Hm]. split; try assumption. now rewrite <- E. Qed.

Lemma rings_ok_write m q a data :
  rings_ok m q -> rings_ok (mem_write m a data) q.
Proof. intros [? ? ? ?]. split; try assumption. now apply mapped_write. Qed.

Lemma slot_bounds q idx : 0 < ring_size q -> 0 <= idx mod ring_size q < ring_size q.
Proof. intros. now apply Z.mod_pos_bound. Qed.

Lemma virtio_read_desc_ram q index d f :
  ram_ok f -> desc_wf d -> addr_range (desc_slot q index) 16 ->
  mem_at (peek f) (desc_slot q index) (encode_desc d) ->
  wp (virtio_read_desc q index) f (fun r f' =>
    r = Some d /\ peek f' ≡m peek f /\ ram_ok f').
Proof.
  unfold desc_slot, addr_range. intros Hok Hd Ha Hm.
  unfold virtio_read_desc. wpsimpl.
  rewrite u64_small by width.
  wpuse (dma_read_into_ram f (q_desc q + index * 16) (encode_desc d));
    unfold addr_range; try width; try reflexivity; try assumption.
  intros ? ? (-> & Hp & Hok'). wpsimpl. split; [|tauto].
  pose proof (decode_encode_desc d [] Hd) as E. rewrite app_nil_r in E.
  congruence.
Qed.

Lemma virtio_next_avail_empty q f :
  ram_ok f -> rings_ok (peek f) q -> in_width 16 (q_last_avail_idx q) ->
  mem_at (peek f) (q_avail q + 2) (virtio_store_le16 (q_last_avail_idx q)) ->
  wp (virtio_next_avail q) f (fun r f' =>
    r = Some None /\ peek f' ≡m peek f /\ ram_ok f').
Proof.
  intros Hok [Hs Ha Hu Hmap] Hl Hm. unfold addr_range in *.
  unfold virtio_next_avail. wpsimpl. rewrite u64_small by width.
  wpuse (dma_read_u16_ram _ _ (q_last_avail_idx q)); unfold addr_range; try eassumption; try width.
  intros ? ? (-> & Hp & Hok'). rewrite Z.eqb_refl. wpsimpl. tauto.
Qed.

Lemma virtio_next_avail_ram q avail_idx head f :
  ram_ok f -> rings_ok (peek f) q -> in_width 16 avail_idx ->
  in_width 16 head -> q_last_avail_idx q <> avail_idx ->
  mem_at (peek f) (q_avail q + 2) (virtio_store_le16 avail_idx) ->
  mem_at (peek f) (avail_slot q (q_last_avail_idx q)) (virtio_store_le16 head) ->
  wp (virtio_next_avail q) f (fun r f' =>
    r = Some (Some head) /\ peek f' ≡m peek f /\ ram_ok f').
Proof.
  intros Hok [Hs Ha Hu Hmap] Hi Hh Hne Hm Hslot.
  pose proof (slot_bounds q (q_last_avail_idx q) Hs) as Hb.
  unfold addr_range, avail_slot, ring_size in *.
  unfold virtio_next_avail. wpsimpl. rewrite u64_small by width.
  wpuse (dma_read_u16_ram _ _ avail_idx); unfold addr_range; try eassumption; try width.
  intros ? ? (-> & Hp & Hok').
  rewrite (proj2 (Z.eqb_neq _ _) Hne).
  destruct (u16 (q_num q) =? 0) eqn:E0; [lia|]. wpsimpl.
  rewrite Z.add_assoc, u64_small by width.
  wpuse (dma_read_u16_ram _ _ head); unfold addr_range; try eassumption; try width.
  - now rewrite Hp.
  - intros ? ? (-> & Hp2 & Hok2). wpsimpl. rewrite Hp2. tauto.
Qed.

Lemma virtio_add_used_ram q idx head len f :
  ram_ok f -> rings_ok (peek f) q -> in_width 16 idx ->
  mem_at (peek f) (q_used q + 2) (virtio_store_le16 idx) ->
  wp (virtio_add_used q head len) f (fun b f' =>
    b = true /\ peek f' ≡m used_push (peek f) q idx head len /\ ram_ok f').
Proof.
  intros Hok [Hs Ha Hu Hmap] Hi Hm.
  pose proof (slot_bounds q idx Hs) as Hb.
  unfold addr_range, used_push, used_slot, ring_size in *.
  unfold virtio_add_used. wpsimpl. rewrite (u64_small (q_used q + 2)) by width.
  wpuse (dma_read_u16_ram _ _ idx); unfold addr_range; try eassumption; try width.
  intros ? ? (-> & Hp & Hok').
  destruct (u16 (q_num q) =? 0) eqn:E0; [lia|]. wpsimpl.
  rewrite (u64_small (q_used q + 4 + _)) by width.
  wpuse dma_write_ram; unfold addr_range; try eassumption; try width;
    auto with acs.
  { rewrite Hp. eapply mapped_sub; [eassumption | lia | width]. }
  intros ? ? (-> & Hp1 & Hok1). rewrite u64_small by width. wpsimpl.
  wpuse dma_write_ram; unfold addr_range; try eassumption; try width;
    auto with acs.
  { rewrite Hp1, Hp. apply mapped_write.
    eapply mapped_sub; [eassumption | lia | width]. }
  intros ? ? (-> & Hp2 & Hok2). cbn iota.
  wpuse dma_write_ram; unfold addr_range; try eassumption; try width;
    auto with acs.
  { rewrite Hp2, Hp1, Hp. do 2 apply mapped_write.
    eapply mapped_sub; [eassumption | lia | width]. }
  intros ? ? (-> & Hp3 & Hok3). now rewrite Hp3, Hp2, Hp1, Hp.
Qed.
End ring_memory.
