(* ===== verification/VirtioMmio.v ===== *)
(** * virtio-mmio transport register model

    [src/virtio-mmio.h] and [src/virtio-mmio.c]: register reads and writes of
    the version 2 transport over a [virtio_device]. *)

From S2P Require Import Prelude Endian Fabric Virtio.

#[local] Open Scope Z_scope.
#[local] Open Scope c_scope.

Definition VIRTIO_MMIO_MAGIC_NUMBER : Z := 0x74726976.
Definition VIRTIO_MMIO_VERSION_2 : Z := 2.

(** Register offsets of [linux/virtio_mmio.h]. *)
Definition VIRTIO_MMIO_MAGIC_VALUE : Z := 0x000.
Definition VIRTIO_MMIO_VERSION : Z := 0x004.
Definition VIRTIO_MMIO_DEVICE_ID : Z := 0x008.
Definition VIRTIO_MMIO_VENDOR_ID : Z := 0x00c.
Definition VIRTIO_MMIO_DEVICE_FEATURES : Z := 0x010.
Definition VIRTIO_MMIO_DEVICE_FEATURES_SEL : Z := 0x014.
Definition VIRTIO_MMIO_DRIVER_FEATURES : Z := 0x020.
Definition VIRTIO_MMIO_DRIVER_FEATURES_SEL : Z := 0x024.
Definition VIRTIO_MMIO_QUEUE_SEL : Z := 0x030.
Definition VIRTIO_MMIO_QUEUE_NUM_MAX : Z := 0x034.
Definition VIRTIO_MMIO_QUEUE_NUM : Z := 0x038.
Definition VIRTIO_MMIO_QUEUE_READY : Z := 0x044.
Definition VIRTIO_MMIO_QUEUE_NOTIFY : Z := 0x050.
Definition VIRTIO_MMIO_INTERRUPT_STATUS : Z := 0x060.
Definition VIRTIO_MMIO_INTERRUPT_ACK : Z := 0x064.
Definition VIRTIO_MMIO_STATUS : Z := 0x070.
Definition VIRTIO_MMIO_QUEUE_DESC_LOW : Z := 0x080.
Definition VIRTIO_MMIO_QUEUE_DESC_HIGH : Z := 0x084.
Definition VIRTIO_MMIO_QUEUE_AVAIL_LOW : Z := 0x090.
Definition VIRTIO_MMIO_QUEUE_AVAIL_HIGH : Z := 0x094.
Definition VIRTIO_MMIO_QUEUE_USED_LOW : Z := 0x0a0.
Definition VIRTIO_MMIO_QUEUE_USED_HIGH : Z := 0x0a4.
Definition VIRTIO_MMIO_CONFIG_GENERATION : Z := 0x0fc.
Definition VIRTIO_MMIO_CONFIG : Z := 0x100.
Definition VIRTIO_MMIO_INT_VRING : Z := 1.

(** The transport state together with the device [vdev] points to. *)
Record virtio_mmio (D : Type) : Type := {
  m_vdev : virtio_device D;
  m_device_features_sel : Z;
  m_driver_features_sel : Z;
  m_queue_sel : Z;
}.
Arguments m_vdev {D} _.
Arguments m_device_features_sel {D} _.
Arguments m_driver_features_sel {D} _.
Arguments m_queue_sel {D} _.

(** ** Field updates *)

Section updates.
Context {D : Type}.
Implicit Types (m : virtio_mmio D) (v : virtio_device D).

Definition set_vdev (v : virtio_device D) m : virtio_mmio D :=
  {| m_vdev := v; m_device_features_sel := m_device_features_sel m;
     m_driver_features_sel := m_driver_features_sel m;
     m_queue_sel := m_queue_sel m |}.
Definition set_device_features_sel (x : Z) m : virtio_mmio D :=
  {| m_vdev := m_vdev m; m_device_features_sel := x;
     m_driver_features_sel := m_driver_features_sel m;
     m_queue_sel := m_queue_sel m |}.
Definition set_driver_features_sel (x : Z) m : virtio_mmio D :=
  {| m_vdev := m_vdev m; m_device_features_sel := m_device_features_sel m;
     m_driver_features_sel := x; m_queue_sel := m_queue_sel m |}.
Definition set_queue_sel (x : Z) m : virtio_mmio D :=
  {| m_vdev := m_vdev m; m_device_features_sel := m_device_features_sel m;
     m_driver_features_sel := m_driver_features_sel m; m_queue_sel := x |}.

(** The mutable fields of a device, all at once. *)
Definition set_dev (qs : list virtio_queue) (features status irq : Z) v
  : virtio_device D :=
  {| v_device_id := v_device_id v; v_vendor_id := v_vendor_id v;
     v_queue_count := v_queue_count v; v_queue_size := v_queue_size v;
     v_queues := qs; v_driver_features := features; v_status := status;
     v_interrupt_status := irq; v_config_generation := v_config_generation v;
     v_opaque := v_opaque v; v_ops := v_ops v |}.
Definition set_queues (qs : list virtio_queue) v :=
  set_dev qs (v_driver_features v) (v_status v) (v_interrupt_status v) v.
Definition set_features (x : Z) v :=
  set_dev (v_queues v) x (v_status v) (v_interrupt_status v) v.
Definition set_status (x : Z) v :=
  set_dev (v_queues v) (v_driver_features v) x (v_interrupt_status v) v.
Definition set_interrupt (x : Z) v :=
  set_dev (v_queues v) (v_driver_features v) (v_status v) x v.
End updates.

Definition set_num (x : Z) (q : virtio_queue) : virtio_queue :=
  {| q_num := x; q_ready := q_ready q; q_desc := q_desc q; q_avail := q_avail q;
     q_used := q_used q; q_last_avail_idx := q_last_avail_idx q |}.
Definition set_ready (x : Z) (q : virtio_queue) : virtio_queue :=
  {| q_num := q_num q; q_ready := x; q_desc := q_desc q; q_avail := q_avail q;
     q_used := q_used q; q_last_avail_idx := q_last_avail_idx q |}.
Definition set_desc (x : Z) (q : virtio_queue) : virtio_queue :=
  {| q_num := q_num q; q_ready := q_ready q; q_desc := x; q_avail := q_avail q;
     q_used := q_used q; q_last_avail_idx := q_last_avail_idx q |}.
Definition set_avail (x : Z) (q : virtio_queue) : virtio_queue :=
  {| q_num := q_num q; q_ready := q_ready q; q_desc := q_desc q; q_avail := x;
     q_used := q_used q; q_last_avail_idx := q_last_avail_idx q |}.
Definition set_used (x : Z) (q : virtio_queue) : virtio_queue :=
  {| q_num := q_num q; q_ready := q_ready q; q_desc := q_desc q;
     q_avail := q_avail q; q_used := x;
     q_last_avail_idx := q_last_avail_idx q |}.

(** ** Operations *)

Definition mask_read (value len : Z) : Z :=
  if len =? 1 then Z.land value 0xff
  else if len =? 2 then Z.land value 0xffff
  else if len =? 4 then Z.land value 0xffffffff
  else value.

(** [x & ~0xffffffffull | value] and [x & 0xffffffffull | (uint64_t)value << 32]. *)
Definition set_low (x value : Z) : Z :=
  Z.lor (Z.land x 0xffffffff00000000) value.
Definition set_high (x value : Z) : Z :=
  Z.lor (Z.land x 0xffffffff) (u64 (Z.shiftl value 32)).

Section operations.
Context {D : Type}.
Implicit Types mmio : virtio_mmio D.

Definition virtio_mmio_reset mmio : virtio_mmio D :=
  {| m_vdev := virtio_device_reset (m_vdev mmio);
     m_device_features_sel := 0;
     m_driver_features_sel := 0;
     m_queue_sel := 0 |}.

Definition virtio_mmio_init (vdev : virtio_device D) : virtio_mmio D :=
  virtio_mmio_reset
    {| m_vdev := vdev; m_device_features_sel := 0;
       m_driver_features_sel := 0; m_queue_sel := 0 |}.

(** [virtio_mmio_queue] and [virtio_mmio_queue_const]: the queue designated
    by an index, or the null pointer. *)
Definition virtio_mmio_queue mmio (queue_index : Z) : option virtio_queue :=
  if v_queue_count (m_vdev mmio) <=? queue_index then None
  else v_queues (m_vdev mmio) !! Z.to_nat queue_index.

(** A store through the pointer [virtio_mmio_queue(mmio, mmio->queue_sel)],
    skipped when it is null. *)
Definition update_selected (f : virtio_queue -> virtio_queue) mmio
  : virtio_mmio D :=
  if v_queue_count (m_vdev mmio) <=? m_queue_sel mmio then mmio
  else set_vdev (set_queues (alter f (Z.to_nat (m_queue_sel mmio))
                                   (v_queues (m_vdev mmio))) (m_vdev mmio))
                mmio.

Definition device_features (vdev : virtio_device D) : Z :=
  match v_ops vdev with
  | Some ops => match vo_get_features ops with
                | Some f => f (v_opaque vdev)
                | None => 0
                end
  | None => 0
  end.

Definition config_read (vdev : virtio_device D) (offset len : Z) : Z :=
  if VIRTIO_MMIO_CONFIG <=? offset then
    match v_ops vdev with
    | Some ops => match vo_get_config ops with
                  | Some f => f (v_opaque vdev) (offset - VIRTIO_MMIO_CONFIG) len
                  | None => 0
                  end
    | None => 0
    end
  else 0.

(** The [switch] of [virtio_mmio_read], before masking. *)
Definition register_value mmio (offset len : Z) : Z :=
  let vdev := m_vdev mmio in
  let queue := virtio_mmio_queue mmio (m_queue_sel mmio) in
  if offset =? VIRTIO_MMIO_MAGIC_VALUE then VIRTIO_MMIO_MAGIC_NUMBER
  else if offset =? VIRTIO_MMIO_VERSION then VIRTIO_MMIO_VERSION_2
  else if offset =? VIRTIO_MMIO_DEVICE_ID then v_device_id vdev
  else if offset =? VIRTIO_MMIO_VENDOR_ID then v_vendor_id vdev
  else if offset =? VIRTIO_MMIO_DEVICE_FEATURES then
    if m_device_features_sel mmio =? 0 then u32 (device_features vdev)
    else u32 (Z.shiftr (device_features vdev) 32)
  else if offset =? VIRTIO_MMIO_DEVICE_FEATURES_SEL then
    m_device_features_sel mmio
  else if offset =? VIRTIO_MMIO_DRIVER_FEATURES then
    if m_driver_features_sel mmio =? 0 then u32 (v_driver_features vdev)
    else u32 (Z.shiftr (v_driver_features vdev) 32)
  else if offset =? VIRTIO_MMIO_DRIVER_FEATURES_SEL then
    m_driver_features_sel mmio
  else if offset =? VIRTIO_MMIO_QUEUE_SEL then m_queue_sel mmio
  else if offset =? VIRTIO_MMIO_QUEUE_NUM_MAX then
    if m_queue_sel mmio <? v_queue_count vdev then v_queue_size vdev else 0
  else if offset =? VIRTIO_MMIO_QUEUE_NUM then
    match queue with Some q => q_num q | None => 0 end
  else if offset =? VIRTIO_MMIO_QUEUE_READY then
    match queue with Some q => q_ready q | None => 0 end
  else if offset =? VIRTIO_MMIO_INTERRUPT_STATUS then v_interrupt_status vdev
  else if offset =? VIRTIO_MMIO_STATUS then v_status vdev
  else if offset =? VIRTIO_MMIO_CONFIG_GENERATION then 0
  else config_read vdev offset len.

Definition virtio_mmio_read mmio (offset len : Z) : Z :=
  mask_read (register_value mmio offset len) len.

Definition virtio_mmio_write mmio (offset raw_value : Z) : virtio_mmio D :=
  let vdev := m_vdev mmio in
  let value := u32 raw_value in
  if offset =? VIRTIO_MMIO_DEVICE_FEATURES_SEL then
    set_device_features_sel value mmio
  else if offset =? VIRTIO_MMIO_DRIVER_FEATURES then
    if m_driver_features_sel mmio =? 0 then
      set_vdev (set_features (set_low (v_driver_features vdev) value) vdev) mmio
    else if m_driver_features_sel mmio =? 1 then
      set_vdev (set_features (set_high (v_driver_features vdev) value) vdev) mmio
    else mmio
  else if offset =? VIRTIO_MMIO_DRIVER_FEATURES_SEL then
    set_driver_features_sel value mmio
  else if offset =? VIRTIO_MMIO_QUEUE_SEL then set_queue_sel value mmio
  else if offset =? VIRTIO_MMIO_QUEUE_NUM then
    update_selected (set_num value) mmio
  else if offset =? VIRTIO_MMIO_QUEUE_READY then
    update_selected (set_ready value) mmio
  else if offset =? VIRTIO_MMIO_QUEUE_DESC_LOW then
    update_selected (fun q => set_desc (set_low (q_desc q) value) q) mmio
  else if offset =? VIRTIO_MMIO_QUEUE_DESC_HIGH then
    update_selected (fun q => set_desc (set_high (q_desc q) value) q) mmio
  else if offset =? VIRTIO_MMIO_QUEUE_AVAIL_LOW then
    update_selected (fun q => set_avail (set_low (q_avail q) value) q) mmio
  else if offset =? VIRTIO_MMIO_QUEUE_AVAIL_HIGH then
    update_selected (fun q => set_avail (set_high (q_avail q) value) q) mmio
  else if offset =? VIRTIO_MMIO_QUEUE_USED_LOW then
    update_selected (fun q => set_used (set_low (q_used q) value) q) mmio
  else if offset =? VIRTIO_MMIO_QUEUE_USED_HIGH then
    update_selected (fun q => set_used (set_high (q_used q) value) q) mmio
  else if offset =? VIRTIO_MMIO_INTERRUPT_ACK then
    set_vdev (set_interrupt
      (Z.land (v_interrupt_status vdev) (u32 (Z.lnot value))) vdev) mmio
  else if offset =? VIRTIO_MMIO_STATUS then
    if value =? 0 then virtio_mmio_reset mmio
    else set_vdev (set_status value vdev) mmio
  else mmio.

Definition virtio_mmio_used_buffer mmio : virtio_mmio D :=
  let vdev := m_vdev mmio in
  set_vdev (set_interrupt
    (Z.lor (v_interrupt_status vdev) VIRTIO_MMIO_INT_VRING) vdev) mmio.
End operations.

(** ** Bit-field lemmas *)

Section halves.
Implicit Types x value : Z.

Lemma land_high_half x :
  in_width 64 x -> Z.land x 0xffffffff00000000 = x / 2 ^ 32 * 2 ^ 32.
Proof.
  intros Hx. rewrite <- Z.shiftl_mul_pow2, <- Z.shiftr_div_pow2 by lia.
  change 0xffffffff00000000 with (Z.shiftl (Z.ones 32) 32).
  apply Z.bits_inj'. intros i Hi.
  rewrite Z.land_spec, !Z.shiftl_spec by lia.
  destruct (decide (i < 32)).
  { rewrite !(Z.testbit_neg_r _ (i - 32)) by lia. apply andb_false_r. }
  rewrite Z.shiftr_spec by lia. replace (i - 32 + 32) with i by lia.
  destruct (decide (i < 64)).
  - rewrite Z.ones_spec_low by lia. apply andb_true_r.
  - rewrite <- (Z.mod_small x (2 ^ 64)) by apply Hx.
    rewrite Z.mod_pow2_bits_high by lia. reflexivity.
Qed.

Lemma set_low_value x value :
  in_width 64 x -> in_width 32 value ->
  set_low x value = value + x / 2 ^ 32 * 2 ^ 32.
Proof.
  intros. unfold set_low. rewrite land_high_half by assumption.
  rewrite <- (Z.shiftl_mul_pow2 (x / 2 ^ 32)), Z.lor_comm by lia.
  rewrite lor_shiftl_add by (lia || assumption).
  now rewrite Z.shiftl_mul_pow2 by lia.
Qed.

Lemma set_high_value x value :
  in_width 32 value -> set_high x value = x mod 2 ^ 32 + value * 2 ^ 32.
Proof.
  intros Hv. unfold set_high.
  change 0xffffffff with (Z.ones 32). rewrite (Z.land_ones x 32) by lia.
  rewrite u64_small.
  - apply lor_shiftl_add; [lia|]. apply Z.mod_pos_bound. lia.
  - rewrite Z.shiftl_mul_pow2 by lia. width.
Qed.

Lemma set_low_range x value :
  in_width 64 x -> in_width 32 value -> in_width 64 (set_low x value).
Proof.
  intros. rewrite set_low_value by assumption.
  unfold in_width in *. Z.div_mod_to_equations. lia.
Qed.

Lemma set_high_range x value :
  in_width 32 value -> in_width 64 (set_high x value).
Proof.
  intros. rewrite set_high_value by assumption.
  unfold in_width in *. Z.div_mod_to_equations. lia.
Qed.

(** The two halves of a 64-bit register are independent, in either order. *)
Lemma set_low_high x lo hi :
  in_width 64 x -> in_width 32 lo -> in_width 32 hi ->
  set_high (set_low x lo) hi = lo + hi * 2 ^ 32.
Proof.
  intros. rewrite set_high_value, set_low_value by assumption.
  unfold in_width in *. Z.div_mod_to_equations. lia.
Qed.

Lemma set_high_low x lo hi :
  in_width 32 lo -> in_width 32 hi ->
  set_low (set_high x hi) lo = lo + hi * 2 ^ 32.
Proof.
  intros. rewrite set_low_value by (assumption || now apply set_high_range).
  rewrite set_high_value by assumption.
  unfold in_width in *. Z.div_mod_to_equations. lia.
Qed.
End halves.

#[export] Hint Resolve set_low_range set_high_range : acs.

(** ** The type invariant *)

Record mmio_wf {D} (m : virtio_mmio D) : Prop := {
  mw_vdev : device_wf (m_vdev m);
  mw_device_sel : in_width 32 (m_device_features_sel m);
  mw_driver_sel : in_width 32 (m_driver_features_sel m);
  mw_queue_sel : in_width 32 (m_queue_sel m);
}.

Section wf.
Context {D : Type}.
Implicit Types m : virtio_mmio D.

Lemma update_selected_wf f m :
  (forall q, queue_wf q -> queue_wf (f q)) ->
  mmio_wf m -> mmio_wf (update_selected f m).
Proof.
  intros Hf Hw. unfold update_selected. destruct (_ <=? _); [assumption|].
  destruct Hw as [[] ? ? ?]. split; try assumption. split; try assumption.
  - cbn. now apply Forall_alter; auto.
  - cbn. now rewrite length_alter.
Qed.

Lemma mmio_reset_wf m : mmio_wf m -> mmio_wf (virtio_mmio_reset m).
Proof.
  intros [? ? ? ?]. split; [now apply device_reset_wf | | |]; cbn; width.
Qed.

Lemma mmio_init_wf (v : virtio_device D) :
  device_wf v -> mmio_wf (virtio_mmio_init v).
Proof. intros. apply mmio_reset_wf. split; cbn; [assumption | width..]. Qed.

Lemma mmio_write_wf m offset raw_value :
  mmio_wf m -> mmio_wf (virtio_mmio_write m offset raw_value).
Proof.
  intros Hw. unfold virtio_mmio_write.
  pose proof (u32_range raw_value) as Hv.
  assert (in_width 64 (u32 raw_value)) as Hv64
    by (eapply in_width_mono; [|exact Hv]; lia).
  pose proof Hw as [Hd ? ? ?]. pose proof Hd as [].
  repeat match goal with
  | |- mmio_wf (if ?b then _ else _) => destruct b
  | |- mmio_wf (update_selected _ _) =>
      apply update_selected_wf; [intros q []; split; cbn; auto with acs | assumption]
  end; try assumption; try (now apply mmio_reset_wf);
    split; try assumption; split; cbn; auto with acs.
  apply land_in_width; [lia | assumption].
Qed.

Lemma mmio_used_buffer_wf m : mmio_wf m -> mmio_wf (virtio_mmio_used_buffer m).
Proof.
  intros [[] ? ? ?]. split; try assumption. split; cbn; try assumption.
  apply in_width_lor; [lia | assumption | unfold VIRTIO_MMIO_INT_VRING; width].
Qed.
End wf.

(** The interrupt bit survives the 32-bit read of the status register. *)
Lemma vring_status (x : Z) :
  has_bit x VIRTIO_INTERRUPT_VRING = true ->
  has_bit (u32 (mask_read x 4)) VIRTIO_INTERRUPT_VRING = true.
Proof.
  unfold has_bit, u32, mask_read, VIRTIO_INTERRUPT_VRING. cbn [Z.eqb Pos.eqb].
  intros H. apply negb_true_iff, Z.eqb_neq. apply negb_true_iff, Z.eqb_neq in H. intros E. apply H.
  change 1 with (Z.ones 1) in *. rewrite !Z.land_ones in * by lia.
  change 0xffffffff with (Z.ones 32) in E. rewrite Z.land_ones in E by lia.
  rewrite Z.mod_mod in E by lia. Z.div_mod_to_equations. lia.
Qed.

(** A sequence of register writes. *)
Definition mmio_run {D} (m : virtio_mmio D) (ws : list (Z * Z)) : virtio_mmio D :=
  fold_left (fun m w => virtio_mmio_write m w.1 w.2) ws m.

Lemma mmio_run_wf {D} (m : virtio_mmio D) ws : mmio_wf m -> mmio_wf (mmio_run m ws).
Proof.
  revert m. induction ws as [|w ws IH]; intros m Hw; [assumption|].
  apply IH. now apply mmio_write_wf.
Qed.

(** ** What register writes cannot change *)

(** The identity of a device: what [virtio_device_init] fixes. *)
Definition identity {D} (m : virtio_mmio D) :=
  let v := m_vdev m in
  (v_device_id v, v_vendor_id v, v_queue_count v, v_queue_size v,
   length (v_queues v), v_opaque v, v_ops v).

Definition no_reset_hook {D} (v : virtio_device D) : Prop :=
  match v_ops v with Some ops => vo_reset ops = None | None => True end.

Section frame.
Context {D : Type}.
Implicit Types m : virtio_mmio D.

Lemma update_selected_identity f m :
  identity (update_selected f m) = identity m.
Proof.
  unfold update_selected, identity. destruct (_ <=? _); [reflexivity|].
  cbn. now rewrite length_alter.
Qed.

Lemma reset_opaque m : no_reset_hook (m_vdev m) ->
  v_opaque (m_vdev (virtio_mmio_reset m)) = v_opaque (m_vdev m).
Proof.
  unfold no_reset_hook. cbn. destruct (v_ops (m_vdev m)) as [ops|]; [|easy].
  now intros ->.
Qed.

Lemma mmio_reset_identity m :
  device_wf (m_vdev m) -> no_reset_hook (m_vdev m) ->
  identity (virtio_mmio_reset m) = identity m.
Proof.
  intros Hw Hn. pose proof (reset_opaque m Hn) as Ho. destruct Hw.
  unfold identity. rewrite Ho. cbn.
  rewrite reset_queues_fresh by assumption. now rewrite length_replicate.
Qed.

Lemma mmio_write_identity m offset raw_value :
  device_wf (m_vdev m) -> no_reset_hook (m_vdev m) ->
  identity (virtio_mmio_write m offset raw_value) = identity m.
Proof.
  intros Hw Hn. unfold virtio_mmio_write.
  repeat match goal with
  | |- identity (if ?b then _ else _) = _ => destruct b
  end; rewrite ?update_selected_identity, ?mmio_reset_identity by assumption;
    reflexivity.
Qed.

Lemma identity_no_hook m m' :
  identity m = identity m' -> no_reset_hook (m_vdev m) ->
  no_reset_hook (m_vdev m').
Proof. unfold identity, no_reset_hook. intros [= _ _ _ _ _ _ ->]. easy. Qed.

Lemma mmio_run_identity m ws :
  mmio_wf m -> no_reset_hook (m_vdev m) ->
  identity (mmio_run m ws) = identity m.
Proof.
  revert m. induction ws as [|w ws IH]; intros m Hw Hn; [reflexivity|].
  cbn [mmio_run fold_left].
  assert (identity (virtio_mmio_write m w.1 w.2) = identity m) as E
    by (apply mmio_write_identity; [apply Hw | assumption]).
  etransitivity; [|exact E]. apply IH; [now apply mmio_write_wf|].
  eapply identity_no_hook; [symmetry; exact E | assumption].
Qed.

(** A reset depends on the identity only. *)
Lemma mmio_reset_canonical m m' :
  device_wf (m_vdev m) -> device_wf (m_vdev m') ->
  no_reset_hook (m_vdev m) -> identity m = identity m' ->
  virtio_mmio_reset m = virtio_mmio_reset m'.
Proof.
  intros Hw Hw' Hn E. pose proof (identity_no_hook _ _ E Hn) as Hn'.
  pose proof (reset_opaque m Hn) as Ho. pose proof (reset_opaque m' Hn') as Ho'.
  destruct Hw, Hw'. unfold identity in E.
  injection E as E1 E2 E3 E4 E5 E6 E7.
  unfold virtio_mmio_reset in *. f_equal. cbn in Ho, Ho'.
  unfold virtio_device_reset. f_equal; try congruence.
  rewrite !reset_queues_fresh by assumption. congruence.
Qed.
End frame.

(** ** Properties of the transport *)

Section reads.
Context {D : Type}.
Implicit Types m : virtio_mmio D.

Lemma read4_register m offset x :
  register_value m offset 4 = x -> in_width 32 x ->
  virtio_mmio_read m offset 4 = x.
Proof.
  intros E Hx. unfold virtio_mmio_read, mask_read. rewrite E. cbn [Z.eqb].
  change (Pos.eqb 4 1) with false. cbn.
  change 0xffffffff with (Z.ones 32). rewrite Z.land_ones by lia.
  now apply Z.mod_small.
Qed.

Lemma selected_queue m : mmio_wf m -> m_queue_sel m < v_queue_count (m_vdev m) ->
  exists q, v_queues (m_vdev m) !! Z.to_nat (m_queue_sel m) = Some q /\
            virtio_mmio_queue m (m_queue_sel m) = Some q /\ queue_wf q.
Proof.
  intros [[] ? ? Hs] Hlt. unfold in_width in Hs.
  destruct (lookup_lt_is_Some_2 (v_queues (m_vdev m)) (Z.to_nat (m_queue_sel m)))
    as [q E]; [lia|].
  exists q. split; [assumption|]. split.
  - unfold virtio_mmio_queue. destruct (_ <=? _) eqn:El; [lia | assumption].
  - eapply Forall_lookup_1; eassumption.
Qed.

Lemma update_selected_lookup f m q :
  m_queue_sel m < v_queue_count (m_vdev m) ->
  v_queues (m_vdev m) !! Z.to_nat (m_queue_sel m) = Some q ->
  virtio_mmio_queue (update_selected f m) (m_queue_sel m) = Some (f q) /\
  m_queue_sel (update_selected f m) = m_queue_sel m /\
  v_queue_count (m_vdev (update_selected f m)) = v_queue_count (m_vdev m) /\
  v_queues (m_vdev (update_selected f m)) =
    <[Z.to_nat (m_queue_sel m) := f q]> (v_queues (m_vdev m)).
Proof.
  intros Hlt E. unfold update_selected, virtio_mmio_queue.
  destruct (v_queue_count (m_vdev m) <=? m_queue_sel m) eqn:El; [lia|].
  cbn. rewrite El.
  rewrite list_lookup_alter_eq, E. repeat split.
  apply list_eq. intros i. rewrite list_lookup_alter, list_lookup_insert.
  destruct (decide (Z.to_nat (m_queue_sel m) = i)) as [<-|Hne].
  - rewrite E. cbn. rewrite decide_True; [reflexivity|]. split; [reflexivity|].
    now apply lookup_lt_Some in E.
  - rewrite decide_False by tauto. reflexivity.
Qed.
End reads.

(** The register pairs that hold a 64-bit ring address, with the queue field
    each pair programs. *)
Definition address_registers
  : list (Z * Z * (Z -> virtio_queue -> virtio_queue)) :=
  [(VIRTIO_MMIO_QUEUE_DESC_LOW, VIRTIO_MMIO_QUEUE_DESC_HIGH, set_desc);
   (VIRTIO_MMIO_QUEUE_AVAIL_LOW, VIRTIO_MMIO_QUEUE_AVAIL_HIGH, set_avail);
   (VIRTIO_MMIO_QUEUE_USED_LOW, VIRTIO_MMIO_QUEUE_USED_HIGH, set_used)].

(** Registers the guest reads back as it wrote them. The queue registers and
    the driver feature banks need a valid selector. *)
Definition readback {D} (m : virtio_mmio D) (offset : Z) : Prop :=
  offset = VIRTIO_MMIO_DEVICE_FEATURES_SEL \/
  offset = VIRTIO_MMIO_DRIVER_FEATURES_SEL \/
  offset = VIRTIO_MMIO_QUEUE_SEL \/
  offset = VIRTIO_MMIO_STATUS \/
  ((offset = VIRTIO_MMIO_QUEUE_NUM \/ offset = VIRTIO_MMIO_QUEUE_READY) /\
   m_queue_sel m < v_queue_count (m_vdev m)) \/
  (offset = VIRTIO_MMIO_DRIVER_FEATURES /\ 0 <= m_driver_features_sel m <= 1).

Section transport.
Context {D : Type}.
Implicit Types m : virtio_mmio D.

Lemma address_pair_write m low high set q lo hi :
  (low, high, set) ∈ address_registers ->
  mmio_wf m -> m_queue_sel m < v_queue_count (m_vdev m) ->
  v_queues (m_vdev m) !! Z.to_nat (m_queue_sel m) = Some q -> queue_wf q ->
  virtio_mmio_write (virtio_mmio_write m low lo) high hi =
    update_selected (fun q => set (u32 lo + u32 hi * 2 ^ 32) q) m /\
  virtio_mmio_write (virtio_mmio_write m high hi) low lo =
    update_selected (fun q => set (u32 lo + u32 hi * 2 ^ 32) q) m.
Proof.
  intros Hin Hw Hlt Eq [].
  assert (forall f g h : virtio_queue -> virtio_queue, g (f q) = h q ->
    update_selected g (update_selected f m) = update_selected h m) as Hcomp.
  { intros f g h E.
    destruct (update_selected_lookup f m q Hlt Eq) as (_ & Es & Ec & Eqs).
    unfold update_selected at 1. rewrite Es, Ec, Eqs. unfold update_selected.
    destruct (_ <=? _) eqn:El; [lia|]. unfold set_vdev, set_queues, set_dev. cbn.
    do 2 f_equal. apply list_eq. intros i. rewrite !list_lookup_alter.
    pose proof (lookup_lt_Some _ _ _ Eq).
    destruct (decide (Z.to_nat (m_queue_sel m) = i)) as [<-|Hne].
    - rewrite list_lookup_insert_eq, Eq by assumption. cbn. now rewrite E.
    - now rewrite list_lookup_insert_ne by assumption. }
  unfold address_registers in Hin.
  rewrite !elem_of_cons, elem_of_nil in Hin.
  pose proof (u32_range lo). pose proof (u32_range hi).
  destruct Hin as [E|[E|[E|[]]]]; injection E as -> -> ->;
    split; apply Hcomp; unfold set_desc, set_avail, set_used; cbn; f_equal;
    rewrite ?set_low_high, ?set_high_low by assumption; reflexivity.
Qed.

Lemma readback_value m offset raw_value :
  mmio_wf m -> readback m offset ->
  register_value (virtio_mmio_write m offset raw_value) offset 4 = u32 raw_value.
Proof.
  intros Hw Hr. pose proof (u32_range raw_value) as Hv.
  destruct Hr as [->|[->|[->|[->|[[Ho Hlt]|[-> Hs]]]]]]; try reflexivity.
  - unfold virtio_mmio_write. cbn. destruct (_ =? _) eqn:E0; [|reflexivity].
    apply Z.eqb_eq in E0. now rewrite E0.
  - destruct (selected_queue m Hw Hlt) as (q & Eq & _ & _).
    destruct Ho as [->| ->];
      unfold virtio_mmio_write, register_value; cbn -[update_selected virtio_mmio_queue];
      match goal with |- context [update_selected ?f m] =>
        destruct (update_selected_lookup f m q Hlt Eq) as (E & -> & _) end;
      now rewrite E.
  - destruct Hw as [[] ? ? ?].
    assert (m_driver_features_sel m = 0 \/ m_driver_features_sel m = 1)
      as [E|E] by lia;
      unfold virtio_mmio_write, register_value; cbn; rewrite E; cbn; rewrite ?E; cbn.
    + rewrite set_low_value by assumption. unfold u32 at 1. unfold u32, in_width in *.
      rewrite Z.mod_add by lia. now apply Z.mod_small.
    + rewrite set_high_value, Z.shiftr_div_pow2 by (assumption || lia).
      rewrite Z.div_add, Z.div_small by (lia || apply Z.mod_pos_bound; lia).
      now apply u32_small.
Qed.

(** Only the selected queue is touched, and no register write other than a
    reset moves a ring cursor. *)
Lemma mmio_write_other_queue m offset raw_value i :
  ~ (offset = VIRTIO_MMIO_STATUS /\ u32 raw_value = 0) ->
  (m_queue_sel m < v_queue_count (m_vdev m) -> i <> Z.to_nat (m_queue_sel m)) ->
  v_queues (m_vdev (virtio_mmio_write m offset raw_value)) !! i
  = v_queues (m_vdev m) !! i.
Proof.
  intros Hn Hi.
  assert (forall f, v_queues (m_vdev (update_selected f m)) !! i
                    = v_queues (m_vdev m) !! i) as Hu.
  { intros f. unfold update_selected. destruct (_ <=? _) eqn:El; [reflexivity|].
    cbn. rewrite list_lookup_alter_ne; [reflexivity|].
    intros E. apply Hi; [lia | congruence]. }
  unfold virtio_mmio_write.
  repeat match goal with
  | |- v_queues (m_vdev (if ?b then _ else _)) !! i = _ => destruct b eqn:?
  end; rewrite ?Hu; try reflexivity. exfalso. apply Hn.
  split; apply Z.eqb_eq; assumption.
Qed.

Lemma mmio_write_cursor m offset raw_value i :
  ~ (offset = VIRTIO_MMIO_STATUS /\ u32 raw_value = 0) ->
  q_last_avail_idx <$>
    v_queues (m_vdev (virtio_mmio_write m offset raw_value)) !! i
  = q_last_avail_idx <$> v_queues (m_vdev m) !! i.
Proof.
  intros Hn.
  assert (forall f, (forall q, q_last_avail_idx (f q) = q_last_avail_idx q) ->
     q_last_avail_idx <$> v_queues (m_vdev (update_selected f m)) !! i
     = q_last_avail_idx <$> v_queues (m_vdev m) !! i) as Hu.
  { intros f Hf. unfold update_selected. destruct (_ <=? _); [reflexivity|].
    cbn. rewrite list_lookup_alter. destruct (decide _) as [<-|]; [|reflexivity].
    destruct (_ !! _); cbn; [now rewrite Hf | reflexivity]. }
  unfold virtio_mmio_write.
  repeat match goal with
  | |- _ <$> v_queues (m_vdev (if ?b then _ else _)) !! i = _ => destruct b eqn:?
  end; try reflexivity; try (apply Hu; reflexivity). exfalso. apply Hn.
  split; apply Z.eqb_eq; assumption.
Qed.

(** A property of the queue sizes survives register writes if the default
    size has it and every size the guest programs has it. *)
Lemma mmio_write_nums (P : Z -> Prop) m offset raw_value :
  device_wf (m_vdev m) -> P (v_queue_size (m_vdev m)) ->
  (offset = VIRTIO_MMIO_QUEUE_NUM -> P (u32 raw_value)) ->
  Forall (fun q => P (q_num q)) (v_queues (m_vdev m)) ->
  Forall (fun q => P (q_num q))
         (v_queues (m_vdev (virtio_mmio_write m offset raw_value))).
Proof.
  intros Hw Hs Hn Hq.
  assert (forall f, (forall q, P (q_num q) -> P (q_num (f q))) ->
    Forall (fun q => P (q_num q)) (v_queues (m_vdev (update_selected f m)))) as Hu.
  { intros f Hf. unfold update_selected. destruct (_ <=? _); [assumption|].
    cbn. apply Forall_alter; auto. }
  unfold virtio_mmio_write.
  repeat match goal with
  | |- Forall _ (v_queues (m_vdev (if ?b then _ else _))) => destruct b eqn:?
  end; try assumption; try (apply Hu; easy).
  - apply Hu. intros q _. apply Hn, Z.eqb_eq. assumption.
  - cbn. rewrite reset_queues_fresh by apply Hw. now apply Forall_replicate.
Qed.

Lemma ack_clears m raw_value i :
  0 <= i < 32 -> in_width 32 (v_interrupt_status (m_vdev m)) ->
  Z.testbit (v_interrupt_status (m_vdev
    (virtio_mmio_write m VIRTIO_MMIO_INTERRUPT_ACK raw_value))) i
  = Z.testbit (v_interrupt_status (m_vdev m)) i
    && negb (Z.testbit raw_value i).
Proof.
  intros Hi Hw. cbn. rewrite Z.land_spec. f_equal. unfold u32.
  rewrite Z.mod_pow2_bits_low, Z.lnot_spec, Z.mod_pow2_bits_low by lia.
  reflexivity.
Qed.
End transport.

(** ** Claims *)

(** A two-queue device without callbacks, as concrete input. *)
Definition sample_device : virtio_device unit :=
  {| v_device_id := 3; v_vendor_id := VIRTIO_VENDOR_ID_LOCAL; v_queue_count := 2;
     v_queue_size := 256; v_queues := [inhabitant; inhabitant];
     v_driver_features := 0; v_status := 0; v_interrupt_status := 0;
     v_config_generation := 0; v_opaque := tt; v_ops := None |}.

Lemma sample_device_wf : device_wf sample_device.
Proof.
  split; cbn; try (unfold in_width, VIRTIO_VENDOR_ID_LOCAL; lia); try reflexivity.
  repeat constructor; cbn; unfold in_width; lia.
Qed.

Lemma sample_mmio_wf : mmio_wf (virtio_mmio_init sample_device).
Proof. apply mmio_init_wf, sample_device_wf. Qed.

(** C28: writing zero to STATUS is a complete reset: whatever the guest wrote
    before, the transport and the device are again exactly in the state that
    initialization produced (for devices without a reset hook, as both drivers
    are). The truncation to 32 bits decides, not the raw value. *)
Theorem mmio_reset_restores_init {D} (v : virtio_device D) (ws : list (Z * Z))
    (raw_value : Z) :
  device_wf v -> no_reset_hook v -> u32 raw_value = 0 ->
  virtio_mmio_write (mmio_run (virtio_mmio_init v) ws) VIRTIO_MMIO_STATUS raw_value
  = virtio_mmio_init v.
Proof.
  intros Hw Hn Hz. unfold virtio_mmio_write. cbn. rewrite Hz. cbn.
  unfold virtio_mmio_init at 2.
  assert (no_reset_hook (m_vdev (virtio_mmio_init v))) as Hn' by assumption.
  pose proof (mmio_init_wf v Hw) as Hi.
  pose proof (mmio_run_identity _ ws Hi Hn') as E.
  apply mmio_reset_canonical; [apply mmio_run_wf, Hi | assumption | |].
  - eapply identity_no_hook; [symmetry; exact E | assumption].
  - rewrite E. apply mmio_reset_identity; assumption.
Qed.

Lemma mmio_reset_restores_init_witness :
  virtio_mmio_write (mmio_run (virtio_mmio_init sample_device)
      [(VIRTIO_MMIO_QUEUE_SEL, 1); (VIRTIO_MMIO_QUEUE_NUM, 8);
       (VIRTIO_MMIO_DRIVER_FEATURES, 5); (VIRTIO_MMIO_STATUS, 15)])
    VIRTIO_MMIO_STATUS (2 ^ 32)
  = virtio_mmio_init sample_device.
Proof.
  apply mmio_reset_restores_init;
    [apply sample_device_wf | exact I | reflexivity].
Defined.

(** Programming a 64-bit ring address. For the descriptor, available and
    used ring alike, writing the LOW and HIGH registers in either order stores
    exactly [lo + hi * 2^32] in that field of the selected queue, and changes
    nothing else of the device or the transport. *)
Theorem ring_address_programming {D} (m : virtio_mmio D) low high set lo hi :
  (low, high, set) ∈ address_registers ->
  mmio_wf m -> m_queue_sel m < v_queue_count (m_vdev m) ->
  virtio_mmio_write (virtio_mmio_write m low lo) high hi =
    update_selected (set (u32 lo + u32 hi * 2 ^ 32)) m /\
  virtio_mmio_write (virtio_mmio_write m high hi) low lo =
    update_selected (set (u32 lo + u32 hi * 2 ^ 32)) m.
Proof.
  intros Hin Hw Hlt. destruct (selected_queue m Hw Hlt) as (q & Eq & _ & Hq).
  exact (address_pair_write m low high set q lo hi Hin Hw Hlt Eq Hq).
Qed.

Lemma ring_address_programming_witness :
  virtio_mmio_write (virtio_mmio_write (virtio_mmio_init sample_device)
      VIRTIO_MMIO_QUEUE_USED_LOW 0x89abcdef) VIRTIO_MMIO_QUEUE_USED_HIGH 0x01234567
  = update_selected (set_used (u32 0x89abcdef + u32 0x01234567 * 2 ^ 32))
      (virtio_mmio_init sample_device).
Proof.
  apply ring_address_programming; [|apply sample_mmio_wf | vm_compute; reflexivity].
  unfold address_registers. rewrite !elem_of_cons. tauto.
Defined.

(** A 32-bit read of a read-write register returns the low 32 bits of the
    value last written to it: the selectors, the status (including the value 0,
    which resets), queue size and readiness of a valid queue, and either driver
    feature bank. *)
Theorem mmio_write_then_read {D} (m : virtio_mmio D) offset raw_value :
  mmio_wf m -> readback m offset ->
  virtio_mmio_read (virtio_mmio_write m offset raw_value) offset 4 = u32 raw_value.
Proof.
  intros Hw Hr. apply read4_register; [|apply u32_range].
  now apply readback_value.
Qed.

Lemma mmio_write_then_read_witness :
  virtio_mmio_read (virtio_mmio_write (virtio_mmio_init sample_device)
    VIRTIO_MMIO_QUEUE_NUM (2 ^ 32 + 128)) VIRTIO_MMIO_QUEUE_NUM 4 = 128.
Proof.
  apply (mmio_write_then_read (virtio_mmio_init sample_device)
           VIRTIO_MMIO_QUEUE_NUM (2 ^ 32 + 128)); [apply sample_mmio_wf|].
  do 4 right. left. split; [left; reflexivity | vm_compute; reflexivity].
Defined.

(** Register writes are confined. Except for the reset, a write changes no
    queue but the selected one (none if the selector is out of range) and never
    moves any queue's ring cursor; an interrupt acknowledgement clears exactly
    the acknowledged status bits. *)
Theorem mmio_write_confined {D} (m : virtio_mmio D) offset raw_value i b :
  mmio_wf m -> ~ (offset = VIRTIO_MMIO_STATUS /\ u32 raw_value = 0) ->
  0 <= b < 32 ->
  let m' := virtio_mmio_write m offset raw_value in
  ((m_queue_sel m < v_queue_count (m_vdev m) -> i <> Z.to_nat (m_queue_sel m)) ->
   v_queues (m_vdev m') !! i = v_queues (m_vdev m) !! i) /\
  q_last_avail_idx <$> v_queues (m_vdev m') !! i
    = q_last_avail_idx <$> v_queues (m_vdev m) !! i /\
  (offset = VIRTIO_MMIO_INTERRUPT_ACK ->
   Z.testbit (v_interrupt_status (m_vdev m')) b
   = Z.testbit (v_interrupt_status (m_vdev m)) b && negb (Z.testbit raw_value b)).
Proof.
  intros Hw Hn Hb. split; [now apply mmio_write_other_queue|].
  split; [now apply mmio_write_cursor|]. intros ->.
  apply ack_clears; [assumption | apply Hw].
Qed.

Lemma mmio_write_confined_witness :
  v_queues (m_vdev (virtio_mmio_write (virtio_mmio_init sample_device)
    VIRTIO_MMIO_QUEUE_READY 1)) !! 1%nat = Some (fresh_queue 256).
Proof.
  apply (mmio_write_confined (virtio_mmio_init sample_device)
    VIRTIO_MMIO_QUEUE_READY 1 1%nat 0 sample_mmio_wf).
  - intros [E _]. discriminate E.
  - lia.
  - vm_compute. discriminate.
Defined.
