(* ===== verification/MmioHistory.v ===== *)
(** * The register file as a function of its history

    An abstract specification of the transport of [VirtioMmio.v], without its state: every
    register holds the value last written to it since the last reset, a queue register
    the value last written while that queue was selected, a feature bank the value last
    written while that bank was selected, and the interrupt bit is set from a used
    buffer to the next acknowledgement. *)

From S2P Require Import Prelude Endian Fabric Virtio VirtioMmio.

#[local] Open Scope Z_scope.
#[local] Open Scope c_scope.

(** What happens to the transport: a register write of the guest, or a buffer used by the
    device. *)
Inductive mmio_event : Type :=
| EvWrite (offset raw_value : Z)
| EvUsed.

Definition mmio_step {D} (m : virtio_mmio D) (e : mmio_event) : virtio_mmio D :=
  match e with
  | EvWrite offset raw_value => virtio_mmio_write m offset raw_value
  | EvUsed => virtio_mmio_used_buffer m
  end.

Definition mmio_events {D} (m : virtio_mmio D) (es : list mmio_event) : virtio_mmio D :=
  fold_left mmio_step es m.

(** ** The specification: histories, the latest event first *)

Definition resets (e : mmio_event) : bool :=
  match e with
  | EvWrite offset raw_value => (offset =? VIRTIO_MMIO_STATUS) && (u32 raw_value =? 0)
  | EvUsed => false
  end.

(** The value an event writes to a register. *)
Definition writes_to (off : Z) (e : mmio_event) : option Z :=
  match e with
  | EvWrite offset raw_value => if offset =? off then Some (u32 raw_value) else None
  | EvUsed => None
  end.

(** The value last written to a register. *)
Fixpoint last_write (off : Z) (h : list mmio_event) : Z :=
  match h with
  | [] => 0
  | e :: h => if resets e then 0 else default (last_write off h) (writes_to off e)
  end.

(** The value last written to a register while the selector [sel] was [s]. *)
Fixpoint last_under (sel s off dflt : Z) (h : list mmio_event) : Z :=
  match h with
  | [] => dflt
  | e :: h =>
      if resets e then dflt
      else if last_write sel h =? s then default (last_under sel s off dflt h) (writes_to off e)
      else last_under sel s off dflt h
  end.

(** A buffer was used and not acknowledged. *)
Fixpoint unacknowledged (h : list mmio_event) : bool :=
  match h with
  | [] => false
  | EvUsed :: _ => true
  | EvWrite offset raw_value :: h =>
      negb (resets (EvWrite offset raw_value)) && unacknowledged h &&
      negb ((offset =? VIRTIO_MMIO_INTERRUPT_ACK) && Z.testbit raw_value 0)
  end.

Definition queue_spec (queue_size : Z) (h : list mmio_event) (q : Z) : virtio_queue :=
  let written off dflt := last_under VIRTIO_MMIO_QUEUE_SEL q off dflt h in
  let address low high := written low 0 + 2 ^ 32 * written high 0 in
  {| q_num := written VIRTIO_MMIO_QUEUE_NUM queue_size;
     q_ready := written VIRTIO_MMIO_QUEUE_READY 0;
     q_desc := address VIRTIO_MMIO_QUEUE_DESC_LOW VIRTIO_MMIO_QUEUE_DESC_HIGH;
     q_avail := address VIRTIO_MMIO_QUEUE_AVAIL_LOW VIRTIO_MMIO_QUEUE_AVAIL_HIGH;
     q_used := address VIRTIO_MMIO_QUEUE_USED_LOW VIRTIO_MMIO_QUEUE_USED_HIGH;
     q_last_avail_idx := 0 |}.

Definition features_spec (h : list mmio_event) : Z :=
  let bank b := last_under VIRTIO_MMIO_DRIVER_FEATURES_SEL b VIRTIO_MMIO_DRIVER_FEATURES 0 h in
  bank 0 + 2 ^ 32 * bank 1.

(** The transport over the device [v] after the history [h]. *)
Definition mmio_spec {D} (v : virtio_device D) (h : list mmio_event) : virtio_mmio D :=
  {| m_vdev :=
       {| v_device_id := v_device_id v; v_vendor_id := v_vendor_id v;
          v_queue_count := v_queue_count v; v_queue_size := v_queue_size v;
          v_queues := map (queue_spec (v_queue_size v) h) (seqZ 0 (v_queue_count v));
          v_driver_features := features_spec h;
          v_status := last_write VIRTIO_MMIO_STATUS h;
          v_interrupt_status := if unacknowledged h then 1 else 0;
          v_config_generation := 0; v_opaque := v_opaque v; v_ops := v_ops v |};
     m_device_features_sel := last_write VIRTIO_MMIO_DEVICE_FEATURES_SEL h;
     m_driver_features_sel := last_write VIRTIO_MMIO_DRIVER_FEATURES_SEL h;
     m_queue_sel := last_write VIRTIO_MMIO_QUEUE_SEL h |}.

(** ** Facts on histories *)

Lemma last_write_range off h : in_width 32 (last_write off h).
Proof.
  induction h as [|[o v|] h IH]; cbn; [unfold in_width; lia| |exact IH].
  destruct (_ && _); [unfold in_width; lia|].
  destruct (o =? off); cbn; [apply u32_range | exact IH].
Qed.

Lemma last_under_range sel s off dflt h : in_width 32 dflt -> in_width 32 (last_under sel s off dflt h).
Proof.
  intros Hd. induction h as [|[o v|] h IH]; cbn; [exact Hd | |].
  - destruct (_ && _); [exact Hd|]. destruct (_ =? s); [|exact IH].
    destruct (o =? off); cbn; [apply u32_range | exact IH].
  - now destruct (_ =? s).
Qed.

(** The lower half of an address is below the upper one. *)
Lemma set_low_sum lo hi value : in_width 32 lo -> in_width 32 hi -> in_width 32 value ->
  set_low (lo + 2 ^ 32 * hi) value = value + 2 ^ 32 * hi.
Proof.
  intros. rewrite set_low_value by (unfold in_width in *; lia).
  unfold in_width in *. Z.div_mod_to_equations. lia.
Qed.

Lemma set_high_sum lo hi value : in_width 32 lo -> in_width 32 value ->
  set_high (lo + 2 ^ 32 * hi) value = lo + 2 ^ 32 * value.
Proof.
  intros. rewrite set_high_value by assumption.
  unfold in_width in *. Z.div_mod_to_equations. lia.
Qed.

(** Changing one element of a table. *)
Lemma alter_table {A} (f : A -> A) (g g' : Z -> A) sel count :
  0 <= sel < count ->
  (forall q, 0 <= q < count -> g' q = if q =? sel then f (g q) else g q) ->
  alter f (Z.to_nat sel) (map g (seqZ 0 count)) = map g' (seqZ 0 count).
Proof.
  intros Hs Hg. apply list_eq. intros i. rewrite list_lookup_alter.
  change (map g ?l) with (g <$> l). change (map g' ?l) with (g' <$> l). rewrite !list_lookup_fmap.
  destruct (decide (Z.of_nat i < count)) as [Hi|Hi].
  - assert (seqZ 0 count !! i = Some (Z.of_nat i)) as E by (rewrite lookup_seqZ_lt; [f_equal; lia | lia]).
    rewrite E. cbn. rewrite Hg by lia.
    destruct (Z.eqb_spec (Z.of_nat i) sel), (decide (Z.to_nat sel = i)) as [<-|];
      rewrite ?E; cbn; (reflexivity || lia).
  - assert (seqZ 0 count !! i = None) as E by (apply lookup_seqZ_ge; lia).
    rewrite E. cbn. destruct (decide (Z.to_nat sel = i)) as [<-|]; now rewrite ?E.
Qed.

Section steps.
Context {D : Type} (v : virtio_device D) (Hw : device_wf v) (Hhook : no_reset_hook v).
Implicit Types h : list mmio_event.

(** A register of the selected queue was written. *)
Lemma spec_update f h e :
  resets e = false -> writes_to VIRTIO_MMIO_QUEUE_SEL e = None ->
  writes_to VIRTIO_MMIO_STATUS e = None -> writes_to VIRTIO_MMIO_DEVICE_FEATURES_SEL e = None ->
  writes_to VIRTIO_MMIO_DRIVER_FEATURES_SEL e = None -> writes_to VIRTIO_MMIO_DRIVER_FEATURES e = None ->
  unacknowledged (e :: h) = unacknowledged h ->
  (forall q, queue_spec (v_queue_size v) (e :: h) q =
     if q =? last_write VIRTIO_MMIO_QUEUE_SEL h then f (queue_spec (v_queue_size v) h q)
     else queue_spec (v_queue_size v) h q) ->
  update_selected f (mmio_spec v h) = mmio_spec v (e :: h).
Proof.
  intros E0 E1 E2 E3 E4 E5 Ei Hq. unfold update_selected. cbn [m_vdev mmio_spec v_queue_count m_queue_sel].
  assert (features_spec (e :: h) = features_spec h) as Ef.
  { unfold features_spec. cbn [last_under]. rewrite E0, E5. cbn [default].
    now destruct (_ =? 0), (_ =? 1). }
  assert (mmio_spec v (e :: h) =
    set_vdev (set_queues (map (queue_spec (v_queue_size v) (e :: h)) (seqZ 0 (v_queue_count v)))
      (m_vdev (mmio_spec v h))) (mmio_spec v h)) as ->.
  { unfold mmio_spec at 1. rewrite Ef, Ei. cbn [last_write]. rewrite E0, E1, E2, E3, E4. reflexivity. }
  pose proof (last_write_range VIRTIO_MMIO_QUEUE_SEL h) as Hr. unfold in_width in Hr.
  destruct (Z.leb_spec (v_queue_count v) (last_write VIRTIO_MMIO_QUEUE_SEL h)) as [Hle|Hlt].
  - assert (map (queue_spec (v_queue_size v) (e :: h)) (seqZ 0 (v_queue_count v))
      = map (queue_spec (v_queue_size v) h) (seqZ 0 (v_queue_count v))) as ->; [|reflexivity].
    apply map_ext_in. intros q Hin%list_elem_of_In%elem_of_seqZ. rewrite Hq.
    destruct (Z.eqb_spec q (last_write VIRTIO_MMIO_QUEUE_SEL h)); [lia | reflexivity].
  - do 2 f_equal. apply alter_table; [lia|]. intros q _. apply Hq.
Qed.

(** Events that write no register of the transport. *)
Lemma queue_spec_other h e q :
  resets e = false -> (forall off, In off [VIRTIO_MMIO_QUEUE_NUM; VIRTIO_MMIO_QUEUE_READY;
     VIRTIO_MMIO_QUEUE_DESC_LOW; VIRTIO_MMIO_QUEUE_DESC_HIGH; VIRTIO_MMIO_QUEUE_AVAIL_LOW;
     VIRTIO_MMIO_QUEUE_AVAIL_HIGH; VIRTIO_MMIO_QUEUE_USED_LOW; VIRTIO_MMIO_QUEUE_USED_HIGH] ->
     writes_to off e = None) ->
  queue_spec (v_queue_size v) (e :: h) q = queue_spec (v_queue_size v) h q.
Proof.
  intros E0 E. unfold queue_spec. cbn [last_under]. rewrite E0.
  rewrite !E by (cbn; tauto). cbn [default].
  now destruct (_ =? q).
Qed.

Lemma queues_other h e :
  resets e = false -> (forall off, In off [VIRTIO_MMIO_QUEUE_NUM; VIRTIO_MMIO_QUEUE_READY;
     VIRTIO_MMIO_QUEUE_DESC_LOW; VIRTIO_MMIO_QUEUE_DESC_HIGH; VIRTIO_MMIO_QUEUE_AVAIL_LOW;
     VIRTIO_MMIO_QUEUE_AVAIL_HIGH; VIRTIO_MMIO_QUEUE_USED_LOW; VIRTIO_MMIO_QUEUE_USED_HIGH] ->
     writes_to off e = None) ->
  map (queue_spec (v_queue_size v) (e :: h)) (seqZ 0 (v_queue_count v))
  = map (queue_spec (v_queue_size v) h) (seqZ 0 (v_queue_count v)).
Proof. intros E0 E. apply map_ext. intros q. now apply queue_spec_other. Qed.

Lemma features_other h e :
  resets e = false -> writes_to VIRTIO_MMIO_DRIVER_FEATURES e = None ->
  features_spec (e :: h) = features_spec h.
Proof.
  intros E0 E. unfold features_spec. cbn [last_under]. rewrite E0, E. cbn [default].
  now destruct (_ =? 0), (_ =? 1).
Qed.

(** The empty history, and the history after a reset. *)
Lemma spec_init : virtio_mmio_init v = mmio_spec v [].
Proof.
  unfold virtio_mmio_init, virtio_mmio_reset, mmio_spec. f_equal. cbn [m_vdev].
  unfold virtio_device_reset. f_equal.
  - destruct Hw. rewrite reset_queues_fresh by assumption.
    apply list_eq. intros i. change (map ?g ?l) with (g <$> l). rewrite list_lookup_fmap.
    destruct (decide (Z.of_nat i < v_queue_count v)) as [Hi|Hi].
    + rewrite lookup_seqZ_lt by lia. apply lookup_replicate. split; [reflexivity | lia].
    + rewrite lookup_seqZ_ge by lia. apply lookup_replicate_None. lia.
  - unfold no_reset_hook in Hhook. destruct (v_ops v); [now rewrite Hhook | reflexivity].
Qed.

Lemma spec_reset h e : resets e = true -> mmio_spec v (e :: h) = mmio_spec v [].
Proof.
  intros E. unfold mmio_spec. cbn [last_write].
  unfold features_spec. cbn [last_under]. rewrite E.
  assert (unacknowledged (e :: h) = false) as ->.
  { destruct e as [o x|]; [|discriminate]. cbn [unacknowledged]. now rewrite E. }
  assert (map (queue_spec (v_queue_size v) (e :: h)) (seqZ 0 (v_queue_count v))
    = map (queue_spec (v_queue_size v) []) (seqZ 0 (v_queue_count v))) as ->; [|reflexivity].
  apply map_ext. intros q. unfold queue_spec. cbn [last_under]. now rewrite E.
Qed.

Lemma reset_spec h : virtio_mmio_reset (mmio_spec v h) = mmio_spec v [].
Proof.
  rewrite <- spec_init. unfold virtio_mmio_init, virtio_mmio_reset. f_equal.
  cbn [m_vdev mmio_spec]. unfold virtio_device_reset. cbn. f_equal.
  destruct Hw. rewrite !reset_queues_fresh by
    (try assumption; rewrite length_map, length_seqZ; unfold in_width in *; lia).
  f_equal. rewrite length_map, length_seqZ. unfold in_width in *. lia.
Qed.

(** The interrupt bit. *)
Lemma ack_bit (b : bool) x :
  Z.land (if b then 1 else 0) (u32 (Z.lnot (u32 x)))
  = if b && negb (Z.testbit x 0) then 1 else 0.
Proof.
  destruct b; [|reflexivity]. change 1 with (Z.ones 1) at 1.
  rewrite Z.land_comm, Z.land_ones by lia. change (2 ^ 1) with 2.
  rewrite <- Z.bit0_mod. unfold u32.
  rewrite Z.mod_pow2_bits_low, Z.lnot_spec, Z.mod_pow2_bits_low by lia.
  now destruct (Z.testbit x 0).
Qed.

(** ** Each event *)

(** A register the transport keeps outside its queues. *)
Ltac spec_same h :=
  match goal with |- _ = mmio_spec v (EvWrite ?o ?x :: h) =>
    unfold mmio_spec;
    rewrite (queues_other h (EvWrite o x)), ?(features_other h (EvWrite o x));
    [cbn; rewrite ?andb_true_r; reflexivity | ..]
  end; try reflexivity;
  intros off Hin; repeat (destruct Hin as [<-|Hin]; [reflexivity|]); destruct Hin.

(** A register of the selected queue. *)
Ltac spec_queue_write h :=
  apply spec_update; try reflexivity;
  [ cbn; now rewrite andb_true_r
  | intros q; unfold queue_spec; cbn; rewrite (Z.eqb_sym (last_write _ _) q);
    destruct (Z.eqb_spec q (last_write VIRTIO_MMIO_QUEUE_SEL h)) as [->|]; [|reflexivity];
    unfold set_num, set_ready, set_desc, set_avail, set_used; cbn; f_equal;
    symmetry; first [apply set_low_sum | apply set_high_sum];
    try apply last_under_range; try apply u32_range; unfold in_width; lia ].

(** The selected bank of the driver features. *)
Lemma features_write h x :
  (if m_driver_features_sel (mmio_spec v h) =? 0 then
     set_vdev (set_features (set_low (features_spec h) (u32 x)) (m_vdev (mmio_spec v h))) (mmio_spec v h)
   else if m_driver_features_sel (mmio_spec v h) =? 1 then
     set_vdev (set_features (set_high (features_spec h) (u32 x)) (m_vdev (mmio_spec v h))) (mmio_spec v h)
   else mmio_spec v h) = mmio_spec v (EvWrite VIRTIO_MMIO_DRIVER_FEATURES x :: h).
Proof.
  assert (mmio_spec v (EvWrite VIRTIO_MMIO_DRIVER_FEATURES x :: h) =
    set_vdev (set_features (features_spec (EvWrite VIRTIO_MMIO_DRIVER_FEATURES x :: h))
      (m_vdev (mmio_spec v h))) (mmio_spec v h)) as ->.
  { unfold mmio_spec. rewrite (queues_other h (EvWrite VIRTIO_MMIO_DRIVER_FEATURES x)); [| reflexivity|].
    - cbn. now rewrite andb_true_r.
    - intros off Hin. repeat (destruct Hin as [<-|Hin]; [reflexivity|]). destruct Hin. }
  cbn [m_driver_features_sel mmio_spec].
  assert (features_spec (EvWrite VIRTIO_MMIO_DRIVER_FEATURES x :: h) =
    if last_write VIRTIO_MMIO_DRIVER_FEATURES_SEL h =? 0 then set_low (features_spec h) (u32 x)
    else if last_write VIRTIO_MMIO_DRIVER_FEATURES_SEL h =? 1 then set_high (features_spec h) (u32 x)
    else features_spec h) as ->.
  { unfold features_spec. rewrite set_low_sum, set_high_sum by
      (try apply last_under_range; try apply u32_range; unfold in_width; lia).
    cbn. destruct (Z.eqb_spec (last_write VIRTIO_MMIO_DRIVER_FEATURES_SEL h) 0) as [->|]; [reflexivity|].
    now destruct (_ =? 1). }
  now repeat destruct (_ =? _).
Qed.

Lemma write_spec h off x : virtio_mmio_write (mmio_spec v h) off x = mmio_spec v (EvWrite off x :: h).
Proof.
  destruct (resets (EvWrite off x)) eqn:Er.
  { rewrite spec_reset by exact Er. cbn in Er. apply andb_true_iff in Er as [->%Z.eqb_eq Ex].
    unfold virtio_mmio_write. cbn [Z.eqb Pos.eqb VIRTIO_MMIO_STATUS VIRTIO_MMIO_INTERRUPT_ACK].
    rewrite Ex. apply reset_spec. }
  unfold virtio_mmio_write.
  destruct (Z.eqb_spec off VIRTIO_MMIO_DEVICE_FEATURES_SEL) as [->|N1]; [spec_same h|].
  destruct (Z.eqb_spec off VIRTIO_MMIO_DRIVER_FEATURES) as [->|N2]; [apply features_write|].
  destruct (Z.eqb_spec off VIRTIO_MMIO_DRIVER_FEATURES_SEL) as [->|N3]; [spec_same h|].
  destruct (Z.eqb_spec off VIRTIO_MMIO_QUEUE_SEL) as [->|N4]; [spec_same h|].
  destruct (Z.eqb_spec off VIRTIO_MMIO_QUEUE_NUM) as [->|N5]; [spec_queue_write h|].
  destruct (Z.eqb_spec off VIRTIO_MMIO_QUEUE_READY) as [->|N6]; [spec_queue_write h|].
  destruct (Z.eqb_spec off VIRTIO_MMIO_QUEUE_DESC_LOW) as [->|N7]; [spec_queue_write h|].
  destruct (Z.eqb_spec off VIRTIO_MMIO_QUEUE_DESC_HIGH) as [->|N8]; [spec_queue_write h|].
  destruct (Z.eqb_spec off VIRTIO_MMIO_QUEUE_AVAIL_LOW) as [->|N9]; [spec_queue_write h|].
  destruct (Z.eqb_spec off VIRTIO_MMIO_QUEUE_AVAIL_HIGH) as [->|N10]; [spec_queue_write h|].
  destruct (Z.eqb_spec off VIRTIO_MMIO_QUEUE_USED_LOW) as [->|N11]; [spec_queue_write h|].
  destruct (Z.eqb_spec off VIRTIO_MMIO_QUEUE_USED_HIGH) as [->|N12]; [spec_queue_write h|].
  destruct (Z.eqb_spec off VIRTIO_MMIO_INTERRUPT_ACK) as [->|N13].
  { cbn [m_vdev mmio_spec v_interrupt_status]. rewrite ack_bit. spec_same h. }
  destruct (Z.eqb_spec off VIRTIO_MMIO_STATUS) as [->|N14].
  { change (resets (EvWrite VIRTIO_MMIO_STATUS x)) with (u32 x =? 0) in Er. rewrite Er.
    unfold mmio_spec. rewrite (queues_other h (EvWrite VIRTIO_MMIO_STATUS x)),
      (features_other h (EvWrite VIRTIO_MMIO_STATUS x)); try exact Er; try reflexivity.
    - cbn. rewrite Er. cbn. now rewrite andb_true_r.
    - intros off Hin. repeat (destruct Hin as [<-|Hin]; [reflexivity|]). destruct Hin. }
  unfold mmio_spec. assert (forall o, off <> o -> writes_to o (EvWrite off x) = None) as Hno
    by (intros o Ho; cbn; now rewrite (proj2 (Z.eqb_neq _ _) Ho)).
  rewrite (queues_other h (EvWrite off x)), (features_other h (EvWrite off x)); try exact Er; auto.
  - cbn [last_write unacknowledged]. rewrite Er, !Hno by assumption. cbn [default].
    rewrite (proj2 (Z.eqb_neq _ _) N13). cbn. now rewrite andb_true_r.
  - intros o Hin. apply Hno. cbn in Hin. intuition congruence.
Qed.

Lemma used_spec h : virtio_mmio_used_buffer (mmio_spec v h) = mmio_spec v (EvUsed :: h).
Proof.
  unfold mmio_spec. rewrite (queues_other h EvUsed), (features_other h EvUsed) by easy.
  unfold virtio_mmio_used_buffer, set_vdev, set_interrupt, set_dev. cbn.
  now destruct (unacknowledged h).
Qed.

Lemma events_spec es h : mmio_events (mmio_spec v h) es = mmio_spec v (rev es ++ h).
Proof.
  revert h. induction es as [|e es IH]; intros h; [reflexivity|].
  cbn [mmio_events fold_left rev]. rewrite <- app_assoc. cbn [app]. rewrite <- IH.
  unfold mmio_events. f_equal. destruct e; [apply write_spec | apply used_spec].
Qed.
End steps.

(** ** Claims *)

(** C27: the register file is its history. For a device whose operations have no reset
    hook (those of neither driver do), after initialization and any sequence of register
    writes (any offset, any 64-bit value) and used buffers, the whole state of
    the transport and its device is the one [mmio_spec] reads off the history: each
    selector, the status and each register of each queue hold the 32 low bits of what was
    last written to them since the last reset, queue registers and feature banks while
    that queue or bank was selected, ring addresses and features composed of their two
    halves, initial values where nothing was written; the interrupt bit is set exactly
    if a buffer was used after the last acknowledgement and reset. *)
Theorem mmio_state_is_history {D} (v : virtio_device D) (es : list mmio_event) :
  device_wf v -> no_reset_hook v ->
  mmio_events (virtio_mmio_init v) es = mmio_spec v (rev es).
Proof.
  intros Hw Hh. rewrite (spec_init v Hw Hh), (events_spec v Hw Hh). now rewrite app_nil_r.
Qed.

(** Two queues are programmed, one of them partly before a reset. *)
Lemma mmio_state_is_history_witness :
  mmio_events (virtio_mmio_init sample_device)
    [EvWrite VIRTIO_MMIO_QUEUE_NUM 8; EvWrite VIRTIO_MMIO_STATUS (2 ^ 32);
     EvWrite VIRTIO_MMIO_QUEUE_SEL 1; EvWrite VIRTIO_MMIO_QUEUE_NUM (2 ^ 40 + 7); EvUsed;
     EvWrite VIRTIO_MMIO_QUEUE_DESC_HIGH 2; EvWrite VIRTIO_MMIO_QUEUE_SEL 2;
     EvWrite VIRTIO_MMIO_QUEUE_DESC_LOW 5]
  = mmio_spec sample_device
     [EvWrite VIRTIO_MMIO_QUEUE_DESC_LOW 5; EvWrite VIRTIO_MMIO_QUEUE_SEL 2;
      EvWrite VIRTIO_MMIO_QUEUE_DESC_HIGH 2; EvUsed;
      EvWrite VIRTIO_MMIO_QUEUE_NUM (2 ^ 40 + 7); EvWrite VIRTIO_MMIO_QUEUE_SEL 1;
      EvWrite VIRTIO_MMIO_STATUS (2 ^ 32); EvWrite VIRTIO_MMIO_QUEUE_NUM 8].
Proof. apply (mmio_state_is_history sample_device); [apply sample_device_wf | exact I]. Defined.

(** What the specification says of that history. *)
Example history_queues :
  v_queues (m_vdev (mmio_spec sample_device
     [EvWrite VIRTIO_MMIO_QUEUE_DESC_LOW 5; EvWrite VIRTIO_MMIO_QUEUE_SEL 2;
      EvWrite VIRTIO_MMIO_QUEUE_DESC_HIGH 2; EvUsed;
      EvWrite VIRTIO_MMIO_QUEUE_NUM (2 ^ 40 + 7); EvWrite VIRTIO_MMIO_QUEUE_SEL 1;
      EvWrite VIRTIO_MMIO_STATUS (2 ^ 32); EvWrite VIRTIO_MMIO_QUEUE_NUM 8]))
  = [fresh_queue 256;
     {| q_num := 7; q_ready := 0; q_desc := 2 * 2 ^ 32; q_avail := 0; q_used := 0;
        q_last_avail_idx := 0 |}].
Proof. reflexivity. Qed.
