(* ===== verification/Posix.v ===== *)
(** * System calls that transfer bytes

    The daemons move bytes with [pread], [pwrite], [read], [write] wrapped in
    loops that continue after a short count or [EINTR]. The kernel's choices are
    an explicit list of events consumed one per call; an exhausted list means
    that calls transfer as much as they can. The loops are [read_loop] and
    [write_loop], written as in the source; [drain] and [wdrain] are their
    reference semantics by recursion on the events. *)

From S2P Require Import Prelude.

#[local] Open Scope Z_scope.
#[local] Open Scope c_scope.

Inductive io_event : Type :=
| IoIntr               (* the call fails with EINTR *)
| IoFail               (* the call fails with another error *)
| IoShort (n : nat).   (* the call transfers at most n bytes *)

(** Result of a call that transfers an [A]: [-1] with [EINTR], [-1] with another
    [errno], or success. *)
Inductive sysret (A : Type) : Type :=
| SysIntr
| SysFail
| SysOk (a : A).
Arguments SysIntr {A}.
Arguments SysFail {A}.
Arguments SysOk {A} a.

(** The number of bytes a call transfers when [want] could be transferred. *)
Definition io_step (ev : list io_event) (want : nat)
  : sysret nat * list io_event :=
  match ev with
  | [] => (SysOk want, [])
  | IoIntr :: ev' => (SysIntr, ev')
  | IoFail :: ev' => (SysFail, ev')
  | IoShort n :: ev' => (SysOk (Nat.min n want), ev')
  end.

(** ** The loops *)

Section loops.
Context {St : Type}.

(** [while (len) { ret = read(.., pos, len); ... }]: [sys pos len] is the call
    that asks for [len] bytes after [pos] bytes have been transferred. The
    result is the returned flag and the bytes stored in the buffer. *)
Fixpoint read_loop (fuel : nat) (sys : nat -> nat -> M St (sysret (list Z)))
    (pos len : nat) : M St (bool * list Z) :=
  match fuel with
  | O => out_of_fuel
  | S fuel =>
      match len with
      | O => ret (true, [])
      | S _ =>
          r ← sys pos len;
          match r with
          | SysIntr => read_loop fuel sys pos len
          | SysFail => ret (false, [])
          | SysOk chunk =>
              match chunk with
              | [] => ret (false, [])
              | _ :: _ =>
                  p ← read_loop fuel sys (pos + length chunk)
                        (len - length chunk);
                  ret (fst p, chunk ++ snd p)
              end
          end
      end
  end.

(** The same loop around [write]; [sys pos data] returns the count. *)
Fixpoint write_loop (fuel : nat) (sys : nat -> list Z -> M St (sysret nat))
    (pos : nat) (data : list Z) : M St bool :=
  match fuel with
  | O => out_of_fuel
  | S fuel =>
      match data with
      | [] => ret true
      | _ :: _ =>
          r ← sys pos data;
          match r with
          | SysIntr => write_loop fuel sys pos data
          | SysFail => ret false
          | SysOk O => ret false
          | SysOk n => write_loop fuel sys (pos + n) (drop n data)
          end
      end
  end.
End loops.

(** Iterations that always suffice: one per event, one full transfer, and
    one that sees the end of the data or of the source. *)
Definition loop_fuel (ev : list io_event) : nat := length ev + 2.

(** ** Reference semantics *)

(** Reading [len] bytes of [src]: success, bytes obtained, events left. *)
Fixpoint drain (ev : list io_event) (len : nat) (src : list Z)
  : bool * list Z * list io_event :=
  match len with
  | O => (true, [], ev)
  | S _ =>
      match ev with
      | [] => (bool_decide (len <= length src)%nat, take len src, [])
      | IoIntr :: ev' => drain ev' len src
      | IoFail :: ev' => (false, [], ev')
      | IoShort k :: ev' =>
          match Nat.min k (Nat.min len (length src)) with
          | O => (false, [], ev')
          | n => let '(b, c, ev'') := drain ev' (len - n) (drop n src) in
                 (b, take n src ++ c, ev'')
          end
      end
  end.

(** Writing [data]: success, number of bytes written, events left. *)
Fixpoint wdrain (ev : list io_event) (data : list Z)
  : bool * nat * list io_event :=
  match data with
  | [] => (true, O, ev)
  | _ :: _ =>
      match ev with
      | [] => (true, length data, [])
      | IoIntr :: ev' => wdrain ev' data
      | IoFail :: ev' => (false, O, ev')
      | IoShort k :: ev' =>
          match Nat.min k (length data) with
          | O => (false, O, ev')
          | n => let '(b, w, ev'') := wdrain ev' (drop n data) in
                 (b, (n + w)%nat, ev'')
          end
      end
  end.

(** Events that only delay a transfer. *)
Definition benign (e : io_event) : Prop :=
  match e with IoIntr => True | IoFail => False | IoShort n => n <> O end.

#[global] Instance benign_dec e : Decision (benign e).
Proof. destruct e; cbn; apply _. Defined.

Section reference_facts.
Implicit Types (ev : list io_event) (src data : list Z).

(** What was obtained is a prefix of the source; on success all of it. *)
Lemma drain_prefix ev len src b c ev' :
  drain ev len src = (b, c, ev') ->
  c = take (length c) src /\ (length c <= len)%nat /\
  (b = true -> c = take len src /\ (len <= length src)%nat).
Proof.
  revert len src b c ev'. induction ev as [|e ev IH]; intros [|len] src b c ev'.
  - intros [= <- <- <-]. cbn. repeat split; lia.
  - cbn [drain]. intros [= <- <- <-]. rewrite length_take.
    split; [|split; [lia|]].
    + destruct (decide (S len <= length src)%nat).
      * now rewrite Nat.min_l by lia.
      * rewrite Nat.min_r by lia. rewrite !take_ge by lia. reflexivity.
    + intros ?%bool_decide_eq_true_1. split; [reflexivity | assumption].
  - intros [= <- <- <-]. cbn. repeat split; lia.
  - cbn [drain]. destruct e as [| |k]; [apply IH | |].
    { intros [= <- <- <-]. cbn. repeat split; (lia || easy). }
    destruct (Nat.min k (Nat.min (S len) (length src))) as [|n] eqn:En.
    { intros [= <- <- <-]. cbn. repeat split; (lia || easy). }
    destruct (drain ev (S len - S n) (drop (S n) src)) as [[b1 c1] ev1] eqn:E1.
    intros [= <- <- <-]. destruct (IH _ _ _ _ _ E1) as (Hc & Hl & Hb).
    rewrite length_app, length_take, Nat.min_l by lia.
    split; [|split; [lia|]].
    + rewrite <- take_take_drop. now f_equal.
    + intros Ht. destruct (Hb Ht) as [-> Hle]. rewrite length_drop in Hle.
      split; [|lia]. rewrite take_take_drop. f_equal. lia.
Qed.

(** Benign events and enough data: the transfer completes. *)
Lemma drain_benign ev len src :
  Forall benign ev -> (len <= length src)%nat ->
  exists ev', drain ev len src = (true, take len src, ev') /\ Forall benign ev'.
Proof.
  revert len src. induction ev as [|e ev IH]; intros [|len] src Hb Hl.
  - exists []. now split.
  - exists []. cbn [drain]. rewrite bool_decide_true by assumption. now split.
  - exists (e :: ev). now split.
  - inversion Hb as [|? ? He Hev]; subst. cbn [drain].
    destruct e as [| |k]; cbn in He; [now apply IH | easy|].
    destruct (Nat.min k (Nat.min (S len) (length src))) as [|n] eqn:En; [lia|].
    destruct (IH (S len - S n)%nat (drop (S n) src) Hev) as (ev' & E & Hb').
    { rewrite length_drop. lia. }
    rewrite E. exists ev'. split; [|assumption].
    rewrite take_take_drop.
    now replace (S n + (S len - S n))%nat with (S len) by lia.
Qed.

Lemma wdrain_prefix ev data b w ev' :
  wdrain ev data = (b, w, ev') ->
  (w <= length data)%nat /\ (b = true <-> w = length data).
Proof.
  revert data b w ev'. induction ev as [|e ev IH]; intros [|x data] b w ev'.
  - intros [= <- <- <-]. cbn. split; [lia | easy].
  - cbn [wdrain]. intros [= <- <- <-]. now split.
  - intros [= <- <- <-]. cbn. split; [lia | easy].
  - cbn [wdrain]. destruct e as [| |k]; [apply IH | |].
    { intros [= <- <- <-]. cbn. split; [lia | easy]. }
    destruct (Nat.min k (length (x :: data))) as [|n] eqn:En.
    { intros [= <- <- <-]. cbn. split; [lia | easy]. }
    destruct (wdrain ev (drop (S n) (x :: data))) as [[b1 w1] ev1] eqn:E1.
    intros [= <- <- <-]. destruct (IH _ _ _ _ E1) as [Hw Hb].
    rewrite length_drop in *. split; [lia|]. rewrite Hb. lia.
Qed.

Lemma wdrain_benign ev data :
  Forall benign ev ->
  exists ev', wdrain ev data = (true, length data, ev') /\ Forall benign ev'.
Proof.
  revert data. induction ev as [|e ev IH]; intros [|x data] Hb.
  - exists []. now split.
  - exists []. now split.
  - exists (e :: ev). now split.
  - inversion Hb as [|? ? He Hev]; subst. cbn [wdrain].
    destruct e as [| |k]; cbn in He; [now apply IH | easy|].
    destruct (Nat.min k (length (x :: data))) as [|n] eqn:En; [cbn in En; lia|].
    destruct (IH (drop (S n) (x :: data)) Hev) as (ev' & E & Hb').
    rewrite E. exists ev'. split; [|assumption].
    rewrite length_drop. do 2 f_equal. lia.
Qed.
End reference_facts.

(** ** The loops compute the reference

    A source of bytes: [view s pos] are the bytes that remain from position
    [pos], [adv s n ev] is the state after [n] bytes were delivered and the
    events [ev] are left. *)

Section read_loop_drain.
Context {St : Type} (sys : nat -> nat -> M St (sysret (list Z))).
Context (evs : St -> list io_event) (view : St -> nat -> list Z)
        (adv : St -> nat -> list io_event -> St).
Context (sys_spec : forall s pos len,
  sys pos len s =
  match io_step (evs s) (Nat.min len (length (view s pos))) with
  | (SysOk n, ev') => Done (SysOk (take n (view s pos)), adv s n ev')
  | (SysIntr, ev') => Done (SysIntr, adv s 0 ev')
  | (SysFail, ev') => Done (SysFail, adv s 0 ev')
  end).
Context (evs_adv : forall s n ev, evs (adv s n ev) = ev).
Context (view_adv : forall s pos n ev,
  view (adv s n ev) (pos + n) = drop n (view s pos)).
Context (adv_adv : forall s n ev n' ev',
  adv (adv s n ev) n' ev' = adv s (n + n') ev').
Context (adv_id : forall s, adv s 0 (evs s) = s).

(** No event left: one transfer, then the final test or end of file. *)
Lemma read_loop_quiet fuel pos len s :
  evs s = [] ->
  read_loop (S (S fuel)) sys pos (S len) s =
  Done ((bool_decide (S len <= length (view s pos))%nat, take (S len) (view s pos)),
        adv s (length (take (S len) (view s pos))) []).
Proof.
  intros Ev. cbn [read_loop]. unfold bind. rewrite sys_spec, Ev. cbn [io_step].
  remember (Nat.min (S len) (length (view s pos))) as n eqn:Hn.
  assert (take (S len) (view s pos) = take n (view s pos)) as Et.
  { destruct (decide (S len <= length (view s pos))%nat).
    - f_equal. lia.
    - rewrite !take_ge by lia. reflexivity. }
  assert (length (take n (view s pos)) = n) as Hl by (rewrite length_take; lia).
  rewrite Et, Hl. destruct (take n (view s pos)) as [|x c] eqn:Ec.
  { cbn in Hl. subst n. rewrite <- Hl, bool_decide_false by lia. reflexivity. }
  destruct (S len - n)%nat as [|k] eqn:Es.
  - cbn. rewrite app_nil_r, bool_decide_true by lia. reflexivity.
  - rewrite sys_spec, evs_adv, view_adv. cbn [io_step].
    rewrite (drop_ge (view s pos)) by lia. cbn.
    rewrite app_nil_r, adv_adv, Nat.add_0_r, bool_decide_false by lia.
    reflexivity.
Qed.

Lemma read_loop_drain fuel pos len s :
  (length (evs s) + 2 <= fuel)%nat ->
  read_loop fuel sys pos len s =
  let '(b, c, ev') := drain (evs s) len (view s pos) in
  Done ((b, c), adv s (length c) ev').
Proof.
  revert pos len s. induction fuel as [|fuel IH]; intros pos len s Hf; [lia|].
  destruct len as [|len].
  { cbn. destruct (evs s) eqn:E; cbn; rewrite <- E, adv_id; reflexivity. }
  destruct (evs s) as [|[| |k] ev] eqn:Ev.
  { destruct fuel as [|fuel]; [cbn in Hf; lia|]. now apply read_loop_quiet. }
  all: cbn [read_loop]; unfold bind; rewrite sys_spec, Ev; cbn [io_step drain].
  - rewrite IH, evs_adv by (rewrite evs_adv; cbn [length] in Hf; lia).
    rewrite <- (Nat.add_0_r pos) at 1. rewrite view_adv, drop_0.
    destruct (drain ev (S len) (view s pos)) as [[b c] ev'].
    now rewrite adv_adv.
  - reflexivity.
  - destruct (Nat.min k (Nat.min (S len) (length (view s pos)))) as [|n'] eqn:En;
      [now rewrite take_0|].
    destruct (take (S n') (view s pos)) as [|x c] eqn:Et.
    { apply (f_equal length) in Et. rewrite length_take in Et. cbn [length] in Et. lia. }
    assert (length (x :: c) = S n') as Hn by (rewrite <- Et, length_take; lia).
    rewrite Hn, IH, evs_adv, view_adv by (rewrite evs_adv; cbn [length] in Hf; lia).
    destruct (drain ev (S len - S n') (drop (S n') (view s pos))) as [[b c'] ev'].
    cbn. rewrite adv_adv, length_app. cbn [length] in Hn.
    unfold ret. replace (S n' + length c')%nat with (S (length c + length c')) by lia.
    reflexivity.
Qed.
End read_loop_drain.

(** A sink of bytes: [put s pos c ev] is the state after [c] was written at
    [pos] with the events [ev] left. *)
Section write_loop_drain.
Context {St : Type} (sys : nat -> list Z -> M St (sysret nat)).
Context (evs : St -> list io_event)
        (put : St -> nat -> list Z -> list io_event -> St).
Context (sys_spec : forall s pos data,
  sys pos data s =
  match io_step (evs s) (length data) with
  | (SysOk n, ev') => Done (SysOk n, put s pos (take n data) ev')
  | (SysIntr, ev') => Done (SysIntr, put s pos [] ev')
  | (SysFail, ev') => Done (SysFail, put s pos [] ev')
  end).
Context (evs_put : forall s pos c ev, evs (put s pos c ev) = ev).
Context (put_put : forall s pos c ev c' ev',
  put (put s pos c ev) (pos + length c) c' ev' = put s pos (c ++ c') ev').
Context (put_id : forall s pos, put s pos [] (evs s) = s).

Lemma write_loop_wdrain fuel pos data s :
  (length (evs s) + 2 <= fuel)%nat ->
  write_loop fuel sys pos data s =
  let '(b, w, ev') := wdrain (evs s) data in
  Done (b, put s pos (take w data) ev').
Proof.
  revert pos data s. induction fuel as [|fuel IH]; intros pos data s Hf; [lia|].
  destruct data as [|x data].
  { cbn. destruct (evs s) eqn:E; cbn; rewrite <- E, put_id; reflexivity. }
  cbn [write_loop]. unfold bind. rewrite sys_spec.
  destruct (evs s) as [|[| |k] ev] eqn:Ev; cbn [io_step wdrain].
  - destruct fuel as [|fuel]; [cbn in Hf; lia|].
    cbn [length write_loop]. rewrite drop_ge by (cbn; lia).
    rewrite take_ge by (cbn; lia). reflexivity.
  - rewrite IH, evs_put by (rewrite evs_put; cbn [length] in Hf; lia).
    destruct (wdrain ev (x :: data)) as [[b w] ev'].
    pose proof (put_put s pos [] ev (take w (x :: data)) ev') as E.
    cbn in E. rewrite Nat.add_0_r in E. cbn. now rewrite E.
  - reflexivity.
  - destruct (Nat.min k (length (x :: data))) as [|n] eqn:En; [reflexivity|].
    rewrite IH, evs_put by (rewrite evs_put; cbn [length] in Hf; lia).
    destruct (wdrain ev (drop (S n) (x :: data))) as [[b w] ev'].
    pose proof (put_put s pos (take (S n) (x :: data)) ev
                  (take w (drop (S n) (x :: data))) ev') as E.
    rewrite length_take, Nat.min_l, take_take_drop in E by lia. now rewrite E.
Qed.
End write_loop_drain.
