(* ===== verification/BlockBackend.v ===== *)
(** * The block image backend

    The first part of [src/drivers/virtio-blkd.c]: positioned reads and writes of
    the disk image with bounds and read-only checks. The host side is the image
    file, the part of it known to be on stable storage, and the outcomes of the
    system calls still to come. *)

From S2P Require Import Prelude Posix.

#[local] Open Scope Z_scope.
#[local] Open Scope c_scope.

Definition INT64_MAX : Z := 2 ^ 63 - 1.

Record blkd_block_backend : Type := {
  be_fd : Z;
  be_image_len : Z;   (* uint64_t *)
  be_readonly : bool;
}.

(** [h_alloc] are the outcomes of the next allocations (success when exhausted)
    and [h_junk] the contents of fresh heap memory. *)
Record host : Type := {
  h_file : list Z;
  h_durable : list Z;
  h_io : list io_event;
  h_alloc : list bool;
  h_junk : nat -> Z;
}.

Definition set_io (ev : list io_event) (h : host) : host :=
  {| h_file := h_file h; h_durable := h_durable h; h_io := ev;
     h_alloc := h_alloc h; h_junk := h_junk h |}.
Definition set_file (f : list Z) (ev : list io_event) (h : host) : host :=
  {| h_file := f; h_durable := h_durable h; h_io := ev; h_alloc := h_alloc h;
     h_junk := h_junk h |}.
Definition set_durable (f : list Z) (ev : list io_event) (h : host) : host :=
  {| h_file := h_file h; h_durable := f; h_io := ev; h_alloc := h_alloc h;
     h_junk := h_junk h |}.
Definition set_alloc (al : list bool) (h : host) : host :=
  {| h_file := h_file h; h_durable := h_durable h; h_io := h_io h;
     h_alloc := al; h_junk := h_junk h |}.

(** ** System calls on the image file *)

(** A file after [data] was written at [off]; a gap is filled with zeros. *)
Definition file_write (off : nat) (data f : list Z) : list Z :=
  match data with
  | [] => f
  | _ :: _ => take off (f ++ replicate (off - length f) 0) ++ data
              ++ drop (off + length data) f
  end.

Definition pread (offset : Z) (pos len : nat) : M host (sysret (list Z)) :=
  fun h =>
  let rest := drop (Z.to_nat offset + pos) (h_file h) in
  match io_step (h_io h) (Nat.min len (length rest)) with
  | (SysOk n, ev) => Done (SysOk (take n rest), set_io ev h)
  | (SysIntr, ev) => Done (SysIntr, set_io ev h)
  | (SysFail, ev) => Done (SysFail, set_io ev h)
  end.

Definition pwrite (offset : Z) (pos : nat) (data : list Z)
  : M host (sysret nat) := fun h =>
  match io_step (h_io h) (length data) with
  | (SysOk n, ev) =>
      Done (SysOk n,
            set_file (file_write (Z.to_nat offset + pos) (take n data) (h_file h))
                     ev h)
  | (SysIntr, ev) => Done (SysIntr, set_io ev h)
  | (SysFail, ev) => Done (SysFail, set_io ev h)
  end.

(** [fsync] makes the current contents durable, or fails. *)
Definition fsync : M host Z := fun h =>
  match io_step (h_io h) 0 with
  | (SysOk _, ev) => Done (0, set_durable (h_file h) ev h)
  | (_, ev) => Done (-1, set_io ev h)
  end.

(** ** Backend operations *)

Definition pread_all (len offset : Z) : M host (bool * list Z) := fun h =>
  read_loop (loop_fuel (h_io h)) (pread offset) 0 (Z.to_nat len) h.

Definition pwrite_all (buf : list Z) (offset : Z) : M host bool := fun h =>
  write_loop (loop_fuel (h_io h)) (pwrite offset) 0 buf h.

(** [open_ret] is what [open] returned, [fstat_ret] the size [fstat] reported,
    or [None] when it failed. The result is the returned flag, the backend, and
    the descriptors closed on the way. *)
Definition blkd_block_open (backend : blkd_block_backend) (open_ret : Z)
    (fstat_ret : option Z) (readonly : bool)
  : bool * blkd_block_backend * list Z :=
  if open_ret <? 0 then
    (false, {| be_fd := open_ret; be_image_len := be_image_len backend;
               be_readonly := be_readonly backend |}, [])
  else
    match fstat_ret with
    | None => (false, {| be_fd := -1; be_image_len := be_image_len backend;
                         be_readonly := be_readonly backend |}, [open_ret])
    | Some st_size => (true, {| be_fd := open_ret; be_image_len := u64 st_size;
                                be_readonly := readonly |}, [])
    end.

Definition blkd_block_close (backend : blkd_block_backend)
  : blkd_block_backend * list Z :=
  if 0 <=? be_fd backend
  then ({| be_fd := -1; be_image_len := be_image_len backend;
           be_readonly := be_readonly backend |}, [be_fd backend])
  else (backend, []).

Definition blkd_block_read (backend : blkd_block_backend) (offset len : Z)
  : M host (bool * list Z) :=
  if (be_image_len backend <? offset)
     || (u64 (be_image_len backend - offset) <? len)
     || (INT64_MAX <? offset)
  then ret (false, [])
  else pread_all len offset.

Definition blkd_block_write (backend : blkd_block_backend) (offset : Z)
    (buf : list Z) : M host bool :=
  if be_readonly backend || (be_image_len backend <? offset)
     || (u64 (be_image_len backend - offset) <? zlen buf)
     || (INT64_MAX <? offset)
  then ret false
  else pwrite_all buf offset.

Definition blkd_block_flush : M host bool :=
  r ← fsync; ret (r =? 0).

(** ** Closed forms *)

Section closed_forms.
Implicit Types h : host.

Lemma file_write_nonempty off d f : d <> [] ->
  file_write off d f =
  take off (f ++ replicate (off - length f) 0) ++ d ++ drop (off + length d) f.
Proof. now destruct d. Qed.

Lemma file_write_app off d1 d2 f :
  file_write (off + length d1) d2 (file_write off d1 f)
  = file_write off (d1 ++ d2) f.
Proof.
  destruct (decide (d1 = [])) as [->|H1]; [cbn; now rewrite Nat.add_0_r|].
  destruct (decide (d2 = [])) as [->|H2]; [now rewrite app_nil_r|].
  assert (d1 ++ d2 <> []) as H12 by (intros [? ?]%app_nil; congruence).
  rewrite !file_write_nonempty by assumption.
  remember (take off (f ++ replicate (off - length f) 0)) as p eqn:Ep.
  assert (length p = off) as Hp
    by (subst p; rewrite length_take, length_app, length_replicate; lia).
  assert (length (p ++ d1) = off + length d1)%nat as Hq
    by (rewrite length_app; lia).
  rewrite (app_assoc p d1), <- (app_assoc (p ++ d1) _ (replicate _ _)).
  rewrite <- Hq, take_app_length, drop_app_ge, drop_drop by lia.
  rewrite <- !app_assoc. do 3 f_equal. rewrite Hq, length_app. f_equal. lia.
Qed.

Lemma file_write_splice off data f :
  0 <= off -> off + zlen data <= zlen f ->
  file_write (Z.to_nat off) data f = splice off data f.
Proof.
  intros H0 Hl. unfold zlen in Hl. destruct data as [|x data].
  - cbn. now rewrite splice_nil.
  - unfold file_write, splice. f_equal.
    replace (Z.to_nat off - length f)%nat with O by lia.
    now rewrite app_nil_r.
Qed.

Lemma pread_all_eq len offset h :
  pread_all len offset h =
  let '(b, c, ev) := drain (h_io h) (Z.to_nat len)
                           (drop (Z.to_nat offset) (h_file h)) in
  Done ((b, c), set_io ev h).
Proof.
  unfold pread_all.
  rewrite (read_loop_drain (pread offset) h_io
    (fun h pos => drop (Z.to_nat offset + pos) (h_file h))
    (fun h _ ev => set_io ev h)); try reflexivity.
  - now rewrite Nat.add_0_r.
  - intros s pos n ev. cbn. rewrite drop_drop. f_equal. lia.
  - now intros [].
Qed.

Lemma pwrite_all_eq buf offset h :
  pwrite_all buf offset h =
  let '(b, w, ev) := wdrain (h_io h) buf in
  Done (b, set_file (file_write (Z.to_nat offset) (take w buf) (h_file h)) ev h).
Proof.
  unfold pwrite_all.
  rewrite (write_loop_wdrain (pwrite offset) h_io
    (fun h pos c ev =>
       set_file (file_write (Z.to_nat offset + pos) c (h_file h)) ev h));
    try reflexivity.
  - now rewrite Nat.add_0_r.
  - intros s pos c ev c' ev'. unfold set_file. cbn.
    rewrite Nat.add_assoc, file_write_app. reflexivity.
  - now intros [].
Qed.
End closed_forms.

(** ** Specifications *)

(** The image file is as long as it was when it was opened. *)
Record image_ok (be : blkd_block_backend) (h : host) : Prop := {
  io_len : zlen (h_file h) = be_image_len be;
  io_max : be_image_len be <= INT64_MAX;
  io_bytes : bytes (h_file h);
}.

(** Everything of the host except the image contents and pending events. *)
Definition host_rest (h : host) := (h_durable h, h_alloc h, h_junk h).

Section backend.
Context (be : blkd_block_backend).
Implicit Types (h : host) (off len : Z).

Definition read_in_bounds off len : bool :=
  (off + len <=? be_image_len be) && (off <=? INT64_MAX).

Lemma in_bounds_eq off len h :
  image_ok be h -> 0 <= off -> 0 <= len ->
  (be_image_len be <? off) || (u64 (be_image_len be - off) <? len)
    || (INT64_MAX <? off) = negb (read_in_bounds off len).
Proof.
  intros [Hl Hm Hb] Ho Hn. unfold read_in_bounds, zlen in *.
  destruct (be_image_len be <? off) eqn:E1; cbn [orb].
  { destruct (off + len <=? be_image_len be) eqn:E2; [lia|reflexivity]. }
  rewrite u64_small by (unfold in_width, INT64_MAX in *; lia).
  destruct (be_image_len be - off <? len) eqn:E2,
           (off + len <=? be_image_len be) eqn:E3, (INT64_MAX <? off) eqn:E4,
           (off <=? INT64_MAX) eqn:E5; cbn; lia.
Qed.

Lemma drop_slice off len h :
  take (Z.to_nat len) (drop (Z.to_nat off) (h_file h)) = slice off len (h_file h).
Proof. reflexivity. Qed.

(** Any events: what is read is a prefix of the addressed range, all of it on
    success, and the image is not changed. *)
Lemma block_read_any off len h :
  image_ok be h -> 0 <= off -> 0 <= len ->
  wp (blkd_block_read be off len) h (fun r h' =>
    h_file h' = h_file h /\ host_rest h' = host_rest h /\
    bytes (snd r) /\ zlen (snd r) <= len /\
    (fst r = true -> read_in_bounds off len = true /\
                     snd r = slice off len (h_file h) /\ zlen (snd r) = len)).
Proof.
  intros Hok Ho Hn. unfold blkd_block_read.
  rewrite (in_bounds_eq off len h) by assumption.
  destruct (read_in_bounds off len) eqn:Eb; cbn [negb].
  2:{ wpsimpl. cbn. repeat split; (constructor || easy). }
  unfold wpx. rewrite pread_all_eq.
  destruct (drain _ _ _) as [[b c] ev] eqn:Ed. cbn.
  destruct (drain_prefix _ _ _ _ _ _ Ed) as (Hc & Hl & Ht).
  destruct Hok as [Hlen _ Hby].
  split; [reflexivity|]. split; [reflexivity|]. split; [|split].
  - rewrite Hc. apply Forall_take, Forall_drop, Hby.
  - unfold zlen. lia.
  - intros E. destruct (Ht E) as [-> _]. split; [reflexivity|].
    rewrite drop_slice. split; [reflexivity|].
    unfold read_in_bounds in Eb. apply zlen_slice; lia.
Qed.

(** Benign events: an in-range read succeeds. *)
Lemma block_read_ok off len h :
  image_ok be h -> Forall benign (h_io h) -> 0 <= off -> 0 <= len ->
  off + len <= be_image_len be ->
  exists ev, blkd_block_read be off len h
             = Done ((true, slice off len (h_file h)), set_io ev h) /\
             Forall benign ev.
Proof.
  intros Hok Hev Ho Hn Hle. unfold blkd_block_read.
  rewrite (in_bounds_eq off len h) by assumption.
  replace (read_in_bounds off len) with true.
  2:{ unfold read_in_bounds. destruct Hok. lia. }
  cbn [negb]. rewrite pread_all_eq.
  destruct (drain_benign (h_io h) (Z.to_nat len)
              (drop (Z.to_nat off) (h_file h)) Hev) as (ev & -> & Hev').
  { destruct Hok as [Hl _ _]. unfold zlen in Hl. rewrite length_drop. lia. }
  exists ev. now split.
Qed.

(** Any events: the image changes by a prefix of the data at the requested
    place, by all of it on success, and not at all if the request is refused. *)
Lemma block_write_any off buf h :
  image_ok be h -> 0 <= off ->
  wp (blkd_block_write be off buf) h (fun b h' =>
    host_rest h' = host_rest h /\
    (h_file h' = h_file h /\ b = false \/
     be_readonly be = false /\ read_in_bounds off (zlen buf) = true /\
     exists w, (w <= length buf)%nat /\ (b = true <-> w = length buf) /\
               h_file h' = splice off (take w buf) (h_file h))).
Proof.
  intros Hok Ho. unfold blkd_block_write.
  destruct (be_readonly be) eqn:Er; cbn [orb].
  { wpsimpl. split; [reflexivity | now left]. }
  rewrite (in_bounds_eq off (zlen buf) h) by (assumption || unfold zlen; lia).
  destruct (read_in_bounds off (zlen buf)) eqn:Eb; cbn [negb].
  2:{ wpsimpl. split; [reflexivity | now left]. }
  unfold wpx. rewrite pwrite_all_eq.
  destruct (wdrain _ _) as [[b w] ev] eqn:Ed. cbn.
  destruct (wdrain_prefix _ _ _ _ _ Ed) as [Hw Hb].
  split; [reflexivity|]. right. split; [reflexivity|]. split; [reflexivity|].
  exists w. split; [assumption|]. split; [assumption|].
  destruct Hok as [Hl _ _]. unfold read_in_bounds, zlen in *.
  apply file_write_splice; [assumption|]. unfold zlen. rewrite length_take. lia.
Qed.

Lemma block_write_ok off buf h :
  image_ok be h -> Forall benign (h_io h) -> be_readonly be = false ->
  0 <= off -> off + zlen buf <= be_image_len be ->
  exists ev, blkd_block_write be off buf h
             = Done (true, set_file (splice off buf (h_file h)) ev h) /\
             Forall benign ev.
Proof.
  intros Hok Hev Hr Ho Hle. unfold blkd_block_write. rewrite Hr. cbn [orb].
  rewrite (in_bounds_eq off (zlen buf) h) by (assumption || unfold zlen; lia).
  replace (read_in_bounds off (zlen buf)) with true.
  2:{ unfold read_in_bounds. destruct Hok. unfold zlen in *. lia. }
  cbn [negb]. rewrite pwrite_all_eq.
  destruct (wdrain_benign (h_io h) buf Hev) as (ev & -> & Hev').
  exists ev. split; [|assumption]. rewrite take_ge by lia.
  rewrite file_write_splice; [reflexivity | assumption|].
  destruct Hok as [-> _ _]. assumption.
Qed.

(** A write keeps the image well formed. *)
Lemma splice_prefix_image off (w : nat) buf f :
  bytes buf -> bytes f -> 0 <= off -> off + zlen buf <= zlen f ->
  bytes (splice off (take w buf) f) /\ zlen (splice off (take w buf) f) = zlen f.
Proof.
  intros. split.
  - apply bytes_splice; [now apply Forall_take | assumption].
  - apply zlen_splice; [assumption|]. unfold zlen in *. rewrite length_take. lia.
Qed.
End backend.

(** ** Claims *)

Definition sample_backend : blkd_block_backend :=
  {| be_fd := 3; be_image_len := 16; be_readonly := false |}.
Definition sample_host (ev : list io_event) : host :=
  {| h_file := replicate 16 7; h_durable := []; h_io := ev; h_alloc := [];
     h_junk := fun _ => 0xa5 |}.

Lemma sample_image_ok ev : image_ok sample_backend (sample_host ev).
Proof.
  split; cbn; [reflexivity | unfold INT64_MAX; lia|].
  repeat constructor; unfold is_byte; lia.
Qed.

(** The positioned read loop is total and exact. Whatever sequence of
    interruptions, errors and short counts the kernel produces, a block read
    returns; it never changes the image; the bytes delivered are a prefix of the
    addressed range, and if it reports success the range was inside the image
    and was delivered completely. *)
Theorem block_read_total_exact be off len h :
  image_ok be h -> 0 <= off -> 0 <= len ->
  exists b data h', blkd_block_read be off len h = Done ((b, data), h') /\
    h_file h' = h_file h /\
    data = take (length data) (slice off len (h_file h)) /\
    (b = true -> off + len <= be_image_len be /\ data = slice off len (h_file h)).
Proof.
  intros Hok Ho Hn.
  destruct (wp_elim _ _ _ (block_read_any be off len h Hok Ho Hn))
    as ([b data] & h' & E & Hf & _ & _ & Hl & Ht). cbn in *.
  exists b, data, h'. split; [assumption|]. split; [assumption|]. split.
  2:{ intros Eb. destruct (Ht Eb) as (Hb & Hd & _). split; [|assumption].
      unfold read_in_bounds in Hb. lia. }
  revert E. unfold blkd_block_read. rewrite (in_bounds_eq be off len h) by assumption.
  destruct (read_in_bounds be off len); cbn [negb]; [|now intros [= <- <- <-]].
  rewrite pread_all_eq. destruct (drain _ _ _) as [[b' c] ev] eqn:Ed.
  intros [= <- <- <-]. destruct (drain_prefix _ _ _ _ _ _ Ed) as (Hc & Hlc & _).
  unfold slice. rewrite take_take, Nat.min_l by assumption. exact Hc.
Qed.

Lemma block_read_total_exact_witness :
  exists b data h',
    blkd_block_read sample_backend 4 8 (sample_host [IoIntr; IoShort 3; IoIntr])
    = Done ((b, data), h') /\ b = true /\ length data = 8%nat.
Proof.
  destruct (block_read_total_exact sample_backend 4 8
    (sample_host [IoIntr; IoShort 3; IoIntr]) (sample_image_ok _)
    ltac:(lia) ltac:(lia)) as (b & data & h' & E & _).
  exists b, data, h'. split; [exact E|]. vm_compute in E.
  injection E as <- <- _. split; reflexivity.
Defined.

(** Block writes are confined and read-only images are immutable. Under any
    kernel behaviour a block write returns, keeps the image length, and changes
    only bytes of the requested range, to a prefix of the buffer; success means
    the whole buffer is in place, and a read-only or out-of-range request changes
    nothing. *)
Theorem block_write_confined be off buf h :
  image_ok be h -> bytes buf -> 0 <= off ->
  exists b h', blkd_block_write be off buf h = Done (b, h') /\
    image_ok be h' /\
    (be_readonly be = true \/ be_image_len be < off + zlen buf ->
       b = false /\ h_file h' = h_file h) /\
    (forall i, Z.of_nat i < off \/ off + zlen buf <= Z.of_nat i ->
       h_file h' !! i = h_file h !! i) /\
    (b = true -> slice off (zlen buf) (h_file h') = buf).
Proof.
  intros Hok Hb Ho.
  destruct (wp_elim _ _ _ (block_write_any be off buf h Hok Ho))
    as (b & h' & E & _ & [[Hf ->]|(Hr & Hin & w & Hw & Ht & Hf)]);
    exists b || exists false; exists h'; (split; [assumption|]).
  - split; [destruct Hok; split; rewrite ?Hf; assumption|].
    split; [now intros _; split|]. split; [now intros; rewrite Hf | easy].
  - pose proof Hok as [Hl Hm Hby]. unfold read_in_bounds in Hin.
    assert (off + zlen buf <= zlen (h_file h)) as Hle by lia.
    destruct (splice_prefix_image off w buf (h_file h) Hb Hby Ho Hle) as [Hb' Hl'].
    split; [split; rewrite ?Hf; [congruence | assumption | assumption]|].
    split; [intros [?|?]; [congruence | lia]|]. split.
    + intros i Hi. rewrite Hf. apply lookup_splice_out; unfold zlen in *;
        rewrite ?length_take; lia.
    + intros Et. apply Ht in Et. subst w. rewrite Hf, take_ge by lia.
      now apply slice_splice_same.
Qed.

Lemma block_write_confined_witness :
  exists b h', blkd_block_write sample_backend 2 [1; 2; 3]
      (sample_host [IoShort 1; IoIntr; IoFail]) = Done (b, h') /\
    b = false /\ h_file h' !! 2%nat = Some 1 /\ h_file h' !! 5%nat = Some 7.
Proof.
  destruct (block_write_confined sample_backend 2 [1; 2; 3]
    (sample_host [IoShort 1; IoIntr; IoFail]) (sample_image_ok _)
    ltac:(repeat constructor; unfold is_byte; lia) ltac:(lia))
    as (b & h' & E & _).
  exists b, h'. split; [exact E|]. vm_compute in E. injection E as <- <-.
  repeat split.
Defined.

(** Insert/lookup round trip of the image. Under benign kernel behaviour
    (interruptions and short counts only), writing a buffer inside a writable
    image succeeds and reading the range back returns it. *)
Theorem block_write_read_roundtrip be off buf h :
  image_ok be h -> Forall benign (h_io h) -> bytes buf ->
  be_readonly be = false -> 0 <= off -> off + zlen buf <= be_image_len be ->
  exists h1 h2, blkd_block_write be off buf h = Done (true, h1) /\
                blkd_block_read be off (zlen buf) h1 = Done ((true, buf), h2).
Proof.
  intros Hok Hev Hb Hr Ho Hle.
  destruct (block_write_ok be off buf h Hok Hev Hr Ho Hle) as (ev1 & E1 & Hev1).
  pose proof Hok as [Hl Hm Hby].
  set (h1 := set_file (splice off buf (h_file h)) ev1 h) in *.
  assert (image_ok be h1) as Hok1.
  { split; cbn; [|assumption | now apply bytes_splice].
    rewrite <- Hl. apply zlen_splice; lia. }
  destruct (block_read_ok be off (zlen buf) h1 Hok1 Hev1 Ho) as (ev2 & E2 & _);
    [unfold zlen; lia | assumption|].
  exists h1, (set_io ev2 h1). split; [assumption|]. rewrite E2. cbn [h_file h1].
  subst h1. cbn [h_file set_file]. rewrite slice_splice_same; [reflexivity | lia | lia].
Qed.

Lemma block_write_read_roundtrip_witness :
  exists h1 h2,
    blkd_block_write sample_backend 5 [9; 8] (sample_host [IoShort 1; IoIntr])
      = Done (true, h1) /\
    blkd_block_read sample_backend 5 2 h1 = Done ((true, [9; 8]), h2).
Proof.
  apply (block_write_read_roundtrip sample_backend 5 [9; 8]
           (sample_host [IoShort 1; IoIntr]) (sample_image_ok _)).
  - repeat constructor; cbn; lia.
  - repeat constructor; unfold is_byte; lia.
  - reflexivity.
  - lia.
  - vm_compute. discriminate.
Defined.
