(* ===== verification/QueueService.v ===== *)
(** * Serving a virtqueue

    The notification handlers of both drivers ([blkd_virtio_notify_queue] in
    [src/drivers/virtio-blkd.c], [cond_virtio_notify_queue] in
    [src/drivers/virtio-consoled.c]) run the same loop around their own chain
    handler: fetch the next head (polling a little when the ring looks empty),
    process the chain, publish it in the used ring, advance the cursor. The loop
    is written once here, over a fabric state [F] and a driver state [D]. *)

From S2P Require Import Prelude Endian Fabric Virtio VirtioMmio.

#[local] Open Scope Z_scope.
#[local] Open Scope c_scope.

(** Computations on the fabric and on the driver half of the state. *)
Definition liftF {F D A} (m : M F A) : M (F * D) A :=
  zoom fst (fun f s => (f, snd s)) m.
Definition liftD {F D A} (m : M D A) : M (F * D) A :=
  zoom snd (fun d s => (fst s, d)) m.

Lemma wpx_liftF {F D A} term (m : M F A) (s : F * D) Q :
  wpx term (liftF m) s Q <-> wpx term m (fst s) (fun a f => Q a (f, snd s)).
Proof. unfold liftF, liftD. now rewrite wpx_zoom. Qed.

Lemma wpx_liftD {F D A} term (m : M D A) (s : F * D) Q :
  wpx term (liftD m) s Q <-> wpx term m (snd s) (fun a d => Q a (fst s, d)).
Proof. unfold liftF, liftD. now rewrite wpx_zoom. Qed.

#[global] Hint Rewrite @wpx_liftF @wpx_liftD : wpx.

(** The cursor increment [last_avail_idx++]. *)
Definition advance_cursor (q : virtio_queue) : virtio_queue :=
  {| q_num := q_num q; q_ready := q_ready q; q_desc := q_desc q;
     q_avail := q_avail q; q_used := q_used q;
     q_last_avail_idx := u16 (q_last_avail_idx q + 1) |}.

Section poll.
Context {F : Type} `{Fabric F}.

(** [while (retries++ < 20) { usleep(1000); ... }] *)
Fixpoint retry_avail (retries : nat) (q : virtio_queue)
  : M F (option (option Z)) :=
  match retries with
  | O => ret (Some None)
  | S retries =>
      fabric_usleep 1000;;
      r ←? virtio_next_avail q;
      match r with
      | Some head => ret (Some (Some head))
      | None => retry_avail retries q
      end
  end.

Definition poll_avail (q : virtio_queue) : M F (option (option Z)) :=
  r ←? virtio_next_avail q;
  match r with
  | Some head => ret (Some (Some head))
  | None => retry_avail 20 q
  end.
End poll.

Section service.
Context {F D : Type} `{Fabric F}.
(** The queue being served, the cursor update on the driver state, and the
    chain handler ([None]: failure, [Some used_len]). *)
Context (queue_of : D -> virtio_queue) (bump : D -> D)
        (process : Z -> M (F * D) (option Z)).

(** The [for (;;)] loop: [None] when it returns [false], [Some used_any] when
    it leaves with an empty ring. *)
Fixpoint service_loop (fuel : nat) (used_any : bool)
  : M (F * D) (option bool) :=
  match fuel with
  | O => out_of_fuel
  | S fuel =>
      q ← gets (fun s => queue_of (snd s));
      r ←? liftF (poll_avail q);
      match r with
      | None => ret (Some used_any)
      | Some head =>
          used_len ←? process head;
          q ← gets (fun s => queue_of (snd s));
          ok ← liftF (virtio_add_used q head used_len);
          if negb ok then ret None else
          (modify (fun s => (fst s, bump (snd s))));;
          service_loop fuel true
      end
  end.
End service.

(** ** Polling *)

Section poll_facts.
Context {F : Type} `{FabricSafe F}.

Lemma retry_avail_safe n q f : fab_ok f -> u16 (q_num q) <> 0 ->
  wp (retry_avail n q) f (fun r f' =>
    fab_ok f' /\ forall h, r = Some (Some h) -> in_width 16 h).
Proof.
  revert f. induction n as [|n IH]; intros f Hok Hn; cbn [retry_avail].
  { wpsimpl. easy. }
  wpsimpl. wpuse fs_usleep; [assumption|]. intros _ f1 Hok1. wpsimpl.
  wpuse virtio_next_avail_safe; [assumption | assumption|].
  intros [[h|]|] f2 [Hok2 Hh]; wpsimpl; [|now apply IH | easy].
  split; [assumption|]. intros ? [= <-]. now apply Hh.
Qed.

Lemma poll_avail_safe q f : fab_ok f -> u16 (q_num q) <> 0 ->
  wp (poll_avail q) f (fun r f' =>
    fab_ok f' /\ forall h, r = Some (Some h) -> in_width 16 h).
Proof.
  intros Hok Hn. unfold poll_avail. wpsimpl.
  wpuse virtio_next_avail_safe; [assumption | assumption|].
  intros [[h|]|] f2 [Hok2 Hh]; wpsimpl;
    [|now apply retry_avail_safe | easy].
  split; [assumption|]. intros ? [= <-]. now apply Hh.
Qed.
End poll_facts.

Section poll_ram.
Context {F : Type} `{RamFabric F}.

(** An empty ring stays empty while the guest is quiescent. *)
Lemma retry_avail_empty n q f :
  ram_ok f -> rings_ok (peek f) q -> in_width 16 (q_last_avail_idx q) ->
  mem_at (peek f) (q_avail q + 2) (virtio_store_le16 (q_last_avail_idx q)) ->
  wp (retry_avail n q) f (fun r f' =>
    r = Some None /\ peek f' ≡m peek f /\ ram_ok f').
Proof.
  revert f. induction n as [|n IH]; intros f Hok Hr Hl Hm; cbn [retry_avail].
  { wpsimpl. easy. }
  wpsimpl. wpuse ram_usleep; [assumption|]. intros _ f1 [Hp1 Hok1]. wpsimpl.
  wpuse virtio_next_avail_empty; try eassumption.
  { eapply rings_ok_proper; [symmetry; eassumption | assumption]. }
  { now rewrite Hp1. }
  intros ? f2 (-> & Hp2 & Hok2). wpsimpl.
  assert (peek f2 ≡m peek f) as Hp by (now rewrite Hp2).
  wpuse IH; try assumption.
  { eapply rings_ok_proper; [symmetry; eassumption | assumption]. }
  { now rewrite Hp. }
  intros ? f3 (-> & Hp3 & Hok3). rewrite Hp3. tauto.
Qed.

Lemma poll_avail_empty q f :
  ram_ok f -> rings_ok (peek f) q -> in_width 16 (q_last_avail_idx q) ->
  mem_at (peek f) (q_avail q + 2) (virtio_store_le16 (q_last_avail_idx q)) ->
  wp (poll_avail q) f (fun r f' =>
    r = Some None /\ peek f' ≡m peek f /\ ram_ok f').
Proof.
  intros Hok Hr Hl Hm. unfold poll_avail. wpsimpl.
  wpuse virtio_next_avail_empty; try eassumption.
  intros ? f1 (-> & Hp1 & Hok1). wpsimpl.
  wpuse retry_avail_empty; try assumption.
  { eapply rings_ok_proper; [symmetry; eassumption | assumption]. }
  { now rewrite Hp1. }
  intros ? f2 (-> & Hp2 & Hok2). rewrite Hp2. tauto.
Qed.

Lemma poll_avail_ram q avail_idx head f :
  ram_ok f -> rings_ok (peek f) q -> in_width 16 avail_idx ->
  in_width 16 head -> q_last_avail_idx q <> avail_idx ->
  mem_at (peek f) (q_avail q + 2) (virtio_store_le16 avail_idx) ->
  mem_at (peek f) (avail_slot q (q_last_avail_idx q)) (virtio_store_le16 head) ->
  wp (poll_avail q) f (fun r f' =>
    r = Some (Some head) /\ peek f' ≡m peek f /\ ram_ok f').
Proof.
  intros. unfold poll_avail. wpsimpl.
  wpuse (virtio_next_avail_ram q avail_idx head); try assumption.
  intros ? f1 (-> & Hp1 & Hok1). wpsimpl. tauto.
Qed.
End poll_ram.

(** ** The service loop

    An invariant of the fabric and driver state that the chain handler and the
    cursor update keep is kept by the loop; nothing undefined happens on the way. *)

Section service_facts.
Context {F D : Type} `{FabricSafe F}.
Context (queue_of : D -> virtio_queue) (bump : D -> D)
        (process : Z -> M (F * D) (option Z)).
Context (Inv : D -> Prop).
Hypothesis inv_num : forall d, Inv d -> u16 (q_num (queue_of d)) <> 0.
Hypothesis inv_bump : forall d, Inv d -> Inv (bump d).
Hypothesis inv_process : forall f d head,
  fab_ok f -> Inv d -> in_width 16 head ->
  wlp (process head) (f, d) (fun _ s => fab_ok (fst s) /\ Inv (snd s)).

Lemma service_loop_safe fuel used_any f d :
  fab_ok f -> Inv d ->
  wlp (service_loop queue_of bump process fuel used_any) (f, d) (fun _ s =>
    fab_ok (fst s) /\ Inv (snd s)).
Proof.
  revert used_any f d. induction fuel as [|fuel IH]; intros used_any f d Hf Hd;
    cbn [service_loop]; [reflexivity|].
  wpsimpl. cbn [fst snd]. wptotal poll_avail_safe; [assumption | now apply inv_num|].
  intros [[head|]|] f1 [Hf1 Hh]; wpsimpl; [|easy|easy].
  wpuse inv_process; [assumption | assumption | now apply Hh |].
  intros [used_len|] [f2 d2] [Hf2 Hd2]; [|easy]. wpsimpl. cbn [fst snd] in *.
  wptotal virtio_add_used_safe; [assumption | now apply inv_num|].
  intros [] f3 Hf3; cbn [negb]; wpsimpl; [|easy].
  apply IH; [assumption | now apply inv_bump].
Qed.
End service_facts.

(** On quiescent memory the loop serves exactly the pending heads, in ring order,
    and stops. [Inv k] describes the state after [k] of them. *)
Section service_ram.
Context {F D : Type} `{RamFabric F}.
Context (queue_of : D -> virtio_queue) (bump : D -> D)
        (process : Z -> M (F * D) (option Z)).
Context (heads : list Z) (Inv : nat -> F -> D -> Prop) (avail_idx : Z).
Hypothesis avail_width : in_width 16 avail_idx.

Hypothesis inv_state : forall k f d, Inv k f d ->
  ram_ok f /\ rings_ok (peek f) (queue_of d) /\
  in_width 16 (q_last_avail_idx (queue_of d)) /\
  mem_at (peek f) (q_avail (queue_of d) + 2) (virtio_store_le16 avail_idx).
Hypothesis inv_pending : forall k f d head, Inv k f d -> heads !! k = Some head ->
  in_width 16 head /\ q_last_avail_idx (queue_of d) <> avail_idx /\
  mem_at (peek f) (avail_slot (queue_of d) (q_last_avail_idx (queue_of d)))
         (virtio_store_le16 head).
Hypothesis inv_end : forall f d, Inv (length heads) f d ->
  q_last_avail_idx (queue_of d) = avail_idx.
Hypothesis inv_peek : forall k f f' d, Inv k f d -> ram_ok f' ->
  peek f' ≡m peek f -> Inv k f' d.
Hypothesis inv_process : forall k f d head, Inv k f d -> heads !! k = Some head ->
  wp (process head) (f, d) (fun r s =>
    exists used_len used_idx, r = Some used_len /\ ram_ok (fst s) /\
      rings_ok (peek (fst s)) (queue_of (snd s)) /\ in_width 16 used_idx /\
      mem_at (peek (fst s)) (q_used (queue_of (snd s)) + 2)
             (virtio_store_le16 used_idx) /\
      forall f', ram_ok f' ->
        peek f' ≡m used_push (peek (fst s)) (queue_of (snd s)) used_idx head used_len ->
        Inv (S k) f' (bump (snd s))).

Lemma service_loop_ram k fuel used_any f d :
  (k <= length heads)%nat -> (length heads < fuel + k)%nat -> Inv k f d ->
  wp (service_loop queue_of bump process fuel used_any) (f, d) (fun r s =>
    r = Some (used_any || (k <? length heads)%nat) /\
    Inv (length heads) (fst s) (snd s)).
Proof.
  revert k used_any f d. induction fuel as [|fuel IH];
    intros k used_any f d Hk Hfuel Hinv; [lia|]. cbn [service_loop].
  destruct (inv_state _ _ _ Hinv) as (Hf & Hr & Hc & Ha).
  rewrite wpx_bind, wpx_gets, wpx_try, wpx_liftF. cbn [fst snd].
  destruct (heads !! k) as [head|] eqn:Eh.
  - pose proof (lookup_lt_Some _ _ _ Eh) as Hlt.
    destruct (inv_pending _ _ _ _ Hinv Eh) as (Hh & Hne & Hs).
    wpuse (poll_avail_ram (queue_of d) avail_idx head); try assumption.
    intros ? f1 (-> & Hp1 & Hf1). wpsimpl.
    assert (Inv k f1 d) as Hinv1 by (eapply inv_peek; eassumption).
    wpuse (inv_process k); [eassumption | assumption|].
    intros ? [f2 d2] (ul & ui & -> & Hf2 & Hr2 & Hui & Hu & Hnext). wpsimpl.
    cbn [fst snd] in *. wpuse (virtio_add_used_ram _ ui); try assumption.
    intros ? f3 (-> & Hp3 & Hf3). cbn [negb]. wpsimpl. cbn [fst snd].
    wpuse (IH (S k) true f3); [lia | lia | now apply Hnext |].
    intros r s [-> Hend]. split; [|assumption]. cbn [orb].
    rewrite (proj2 (Nat.ltb_lt _ _)) by lia. now rewrite orb_true_r.
  - apply lookup_ge_None in Eh. assert (k = length heads) as -> by lia.
    pose proof (inv_end _ _ Hinv) as E. rewrite <- E in Ha.
    wpuse poll_avail_empty; try assumption.
    intros ? f1 (-> & Hp1 & Hf1). wpsimpl. cbn [fst snd].
    split; [rewrite Nat.ltb_irrefl; now rewrite orb_false_r|].
    eapply inv_peek; eassumption.
Qed.
End service_ram.
