(* ===== verification/Rings.v ===== *)
(** * Rings and descriptor chains in guest memory

    Representation predicates shared by the drivers: a descriptor chain in the
    table, memories that agree outside the bytes a driver writes, and the used ring
    as it fills up. *)

From S2P Require Import Prelude Endian Fabric Virtio QueueService.

#[local] Open Scope Z_scope.
#[local] Open Scope c_scope.

(** ** Chains in guest memory *)

(** Entry [index] of the descriptor table holds [d]. *)
Definition desc_at (m : mem) (q : virtio_queue) (index : Z) (d : virtio_desc) : Prop :=
  desc_wf d /\ addr_range (desc_slot q index) 16 /\
  mem_at m (desc_slot q index) (encode_desc d).

(** From [index] on, the table holds the data descriptors [segs] linked to one
    another and to the final descriptor [sd]. *)
Fixpoint chain_at (m : mem) (q : virtio_queue) (index : Z)
    (segs : list virtio_desc) (sd : virtio_desc) : Prop :=
  match segs with
  | [] => desc_at m q index sd /\ has_bit (d_flags sd) VRING_DESC_F_NEXT = false
  | d :: segs => desc_at m q index d /\ has_bit (d_flags d) VRING_DESC_F_NEXT = true /\
                 chain_at m q (d_next d) segs sd
  end.

(** The table entries the chain occupies. *)
Fixpoint chain_slots (q : virtio_queue) (index : Z) (segs : list virtio_desc)
  : list Z :=
  desc_slot q index ::
  match segs with
  | [] => []
  | d :: segs => chain_slots q (d_next d) segs
  end.

(** The range a descriptor designates. *)
Definition seg_range (d : virtio_desc) : Prop := addr_range (d_addr d) (d_len d).

Section chain_facts.
Implicit Types m : mem.

Lemma desc_at_proper m1 m2 q i d : m1 ≡m m2 -> desc_at m1 q i d -> desc_at m2 q i d.
Proof. intros E (? & ? & ?). now split; [|split; [|rewrite <- E]]. Qed.

Lemma chain_at_proper m1 m2 q i segs sd :
  m1 ≡m m2 -> chain_at m1 q i segs sd -> chain_at m2 q i segs sd.
Proof.
  intros E. revert i. induction segs as [|d segs IH]; intros i; cbn.
  - intros [? ?]. split; [eapply desc_at_proper; eassumption | assumption].
  - intros (? & ? & ?).
    split; [eapply desc_at_proper; eassumption | split; [assumption | now apply IH]].
Qed.

Lemma desc_at_write m q i d a data :
  disjoint_ranges a (zlen data) (desc_slot q i) 16 ->
  desc_at m q i d -> desc_at (mem_write m a data) q i d.
Proof.
  intros D (? & ? & Hm). split; [assumption|]. split; [assumption|].
  now apply mem_at_write_disjoint; [rewrite zlen_encode_desc|].
Qed.

Lemma chain_at_write m q i segs sd a data :
  Forall (fun slot => disjoint_ranges a (zlen data) slot 16) (chain_slots q i segs) ->
  chain_at m q i segs sd -> chain_at (mem_write m a data) q i segs sd.
Proof.
  revert i. induction segs as [|d segs IH]; intros i; cbn [chain_at chain_slots];
    intros [D Ds]%Forall_cons_iff.
  - intros [? ?]. split; [now apply desc_at_write | assumption].
  - intros (? & ? & ?). split; [now apply desc_at_write|]. split; [assumption|].
    now apply IH.
Qed.
End chain_facts.

Lemma chain_at_last m q i segs sd : chain_at m q i segs sd -> desc_wf sd.
Proof.
  revert i. induction segs as [|d segs IH]; intros i; cbn.
  - intros [[? _] _]. assumption.
  - intros (_ & _ & ?). eapply IH. eassumption.
Qed.

(** A data descriptor and the payload it designates. *)
Definition payload_at (m : mem) (s : virtio_desc * list Z) : Prop :=
  bytes s.2 /\ zlen s.2 = d_len s.1 /\ seg_range s.1 /\ mem_at m (d_addr s.1) s.2.

Lemma payload_at_proper m1 m2 s : m1 ≡m m2 -> payload_at m1 s -> payload_at m2 s.
Proof. intros E (? & ? & ? & ?). now rewrite E in *. Qed.

Definition device_readable (d : virtio_desc) : Prop :=
  has_bit (d_flags d) VRING_DESC_F_WRITE = false.
Definition device_writable (d : virtio_desc) : Prop :=
  has_bit (d_flags d) VRING_DESC_F_WRITE = true.

(** ** Memories that agree outside a set of addresses *)

Record agree (W : Z -> Prop) (m0 m : mem) : Prop := {
  ag_out : forall a, ~ W a -> m a = m0 a;
  ag_mapped : forall a, is_Some (m0 a) -> is_Some (m a);
}.

Section agree.
Context (W : Z -> Prop).
Implicit Types m : mem.

Lemma agree_refl m : agree W m m.
Proof. now split. Qed.

Lemma agree_proper m0 m m' : m' ≡m m -> agree W m0 m -> agree W m0 m'.
Proof. intros E [Ho Hm]. split; intros a Ha; rewrite (E a); auto. Qed.

Lemma agree_write m0 m a data :
  (forall x, a <= x < a + zlen data -> W x) ->
  agree W m0 m -> agree W m0 (mem_write m a data).
Proof.
  intros Hw [Ho Hm]. split.
  - intros x Hx. rewrite mem_write_out; [now apply Ho|].
    destruct (decide (a <= x < a + zlen data)); [destruct Hx; auto | lia].
  - intros x Hx. destruct (mapped_write m a data x 1) with (x := x) as [v E];
      [|lia | now exists v].
    intros y Hy. replace y with x by lia. auto.
Qed.

Lemma mem_at_agree m0 m a data :
  (forall x, a <= x < a + zlen data -> ~ W x) ->
  agree W m0 m -> mem_at m0 a data -> mem_at m a data.
Proof.
  intros Hw [Ho _] Hm i x Hi. pose proof (lookup_lt_Some _ _ _ Hi).
  rewrite Ho; [now apply Hm | apply Hw; unfold zlen; lia].
Qed.

Lemma mapped_agree m0 m a len : agree W m0 m -> mapped m0 a len -> mapped m a len.
Proof. intros [_ Hm] H x Hx. auto. Qed.

Lemma rings_ok_agree m0 m q : agree W m0 m -> rings_ok m0 q -> rings_ok m q.
Proof. intros Ha [? ? ? ?]. split; auto. eapply mapped_agree; eassumption. Qed.
End agree.

(** The queue with its cursor moved. *)
Definition cursor_to (q : virtio_queue) (c : Z) : virtio_queue :=
  {| q_num := q_num q; q_ready := q_ready q; q_desc := q_desc q;
     q_avail := q_avail q; q_used := q_used q; q_last_avail_idx := c |}.

(** A request does not depend on the cursor. *)
Lemma chain_at_cursor m q c i segs sd :
  chain_at m q i segs sd -> chain_at m (cursor_to q c) i segs sd.
Proof.
  revert i. induction segs as [|d segs IH]; intros i; [easy|]. cbn.
  intros (? & ? & ?). auto.
Qed.

(** ** The used ring *)

Section used_ring.
Context (q : virtio_queue).

(** Slots of indices less than a ring apart do not overlap. *)
Lemma slot_distinct u i j :
  (ring_size q | 2 ^ 16) -> 0 < ring_size q -> i < j -> j - i < ring_size q ->
  disjoint_ranges (used_slot q (u16 (u + j))) 8 (used_slot q (u16 (u + i))) 8.
Proof.
  intros Hdiv Hs Hij Hlt. unfold used_slot, disjoint_ranges, u16.
  rewrite !Z.mod_mod_divide by assumption.
  assert ((u + i) mod ring_size q <> (u + j) mod ring_size q); [|lia].
  intros E. generalize dependent (ring_size q). intros n _ Hs Hlt E.
  pose proof (Z.div_mod (u + i) n ltac:(lia)) as Hi.
  pose proof (Z.div_mod (u + j) n ltac:(lia)) as Hj. rewrite E in Hi.
  assert (n * ((u + j) / n - (u + i) / n) = j - i) as Ht
    by (rewrite Z.mul_sub_distr_l; lia).
  destruct (Z.le_gt_cases 1 ((u + j) / n - (u + i) / n)); nia.
Qed.

Lemma slot_inside idx : 0 < ring_size q ->
  q_used q + 4 <= used_slot q idx /\
  used_slot q idx + 8 <= q_used q + (4 + ring_size q * 8).
Proof. intros Hs. pose proof (slot_bounds q idx Hs). unfold used_slot. lia. Qed.

Lemma used_push_index m idx head len :
  mem_at (used_push m q idx head len) (q_used q + 2)
         (virtio_store_le16 (u16 (idx + 1))).
Proof. apply mem_at_write_same. Qed.

Lemma used_push_entry m idx head len : 0 < ring_size q ->
  mem_at (used_push m q idx head len) (used_slot q idx)
         (virtio_store_le32 head ++ virtio_store_le32 len).
Proof.
  intros Hs. destruct (slot_inside idx Hs). unfold used_push.
  apply mem_at_write_disjoint.
  { left. change (zlen (virtio_store_le16 _)) with 2. lia. }
  apply mem_at_app. change (zlen (virtio_store_le32 head)) with 4. split.
  - apply mem_at_write_disjoint; [right; change (zlen _) with 4; lia|].
    apply mem_at_write_same.
  - apply mem_at_write_same.
Qed.

Lemma used_push_other m idx head len a data :
  disjoint_ranges (used_slot q idx) 8 a (zlen data) ->
  disjoint_ranges (q_used q + 2) 2 a (zlen data) ->
  mem_at m a data -> mem_at (used_push m q idx head len) a data.
Proof.
  intros D1 D2 Hm. unfold used_push. unfold disjoint_ranges in *.
  repeat apply mem_at_write_disjoint; unfold disjoint_ranges;
    change (zlen (virtio_store_le16 _)) with 2;
    change (zlen (virtio_store_le32 head)) with 4;
    change (zlen (virtio_store_le32 len)) with 4; try lia. assumption.
Qed.

Lemma used_push_agree (W : Z -> Prop) m0 m idx head len : 0 < ring_size q ->
  (forall a, q_used q <= a < q_used q + (4 + ring_size q * 8) -> W a) ->
  agree W m0 m -> agree W m0 (used_push m q idx head len).
Proof.
  intros Hs HW Ha. destruct (slot_inside idx Hs). unfold used_push.
  repeat apply agree_write; try assumption; intros x;
    change (zlen (virtio_store_le16 _)) with 2;
    change (zlen (virtio_store_le32 head)) with 4;
    change (zlen (virtio_store_le32 len)) with 4; intros ?; apply HW; lia.
Qed.
End used_ring.

Lemma cursor_distinct c i j : i < j -> j - i < 2 ^ 16 -> u16 (c + i) <> u16 (c + j).
Proof.
  unfold u16. intros Hij Hlt E.
  pose proof (Z.div_mod (c + i) (2 ^ 16) ltac:(lia)).
  pose proof (Z.div_mod (c + j) (2 ^ 16) ltac:(lia)). lia.
Qed.
