(* ===== verification/LinuxUio.v ===== *)
(** * The Linux UIO fabric

    [src/fabrics/linux_uio.c]: guest memory and the virtio-mmio register window
    are two mapped resources shared with the guest. This file is the DMA data path,
    which implements the fabric interface; the register mirror and its event loop are
    in [UioMirror.v]. *)

From S2P Require Import Prelude Endian Fabric QueueService VirtioMmio Virtio.

#[local] Open Scope Z_scope.
#[local] Open Scope c_scope.

Definition UIO_NOTIFY_IDLE : Z := 0xffffffff.
Definition UIO_IRQ_CONTROL_OFFSET : Z := 0x200.

Record uio_config : Type := {
  uc_path : string;
  uc_irq_control_offset : Z;  (* uint64_t *)
  uc_dma_base : Z;            (* uint64_t *)
}.

(** A mapped resource: its bytes, or [None] for the null address. *)
Record uio_mapping : Type := {
  um_addr : option (list Z);
  um_size : Z;  (* uint64_t *)
}.

(** A store by the guest, which shares both windows with the daemon. *)
Inductive guest_store : Type :=
| GuestDma (off : Z) (data : list Z)
| GuestMmio (off : Z) (data : list Z).

(** [struct uio_state], with the environment: the outcomes of the next [malloc]
    calls and what the guest stores between the daemon's own accesses (one batch
    each time the daemon looks at shared memory or sleeps). *)
Record uio_state : Type := {
  us_fd : Z;
  us_config : uio_config;
  us_mmio : uio_mapping;
  us_dma : uio_mapping;
  us_pending_irq_level : Z;
  us_alloc : list bool;
  us_guest : list (list guest_store);
}.

Definition set_mmio (m : uio_mapping) (s : uio_state) : uio_state :=
  {| us_fd := us_fd s; us_config := us_config s; us_mmio := m;
     us_dma := us_dma s; us_pending_irq_level := us_pending_irq_level s;
     us_alloc := us_alloc s; us_guest := us_guest s |}.
Definition set_dma (m : uio_mapping) (s : uio_state) : uio_state :=
  {| us_fd := us_fd s; us_config := us_config s; us_mmio := us_mmio s;
     us_dma := m; us_pending_irq_level := us_pending_irq_level s;
     us_alloc := us_alloc s; us_guest := us_guest s |}.
Definition set_pending (level : Z) (s : uio_state) : uio_state :=
  {| us_fd := us_fd s; us_config := us_config s; us_mmio := us_mmio s;
     us_dma := us_dma s; us_pending_irq_level := level;
     us_alloc := us_alloc s; us_guest := us_guest s |}.
Definition set_env (al : list bool) (g : list (list guest_store)) (s : uio_state)
  : uio_state :=
  {| us_fd := us_fd s; us_config := us_config s; us_mmio := us_mmio s;
     us_dma := us_dma s; us_pending_irq_level := us_pending_irq_level s;
     us_alloc := al; us_guest := g |}.

(** ** Access to the mapped windows *)

(** [memcpy] out of and into a mapping; outside it the access is undefined. *)
Definition map_load (m : uio_mapping) (off len : Z) : option (list Z) :=
  match um_addr m with
  | Some l => if (0 <=? off) && (off + len <=? zlen l) then Some (slice off len l)
              else None
  | None => None
  end.

Definition map_store (m : uio_mapping) (off : Z) (data : list Z)
  : option uio_mapping :=
  match um_addr m with
  | Some l =>
      if (0 <=? off) && (off + zlen data <=? zlen l)
      then Some {| um_addr := Some (splice off data l); um_size := um_size m |}
      else None
  | None => None
  end.

(** The guest's own accesses cannot leave the windows. *)
Definition guest_apply (s : uio_state) (g : guest_store) : uio_state :=
  match g with
  | GuestDma off data =>
      match map_store (us_dma s) off (map u8 data) with
      | Some m => set_dma m s
      | None => s
      end
  | GuestMmio off data =>
      match map_store (us_mmio s) off (map u8 data) with
      | Some m => set_mmio m s
      | None => s
      end
  end.

Definition guest_turn : M uio_state unit :=
  modify (fun s =>
    match us_guest s with
    | [] => s
    | batch :: rest => set_env (us_alloc s) rest (fold_left guest_apply batch s)
    end).

Definition dma_load (off len : Z) : M uio_state (list Z) := fun s =>
  match map_load (us_dma s) off len with
  | Some data => Done (data, s)
  | None => UB
  end.

Definition dma_store (off : Z) (data : list Z) : M uio_state unit := fun s =>
  match map_store (us_dma s) off data with
  | Some m => Done (tt, set_dma m s)
  | None => UB
  end.

(** ** DMA entry points *)

Definition dma_offset (s : uio_state) (gpa len : Z) : option Z :=
  if gpa <? uc_dma_base (us_config s) then None
  else
    let offset := u64 (gpa - uc_dma_base (us_config s)) in
    if (offset <=? um_size (us_dma s))
       && (len <=? u64 (um_size (us_dma s) - offset))
    then Some offset else None.

Definition uio_malloc : M uio_state bool := fun s =>
  match us_alloc s with
  | [] => Done (true, s)
  | ok :: al => Done (ok, set_env al (us_guest s) s)
  end.

Definition uio_dma_read_into (gpa len : Z) : M uio_state (option (list Z)) :=
  if len =? 0 then ret (Some []) else
  guest_turn;;
  offset ←? gets (fun s => dma_offset s gpa len);
  data ← dma_load offset len;
  ret (Some data).

Definition uio_dma_read (gpa len : Z) : M uio_state (option (list Z)) :=
  if len =? 0 then ret (Some []) else
  ok ← uio_malloc;
  if negb ok then ret None else uio_dma_read_into gpa len.

Definition uio_dma_map (gpa len : Z) : M uio_state (option dma_ptr) :=
  if len =? 0 then ret (Some DmaNull) else
  offset ←? gets (fun s => dma_offset s gpa len);
  ret (Some (DmaAt offset)).

(** A store through a pointer [fabric_dma_map] returned. *)
Definition uio_ptr_store (p : dma_ptr) (data : list Z) : M uio_state unit :=
  match data with
  | [] => ret tt
  | _ :: _ => match p with
              | DmaNull => undefined
              | DmaAt off => guest_turn;; dma_store off data
              end
  end.

Definition uio_dma_read_u16 (gpa : Z) : M uio_state (option Z) :=
  data ←? uio_dma_read_into gpa 2;
  ret (Some (Z.lor (nth 0 data 0) (Z.shiftl (nth 1 data 0) 8))).

Definition uio_dma_write (gpa : Z) (data : list Z) : M uio_state bool :=
  if zlen data =? 0 then ret true else
  guest_turn;;
  o ← gets (fun s => dma_offset s gpa (zlen data));
  match o with
  | None => ret false
  | Some offset => dma_store offset data;; ret true
  end.

Definition uio_raise_irq : M uio_state bool :=
  (modify (set_pending 1));; ret true.

Definition uio_lower_irq : M uio_state bool :=
  (modify (set_pending 0));; ret true.

#[global] Instance uio_fabric : Fabric uio_state := {
  fabric_dma_read := uio_dma_read;
  fabric_dma_read_into := uio_dma_read_into;
  fabric_dma_map := uio_dma_map;
  fabric_ptr_store := uio_ptr_store;
  fabric_dma_read_u16 := uio_dma_read_u16;
  fabric_dma_write := uio_dma_write;
  fabric_raise_irq := uio_raise_irq;
  fabric_lower_irq := uio_lower_irq;
  fabric_usleep := fun _ => guest_turn;
}.

(** ** The windows stay mapped *)

Record mapping_ok (m : uio_mapping) (l : list Z) : Prop := {
  mo_addr : um_addr m = Some l;
  mo_size : um_size m = zlen l;
  mo_bytes : bytes l;
}.

Record uio_ok (s : uio_state) : Prop := {
  uo_mmio : exists l, mapping_ok (us_mmio s) l;
  uo_dma : exists l, mapping_ok (us_dma s) l;
  uo_size : in_width 64 (um_size (us_dma s));
  uo_base : in_width 64 (uc_dma_base (us_config s));
}.

(** The same with, if [quiet], a quiescent guest and no pending allocation
    failure. *)
Definition uio_inv (quiet : bool) (s : uio_state) : Prop :=
  uio_ok s /\ (quiet = true -> us_guest s = [] /\ us_alloc s = []).

(** What the guest cannot change. *)
Definition uio_shape (s : uio_state) :=
  (us_fd s, us_config s, um_size (us_mmio s), um_size (us_dma s),
   us_pending_irq_level s).

Section windows.
Lemma map_store_ok m l off data :
  mapping_ok m l -> 0 <= off -> off + zlen data <= zlen l -> bytes data ->
  map_store m off data
    = Some {| um_addr := Some (splice off data l); um_size := um_size m |} /\
  mapping_ok {| um_addr := Some (splice off data l); um_size := um_size m |}
             (splice off data l).
Proof.
  intros [Ha Hs Hb] Ho Hl Hd. unfold map_store. rewrite Ha.
  rewrite (proj2 (Z.leb_le _ _) Ho), (proj2 (Z.leb_le _ _) Hl). split; [reflexivity|].
  split; cbn; [reflexivity | rewrite Hs; symmetry; now apply zlen_splice|].
  now apply bytes_splice.
Qed.

Lemma map_load_ok m l off len :
  mapping_ok m l -> 0 <= off -> off + len <= zlen l ->
  map_load m off len = Some (slice off len l).
Proof.
  intros [Ha Hs Hb] Ho Hl. unfold map_load. rewrite Ha.
  now rewrite (proj2 (Z.leb_le _ _) Ho), (proj2 (Z.leb_le _ _) Hl).
Qed.

Lemma map_store_mapping m l off data m' :
  mapping_ok m l -> bytes data -> map_store m off data = Some m' ->
  um_size m' = um_size m /\ exists l', mapping_ok m' l'.
Proof.
  intros Hm Hd E. pose proof Hm as [Ha _ _]. unfold map_store in E.
  rewrite Ha in E. destruct (_ && _) eqn:Eb; [|easy].
  assert (0 <= off /\ off + zlen data <= zlen l) as [H1 H2] by lia.
  destruct (map_store_ok m l off data Hm H1 H2 Hd) as [_ Hok].
  injection E as <-. cbn. eauto.
Qed.

Lemma bytes_u8 data : bytes (map u8 data).
Proof.
  induction data as [|x data IH]; constructor; [|exact IH].
  apply (u8_range x).
Qed.

Lemma guest_apply_ok s g : uio_ok s ->
  uio_ok (guest_apply s g) /\ uio_shape (guest_apply s g) = uio_shape s.
Proof.
  intros [[lm Hm] [ld Hd] Hs Hb].
  destruct g as [off data|off data]; cbn [guest_apply];
    destruct (map_store _ _ _) as [m'|] eqn:E; try (split; [split; eauto | reflexivity]);
    eapply map_store_mapping in E as [Esz Hex]; eauto using bytes_u8;
    unfold uio_shape; cbn; rewrite Esz; (split; [|reflexivity]);
    split; cbn; rewrite ?Esz; eauto.
Qed.

Lemma guest_turn_ok quiet s : uio_inv quiet s ->
  wp guest_turn s (fun _ s' =>
    uio_inv quiet s' /\ uio_shape s' = uio_shape s /\ (quiet = true -> s' = s)).
Proof.
  intros [Hs Hq]. unfold guest_turn. wpsimpl. destruct (us_guest s) as [|b rest] eqn:Eg.
  { split; [split; [assumption | now rewrite Eg]|]. easy. }
  assert (uio_ok (fold_left guest_apply b s) /\
          uio_shape (fold_left guest_apply b s) = uio_shape s) as [[] E].
  { clear rest Eg Hq. revert s Hs. induction b as [|g b IH]; intros s Hs; [easy|]. cbn.
    destruct (guest_apply_ok s g Hs) as [H1 E1]. destruct (IH _ H1) as [H2 E2].
    split; [assumption | congruence]. }
  split; [split; [now split | now intros [? _]%Hq]|].
  split; [exact E | now intros [? _]%Hq].
Qed.

(** The aperture check: an accepted range lies inside the mapped window. *)
Lemma dma_offset_spec s gpa len :
  uio_ok s -> in_width 64 gpa -> 0 <= len ->
  match dma_offset s gpa len with
  | Some off => off = gpa - uc_dma_base (us_config s) /\ 0 <= off /\
                off + len <= um_size (us_dma s)
  | None => gpa < uc_dma_base (us_config s) \/
            uc_dma_base (us_config s) + um_size (us_dma s) < gpa + len
  end.
Proof.
  intros [_ _ Hs Hb] Hg Hl. unfold dma_offset, in_width in *.
  destruct (gpa <? _) eqn:E1; [lia|]. rewrite u64_small by (unfold in_width; lia).
  destruct (_ <=? um_size _) eqn:E2; cbn [andb]; [|lia].
  rewrite u64_small by (unfold in_width; lia).
  destruct (len <=? _) eqn:E3; lia.
Qed.
End windows.

(** ** The fabric contracts *)

Section contracts.
Context (quiet : bool).
Implicit Types s : uio_state.

(** A load or store of an accepted range. *)
Lemma dma_load_ok s off len l :
  mapping_ok (us_dma s) l -> 0 <= off -> 0 <= len -> off + len <= um_size (us_dma s) ->
  wp (dma_load off len) s (fun data s' =>
    s' = s /\ bytes data /\ zlen data = len /\ data = slice off len l).
Proof.
  intros Hm Ho Hl Hle. pose proof Hm as [Ha Hs Hb].
  unfold wpx, dma_load. rewrite (map_load_ok _ l) by (assumption || lia).
  split; [reflexivity|]. split; [now apply bytes_slice|].
  split; [|reflexivity]. apply zlen_slice; lia.
Qed.

Lemma dma_store_ok s off data l :
  uio_inv quiet s -> mapping_ok (us_dma s) l -> 0 <= off ->
  off + zlen data <= um_size (us_dma s) -> bytes data ->
  wp (dma_store off data) s (fun _ s' =>
    uio_inv quiet s' /\ uio_shape s' = uio_shape s /\
    mapping_ok (us_dma s') (splice off data l)).
Proof.
  intros [Hok Hq] Hm Ho Hle Hd.
  pose proof Hm as [Ha Hs Hb]. unfold wpx, dma_store.
  destruct (map_store_ok _ l off data Hm) as [E Hm']; try assumption; [lia|].
  rewrite E. split; [|now split]. split; [|assumption].
  destruct Hok. split; cbn; eauto.
Qed.

(** What a read of [len] bytes at [gpa] does: it returns the bytes of the
    aperture, or fails outside it. *)
Lemma read_into_ok s gpa len :
  uio_inv quiet s -> in_width 64 gpa -> in_width 32 len ->
  wp (uio_dma_read_into gpa len) s (fun r s' =>
    uio_inv quiet s' /\ (quiet = true -> s' = s) /\
    forall d, r = Some d -> bytes d /\ zlen d = len).
Proof.
  intros Hok Hg Hl. unfold uio_dma_read_into.
  destruct (len =? 0) eqn:E0; wpsimpl.
  { split; [assumption|]. split; [easy|]. intros ? [= <-].
    split; [constructor | unfold zlen; cbn; lia]. }
  wpuse guest_turn_ok; [eassumption|]. intros _ s1 ([Hok1 Hq1] & _ & Hs1). wpsimpl.
  pose proof (dma_offset_spec s1 gpa len Hok1 Hg) as Hd. unfold in_width in Hl.
  destruct (dma_offset s1 gpa len) as [off|]; [|easy]. wpsimpl.
  destruct (uo_dma _ Hok1) as [l Hm].
  wpuse (dma_load_ok s1 off len l); [assumption | lia | lia | lia |].
  intros data s2 (-> & Hb & Hz & _). wpsimpl. split; [now split|].
  split; [assumption|]. now intros ? [= <-].
Qed.

Lemma uio_malloc_ok s : uio_inv quiet s ->
  wp uio_malloc s (fun _ s' => uio_inv quiet s').
Proof.
  intros [Hok Hq]. unfold wpx, uio_malloc. destruct (us_alloc s) as [|ok al] eqn:Ea.
  { split; [assumption | now rewrite Ea]. }
  destruct Hok. split; [now split | now intros [_ ?]%Hq].
Qed.

Lemma set_pending_ok s level : uio_inv quiet s -> uio_inv quiet (set_pending level s).
Proof. intros [[] ?]. split; [now split | assumption]. Qed.

(** The fabric is safe under arbitrary concurrent guest stores; a quiescent
    guest stays quiescent. *)
#[program] Definition uio_fabric_safe : FabricSafe uio_state := {|
  fab_ok := uio_inv quiet;
  ptr_ok := fun s p len =>
    match p with
    | DmaNull => len = 0
    | DmaAt off => 0 <= off /\ off + len <= um_size (us_dma s)
    end;
|}.
Next Obligation.
  intros s gpa len Hok Hg Hl. cbn. unfold uio_dma_read.
  destruct (len =? 0) eqn:E0; wpsimpl.
  { split; [assumption|]. intros ? [= <-]. split; [constructor | unfold zlen; cbn; lia]. }
  wpuse uio_malloc_ok; [assumption|]. intros [] s1 Hok1; cbn [negb].
  - wpuse read_into_ok; try assumption. tauto.
  - now split.
Qed.
Next Obligation. intros. wpuse read_into_ok; try assumption. tauto. Qed.
Next Obligation.
  intros s gpa Hok Hg. cbn. unfold uio_dma_read_u16. wpsimpl.
  wpuse read_into_ok; [assumption | assumption | width |].
  intros [data|] s1 (Hok1 & _ & Hr); [|easy]. wpsimpl. split; [assumption|].
  intros ? [= <-]. destruct (Hr data eq_refl) as [Hb Hz].
  unfold zlen in Hz. destruct data as [|b0 [|b1 [|]]]; cbn [length] in Hz; try lia.
  apply (load_le16_range [b0; b1]); [assumption | cbn; lia].
Qed.
Next Obligation.
  intros s gpa len Hok Hg Hl. cbn. unfold uio_dma_map.
  destruct (len =? 0) eqn:E0; wpsimpl.
  { split; [assumption|]. intros ? [= <-]. lia. }
  pose proof (dma_offset_spec s gpa len (proj1 Hok) Hg) as Hd. unfold in_width in Hl.
  destruct (dma_offset s gpa len) as [off|]; [|easy]. wpsimpl.
  split; [assumption|]. intros ? [= <-]. lia.
Qed.
Next Obligation.
  intros s p len data Hok Hp Hl Hb. cbn. unfold uio_ptr_store.
  destruct data as [|x data]; [easy|].
  remember (x :: data) as d eqn:Ed.
  assert (0 < zlen d) as Hpos by (subst d; unfold zlen; cbn; lia). clear Ed.
  destruct p as [|off]; cbn in Hp; [lia|]. wpsimpl.
  wpuse guest_turn_ok; [eassumption|]. intros _ s1 (Hok1 & Esh & _).
  destruct (uo_dma _ (proj1 Hok1)) as [l Hm].
  wpuse dma_store_ok; [eassumption | eassumption | lia | | assumption | tauto].
  injection Esh as _ _ _ Esz _. lia.
Qed.
Next Obligation.
  intros s gpa data Hok Hg Hl Hb. cbn. unfold uio_dma_write.
  destruct (zlen data =? 0) eqn:E0; wpsimpl; [assumption|].
  wpuse guest_turn_ok; [eassumption|]. intros _ s1 (Hok1 & Esh & _). wpsimpl.
  pose proof (dma_offset_spec s1 gpa (zlen data) (proj1 Hok1) Hg) as Hd.
  unfold in_width in Hl.
  destruct (dma_offset s1 gpa (zlen data)) as [off|]; [|assumption]. wpsimpl.
  destruct (uo_dma _ (proj1 Hok1)) as [l Hm].
  wpuse dma_store_ok; [eassumption | eassumption | lia | lia | assumption |].
  intros ? ? (? & _). now wpsimpl.
Qed.
Next Obligation. intros. now apply set_pending_ok. Qed.
Next Obligation. intros. now apply set_pending_ok. Qed.
Next Obligation.
  intros s us Hok. change (wp guest_turn s (fun _ s' => uio_inv quiet s')).
  wpuse guest_turn_ok; [eassumption | tauto].
Qed.
End contracts.

(** Any guest. *)
#[global] Instance uio_safe : FabricSafe uio_state := uio_fabric_safe false.

(** ** Quiescent guest memory *)

(** The byte behind a guest-physical address. *)
Definition uio_peek (s : uio_state) : mem := fun a =>
  let off := a - uc_dma_base (us_config s) in
  if off <? 0 then None
  else match um_addr (us_dma s) with
       | Some l => l !! Z.to_nat off
       | None => None
       end.

Section peek.
Context (s : uio_state) (l : list Z) (Hm : mapping_ok (us_dma s) l).
Let base := uc_dma_base (us_config s).

Lemma peek_at a : base <= a -> uio_peek s a = l !! Z.to_nat (a - base).
Proof.
  intros Ha. unfold uio_peek. fold base. destruct (_ <? 0) eqn:E; [lia|].
  now rewrite (mo_addr _ _ Hm).
Qed.

Lemma peek_inside a : is_Some (uio_peek s a) -> base <= a < base + zlen l.
Proof.
  unfold uio_peek. fold base. intros [x E]. destruct (_ <? 0) eqn:El; [easy|].
  rewrite (mo_addr _ _ Hm) in E. apply lookup_lt_Some in E. unfold zlen. lia.
Qed.

Lemma mapped_window gpa len :
  0 < len -> mapped (uio_peek s) gpa len ->
  base <= gpa /\ gpa + len <= base + zlen l.
Proof.
  intros Hl Hma. pose proof (peek_inside gpa (Hma gpa ltac:(lia))).
  pose proof (peek_inside (gpa + len - 1) (Hma (gpa + len - 1) ltac:(lia))). lia.
Qed.

Lemma peek_slice gpa data :
  0 < zlen data -> mem_at (uio_peek s) gpa data ->
  slice (gpa - base) (zlen data) l = data.
Proof.
  intros Hp Hd. destruct (mapped_window gpa (zlen data) Hp (mem_at_mapped _ _ _ Hd))
    as [H1 H2].
  eapply (mem_at_inj (uio_peek s) gpa); [| |exact Hd].
  - apply Nat2Z.inj. fold (zlen (slice (gpa - base) (zlen data) l)) (zlen data).
    rewrite zlen_slice; lia.
  - intros i x E. pose proof (lookup_lt_Some _ _ _ E) as Hi.
    unfold slice in Hi. rewrite length_take in Hi.
    rewrite lookup_slice in E by lia. rewrite peek_at by lia.
    rewrite <- E. f_equal. lia.
Qed.

Lemma peek_splice s' gpa data :
  us_config s' = us_config s -> base <= gpa ->
  gpa + zlen data <= base + zlen l ->
  mapping_ok (us_dma s') (splice (gpa - base) data l) ->
  uio_peek s' ≡m mem_write (uio_peek s) gpa data.
Proof.
  intros Ec H1 H2 Hm' a. unfold uio_peek at 1. rewrite Ec. fold base.
  destruct (a - base <? 0) eqn:Ea.
  { rewrite mem_write_out by lia. unfold uio_peek. fold base. now rewrite Ea. }
  rewrite (mo_addr _ _ Hm').
  destruct (decide (gpa <= a < gpa + zlen data)) as [Hin|Hout].
  - rewrite mem_write_in by assumption. unfold zlen in *.
    replace (Z.to_nat (a - base)) with (Z.to_nat (gpa - base) + Z.to_nat (a - gpa))%nat
      by lia.
    apply lookup_splice_in; unfold zlen; lia.
  - rewrite mem_write_out by lia. rewrite peek_at by lia.
    apply lookup_splice_out; lia.
Qed.
End peek.

Section ram.
Implicit Types s : uio_state.

Lemma write_nil_id m gpa : m ≡m mem_write m gpa [].
Proof. intros a. symmetry. apply mem_write_out. unfold zlen. cbn. lia. Qed.

Lemma zlen_nil_inv (l : list Z) : zlen l = 0 -> l = [].
Proof. destruct l; [easy | unfold zlen; cbn; lia]. Qed.

(** The offset of a range inside the window. *)
Lemma dma_offset_inside s l gpa len :
  uio_ok s -> mapping_ok (us_dma s) l -> in_width 64 gpa -> 0 <= len ->
  uc_dma_base (us_config s) <= gpa ->
  gpa + len <= uc_dma_base (us_config s) + zlen l ->
  dma_offset s gpa len = Some (gpa - uc_dma_base (us_config s)).
Proof.
  intros Hok Hm Hg Hl H1 H2. pose proof (dma_offset_spec s gpa len Hok Hg Hl) as Hd.
  rewrite (mo_size _ _ Hm) in Hd. destruct (dma_offset s gpa len); [f_equal|]; lia.
Qed.

Lemma read_into_ram s gpa data :
  uio_inv true s -> in_width 64 gpa -> mem_at (uio_peek s) gpa data ->
  wp (uio_dma_read_into gpa (zlen data)) s (fun r s' => r = Some data /\ s' = s).
Proof.
  intros Hok Hg Hd. unfold uio_dma_read_into.
  destruct (zlen data =? 0) eqn:E0; wpsimpl.
  { now rewrite (zlen_nil_inv data) by lia. }
  wpuse guest_turn_ok; [eassumption|]. intros _ s1 (_ & _ & Hs). rewrite Hs by reflexivity.
  destruct (uo_dma _ (proj1 Hok)) as [l Hm].
  assert (0 < zlen data) as Hp by (unfold zlen in *; lia).
  destruct (mapped_window s l Hm gpa _ Hp (mem_at_mapped _ _ _ Hd)) as [H1 H2].
  wpsimpl. rewrite (dma_offset_inside s l) by (try apply Hok; assumption || lia).
  wpsimpl. wpuse (dma_load_ok s _ _ l); [assumption | lia | lia | |].
  { rewrite (mo_size _ _ Hm). lia. }
  intros d s2 (-> & _ & _ & ->). wpsimpl. split; [|reflexivity].
  f_equal. now apply peek_slice.
Qed.

Lemma store_ram s l gpa data :
  uio_inv true s -> mapping_ok (us_dma s) l ->
  uc_dma_base (us_config s) <= gpa ->
  gpa + zlen data <= uc_dma_base (us_config s) + zlen l -> bytes data ->
  wp (dma_store (gpa - uc_dma_base (us_config s)) data) s (fun _ s' =>
    uio_peek s' ≡m mem_write (uio_peek s) gpa data /\ uio_inv true s').
Proof.
  intros Hok Hm H1 H2 Hb.
  wpuse (dma_store_ok true s _ data l); [assumption | assumption | lia | | assumption|].
  { rewrite (mo_size _ _ Hm). lia. }
  intros _ s' (Hok' & Esh & Hm'). injection Esh as _ Ec _ _ _.
  split; [now apply (peek_splice s l Hm) | assumption].
Qed.
End ram.

(** While the guest is quiescent the DMA aperture is a byte memory. *)
#[global, program] Instance uio_ram : RamFabric uio_state := {
  ram_ok := uio_inv true;
  peek := uio_peek;
}.
Next Obligation.
  intros s gpa data Hok Hg Ha Hl Hd. cbn in *. unfold uio_dma_read.
  destruct (zlen data =? 0) eqn:E0; wpsimpl.
  { now rewrite (zlen_nil_inv data) by lia. }
  unfold uio_malloc. rewrite (wpx_done true _ s true s).
  2:{ destruct (proj2 Hok eq_refl) as [_ ->]. reflexivity. }
  cbn [negb]. wpuse read_into_ram; try assumption. now intros ? ? [-> ->].
Qed.
Next Obligation.
  intros s gpa data Hok Hg Ha Hl Hd. cbn in *.
  wpuse read_into_ram; try assumption. now intros ? ? [-> ->].
Qed.
Next Obligation.
  intros s gpa b0 b1 Hok Hg Ha Hd. cbn in *. unfold uio_dma_read_u16. wpsimpl.
  wpuse (read_into_ram s gpa [b0; b1]); try assumption. now intros ? ? [-> ->].
Qed.
Next Obligation.
  intros s gpa len Hok Hg Ha Hl. cbn in *. unfold uio_dma_map.
  destruct (len =? 0) eqn:E0; wpsimpl.
  { split; [reflexivity|]. split; [assumption|]. intros p [= <-] data Hd _.
    rewrite (zlen_nil_inv data) by (unfold zlen in *; lia).
    cbn. split; [apply write_nil_id | assumption]. }
  pose proof (dma_offset_spec s gpa len (proj1 Hok) Hg) as Hd. unfold in_width in Hl.
  destruct (dma_offset s gpa len) as [off|]; wpsimpl; [|easy].
  split; [reflexivity|]. split; [assumption|]. intros p [= <-] data Hz Hb.
  unfold uio_ptr_store.
  destruct data as [|x data]; [split; [apply write_nil_id | assumption]|].
  wpsimpl. wpuse guest_turn_ok; [eassumption|]. intros _ s1 (_ & _ & E).
  rewrite E by reflexivity. destruct (uo_dma _ (proj1 Hok)) as [l Hm].
  rewrite (mo_size _ _ Hm) in Hd. destruct Hd as (-> & H1 & H2); [lia|].
  eapply store_ram; [assumption | eassumption | lia | lia | assumption].
Qed.
Next Obligation.
  intros s gpa data Hok Hg Ha Hl Hb Hma. cbn in *. unfold uio_dma_write.
  destruct (zlen data =? 0) eqn:E0; wpsimpl.
  { rewrite (zlen_nil_inv data) by lia.
    split; [reflexivity|]. split; [apply write_nil_id | assumption]. }
  wpuse guest_turn_ok; [eassumption|]. intros _ s1 (_ & _ & E).
  rewrite E by reflexivity. destruct (uo_dma _ (proj1 Hok)) as [l Hm].
  assert (0 < zlen data) as Hp by (unfold in_width in Hl; lia).
  destruct (mapped_window s l Hm gpa _ Hp Hma) as [H1 H2].
  wpsimpl. rewrite (dma_offset_inside s l) by (try apply Hok; assumption || lia).
  wpsimpl. wpuse (store_ram s l); [assumption | assumption | lia | lia | assumption |].
  intros _ s' Hs'. wpsimpl. now split.
Qed.
Next Obligation. intros s Hok. cbn. split; [easy|]. split; [easy|]. now apply set_pending_ok. Qed.
Next Obligation. intros s Hok. cbn. split; [easy|]. split; [easy|]. now apply set_pending_ok. Qed.
Next Obligation.
  intros s us Hok. change (wp guest_turn s (fun _ s' => uio_peek s' ≡m uio_peek s /\ uio_inv true s')).
  wpuse (guest_turn_ok true); [exact Hok|]. intros _ s' (_ & _ & E).
  rewrite E by reflexivity. now split.
Qed.

(** A mapped fabric over given guest memory and register window. *)
Definition uio_over (base : Z) (mmio dma : list Z) : uio_state :=
  {| us_fd := 5;
     us_config := {| uc_path := "/dev/uio0";
                     uc_irq_control_offset := UIO_IRQ_CONTROL_OFFSET;
                     uc_dma_base := base |};
     us_mmio := {| um_addr := Some mmio; um_size := zlen mmio |};
     us_dma := {| um_addr := Some dma; um_size := zlen dma |};
     us_pending_irq_level := -1; us_alloc := []; us_guest := [] |}.

Lemma uio_over_inv quiet base mmio dma :
  bytes mmio -> bytes dma -> in_width 64 base -> in_width 64 (zlen dma) ->
  uio_inv quiet (uio_over base mmio dma).
Proof.
  intros. split; [|easy]. split; cbn; try assumption.
  - now exists mmio.
  - now exists dma.
Qed.

Lemma uio_over_mem_at base mmio dma a data :
  base <= a -> slice (a - base) (zlen data) dma = data ->
  mem_at (uio_peek (uio_over base mmio dma)) a data.
Proof.
  intros Ha E i x Hi. pose proof (lookup_lt_Some _ _ _ Hi).
  unfold uio_peek. cbn. destruct (_ <? 0) eqn:El; [lia|].
  rewrite <- E, lookup_slice in Hi by (unfold zlen; lia).
  rewrite <- Hi. f_equal. lia.
Qed.

Lemma uio_over_mapped base mmio dma a len :
  base <= a -> a + len <= base + zlen dma ->
  mapped (uio_peek (uio_over base mmio dma)) a len.
Proof.
  intros Ha Hl x Hx. unfold uio_peek. cbn. destruct (_ <? 0) eqn:El; [lia|].
  apply lookup_lt_is_Some_2. unfold zlen in *. lia.
Qed.
