(* ===== verification/UioMirror.v ===== *)
(** * The UIO register mirror

    The second half of [src/fabrics/linux_uio.c]: the guest accesses a plain shared
    page, so the daemon publishes the readable registers into it and scans the
    writable ones for changes whenever it is woken. The device behind the mirror is
    a registered [fabric_device] with state [D]. *)

From S2P Require Import Prelude Endian Fabric Virtio VirtioMmio QueueService.
From S2P Require Import LinuxUio.

#[local] Open Scope Z_scope.
#[local] Open Scope c_scope.

(** ** Register access

    [load_le32] and [store_le32] on the mapped page. *)

Definition mmio_load32 (off : Z) : M uio_state Z := fun s =>
  match map_load (us_mmio s) off 4 with
  | Some data => Done (virtio_load_le32 data, s)
  | None => UB
  end.

Definition mmio_store32 (off value : Z) : M uio_state unit := fun s =>
  match map_store (us_mmio s) off (virtio_store_le32 value) with
  | Some m => Done (tt, set_mmio m s)
  | None => UB
  end.

(** ** Operations *)

Definition registers : list Z :=
  [VIRTIO_MMIO_MAGIC_VALUE; VIRTIO_MMIO_VERSION; VIRTIO_MMIO_DEVICE_ID;
   VIRTIO_MMIO_VENDOR_ID; VIRTIO_MMIO_DEVICE_FEATURES; VIRTIO_MMIO_QUEUE_NUM_MAX;
   VIRTIO_MMIO_INTERRUPT_STATUS; VIRTIO_MMIO_STATUS; VIRTIO_MMIO_CONFIG_GENERATION].

Definition queue_state_offsets : list Z :=
  [VIRTIO_MMIO_QUEUE_NUM; VIRTIO_MMIO_QUEUE_READY; VIRTIO_MMIO_QUEUE_DESC_LOW;
   VIRTIO_MMIO_QUEUE_DESC_HIGH; VIRTIO_MMIO_QUEUE_AVAIL_LOW;
   VIRTIO_MMIO_QUEUE_AVAIL_HIGH; VIRTIO_MMIO_QUEUE_USED_LOW;
   VIRTIO_MMIO_QUEUE_USED_HIGH].

Definition write_offsets : list Z :=
  [VIRTIO_MMIO_DEVICE_FEATURES_SEL; VIRTIO_MMIO_DRIVER_FEATURES;
   VIRTIO_MMIO_DRIVER_FEATURES_SEL; VIRTIO_MMIO_QUEUE_SEL; VIRTIO_MMIO_QUEUE_NUM;
   VIRTIO_MMIO_QUEUE_DESC_LOW; VIRTIO_MMIO_QUEUE_DESC_HIGH;
   VIRTIO_MMIO_QUEUE_AVAIL_LOW; VIRTIO_MMIO_QUEUE_AVAIL_HIGH;
   VIRTIO_MMIO_QUEUE_USED_LOW; VIRTIO_MMIO_QUEUE_USED_HIGH;
   VIRTIO_MMIO_QUEUE_READY; VIRTIO_MMIO_INTERRUPT_ACK; VIRTIO_MMIO_QUEUE_NOTIFY;
   VIRTIO_MMIO_STATUS].

Definition uio_size (s : uio_state) : Z := um_size (us_mmio s).

Definition flush_pending_irq_level : M uio_state bool :=
  s ← get;
  if us_pending_irq_level s <? 0 then ret true else
  if uio_size s <? u64 (uc_irq_control_offset (us_config s) + 4) then ret false else
  mmio_store32 (uc_irq_control_offset (us_config s))
               (if us_pending_irq_level s =? 0 then 0 else 1);;
  (modify (set_pending (-1)));;
  ret true.

Definition cleanup_mapping (m : uio_mapping) : uio_mapping :=
  match um_addr m with
  | Some _ => {| um_addr := None; um_size := 0 |}
  | None => m
  end.

Definition cleanup_uio (s : uio_state) : uio_state :=
  {| us_fd := if 0 <=? us_fd s then -1 else us_fd s;
     us_config := us_config s;
     us_mmio := cleanup_mapping (us_mmio s);
     us_dma := cleanup_mapping (us_dma s);
     us_pending_irq_level := us_pending_irq_level s;
     us_alloc := us_alloc s; us_guest := us_guest s |}.

(** Results of [read] and [write] on the UIO file. *)
Inductive wait_event : Type :=
| WaitIntr
| WaitRet (n : Z).

(** [do { ret = read(..) } while (ret < 0 && errno == EINTR)]: the result and the
    rest of the events, or [None] while the call blocks. *)
Fixpoint retry_call (ev : list wait_event) : option (Z * list wait_event) :=
  match ev with
  | [] => None
  | WaitIntr :: ev => retry_call ev
  | WaitRet n :: ev => Some (n, ev)
  end.

Definition wait_for_uio_interrupt (ev : list wait_event)
  : option (bool * list wait_event) :=
  match retry_call ev with
  | None => None
  | Some (n, ev) =>
      if negb (n =? 4) then Some (false, ev)
      else match retry_call ev with
           | None => None
           | Some (n, ev) => Some (n =? 4, ev)
           end
  end.

Section mirror.
Context {D : Type} (dev : fabric_device uio_state D).

(** Calls through the operation table; a null pointer cannot be called. *)
Definition dev_read (off : Z) : M (uio_state * D) Z := fun s =>
  match fd_ops dev with
  | Some ops => match op_read ops with
                | Some read => Done (read (snd s) off 4, s)
                | None => UB
                end
  | None => UB
  end.

Definition dev_write (off value : Z) : M (uio_state * D) bool := fun s =>
  match fd_ops dev with
  | Some ops => match op_write ops with
                | Some write => write off value 4 s
                | None => UB
                end
  | None => UB
  end.

(** [off + 4 <= dev->size && off + 4 <= g_uio.mmio.size] *)
Definition in_window (off : Z) (s : uio_state * D) : bool :=
  (u64 (off + 4) <=? fd_size dev) && (u64 (off + 4) <=? uio_size (fst s)).

Definition publish (off : Z) : M (uio_state * D) unit :=
  value ← dev_read off;
  liftF (mmio_store32 off (u32 value)).

Fixpoint refresh_list (offs : list Z) : M (uio_state * D) unit :=
  match offs with
  | [] => ret tt
  | off :: offs =>
      ok ← gets (in_window off);
      (if ok then publish off else ret tt);;
      refresh_list offs
  end.

Fixpoint refresh_config (fuel : nat) (off : Z) : M (uio_state * D) unit :=
  match fuel with
  | O => out_of_fuel
  | S fuel =>
      ok ← gets (in_window off);
      if ok then publish off;; refresh_config fuel (u64 (off + 4)) else ret tt
  end.

(** The configuration loop runs once per word of the smaller window. *)
Definition refresh_fuel : nat := S (Z.to_nat (fd_size dev / 4)).

Definition refresh_read_registers : M (uio_state * D) unit :=
  refresh_list registers;; refresh_config refresh_fuel VIRTIO_MMIO_CONFIG.

(** A register load: the guest may have stored to the page before it. *)
Definition scan32 (off : Z) : M (uio_state * D) Z :=
  liftF (guest_turn;; mmio_load32 off).

(** The shadow of every offset of the list that equals [target]. *)
Fixpoint resync_one (target : Z) (j : nat) (offsets shadow : list Z)
  : M (uio_state * D) (list Z) :=
  match offsets with
  | [] => ret shadow
  | off :: offsets =>
      ok ← gets (in_window off);
      if (off =? target) && ok then
        value ← scan32 off;
        resync_one target (S j) offsets (<[j := value]> shadow)
      else resync_one target (S j) offsets shadow
  end.

Fixpoint resync (targets offsets shadow : list Z) : M (uio_state * D) (list Z) :=
  match targets with
  | [] => ret shadow
  | target :: targets =>
      shadow ← resync_one target 0 offsets shadow;
      resync targets offsets shadow
  end.

(** The scan from position [i]: the returned flag and the shadow array. *)
Fixpoint poll_from (all : list Z) (i : nat) (offsets shadow : list Z)
  : M (uio_state * D) (bool * list Z) :=
  match offsets with
  | [] => ret (true, shadow)
  | off :: offsets =>
      ok ← gets (in_window off);
      if negb ok then poll_from all (S i) offsets shadow else
      value ← scan32 off;
      if value =? shadow !!! i then poll_from all (S i) offsets shadow else
      if off =? VIRTIO_MMIO_QUEUE_NOTIFY then
        liftF (mmio_store32 off UIO_NOTIFY_IDLE);;
        w ← dev_write off value;
        if negb w then ret (false, <[i := UIO_NOTIFY_IDLE]> shadow)
        else poll_from all (S i) offsets (<[i := UIO_NOTIFY_IDLE]> shadow)
      else
        w ← dev_write off value;
        if negb w then ret (false, <[i := value]> shadow) else
        if off =? VIRTIO_MMIO_QUEUE_SEL then
          shadow ← resync queue_state_offsets all (<[i := value]> shadow);
          poll_from all (S i) offsets shadow
        else if off =? VIRTIO_MMIO_INTERRUPT_ACK then
          liftF (mmio_store32 off 0);;
          poll_from all (S i) offsets (<[i := 0]> shadow)
        else poll_from all (S i) offsets (<[i := value]> shadow)
  end.

Definition poll_write_registers (shadow : list Z) : M (uio_state * D) (bool * list Z) :=
  poll_from write_offsets 0 write_offsets shadow.

(** The set-up of [fabric_run] once both resources are mapped: connect the
    device, take the first shadow, mark the notify register idle, publish. *)
Fixpoint initial_shadow (offsets : list Z) : M (uio_state * D) (list Z) :=
  match offsets with
  | [] => ret []
  | off :: offsets =>
      value ← (if u64 (off + 4) <=? fd_size dev then scan32 off else ret 0);
      rest ← initial_shadow offsets;
      ret ((if off =? VIRTIO_MMIO_QUEUE_NOTIFY then UIO_NOTIFY_IDLE else value) :: rest)
  end.

Definition uio_start : M (uio_state * D) (list Z) :=
  (modify (fun s => (fst s,
    match fd_ops dev with
    | Some ops => match op_connect ops with
                  | Some connect => connect (snd s)
                  | None => snd s
                  end
    | None => snd s
    end)));;
  shadow ← initial_shadow write_offsets;
  liftF (mmio_store32 VIRTIO_MMIO_QUEUE_NOTIFY UIO_NOTIFY_IDLE);;
  refresh_read_registers;;
  ret shadow.

(** One round of the event loop after a wake-up. *)
Definition uio_round (shadow : list Z) : M (uio_state * D) (bool * list Z) :=
  r ← poll_write_registers shadow;
  if negb (fst r) then ret (false, snd r) else
  refresh_read_registers;;
  ok ← liftF flush_pending_irq_level;
  ret (ok, snd r).

(** The event loop: it ends only by failing, and then everything is released. *)
Fixpoint uio_loop (rounds : nat) (ev : list wait_event) (shadow : list Z)
  : M (uio_state * D) bool :=
  match rounds with
  | O => out_of_fuel
  | S rounds =>
      match wait_for_uio_interrupt ev with
      | None => out_of_fuel
      | Some (false, _) => (modify (fun s => (cleanup_uio (fst s), snd s)));; ret false
      | Some (true, ev) =>
          r ← uio_round shadow;
          if negb (fst r) then
            (modify (fun s => (cleanup_uio (fst s), snd s)));; ret false
          else uio_loop rounds ev (snd r)
      end
  end.
End mirror.

(** ** What publication leaves in the page *)

(** [P] selects 4-byte aligned words of the page. *)
Definition words_ok (P : Z -> bool) (size : Z) : Prop :=
  forall off, P off = true -> 0 <= off /\ off mod 4 = 0 /\ off + 4 <= size.

Section publication.
Context {D : Type} (dev : fabric_device uio_state D).
Context (rd : D -> Z -> Z -> Z).
Hypothesis ops_read : exists ops, fd_ops dev = Some ops /\ op_read ops = Some rd.
Implicit Types s : uio_state * D.

(** From [s] to [s'] the selected words, and nothing else, were replaced by the
    device's register values. *)
Record mirrored (P : Z -> bool) (s s' : uio_state * D) : Prop := {
  mi_dev : snd s' = snd s;
  mi_rest : fst s' = set_mmio (us_mmio (fst s')) (fst s);
  mi_page : exists pg pg',
    mapping_ok (us_mmio (fst s)) pg /\ mapping_ok (us_mmio (fst s')) pg' /\
    zlen pg' = zlen pg /\
    (forall off, P off = true ->
       slice off 4 pg' = virtio_store_le32 (u32 (rd (snd s) off 4))) /\
    (forall i, (forall off, P off = true -> ~ (off <= Z.of_nat i < off + 4)) ->
       pg' !! i = pg !! i);
}.

Lemma mapping_ok_inj m l l' : mapping_ok m l -> mapping_ok m l' -> l = l'.
Proof. intros [E _ _] [E' _ _]. congruence. Qed.

Lemma mirrored_refl s pg : mapping_ok (us_mmio (fst s)) pg -> mirrored (fun _ => false) s s.
Proof.
  intros Hm. split; [reflexivity | now destruct s as [[] ?] |].
  exists pg, pg. repeat split; try apply Hm; easy.
Qed.

Lemma slice4_ext (l l' : list Z) off :
  0 <= off -> (forall i, (i < 4)%nat -> l !! (Z.to_nat off + i)%nat
                                        = l' !! (Z.to_nat off + i)%nat) ->
  slice off 4 l = slice off 4 l'.
Proof.
  intros Ho H. apply list_eq. intros i. destruct (decide (i < 4)%nat) as [Hi|Hi].
  - rewrite !lookup_slice by lia. auto.
  - unfold slice. rewrite !(proj2 (lookup_ge_None _ _));
      rewrite ?length_take; change (Z.to_nat 4) with 4%nat; lia || easy.
Qed.

Lemma mirrored_trans P1 P2 size s1 s2 s3 :
  words_ok P1 size -> words_ok P2 size ->
  mirrored P1 s1 s2 -> mirrored P2 s2 s3 ->
  mirrored (fun off => P1 off || P2 off) s1 s3.
Proof.
  intros W1 W2 [D12 R12 (p1 & p2 & M1 & M2 & L12 & S12 & O12)]
    [D23 R23 (p2' & p3 & M2' & M3 & L23 & S23 & O23)].
  pose proof (mapping_ok_inj _ _ _ M2' M2). subst p2'.
  split; [congruence | rewrite R23; destruct s3, s2, s1; cbn in *; now rewrite R12 |].
  exists p1, p3. split; [assumption|]. split; [assumption|]. split; [congruence|]. split.
  - intros off Hoff. destruct (P2 off) eqn:E2; [rewrite <- D12; now apply S23|].
    rewrite orb_false_r in Hoff. rewrite <- (S12 off Hoff).
    destruct (W1 off Hoff) as (Ho & Ha & _). apply slice4_ext; [assumption|].
    intros i Hi. apply O23. intros off' Hoff' Hin.
    destruct (W2 off' Hoff') as (Ho' & Ha' & _).
    assert (off = off'); [|congruence]. Z.div_mod_to_equations. lia.
  - intros i Hi. rewrite O23, O12; [reflexivity | |]; intros off Hoff; apply Hi;
      rewrite Hoff; [reflexivity | apply orb_true_r].
Qed.

Lemma mirrored_ext P Q s s' :
  (forall off, P off = Q off) -> mirrored P s s' -> mirrored Q s s'.
Proof.
  intros E [? ? (pg & pg' & ? & ? & ? & Hs & Ho)]. split; [assumption..|].
  exists pg, pg'. repeat (split; [assumption|]). split.
  - intros off Hoff. apply Hs. now rewrite E.
  - intros i Hi. apply Ho. intros off Hoff. apply Hi. now rewrite <- E.
Qed.

(** One register. *)
Lemma publish_ok off s pg :
  mapping_ok (us_mmio (fst s)) pg -> 0 <= off -> off + 4 <= zlen pg ->
  wp (publish dev off) s (fun _ s' => mirrored (Z.eqb off) s s').
Proof.
  intros Hm Ho Hle. destruct ops_read as (ops & Eo & Er).
  unfold publish. rewrite wpx_bind. unfold dev_read at 1. unfold wpx at 1.
  rewrite Eo, Er. rewrite wpx_liftF. unfold mmio_store32, wpx.
  set (v := u32 (rd (snd s) off 4)).
  assert (bytes (virtio_store_le32 v)) as Hb by auto with acs.
  destruct (map_store_ok _ pg off (virtio_store_le32 v) Hm) as [-> Hm'];
    [assumption | exact Hle | assumption|].
  split; [reflexivity | reflexivity|].
  exists pg, (splice off (virtio_store_le32 v) pg). split; [assumption|].
  split; [exact Hm'|]. split; [now apply zlen_splice|]. split.
  - intros off' E. apply Z.eqb_eq in E. subst off'.
    apply (slice_splice_same off (virtio_store_le32 v)); assumption.
  - intros i Hi. apply lookup_splice_out; [assumption | exact Hle|].
    change (zlen (virtio_store_le32 v)) with 4.
    specialize (Hi off (Z.eqb_refl off)). lia.
Qed.

(** The window: small enough that [off + 4] does not wrap. *)
Definition window (s : uio_state * D) : Z := Z.min (fd_size dev) (uio_size (fst s)).

Lemma in_window_eq off s :
  0 <= off -> off < 2 ^ 63 -> in_window dev off s = (off + 4 <=? window s).
Proof.
  intros H0 H1. unfold in_window, window. rewrite u64_small by (unfold in_width; lia).
  destruct (off + 4 <=? fd_size dev) eqn:E1, (off + 4 <=? uio_size (fst s)) eqn:E2,
    (off + 4 <=? Z.min _ _) eqn:E3; lia || reflexivity.
Qed.

Lemma mirrored_window P s s' : mirrored P s s' -> window s' = window s.
Proof.
  intros [_ _ (pg & pg' & [_ Es _] & [_ Es' _] & L & _)]. unfold window, uio_size.
  now rewrite Es, Es', L.
Qed.

Definition listed (offs : list Z) (w : Z) (off : Z) : bool :=
  existsb (Z.eqb off) offs && (off + 4 <=? w).

Lemma refresh_list_ok offs s pg :
  mapping_ok (us_mmio (fst s)) pg ->
  Forall (fun off => 0 <= off < 2 ^ 63 /\ off mod 4 = 0) offs ->
  wp (refresh_list dev offs) s (fun _ s' => mirrored (listed offs (window s)) s s').
Proof.
  revert s pg. induction offs as [|off offs IH]; intros s pg Hm Hall; cbn [refresh_list].
  { rewrite wpx_ret. eapply mirrored_ext; [|now apply (mirrored_refl s pg)].
    reflexivity. }
  apply Forall_cons_iff in Hall as [[Hoff Hal] Hall].
  rewrite wpx_bind, wpx_gets, wpx_bind, in_window_eq by lia.
  eapply wpx_mono with (Q := fun _ s1 =>
    mirrored (fun o => (off =? o) && (off + 4 <=? window s)) s s1).
  { destruct (off + 4 <=? window s) eqn:Ew.
    - wpuse (publish_ok off s pg); [assumption | lia | |].
      { unfold window, uio_size in Ew. rewrite (mo_size _ _ Hm) in Ew. lia. }
      intros _ s1. apply mirrored_ext. intros o. now rewrite andb_true_r.
    - rewrite wpx_ret. eapply mirrored_ext; [|now apply (mirrored_refl s pg)].
      intros o. now rewrite andb_false_r. }
  intros _ s1 M1. pose proof M1 as [_ _ (? & pg1 & _ & Hm1 & _)].
  wpuse (IH s1 pg1); [assumption | assumption|]. intros _ s2 M2.
  rewrite (mirrored_window _ _ _ M1) in M2.
  assert (words_ok (fun o => (off =? o) && (off + 4 <=? window s)) (window s)) as W1.
  { intros o Ho. apply andb_prop in Ho as [E Ew]. apply Z.eqb_eq in E. subst o. lia. }
  assert (words_ok (listed offs (window s)) (window s)) as W2.
  { intros o Ho. unfold listed in Ho. apply andb_prop in Ho as [E Ew].
    apply existsb_exists in E as (o' & Hin & E). apply Z.eqb_eq in E. subst o'.
    rewrite List.Forall_forall in Hall. destruct (Hall o Hin). lia. }
  eapply mirrored_ext; [|exact (mirrored_trans _ _ _ _ _ _ W1 W2 M1 M2)].
  intros o. unfold listed. cbn [existsb]. rewrite (Z.eqb_sym o off).
  destruct (off =? o) eqn:E; [|reflexivity]. apply Z.eqb_eq in E. subst o.
  cbn [andb orb]. now destruct (off + 4 <=? window s); rewrite ?andb_false_r.
Qed.

Definition config_words (start w off : Z) : bool :=
  (start <=? off) && (off mod 4 =? 0) && (off + 4 <=? w).

Lemma config_words_ok start w : 0 <= start -> words_ok (config_words start w) w.
Proof. intros H0 off. unfold config_words. lia. Qed.

Lemma refresh_config_ok fuel off s pg :
  mapping_ok (us_mmio (fst s)) pg -> 0 <= off < 2 ^ 62 -> off mod 4 = 0 ->
  window s < 2 ^ 62 -> window s - off < 4 * Z.of_nat fuel -> (0 < fuel)%nat ->
  wp (refresh_config dev fuel off) s (fun _ s' =>
    mirrored (config_words off (window s)) s s').
Proof.
  revert off s pg. induction fuel as [|fuel IH]; intros off s pg Hm Hoff Hal Hw Hfu Hpos;
    [lia|]. cbn [refresh_config].
  rewrite wpx_bind, wpx_gets, in_window_eq by lia.
  destruct (off + 4 <=? window s) eqn:Ew.
  - rewrite wpx_bind. wpuse (publish_ok off s pg); [assumption | lia | |].
    { unfold window, uio_size in Ew. rewrite (mo_size _ _ Hm) in Ew. lia. }
    intros _ s1 M1. pose proof M1 as [_ _ (? & pg1 & _ & Hm1 & _)].
    pose proof (mirrored_window _ _ _ M1) as Ew1.
    rewrite (u64_small (off + 4)) by (unfold in_width; lia).
    wpuse (IH (off + 4) s1 pg1); rewrite ?Ew1; try assumption; try lia.
    { Z.div_mod_to_equations. lia. }
    intros _ s2 M2.
    assert (words_ok (Z.eqb off) (window s)) as W1
      by (intros o Ho; apply Z.eqb_eq in Ho; subst o; lia).
    eapply mirrored_ext; [|exact (mirrored_trans _ _ _ _ _ _ W1
      (config_words_ok (off + 4) (window s) ltac:(lia)) M1 M2)].
    intros o. unfold config_words.
    destruct (decide (off = o)) as [<-|Hne].
    { rewrite Z.eqb_refl, Z.leb_refl, Hal, Ew. reflexivity. }
    rewrite (proj2 (Z.eqb_neq _ _) Hne). cbn [orb].
    destruct (o mod 4 =? 0) eqn:Em; [|now rewrite !andb_false_r].
    apply Z.eqb_eq in Em. do 2 f_equal. apply eq_true_iff_eq.
    rewrite !Z.leb_le. revert Em Hal Hne. clear. intros.
    split; intros; Z.div_mod_to_equations; lia.
  - rewrite wpx_ret. eapply mirrored_ext; [|now apply (mirrored_refl s pg)].
    intros o. unfold config_words.
    destruct (off <=? o) eqn:E1, (o + 4 <=? window s) eqn:E2; try reflexivity;
      [lia | now rewrite andb_false_r].
Qed.

(** All published words. *)
Definition published (w off : Z) : bool :=
  listed registers w off || config_words VIRTIO_MMIO_CONFIG w off.

Lemma refresh_ok s pg :
  mapping_ok (us_mmio (fst s)) pg -> 0 <= fd_size dev < 2 ^ 62 ->
  wp (refresh_read_registers dev) s (fun _ s' =>
    mirrored (published (window s)) s s').
Proof.
  intros Hm Hsz. unfold refresh_read_registers. rewrite wpx_bind.
  wpuse (refresh_list_ok registers s pg); [assumption | |].
  { repeat constructor; vm_compute; (reflexivity || discriminate). }
  intros _ s1 M1. pose proof M1 as [_ _ (? & pg1 & _ & Hm1 & _)].
  pose proof (mirrored_window _ _ _ M1) as Ew1.
  assert (window s <= fd_size dev) as Hle by (unfold window; lia).
  wpuse (refresh_config_ok (refresh_fuel dev) VIRTIO_MMIO_CONFIG s1 pg1);
    rewrite ?Ew1; try assumption; try (unfold VIRTIO_MMIO_CONFIG; lia);
    try reflexivity; try lia.
  { unfold refresh_fuel, VIRTIO_MMIO_CONFIG. Z.div_mod_to_equations. lia. }
  { unfold refresh_fuel. lia. }
  intros _ s2 M2.
  assert (words_ok (listed registers (window s)) (window s)) as W1.
  { intros o Ho. unfold listed in Ho. apply andb_prop in Ho as [E Ew].
    apply existsb_exists in E as (o' & Hin & E). apply Z.eqb_eq in E. subst o'.
    repeat (destruct Hin as [<-|Hin]; [repeat split; try (vm_compute; discriminate); lia|]).
    destruct Hin. }
  exact (mirrored_trans _ _ _ _ _ _ W1
    (config_words_ok VIRTIO_MMIO_CONFIG (window s) ltac:(unfold VIRTIO_MMIO_CONFIG; lia)) M1 M2).
Qed.
End publication.

(** ** Claims *)

(** The published page is the device. After [refresh_read_registers], every
    read register inside the window and every configuration word holds, in
    little-endian order, the low 32 bits of what the device's read callback returns;
    no other byte of the page, nothing of the DMA window and nothing of the device
    has changed. The loop over the configuration space ends for every device
    size. *)
Theorem refresh_publishes {D} (dev : fabric_device uio_state D) rd ops s :
  uio_ok (fst s) -> fd_ops dev = Some ops -> op_read ops = Some rd ->
  0 <= fd_size dev < 2 ^ 62 ->
  exists s' pg pg', refresh_read_registers dev s = Done (tt, s') /\
    um_addr (us_mmio (fst s)) = Some pg /\ um_addr (us_mmio (fst s')) = Some pg' /\
    snd s' = snd s /\ us_dma (fst s') = us_dma (fst s) /\
    (forall off, off + 4 <= fd_size dev -> off + 4 <= zlen pg ->
       In off registers \/ VIRTIO_MMIO_CONFIG <= off /\ off mod 4 = 0 ->
       virtio_load_le32 (slice off 4 pg') = u32 (rd (snd s) off 4)) /\
    (forall i, ~ In (4 * (Z.of_nat i / 4)) registers ->
       Z.of_nat i < VIRTIO_MMIO_CONFIG \/ Z.min (fd_size dev) (zlen pg) <= Z.of_nat i ->
       pg' !! i = pg !! i).
Proof.
  intros Hok Eo Er Hsz. destruct (uo_mmio _ Hok) as [pg0 Hm0].
  destruct (wp_elim _ _ _ (refresh_ok dev rd ltac:(eauto) s pg0 Hm0 Hsz))
    as ([] & s' & E & [Hd Hr (pg & pg' & Hm & Hm' & Hl & Hs & Ho)]).
  exists s', pg, pg'. split; [assumption|]. split; [apply Hm|]. split; [apply Hm'|].
  split; [assumption|]. split; [now rewrite Hr|].
  assert (window dev s = Z.min (fd_size dev) (zlen pg)) as Ew
    by (unfold window, uio_size; now rewrite (mo_size _ _ Hm)).
  split.
  - intros off H1 H2 Hin. rewrite Hs.
    + rewrite <- (app_nil_r (virtio_store_le32 _)), load_store_le32.
      apply u32_small, u32_range.
    + unfold published, listed, config_words. rewrite Ew. destruct Hin as [Hin|[H3 H4]].
      * apply orb_true_iff. left. apply andb_true_iff. split; [|lia].
        apply existsb_exists. exists off. split; [assumption | apply Z.eqb_refl].
      * apply orb_true_iff. right. lia.
  - intros i Hn Hi. apply Ho. intros off Hp Hin. unfold published in Hp.
    rewrite Ew in Hp. apply orb_true_iff in Hp as [Hp|Hp].
    + unfold listed in Hp. apply andb_prop in Hp as [Hp _].
      apply existsb_exists in Hp as (o & Hino & Eo'). apply Z.eqb_eq in Eo'. subst o.
      apply Hn. replace (4 * (Z.of_nat i / 4)) with off; [assumption|].
      assert (off mod 4 = 0) as Hal.
      { repeat (destruct Hino as [<-|Hino]; [reflexivity|]). destruct Hino. }
      revert Hal Hin. clear. intros. Z.div_mod_to_equations. lia.
    + unfold config_words in Hp. revert Hp Hin Hi. clear. intros.
      assert (off mod 4 = 0 /\ VIRTIO_MMIO_CONFIG <= off /\
              off + 4 <= Z.min (fd_size dev) (zlen pg)) as (? & ? & ?) by lia. lia.
Qed.

(** A device of one register: its state. *)
Definition echo_ops : fabric_device_ops uio_state Z :=
  {| op_connect := None; op_read := Some (fun d off _ => d + off);
     op_write := Some (fun off value _ s => Done (true, (fst s, value))) |}.

Definition echo_device : fabric_device uio_state Z :=
  {| fd_name := "echo"; fd_socket_path := "uio:/dev/uio0"; fd_addr := 0;
     fd_size := 0x104; fd_ops := Some echo_ops |}.

Lemma refresh_publishes_witness :
  exists s' pg', refresh_read_registers echo_device
      (uio_over 0 (replicate 512 0) [], 0x11223300) = Done (tt, s') /\
    um_addr (us_mmio (fst s')) = Some pg' /\
    virtio_load_le32 (slice 0x70 4 pg') = 0x11223370 /\
    virtio_load_le32 (slice 0x100 4 pg') = 0x11223400.
Proof.
  destruct (refresh_publishes echo_device (fun d off _ => d + off) echo_ops
    (uio_over 0 (replicate 512 0) [], 0x11223300))
    as (s' & pg & pg' & E & Ep & Ep' & _ & _ & Hs & _).
  - apply uio_over_inv with (quiet := true); decided.
  - reflexivity.
  - reflexivity.
  - vm_compute. split; [discriminate | reflexivity].
  - injection Ep as <-. exists s', pg'. split; [exact E|]. split; [exact Ep'|].
    split; (rewrite Hs; [reflexivity | vm_compute; discriminate | vm_compute; discriminate |]).
    + left. vm_compute. tauto.
    + right. split; [vm_compute; discriminate | reflexivity].
Defined.

(** A requested interrupt level reaches the frontend exactly once. With the
    control register inside the page, flushing a pending level writes it to the
    control register, clears the request and succeeds; a second flush changes
    nothing. *)
Theorem irq_level_flushed s pg level :
  mapping_ok (us_mmio s) pg -> us_pending_irq_level s = level -> 0 <= level <= 1 ->
  0 <= uc_irq_control_offset (us_config s) ->
  uc_irq_control_offset (us_config s) + 4 <= zlen pg -> zlen pg < 2 ^ 63 ->
  exists s', flush_pending_irq_level s = Done (true, s') /\
    mmio_load32 (uc_irq_control_offset (us_config s)) s' = Done (level, s') /\
    us_dma s' = us_dma s /\ us_pending_irq_level s' = -1 /\
    flush_pending_irq_level s' = Done (true, s').
Proof.
  intros Hm Hp Hl H0 Hle Hlt. unfold flush_pending_irq_level, bind, get. rewrite Hp.
  set (off := uc_irq_control_offset (us_config s)) in *.
  unfold uio_size. rewrite (mo_size _ _ Hm).
  rewrite (proj2 (Z.ltb_ge level 0)) by lia.
  rewrite (u64_small (off + 4)) by (unfold in_width; lia).
  rewrite (proj2 (Z.ltb_ge (zlen pg) _)) by lia.
  replace (if level =? 0 then 0 else 1) with level
    by (destruct (level =? 0) eqn:E; lia).
  unfold mmio_store32.
  destruct (map_store_ok _ pg off (virtio_store_le32 level) Hm) as [-> Hm'];
    [assumption | exact Hle | auto with acs|].
  eexists. split; [reflexivity|]. split; [|easy].
  unfold mmio_load32. cbn [us_mmio set_pending set_mmio].
  rewrite (map_load_ok _ _ off 4 Hm').
  - rewrite (slice_splice_same off (virtio_store_le32 level)) by assumption.
    rewrite <- (app_nil_r (virtio_store_le32 level)), load_store_le32.
    now rewrite u32_small by (unfold in_width; lia).
  - assumption.
  - rewrite zlen_splice; assumption.
Qed.

Lemma irq_level_flushed_witness :
  exists s', flush_pending_irq_level (set_pending 1 (uio_over 0 (replicate 1024 0) []))
    = Done (true, s') /\ mmio_load32 0x200 s' = Done (1, s').
Proof.
  destruct (irq_level_flushed (set_pending 1 (uio_over 0 (replicate 1024 0) []))
    (replicate 1024 0) 1) as (s' & E & El & _).
  - split; [reflexivity | reflexivity | decided].
  - reflexivity.
  - lia.
  - vm_compute. discriminate.
  - vm_compute. discriminate.
  - reflexivity.
  - exists s'. split; [exact E | exact El].
Defined.

(** The control-register bound wraps. For an endpoint whose interrupt-control
    offset is within 4 bytes of [2^64], [irq_control_offset + 4] wraps to a small
    number, the bounds check passes and the store leaves the mapping. *)
Theorem irq_offset_wraps s pg :
  mapping_ok (us_mmio s) pg -> 0 <= us_pending_irq_level s ->
  2 ^ 64 - 4 <= uc_irq_control_offset (us_config s) < 2 ^ 64 ->
  4 <= zlen pg -> zlen pg < 2 ^ 63 ->
  flush_pending_irq_level s = UB.
Proof.
  intros Hm Hp Ho H4 Hlt. unfold flush_pending_irq_level, bind, get.
  rewrite (proj2 (Z.ltb_ge _ 0)) by lia. unfold uio_size. rewrite (mo_size _ _ Hm).
  assert (u64 (uc_irq_control_offset (us_config s) + 4)
          = uc_irq_control_offset (us_config s) + 4 - 2 ^ 64) as ->.
  { unfold u64. symmetry. apply Z.mod_unique with 1; lia. }
  rewrite (proj2 (Z.ltb_ge (zlen pg) _)) by lia.
  unfold mmio_store32, map_store. rewrite (mo_addr _ _ Hm).
  change (zlen (virtio_store_le32 _)) with 4.
  rewrite (proj2 (Z.leb_gt (_ + 4) _)) by lia. now rewrite andb_false_r.
Qed.

Definition wrapping_endpoint : uio_state :=
  {| us_fd := 5;
     us_config := {| uc_path := "/dev/uio0"; uc_irq_control_offset := 2 ^ 64 - 4;
                     uc_dma_base := 0 |};
     us_mmio := {| um_addr := Some (replicate 1024 0); um_size := 1024 |};
     us_dma := {| um_addr := Some []; um_size := 0 |};
     us_pending_irq_level := 1; us_alloc := []; us_guest := [] |}.

Lemma irq_offset_wraps_witness : flush_pending_irq_level wrapping_endpoint = UB.
Proof.
  apply (irq_offset_wraps wrapping_endpoint (replicate 1024 0)).
  - split; [reflexivity | reflexivity | decided].
  - vm_compute. discriminate.
  - split; [vm_compute; discriminate | reflexivity].
  - vm_compute. discriminate.
  - reflexivity.
Defined.
