(* ===== verification/AxiPool.v ===== *)
(** * The restricted DMA pool of the kernel driver

    [src/kernel/axi_mmio.c]: a page-granular bitmap allocator over the DMA aperture,
    bounce buffers for streaming mappings, and scatter-gather mapping with rollback
    (the registry of pools is in [AxiRegistry.v]). Physical memory is one byte memory; the pool's
    kernel mapping [dma_virt] is the aperture itself. Each critical section of
    [dma_lock] is one operation. *)

From S2P Require Import Prelude.

#[local] Open Scope Z_scope.
#[local] Open Scope c_scope.

Definition PAGE_SHIFT : Z := 12.
Definition PAGE_SIZE : Z := 4096.
Definition DMA_MAPPING_ERROR : Z := 2 ^ 64 - 1.
Definition ENOMEM : Z := 12.
Definition EINVAL : Z := 22.

Inductive dma_data_direction : Type :=
| DMA_BIDIRECTIONAL
| DMA_TO_DEVICE
| DMA_FROM_DEVICE.

#[global] Instance dma_data_direction_eq_dec : EqDecision dma_data_direction.
Proof. solve_decision. Defined.

Record axi_mmio_bounce : Type := {
  bo_dma_handle : Z;  (* dma_addr_t *)
  bo_phys : Z;        (* phys_addr_t *)
  bo_size : Z;        (* size_t *)
}.

(** [struct axi_mmio_pool]; [dma_virt] and the locks have no separate state. *)
Record axi_mmio_pool : Type := {
  po_bounces : list axi_mmio_bounce;
  po_dma_base : Z;
  po_dma_size : Z;
  po_dma_bitmap : list bool;
  po_dma_pages : Z;
}.

(** The pool, physical memory, and the outcomes of the next [kzalloc] and
    [memremap] calls (success when exhausted). *)
Record axi_state : Type := {
  ax_pool : axi_mmio_pool;
  ax_mem : mem;
  ax_kzalloc : list bool;
  ax_memremap : list bool;
}.

Definition set_bitmap (bm : list bool) (p : axi_mmio_pool) : axi_mmio_pool :=
  {| po_bounces := po_bounces p; po_dma_base := po_dma_base p;
     po_dma_size := po_dma_size p; po_dma_bitmap := bm;
     po_dma_pages := po_dma_pages p |}.
Definition set_bounces (l : list axi_mmio_bounce) (p : axi_mmio_pool) : axi_mmio_pool :=
  {| po_bounces := l; po_dma_base := po_dma_base p; po_dma_size := po_dma_size p;
     po_dma_bitmap := po_dma_bitmap p; po_dma_pages := po_dma_pages p |}.
Definition set_pool (p : axi_mmio_pool) (s : axi_state) : axi_state :=
  {| ax_pool := p; ax_mem := ax_mem s; ax_kzalloc := ax_kzalloc s;
     ax_memremap := ax_memremap s |}.
Definition set_mem (m : mem) (s : axi_state) : axi_state :=
  {| ax_pool := ax_pool s; ax_mem := m; ax_kzalloc := ax_kzalloc s;
     ax_memremap := ax_memremap s |}.

(** Allocation in the kernel. *)
Definition kzalloc : M axi_state bool := fun s =>
  match ax_kzalloc s with
  | [] => Done (true, s)
  | ok :: l => Done (ok, {| ax_pool := ax_pool s; ax_mem := ax_mem s;
                            ax_kzalloc := l; ax_memremap := ax_memremap s |})
  end.

Definition memremap : M axi_state bool := fun s =>
  match ax_memremap s with
  | [] => Done (true, s)
  | ok :: l => Done (ok, {| ax_pool := ax_pool s; ax_mem := ax_mem s;
                            ax_kzalloc := ax_kzalloc s; ax_memremap := l |})
  end.

(** ** Bitmaps ([linux/bitmap.h])

    Bit numbers and counts are [unsigned int] there, while the driver's are
    [unsigned long]. A search for zero bits stops at the first clear bit. *)

Definition bitmap_nr (n : Z) : nat := Z.to_nat (u32 n).

Definition zero_area (bm : list bool) (nr start : nat) : bool :=
  (start + nr <=? length bm)%nat && forallb negb (take (Nat.max 1 nr) (drop start bm)).

(** The first area of [nr] clear bits; [None] stands for a result past the end. *)
Definition bitmap_find_next_zero_area (bm : list bool) (nr : nat) : option nat :=
  find (zero_area bm nr) (seq 0 (length bm)).

Definition bitmap_fill (v : bool) (bm : list bool) (start nr : nat) : list bool :=
  take start bm ++ replicate nr v ++ drop (start + nr) bm.

(** ** The allocator *)

(** [PAGE_ALIGN(size) >> PAGE_SHIFT] *)
Definition page_count (size : Z) : Z := u64 (size + 4095) / PAGE_SIZE.

Definition axi_mmio_pool_alloc (size : Z) : M axi_state (option Z) :=
  let pages := page_count size in
  if pages =? 0 then ret None else
  p ← gets ax_pool;
  match bitmap_find_next_zero_area (po_dma_bitmap p) (bitmap_nr pages) with
  | None => ret None
  | Some start =>
      (modify (set_pool (set_bitmap (bitmap_fill true (po_dma_bitmap p)
        (bitmap_nr (Z.of_nat start)) (bitmap_nr pages)) p)));;
      ret (Some (u64 (po_dma_base p + Z.of_nat start * PAGE_SIZE)))
  end.

Definition axi_mmio_pool_free (dma_handle size : Z) : M axi_state unit :=
  p ← gets ax_pool;
  let pages := page_count size in
  if (dma_handle <? po_dma_base p) || (pages =? 0) then ret tt else
  let offset := (dma_handle - po_dma_base p) / PAGE_SIZE in
  if po_dma_pages p <? u64 (offset + pages) then ret tt else
  modify (set_pool (set_bitmap
    (bitmap_fill false (po_dma_bitmap p) (bitmap_nr offset) (bitmap_nr pages)) p)).

(** [memcpy] between physical ranges; undefined outside memory. *)
Definition phys_copy (dst src size : Z) : M axi_state unit := fun s =>
  match load_range (ax_mem s) src (Z.to_nat size),
        load_range (ax_mem s) dst (Z.to_nat size) with
  | Some data, Some _ => Done (tt, set_mem (mem_write (ax_mem s) dst data) s)
  | _, _ => UB
  end.

Definition axi_mmio_copy_phys_to_pool (dma_handle phys size : Z) : M axi_state bool :=
  ok ← memremap;
  if negb ok then ret false else phys_copy dma_handle phys size;; ret true.

Definition axi_mmio_copy_pool_to_phys (dma_handle phys size : Z) : M axi_state bool :=
  ok ← memremap;
  if negb ok then ret false else phys_copy phys dma_handle size;; ret true.

(** ** Bounce buffers *)

Definition bounce_find (l : list axi_mmio_bounce) (dma_handle : Z)
  : option axi_mmio_bounce :=
  find (fun b => bo_dma_handle b =? dma_handle) l.

(** [list_del] of the entry found. *)
Fixpoint bounce_del (l : list axi_mmio_bounce) (dma_handle : Z)
  : list axi_mmio_bounce :=
  match l with
  | [] => []
  | b :: l => if bo_dma_handle b =? dma_handle then l else b :: bounce_del l dma_handle
  end.

Definition axi_mmio_bounce_sync_for_device (dma_handle size : Z)
    (dir : dma_data_direction) : M axi_state unit :=
  if decide (dir = DMA_FROM_DEVICE) then ret tt else
  p ← gets ax_pool;
  match bounce_find (po_bounces p) dma_handle with
  | None => ret tt
  | Some b => _ ← axi_mmio_copy_phys_to_pool dma_handle (bo_phys b)
                    (Z.min size (bo_size b));
              ret tt
  end.

Definition axi_mmio_bounce_sync_for_cpu (dma_handle size : Z)
    (dir : dma_data_direction) : M axi_state unit :=
  if decide (dir = DMA_TO_DEVICE) then ret tt else
  p ← gets ax_pool;
  match bounce_find (po_bounces p) dma_handle with
  | None => ret tt
  | Some b => _ ← axi_mmio_copy_pool_to_phys dma_handle (bo_phys b)
                    (Z.min size (bo_size b));
              ret tt
  end.

(** ** The DMA operations of a child device

    [pool]: the parent's driver data exists and has a pool. *)

(** The kernel address is the aperture address itself. *)
Definition axi_mmio_dma_alloc (pool : bool) (size : Z) : M axi_state (option Z) :=
  if negb pool then ret None else axi_mmio_pool_alloc size.

Definition axi_mmio_dma_free (pool : bool) (size dma_handle : Z) : M axi_state unit :=
  if negb pool then ret tt else axi_mmio_pool_free dma_handle size.

Definition inside_aperture (p : axi_mmio_pool) (addr size : Z) : bool :=
  (po_dma_base p <=? addr) && (size <=? po_dma_size p)
  && (addr - po_dma_base p <=? po_dma_size p - size).

Definition axi_mmio_dma_map_phys (pool : bool) (phys size : Z)
    (dir : dma_data_direction) : M axi_state Z :=
  if negb pool || (size =? 0) then ret DMA_MAPPING_ERROR else
  p ← gets ax_pool;
  if inside_aperture p phys size then ret phys else
  ok ← kzalloc;
  if negb ok then ret DMA_MAPPING_ERROR else
  h ← axi_mmio_pool_alloc size;
  match h with
  | None => ret DMA_MAPPING_ERROR
  | Some dma_handle =>
      copied ← (if decide (dir = DMA_FROM_DEVICE) then ret true
                else axi_mmio_copy_phys_to_pool dma_handle phys size);
      if negb copied then
        axi_mmio_pool_free dma_handle size;; ret DMA_MAPPING_ERROR
      else
        (modify (fun s => set_pool (set_bounces
          ({| bo_dma_handle := dma_handle; bo_phys := phys; bo_size := size |}
           :: po_bounces (ax_pool s)) (ax_pool s)) s));;
        ret dma_handle
  end.

Definition axi_mmio_dma_unmap_phys (pool : bool) (dma_handle size : Z)
    (dir : dma_data_direction) : M axi_state unit :=
  p ← gets ax_pool;
  if negb pool || negb (inside_aperture p dma_handle size) then ret tt else
  match bounce_find (po_bounces p) dma_handle with
  | None => ret tt
  | Some b =>
      (modify (set_pool (set_bounces (bounce_del (po_bounces p) dma_handle) p)));;
      (if decide (dir = DMA_TO_DEVICE) then ret tt
       else _ ← axi_mmio_copy_pool_to_phys dma_handle (bo_phys b)
                  (Z.min size (bo_size b));
            ret tt);;
      axi_mmio_pool_free dma_handle (bo_size b)
  end.

(** A scatterlist entry: its memory, and the DMA address and length fields. *)
Record scatterlist : Type := {
  sg_phys : Z;
  sg_length : Z;
  sg_dma_address : Z;
  sg_dma_len : Z;
}.

Definition sg_set (addr len : Z) (sg : scatterlist) : scatterlist :=
  {| sg_phys := sg_phys sg; sg_length := sg_length sg; sg_dma_address := addr;
     sg_dma_len := len |}.

(** The rollback loop over the entries mapped so far. *)
Fixpoint unwind_sg (mapped : list scatterlist) : M axi_state (list scatterlist) :=
  match mapped with
  | [] => ret []
  | sg :: mapped =>
      axi_mmio_pool_free (sg_dma_address sg) (sg_dma_len sg);;
      rest ← unwind_sg mapped;
      ret (sg_set DMA_MAPPING_ERROR 0 sg :: rest)
  end.

(** [done]: the entries already mapped, in order. The result is the return value
    and the scatterlist. *)
Fixpoint map_sg_from (dir : dma_data_direction) (done sgl : list scatterlist)
  : M axi_state (Z * list scatterlist) :=
  match sgl with
  | [] => ret (Z.of_nat (length done), done)
  | sg :: sgl =>
      h ← axi_mmio_pool_alloc (sg_length sg);
      match h with
      | None => undone ← unwind_sg done; ret (- ENOMEM, undone ++ sg :: sgl)
      | Some addr =>
          (if decide (dir = DMA_FROM_DEVICE) then ret tt
           else phys_copy addr (sg_phys sg) (sg_length sg));;
          map_sg_from dir (done ++ [sg_set addr (sg_length sg) sg]) sgl
      end
  end.

Definition axi_mmio_dma_map_sg (pool : bool) (sgl : list scatterlist)
    (dir : dma_data_direction) : M axi_state (Z * list scatterlist) :=
  if negb pool then ret (- EINVAL, sgl) else map_sg_from dir [] sgl.

Fixpoint unmap_sg_each (sgl : list scatterlist) (dir : dma_data_direction)
  : M axi_state (list scatterlist) :=
  match sgl with
  | [] => ret []
  | sg :: sgl =>
      if (sg_dma_address sg =? DMA_MAPPING_ERROR) || (sg_dma_len sg =? 0) then
        rest ← unmap_sg_each sgl dir; ret (sg :: rest)
      else
        (if decide (dir = DMA_TO_DEVICE) then ret tt
         else phys_copy (sg_phys sg) (sg_dma_address sg) (sg_dma_len sg));;
        axi_mmio_pool_free (sg_dma_address sg) (sg_dma_len sg);;
        rest ← unmap_sg_each sgl dir;
        ret (sg_set DMA_MAPPING_ERROR 0 sg :: rest)
  end.

Definition axi_mmio_dma_unmap_sg (pool : bool) (sgl : list scatterlist)
    (dir : dma_data_direction) : M axi_state (list scatterlist) :=
  if negb pool then ret sgl else unmap_sg_each sgl dir.

Definition axi_mmio_dma_sync_single_for_cpu (pool : bool) (dma_handle size : Z)
    (dir : dma_data_direction) : M axi_state unit :=
  if negb pool then ret tt else axi_mmio_bounce_sync_for_cpu dma_handle size dir.

Definition axi_mmio_dma_sync_single_for_device (pool : bool) (dma_handle size : Z)
    (dir : dma_data_direction) : M axi_state unit :=
  if negb pool then ret tt else axi_mmio_bounce_sync_for_device dma_handle size dir.

Definition axi_mmio_dma_supported (mask : Z) : bool := mask =? 2 ^ 64 - 1.

(** The aperture checks of [axi_mmio_probe]. *)
Definition aperture_valid (dma_base dma_size : Z) : bool :=
  (Z.land dma_base (PAGE_SIZE - 1) =? 0) && (Z.land dma_size (PAGE_SIZE - 1) =? 0)
  && negb (Z.shiftr dma_size PAGE_SHIFT =? 0).

(** The pool [axi_mmio_pool_get] initialises for a new aperture. *)
Definition new_pool (base size : Z) : axi_mmio_pool :=
  {| po_bounces := []; po_dma_base := base; po_dma_size := size;
     po_dma_bitmap := replicate (bitmap_nr (Z.shiftr size PAGE_SHIFT)) false;
     po_dma_pages := Z.shiftr size PAGE_SHIFT |}.

(** ** Ownership of pages

    The abstract allocator: [live] are the page ranges handed out and not yet
    returned. The bitmap is exactly their characteristic function, and no page has
    two owners. *)

Definition covers (i : nat) (r : nat * nat) : bool := ((r.1 <=? i) && (i <? r.1 + r.2))%nat.

Definition owners (i : nat) (live : list (nat * nat)) : nat :=
  length (List.filter (covers i) live).

Record pool_inv (p : axi_mmio_pool) (live : list (nat * nat)) : Prop := {
  pi_pages : Z.of_nat (length (po_dma_bitmap p)) = po_dma_pages p;
  pi_width : po_dma_pages p < 2 ^ 32;
  pi_size : po_dma_size p = po_dma_pages p * PAGE_SIZE;
  pi_base : 0 <= po_dma_base p;
  pi_align : po_dma_base p mod PAGE_SIZE = 0;
  pi_top : po_dma_base p + po_dma_size p < 2 ^ 64;
  pi_ranges : Forall (fun r => (0 < r.2)%nat /\
                (r.1 + r.2 <= length (po_dma_bitmap p))%nat) live;
  pi_bits : forall i, (i < length (po_dma_bitmap p))%nat ->
    po_dma_bitmap p !! i = Some (0 <? owners i live)%nat;
  pi_single : forall i, (owners i live <= 1)%nat;
}.

(** The bus address range of a page range. *)
Definition range_addr (p : axi_mmio_pool) (r : nat * nat) : Z :=
  po_dma_base p + Z.of_nat r.1 * PAGE_SIZE.

Section bitmap_facts.
Implicit Types bm : list bool.

Lemma length_bitmap_fill v bm start nr : (start + nr <= length bm)%nat ->
  length (bitmap_fill v bm start nr) = length bm.
Proof.
  intros. unfold bitmap_fill.
  rewrite !length_app, length_take, length_replicate, length_drop. lia.
Qed.

Lemma lookup_bitmap_fill v bm start nr i :
  (start + nr <= length bm)%nat -> (i < length bm)%nat ->
  bitmap_fill v bm start nr !! i =
    if covers i (start, nr) then Some v else bm !! i.
Proof.
  intros Hl Hi. unfold bitmap_fill, covers. cbn [fst snd].
  destruct (Nat.leb_spec start i) as [H1|H1]; cbn [andb].
  - rewrite lookup_app_r by (rewrite length_take; lia).
    rewrite length_take, Nat.min_l by lia.
    destruct (Nat.ltb_spec i (start + nr)) as [H2|H2].
    + rewrite lookup_app_l by (rewrite length_replicate; lia).
      apply lookup_replicate_2. lia.
    + rewrite lookup_app_r by (rewrite length_replicate; lia).
      rewrite length_replicate, lookup_drop. f_equal. lia.
  - rewrite lookup_app_l by (rewrite length_take; lia).
    now rewrite lookup_take_lt by lia.
Qed.

Lemma find_area_some bm nr start :
  bitmap_find_next_zero_area bm nr = Some start ->
  (start + nr <= length bm)%nat /\
  forall i, covers i (start, nr) = true -> bm !! i = Some false.
Proof.
  unfold bitmap_find_next_zero_area. intros E. apply find_some in E as [_ E].
  unfold zero_area in E. apply andb_prop in E as [El Ef]. apply Nat.leb_le in El.
  split; [assumption|]. intros i Hi. unfold covers in Hi. cbn [fst snd] in Hi.
  apply andb_prop in Hi as [H1 H2]. apply Nat.leb_le in H1. apply Nat.ltb_lt in H2.
  destruct (lookup_lt_is_Some_2 bm i) as [v Hv]; [lia|]. rewrite Hv.
  rewrite forallb_forall in Ef. destruct v; [|reflexivity].
  specialize (Ef true). cbn in Ef. discriminate Ef.
  apply list_elem_of_In, (list_elem_of_lookup_2 _ (i - start)).
  rewrite lookup_take_lt, lookup_drop by lia.
  now replace (start + (i - start))%nat with i by lia.
Qed.

Lemma find_area_none bm nr start :
  (0 < nr)%nat -> bitmap_find_next_zero_area bm nr = None ->
  (start + nr <= length bm)%nat ->
  exists i, covers i (start, nr) = true /\ bm !! i = Some true.
Proof.
  intros Hnr E Hl. unfold bitmap_find_next_zero_area in E.
  pose proof (find_none _ _ E start) as Hn. unfold zero_area in Hn.
  rewrite (proj2 (Nat.leb_le _ _) Hl), Nat.max_r in Hn by lia. cbn [andb] in Hn.
  specialize (Hn ltac:(apply in_seq; lia)).
  apply not_true_iff_false in Hn. rewrite forallb_forall in Hn.
  destruct (decide (Exists (fun v => v = true) (take nr (drop start bm)))) as [He|He].
  - apply Exists_exists in He as (v & Hv & ->).
    apply list_elem_of_In, list_elem_of_lookup in Hv as [j Hj].
    pose proof (lookup_lt_Some _ _ _ Hj) as Hlt. rewrite length_take, length_drop in Hlt.
    rewrite lookup_take_lt, lookup_drop in Hj by lia. exists (start + j)%nat.
    split; [|assumption]. unfold covers. cbn [fst snd].
    apply andb_true_intro. split; [apply Nat.leb_le | apply Nat.ltb_lt]; lia.
  - exfalso. apply Hn. intros v Hv. destruct v; [|reflexivity].
    exfalso. apply He. apply Exists_exists. exists true.
    now split.
Qed.

Lemma owners_cons i r live :
  owners i (r :: live) = ((if covers i r then 1 else 0) + owners i live)%nat.
Proof. unfold owners. cbn. now destruct (covers i r). Qed.

Lemma owners_perm i l1 l2 : Permutation l1 l2 -> owners i l1 = owners i l2.
Proof. induction 1; rewrite ?owners_cons in *; lia || congruence. Qed.

(** Two live ranges never share a page. *)
Lemma live_disjoint p r1 r2 l :
  pool_inv p (r1 :: r2 :: l) -> forall i, ~ (covers i r1 = true /\ covers i r2 = true).
Proof.
  intros Hi i [H1 H2]. pose proof (pi_single _ _ Hi i) as Hs.
  rewrite !owners_cons, H1, H2 in Hs. lia.
Qed.
End bitmap_facts.

(** ** The allocator refines page ownership *)

Section allocator.
Implicit Types (s : axi_state) (live : list (nat * nat)).

Lemma page_count_small size : 0 <= size -> size + 4095 < 2 ^ 44 ->
  page_count size = (size + 4095) / 4096.
Proof. intros. unfold page_count. rewrite u64_small by (unfold in_width; lia). reflexivity. Qed.

Lemma page_count_range size : 0 <= page_count size < 2 ^ 52.
Proof.
  unfold page_count, PAGE_SIZE. pose proof (u64_range (size + 4095)) as [? ?].
  Z.div_mod_to_equations. lia.
Qed.

Lemma bitmap_nr_small n : 0 <= n < 2 ^ 32 -> bitmap_nr n = Z.to_nat n.
Proof. intros. unfold bitmap_nr. now rewrite u32_small. Qed.

Lemma bitmap_nr_pages size : 0 <= size -> size + 4095 < 2 ^ 44 ->
  bitmap_nr (page_count size) = Z.to_nat (page_count size).
Proof.
  intros. apply bitmap_nr_small. rewrite page_count_small by assumption.
  Z.div_mod_to_equations. lia.
Qed.

Lemma pool_inv_perm p l1 l2 : Permutation l1 l2 -> pool_inv p l1 -> pool_inv p l2.
Proof.
  intros Hp [? ? ? ? ? ? Hr Hb Hs]. split; try assumption.
  - now rewrite <- Hp.
  - intros i Hi. rewrite <- (owners_perm i _ _ Hp). auto.
  - intros i. rewrite <- (owners_perm i _ _ Hp). auto.
Qed.

(** An allocation succeeds iff a long enough free area exists; it yields the
    address of fresh pages of the aperture. *)
Lemma pool_alloc_spec s live size :
  pool_inv (ax_pool s) live -> 0 < size -> size + 4095 < 2 ^ 44 ->
  wp (axi_mmio_pool_alloc size) s (fun r s' =>
    ax_mem s' = ax_mem s /\ po_bounces (ax_pool s') = po_bounces (ax_pool s) /\
    match r with
    | Some h => exists start,
        let nr := Z.to_nat (page_count size) in
        h = range_addr (ax_pool s) (start, nr) /\
        pool_inv (ax_pool s') ((start, nr) :: live) /\
        ax_pool s' = set_bitmap (po_dma_bitmap (ax_pool s')) (ax_pool s)
    | None => s' = s /\ forall start,
        (start + Z.to_nat (page_count size) <= length (po_dma_bitmap (ax_pool s)))%nat ->
        exists i, covers i (start, Z.to_nat (page_count size)) = true /\
                  po_dma_bitmap (ax_pool s) !! i = Some true
    end).
Proof.
  intros Hi Hs Hmax. unfold axi_mmio_pool_alloc.
  pose proof (page_count_small size ltac:(lia) Hmax) as Ep.
  assert (0 < page_count size) as Hpos by (rewrite Ep; Z.div_mod_to_equations; lia).
  rewrite (proj2 (Z.eqb_neq _ _)) by lia. rewrite wpx_bind, wpx_gets.
  rewrite bitmap_nr_pages by lia.
  set (nr := Z.to_nat (page_count size)). assert (0 < nr)%nat as Hnr by lia.
  destruct (bitmap_find_next_zero_area _ nr) as [start|] eqn:E.
  2:{ rewrite wpx_ret. do 3 (split; [reflexivity|]). intros start.
      now apply find_area_none. }
  rewrite wpx_bind, wpx_modify, wpx_ret. cbn.
  split; [reflexivity|]. split; [reflexivity|]. exists start.
  destruct (find_area_some _ _ _ E) as [Hle Hfree].
  pose proof Hi as [Hpg Hw Hsz Hb Hal Htop Hr Hbits Hsingle].
  rewrite bitmap_nr_small, Nat2Z.id by lia.
  split.
  { unfold range_addr, PAGE_SIZE in *. cbn [fst]. rewrite u64_small; [reflexivity|].
    unfold in_width. lia. }
  split; [|reflexivity]. split; cbn [ax_pool set_pool po_dma_bitmap set_bitmap po_dma_pages po_dma_size
    po_dma_base]; try assumption; rewrite ?length_bitmap_fill by assumption;
    try assumption.
  - constructor; [cbn; lia | assumption].
  - intros i Hil. rewrite lookup_bitmap_fill, owners_cons by assumption.
    destruct (covers i (start, nr)) eqn:Ec; [reflexivity | now apply Hbits].
  - intros i. rewrite owners_cons. destruct (covers i (start, nr)) eqn:Ec; [|apply Hsingle].
    assert (i < length (po_dma_bitmap (ax_pool s)))%nat as Hil.
    { unfold covers in Ec. cbn [fst snd] in Ec. apply andb_prop in Ec as [_ Ec].
      apply Nat.ltb_lt in Ec. lia. }
    pose proof (Hbits i Hil) as Hbi. rewrite (Hfree i Ec) in Hbi.
    injection Hbi as Hbi. symmetry in Hbi. apply Nat.ltb_ge in Hbi. lia.
Qed.

(** Returning a live range makes exactly its pages free again. *)
Lemma pool_free_spec s live start size :
  let nr := Z.to_nat (page_count size) in
  pool_inv (ax_pool s) ((start, nr) :: live) -> 0 < size -> size + 4095 < 2 ^ 44 ->
  wp (axi_mmio_pool_free (range_addr (ax_pool s) (start, nr)) size) s (fun _ s' =>
    ax_mem s' = ax_mem s /\ pool_inv (ax_pool s') live /\
    ax_pool s' = set_bitmap (po_dma_bitmap (ax_pool s')) (ax_pool s)).
Proof.
  intros nr Hi Hs Hmax. pose proof Hi as [Hpg Hw Hsz Hb Hal Htop Hr Hbits Hsingle].
  apply Forall_cons_iff in Hr as [[Hnr Hle] Hr]. cbn [fst snd] in *.
  unfold axi_mmio_pool_free. rewrite wpx_bind, wpx_gets. cbv zeta.
  assert ((range_addr (ax_pool s) (start, nr) - po_dma_base (ax_pool s)) / PAGE_SIZE
          = Z.of_nat start) as Eo.
  { unfold range_addr, PAGE_SIZE. cbn [fst]. rewrite Z.add_simpl_l.
    apply Z.div_mul. lia. }
  rewrite Eo. rewrite (proj2 (Z.ltb_ge _ _)) by (unfold range_addr, PAGE_SIZE; cbn [fst]; lia).
  assert (0 < page_count size) as Hpos by lia.
  rewrite (proj2 (Z.eqb_neq _ _)) by lia. cbn [orb].
  pose proof (page_count_range size). unfold PAGE_SIZE in *.
  assert (Z.of_nat start + page_count size <= po_dma_pages (ax_pool s)) as Hin by lia.
  rewrite (u64_small (Z.of_nat start + _)) by (unfold in_width; lia).
  rewrite (proj2 (Z.ltb_ge _ _)) by lia.
  rewrite wpx_modify, bitmap_nr_pages, bitmap_nr_small, Nat2Z.id by lia. fold nr. cbn.
  split; [reflexivity|]. split; [|reflexivity].
  split; cbn [ax_pool set_pool po_dma_bitmap set_bitmap po_dma_pages po_dma_size
    po_dma_base]; try assumption; rewrite ?length_bitmap_fill by assumption; try assumption.
  - intros i Hil. rewrite lookup_bitmap_fill by assumption.
    pose proof (Hsingle i) as Hs1. pose proof (Hbits i Hil) as Hbi.
    rewrite owners_cons in Hs1, Hbi. destruct (covers i (start, nr)); [|exact Hbi].
    now replace (owners i live) with 0%nat by lia.
  - intros i. pose proof (Hsingle i) as Hs1. rewrite owners_cons in Hs1. lia.
Qed.
End allocator.

(** ** Copies *)

Section copies.
Lemma phys_copy_spec s dst src size data :
  0 <= size -> zlen data = size -> mem_at (ax_mem s) src data ->
  mapped (ax_mem s) dst size ->
  phys_copy dst src size s = Done (tt, set_mem (mem_write (ax_mem s) dst data) s).
Proof.
  intros H0 Hz Hm Hd. unfold phys_copy.
  assert (mapped (ax_mem s) src (Z.of_nat (Z.to_nat size))) as Hsrc.
  { rewrite Z2Nat.id by lia. rewrite <- Hz. now apply mem_at_mapped. }
  destruct (load_range_mapped _ _ _ Hsrc) as (data' & -> & Hl & Hm').
  rewrite <- (Z2Nat.id size) in Hd by lia.
  destruct (load_range_mapped _ _ _ Hd) as (old & -> & _).
  rewrite (mem_at_inj (ax_mem s) src data' data); [reflexivity | | assumption | assumption].
  unfold zlen in Hz. lia.
Qed.
End copies.

(** The aperture is backed by memory. *)
Definition aperture_mapped (s : axi_state) : Prop :=
  mapped (ax_mem s) (po_dma_base (ax_pool s)) (po_dma_size (ax_pool s)).

Lemma range_inside p live r : pool_inv p (r :: live) ->
  po_dma_base p <= range_addr p r /\
  range_addr p r + Z.of_nat r.2 * PAGE_SIZE <= po_dma_base p + po_dma_size p.
Proof.
  intros [Hpg Hw Hsz Hb Hal Htop Hr _ _]. apply Forall_cons_iff in Hr as [[Hn Hl] _].
  unfold range_addr, PAGE_SIZE in *. lia.
Qed.

Lemma page_count_covers size : 0 < size -> size + 4095 < 2 ^ 44 ->
  0 < page_count size /\ size <= Z.of_nat (Z.to_nat (page_count size)) * PAGE_SIZE.
Proof.
  intros Hs Hm. rewrite page_count_small by lia. unfold PAGE_SIZE.
  Z.div_mod_to_equations. lia.
Qed.

(** The bitmap is determined by the owners. *)
Lemma pool_inv_bitmap p1 p2 live :
  pool_inv p1 live -> pool_inv p2 live -> po_dma_pages p1 = po_dma_pages p2 ->
  po_dma_bitmap p1 = po_dma_bitmap p2.
Proof.
  intros H1 H2 E. pose proof (pi_pages _ _ H1). pose proof (pi_pages _ _ H2).
  apply list_eq. intros i. destruct (decide (i < length (po_dma_bitmap p1))%nat) as [Hi|Hi].
  - rewrite (pi_bits _ _ H1), (pi_bits _ _ H2) by lia. reflexivity.
  - rewrite !(proj2 (lookup_ge_None _ _)) by lia. reflexivity.
Qed.

Lemma set_bitmap_id p1 p2 :
  p1 = set_bitmap (po_dma_bitmap p1) p2 -> po_dma_bitmap p1 = po_dma_bitmap p2 -> p1 = p2.
Proof. destruct p1, p2. cbn. now intros -> ->. Qed.

(** ** Scatter-gather *)

Lemma ForallOrdPairs_cons {A} (R : A -> A -> Prop) x l :
  ForallOrdPairs R (x :: l) -> Forall (R x) l /\ ForallOrdPairs R l.
Proof. now inversion_clear 1. Qed.

Section scatter_gather.
Implicit Types (s : axi_state) (live : list (nat * nat)).

(** A mapped entry and the range it owns. *)
Definition sg_owns (p : axi_mmio_pool) (sg : scatterlist) (r : nat * nat) : Prop :=
  sg_dma_address sg = range_addr p r /\ sg_dma_len sg = sg_length sg /\
  r.2 = Z.to_nat (page_count (sg_length sg)).

Definition sg_sized (sg : scatterlist) : Prop := 0 < sg_length sg < 2 ^ 32.

(** The entry's memory lies outside the aperture and holds [data]. *)
Record sg_holds (s : axi_state) (sg : scatterlist) (data : list Z) : Prop := {
  sh_sized : sg_sized sg;
  sh_len : zlen data = sg_length sg;
  sh_data : mem_at (ax_mem s) (sg_phys sg) data;
  sh_outside : disjoint_ranges (sg_phys sg) (sg_length sg)
                 (po_dma_base (ax_pool s)) (po_dma_size (ax_pool s));
}.

(** The entry's pages hold [data]. *)
Definition sg_bounced (m : mem) (sg : scatterlist) (data : list Z) : Prop :=
  zlen data = sg_length sg /\ mem_at m (sg_dma_address sg) data.

(** Everything of the pool except the bitmap is as in [p0]. *)
Definition same_pool (p0 p : axi_mmio_pool) : Prop :=
  p = set_bitmap (po_dma_bitmap p) p0.

Lemma same_pool_refl p : same_pool p p.
Proof. now destruct p. Qed.

Lemma same_pool_trans p0 p1 p2 : same_pool p0 p1 -> same_pool p1 p2 -> same_pool p0 p2.
Proof. unfold same_pool. intros H1 H2. rewrite H2, H1. reflexivity. Qed.

Lemma sg_owns_same p0 p sg r : same_pool p0 p -> sg_owns p0 sg r -> sg_owns p sg r.
Proof.
  unfold same_pool, sg_owns, range_addr. intros E. rewrite E. easy.
Qed.

Lemma aperture_mapped_same s s' :
  same_pool (ax_pool s) (ax_pool s') ->
  (forall a len, mapped (ax_mem s) a len -> mapped (ax_mem s') a len) ->
  aperture_mapped s -> aperture_mapped s'.
Proof. unfold aperture_mapped, same_pool. intros -> Hm Ha. cbn. now apply Hm. Qed.

(** The pages of an owned range back its data. *)
Lemma owned_mapped s live r size :
  pool_inv (ax_pool s) (r :: live) -> aperture_mapped s ->
  size <= Z.of_nat r.2 * PAGE_SIZE ->
  mapped (ax_mem s) (range_addr (ax_pool s) r) size.
Proof.
  intros Hi Ha Hs. pose proof (range_inside _ _ _ Hi). eapply mapped_sub; [exact Ha | lia | lia].
Qed.

Lemma sg_sized_covers sg : sg_sized sg ->
  sg_length sg + 4095 < 2 ^ 44 /\
  sg_length sg <= Z.of_nat (Z.to_nat (page_count (sg_length sg))) * PAGE_SIZE.
Proof.
  intros [? ?]. split; [lia|].
  destruct (page_count_covers (sg_length sg)) as [_ ?]; lia.
Qed.

Lemma unwind_sg_spec done rs s live :
  pool_inv (ax_pool s) (rs ++ live) -> Forall2 (sg_owns (ax_pool s)) done rs ->
  Forall sg_sized done ->
  wp (unwind_sg done) s (fun r s' =>
    r = map (sg_set DMA_MAPPING_ERROR 0) done /\ ax_mem s' = ax_mem s /\
    pool_inv (ax_pool s') live /\ same_pool (ax_pool s) (ax_pool s')).
Proof.
  revert rs s. induction done as [|sg done IH]; intros rs s Hi Ho Hl; cbn [unwind_sg].
  { rewrite wpx_ret. apply Forall2_nil_inv_l in Ho. subst rs.
    repeat (split; [easy|]). apply same_pool_refl. }
  apply Forall2_cons_inv_l in Ho as ([start nr] & rs' & (Ea & El & En) & Ho & ->).
  apply Forall_cons_iff in Hl as [Hlen Hl]. cbn [fst snd] in *. rewrite Ea, El, En in *.
  pose proof (sg_sized_covers _ Hlen) as [Hmax _].
  rewrite wpx_bind. wpuse (pool_free_spec s (rs' ++ live) start);
    [exact Hi | apply Hlen | exact Hmax|].
  intros _ s1 (Em & Hi1 & Hs1). rewrite wpx_bind.
  wpuse (IH rs'); [assumption | | assumption|].
  { eapply Forall2_impl; [|exact Ho]. intros ? ?. now apply sg_owns_same. }
  intros r s2 (-> & Em2 & Hi2 & Hs2). rewrite wpx_ret. split; [reflexivity|].
  split; [congruence|]. split; [assumption | eapply same_pool_trans; eassumption].
Qed.

(** A fresh range shares no address with an owned one. *)
Lemma fresh_disjoint p live r r' :
  pool_inv p (r :: live) -> r' ∈ live ->
  disjoint_ranges (range_addr p r) (Z.of_nat r.2 * PAGE_SIZE)
    (range_addr p r') (Z.of_nat r'.2 * PAGE_SIZE).
Proof.
  intros Hi Hin. apply list_elem_of_split in Hin as (l1 & l2 & ->).
  assert (pool_inv p (r :: r' :: l1 ++ l2)) as Hi'.
  { eapply pool_inv_perm; [|exact Hi]. constructor. symmetry. apply Permutation_middle. }
  pose proof (pi_ranges _ _ Hi') as Hr. apply Forall_cons_iff in Hr as [[Hr1 _] Hr].
  apply Forall_cons_iff in Hr as [[Hr2 _] _].
  pose proof (live_disjoint p r r' _ Hi' (Nat.max r.1 r'.1)) as Hd.
  assert (~ (r.1 < r'.1 + r'.2 /\ r'.1 < r.1 + r.2)%nat) as Hno.
  { intros [H1 H2]. apply Hd. unfold covers. rewrite !andb_true_iff, !Nat.leb_le, !Nat.ltb_lt.
    lia. }
  unfold disjoint_ranges, range_addr, PAGE_SIZE. lia.
Qed.

(** Copying an entry into its fresh pages. *)
Lemma sg_copy_in s live r sg data dir :
  pool_inv (ax_pool s) (r :: live) -> aperture_mapped s -> sg_holds s sg data ->
  r.2 = Z.to_nat (page_count (sg_length sg)) ->
  let addr := range_addr (ax_pool s) r in
  exists s', (if decide (dir = DMA_FROM_DEVICE) then ret tt
              else phys_copy addr (sg_phys sg) (sg_length sg)) s = Done (tt, s') /\
    ax_pool s' = ax_pool s /\
    (forall a len, mapped (ax_mem s) a len -> mapped (ax_mem s') a len) /\
    (dir <> DMA_FROM_DEVICE -> mem_at (ax_mem s') addr data) /\
    (forall a d, mem_at (ax_mem s) a d -> disjoint_ranges addr (sg_length sg) a (zlen d) ->
       mem_at (ax_mem s') a d).
Proof.
  intros Hi Hap [Hsz Hz Hat Hout] En addr. destruct (decide _) as [->|Hd]; [now exists s|].
  pose proof (sg_sized_covers _ Hsz) as [Hmax Hcov]. rewrite <- En in Hcov.
  pose proof (owned_mapped s live r _ Hi Hap Hcov) as Hdst. destruct Hsz as [Hpos _].
  eexists. split; [apply (phys_copy_spec s _ _ _ data); try assumption; lia|].
  split; [reflexivity|]. cbn [set_mem ax_mem]. split; [intros; now apply mapped_write|].
  split; [intros _; apply mem_at_write_same|]. intros a d Ha Hdis.
  apply mem_at_write_disjoint; [now rewrite Hz | assumption].
Qed.

(** Data already in owned pages survives the mapping of another entry. *)
Lemma bounced_frame p m m' addr size rs done ds :
  Forall (fun r => disjoint_ranges addr size (range_addr p r) (Z.of_nat r.2 * PAGE_SIZE)) rs ->
  Forall sg_sized done -> Forall2 (sg_owns p) done rs ->
  (forall a d, mem_at m a d -> disjoint_ranges addr size a (zlen d) -> mem_at m' a d) ->
  Forall2 (sg_bounced m) done ds -> Forall2 (sg_bounced m') done ds.
Proof.
  intros Hd Hl Ho Hf Hb. revert rs Hd Ho.
  induction Hb as [|sg d done ds [Hz Hat] Hb IH]; intros rs Hd Ho; [constructor|].
  apply Forall_cons_iff in Hl as [Hsz Hl].
  apply Forall2_cons_inv_l in Ho as (r' & rs' & (Ea & _ & En) & Ho & ->).
  apply Forall_cons_iff in Hd as [Hd1 Hd].
  constructor; [|now apply (IH Hl rs')].
  pose proof (sg_sized_covers _ Hsz) as [_ Hc]. rewrite <- En in Hc.
  split; [assumption|]. apply Hf; [assumption|]. rewrite Ea, Hz.
  destruct Hd1; [left | right]; lia.
Qed.

Lemma sg_holds_frame s s' sg d :
  same_pool (ax_pool s) (ax_pool s') ->
  mem_at (ax_mem s') (sg_phys sg) d -> sg_holds s sg d -> sg_holds s' sg d.
Proof. intros E Hm [? ? ? ?]. split; try assumption. now rewrite E. Qed.

(** Mapping one more entry keeps what is known of the entries mapped so far. *)
Lemma map_sg_extends dir done rs ds sg data r s s1 s2 live :
  Forall sg_sized done -> Forall2 (sg_owns (ax_pool s)) done rs ->
  (dir <> DMA_FROM_DEVICE -> Forall2 (sg_bounced (ax_mem s)) done ds) ->
  sg_holds s sg data -> r.2 = Z.to_nat (page_count (sg_length sg)) ->
  pool_inv (ax_pool s1) (r :: rs ++ live) -> same_pool (ax_pool s) (ax_pool s1) ->
  ax_mem s1 = ax_mem s -> ax_pool s2 = ax_pool s1 ->
  let addr := range_addr (ax_pool s1) r in
  (dir <> DMA_FROM_DEVICE -> mem_at (ax_mem s2) addr data) ->
  (forall a d, mem_at (ax_mem s1) a d -> disjoint_ranges addr (sg_length sg) a (zlen d) ->
     mem_at (ax_mem s2) a d) ->
  let done' := done ++ [sg_set addr (sg_length sg) sg] in
  pool_inv (ax_pool s2) ((rs ++ [r]) ++ live) /\ Forall sg_sized done' /\
  Forall2 (sg_owns (ax_pool s2)) done' (rs ++ [r]) /\
  (dir <> DMA_FROM_DEVICE -> Forall2 (sg_bounced (ax_mem s2)) done' (ds ++ [data])).
Proof.
  intros Hl Ho Hb Hsg Hn Hi1 Hs1 Em Ep2 addr Hd2 Hf2 done'.
  pose proof (sh_sized _ _ _ Hsg) as Hsz. pose proof (sg_sized_covers _ Hsz) as [_ Hcov].
  rewrite <- Hn in Hcov.
  assert (Forall2 (sg_owns (ax_pool s1)) done rs) as Ho1.
  { eapply Forall2_impl; [|exact Ho]. intros ? ?. now apply sg_owns_same. }
  rewrite Ep2. split; [|split; [|split]].
  - eapply pool_inv_perm; [|exact Hi1]. rewrite <- app_assoc. apply Permutation_middle.
  - apply Forall_app. split; [assumption|]. constructor; [exact Hsz | constructor].
  - apply Forall2_app; [assumption|]. constructor; [|constructor]. split; [reflexivity | now split].
  - intros Hd. apply Forall2_app.
    + apply (bounced_frame (ax_pool s1) (ax_mem s1) _ addr (sg_length sg) rs); try assumption.
      * apply Forall_forall. intros r' Hr'. apply list_elem_of_In in Hr'.
        destruct (fresh_disjoint _ _ _ r' Hi1) as [?|?];
          [apply elem_of_app; now left | left; unfold addr; lia | right; unfold addr; lia].
      * rewrite Em. now apply Hb.
    + constructor; [|constructor]. split; [apply Hsg | now apply Hd2].
Qed.

(** The entries still to be mapped lie outside the aperture and keep their data. *)
Lemma sg_holds_after s1 s2 r rs sg' d len :
  pool_inv (ax_pool s1) (r :: rs) -> len <= Z.of_nat r.2 * PAGE_SIZE ->
  ax_pool s2 = ax_pool s1 ->
  (forall a d, mem_at (ax_mem s1) a d ->
     disjoint_ranges (range_addr (ax_pool s1) r) len a (zlen d) -> mem_at (ax_mem s2) a d) ->
  sg_holds s1 sg' d -> sg_holds s2 sg' d.
Proof.
  intros Hi Hlen Ep Hf Hh.
  apply (sg_holds_frame s1); [rewrite Ep; apply same_pool_refl | | assumption].
  apply Hf; [apply Hh|]. rewrite (sh_len _ _ _ Hh).
  pose proof (range_inside _ _ _ Hi). pose proof (sh_outside _ _ _ Hh).
  unfold disjoint_ranges in *. lia.
Qed.

Lemma map_sg_from_spec dir done rs ds sgl datas s live :
  pool_inv (ax_pool s) (rs ++ live) -> aperture_mapped s ->
  Forall sg_sized done -> Forall2 (sg_owns (ax_pool s)) done rs ->
  (dir <> DMA_FROM_DEVICE -> Forall2 (sg_bounced (ax_mem s)) done ds) ->
  Forall2 (sg_holds s) sgl datas ->
  wp (map_sg_from dir done sgl) s (fun r s' =>
    same_pool (ax_pool s) (ax_pool s') /\
    ((r.1 = - ENOMEM /\ pool_inv (ax_pool s') live /\
        exists todo sg sgl', sgl = todo ++ sg :: sgl' /\
          r.2 = map (sg_set DMA_MAPPING_ERROR 0) (done ++ todo) ++ sg :: sgl') \/
     (r.1 = Z.of_nat (length done + length sgl) /\
        exists rs', pool_inv (ax_pool s') (rs' ++ live) /\
          Forall2 (sg_owns (ax_pool s')) r.2 rs' /\
          (dir <> DMA_FROM_DEVICE -> Forall2 (sg_bounced (ax_mem s')) r.2 (ds ++ datas))))).
Proof.
  revert done rs ds datas s.
  induction sgl as [|sg sgl IH]; intros done rs ds datas s Hi Hap Hl Ho Hb Hok;
    cbn [map_sg_from].
  { rewrite wpx_ret. apply Forall2_nil_inv_l in Hok. subst datas.
    rewrite !app_nil_r. cbn [fst snd length]. rewrite Nat.add_0_r.
    split; [apply same_pool_refl|]. right. eauto. }
  apply Forall2_cons_inv_l in Hok as (data & datas' & Hsg & Hok & ->).
  pose proof (sh_sized _ _ _ Hsg) as Hsz. pose proof (sg_sized_covers _ Hsz) as [Hmax Hcov].
  rewrite wpx_bind.
  wpuse (pool_alloc_spec s (rs ++ live)); [assumption | apply Hsz | exact Hmax|].
  intros [h|] s1 (Em & _ & Hr); [destruct Hr as (start & -> & Hi1 & Hs1)|].
  - set (r := (start, Z.to_nat (page_count (sg_length sg)))) in *.
    assert (range_addr (ax_pool s) r = range_addr (ax_pool s1) r) as ->
      by (rewrite Hs1; reflexivity).
    assert (forall sg' d, sg_holds s sg' d -> sg_holds s1 sg' d) as Hh1.
    { intros sg' d Hh. eapply sg_holds_frame; [exact Hs1 | | exact Hh].
      rewrite Em. apply Hh. }
    assert (aperture_mapped s1) as Hap1.
    { eapply aperture_mapped_same; [exact Hs1 | now rewrite Em | assumption]. }
    destruct (sg_copy_in s1 _ r sg data dir Hi1 Hap1 (Hh1 _ _ Hsg) eq_refl)
      as (s2 & E2 & Ep2 & Hm2 & Hd2 & Hf2).
    rewrite wpx_bind, (wpx_done _ _ _ _ _ _ E2).
    destruct (map_sg_extends dir done rs ds sg data r s s1 s2 live) as (Hi2 & Hl2 & Ho2 & Hb2);
      try assumption; [reflexivity|].
    wpuse (IH _ (rs ++ [r]) (ds ++ [data]) datas' s2); try eassumption.
    + eapply aperture_mapped_same; [|exact Hm2 | exact Hap1].
      rewrite Ep2. apply same_pool_refl.
    + eapply Forall2_impl; [|exact Hok]. intros sg' d Hh.
      eapply (sg_holds_after s1); [exact Hi1 | exact Hcov | exact Ep2 | exact Hf2 | now apply Hh1].
    + intros [n l] s3 [Hs3 Hpost]. cbn [fst snd] in *. rewrite length_app in Hpost.
      cbn [length] in *. rewrite Ep2 in Hs3.
      split; [eapply same_pool_trans; eassumption|].
      destruct Hpost as [(E & Hi3 & todo & sg' & sgl' & Es & Hf)|(E & rs' & Hi3 & Hf & Hd)].
      * left. split; [assumption|]. split; [assumption|].
        exists (sg :: todo), sg', sgl'. subst sgl. split; [reflexivity|].
        rewrite Hf, <- app_assoc, !map_app. reflexivity.
      * right. split; [rewrite E; f_equal; lia|]. exists rs'.
        split; [assumption|]. split; [assumption|]. now rewrite <- app_assoc in Hd.
  - destruct Hr as [-> _]. rewrite wpx_bind.
    wpuse (unwind_sg_spec done rs s live); try assumption.
    intros r s2 (-> & Em2 & Hi2 & Hs2). rewrite wpx_ret. split; [assumption|]. left.
    cbn [fst snd]. split; [reflexivity|]. split; [assumption|].
    exists [], sg, sgl. now rewrite app_nil_r.
Qed.
(** What unmapping needs of a mapped entry: its pages, inside the aperture, hold
    [data], and its memory is backed and lies outside the aperture. *)
Record sg_returns (s : axi_state) (sg : scatterlist) (data : list Z) : Prop := {
  sr_sized : sg_sized sg;
  sr_inside : po_dma_base (ax_pool s) <= sg_dma_address sg /\
    sg_dma_address sg + sg_length sg <= po_dma_base (ax_pool s) + po_dma_size (ax_pool s);
  sr_data : sg_bounced (ax_mem s) sg data;
  sr_mapped : mapped (ax_mem s) (sg_phys sg) (sg_length sg);
  sr_outside : disjoint_ranges (sg_phys sg) (sg_length sg)
                 (po_dma_base (ax_pool s)) (po_dma_size (ax_pool s));
}.

Definition sg_apart (sg1 sg2 : scatterlist) : Prop :=
  disjoint_ranges (sg_phys sg1) (sg_length sg1) (sg_phys sg2) (sg_length sg2).

(** Copying one entry back leaves what another entry needs. *)
Lemma sg_returns_frame s s' phys data sg d :
  same_pool (ax_pool s) (ax_pool s') -> ax_mem s' = mem_write (ax_mem s) phys data ->
  disjoint_ranges phys (zlen data) (po_dma_base (ax_pool s)) (po_dma_size (ax_pool s)) ->
  sg_returns s sg d -> sg_returns s' sg d.
Proof.
  intros E Em Hdis [? Hin [Hz Hat] Hm Hout].
  assert (po_dma_base (ax_pool s') = po_dma_base (ax_pool s) /\
          po_dma_size (ax_pool s') = po_dma_size (ax_pool s)) as [Eb Es]
    by (rewrite E; now split).
  split; rewrite ?Eb, ?Es, ?Em; try assumption; [|now apply mapped_write].
  split; [assumption|]. apply mem_at_write_disjoint; [|assumption].
  unfold disjoint_ranges in *. lia.
Qed.

Lemma unmap_sg_each_spec dir sgl rs datas s live :
  dir <> DMA_TO_DEVICE ->
  pool_inv (ax_pool s) (rs ++ live) -> Forall2 (sg_owns (ax_pool s)) sgl rs ->
  Forall2 (sg_returns s) sgl datas -> ForallOrdPairs sg_apart sgl ->
  wp (unmap_sg_each sgl dir) s (fun r s' =>
    r = map (sg_set DMA_MAPPING_ERROR 0) sgl /\
    pool_inv (ax_pool s') live /\ same_pool (ax_pool s) (ax_pool s') /\
    Forall2 (fun sg d => mem_at (ax_mem s') (sg_phys sg) d) sgl datas /\
    (forall a d, mem_at (ax_mem s) a d ->
       Forall (fun sg => disjoint_ranges (sg_phys sg) (sg_length sg) a (zlen d)) sgl ->
       mem_at (ax_mem s') a d)).
Proof.
  intros Hdir. revert rs datas s.
  induction sgl as [|sg sgl IH]; intros rs datas s Hi Ho Hr Hp; cbn [unmap_sg_each].
  { rewrite wpx_ret. apply Forall2_nil_inv_l in Ho, Hr. subst rs datas.
    repeat (split; [easy|]). split; [apply same_pool_refl|]. split; [constructor | easy]. }
  apply Forall2_cons_inv_l in Ho as ([start nr] & rs' & (Ea & El & En) & Ho & ->).
  apply Forall2_cons_inv_l in Hr as (data & datas' & Hsg & Hr & ->).
  apply ForallOrdPairs_cons in Hp as [Hap Hp].
  destruct Hsg as [Hsz Hin [Hz Hat] Hmap Hout]. cbn [snd] in En.
  pose proof (sg_sized_covers _ Hsz) as [Hmax Hcov]. pose proof Hsz as [Hpos _].
  pose proof (pi_top _ _ Hi). rewrite El. unfold DMA_MAPPING_ERROR at 1.
  rewrite (proj2 (Z.eqb_neq _ _)), (proj2 (Z.eqb_neq (sg_length sg) 0)) by lia.
  cbn [orb]. rewrite (decide_False (P := dir = DMA_TO_DEVICE)) by assumption.
  pose proof (phys_copy_spec s _ _ _ data (Z.lt_le_incl _ _ Hpos) Hz Hat Hmap) as Ecp.
  rewrite wpx_bind, (wpx_done _ _ _ _ _ _ Ecp), wpx_bind. clear Ecp.
  set (s1 := set_mem _ s). rewrite Ea, En in *.
  wpuse (pool_free_spec s1 (rs' ++ live) start); [exact Hi | assumption | assumption|].
  intros _ s2 (Em & Hi2 & Hs2). rewrite wpx_bind.
  wpuse (IH rs' datas'); [assumption | | | assumption|].
  { eapply Forall2_impl; [|exact Ho]. intros ? ?. now apply sg_owns_same. }
  { eapply Forall2_impl; [|exact Hr]. intros ? ?.
    apply (sg_returns_frame s s2 (sg_phys sg) data); [exact Hs2 | exact Em | now rewrite Hz]. }
  intros r s3 (-> & Hi3 & Hs3 & Hd3 & Hf3). rewrite wpx_ret. split; [reflexivity|].
  split; [assumption|]. split; [eapply same_pool_trans; eassumption|]. split.
  - constructor; [|assumption]. apply Hf3; [rewrite Em; apply mem_at_write_same|].
    eapply Forall_impl; [|exact Hap]. cbn. intros sg' Hs'. rewrite Hz.
    unfold sg_apart, disjoint_ranges in *. lia.
  - intros a d Hat' Hall. apply Forall_cons_iff in Hall as [Hd0 Hall].
    apply Hf3; [|assumption]. rewrite Em. apply mem_at_write_disjoint; [|assumption].
    now rewrite Hz.
Qed.
End scatter_gather.

(** ** Streaming mappings *)

Section streaming.
Implicit Types (s : axi_state) (live : list (nat * nat)).

Lemma inside_range p live r size :
  pool_inv p (r :: live) -> 0 < size -> size <= Z.of_nat r.2 * PAGE_SIZE ->
  inside_aperture p (range_addr p r) size = true.
Proof.
  intros Hi Hs Hle. destruct (range_inside _ _ _ Hi). unfold inside_aperture. lia.
Qed.

Lemma pool_inv_bounces p l live : pool_inv (set_bounces l p) live <-> pool_inv p live.
Proof. split; intros []; now split. Qed.

Lemma outside_aperture p phys size :
  0 < size -> disjoint_ranges phys size (po_dma_base p) (po_dma_size p) ->
  inside_aperture p phys size = false.
Proof. intros Hs D. unfold inside_aperture, disjoint_ranges in *. lia. Qed.

(** Mapping: the bounce pages hold the data and belong to the mapping. *)
Lemma map_phys_spec s live phys size data :
  pool_inv (ax_pool s) live -> aperture_mapped s -> 0 < size -> size + 4095 < 2 ^ 44 ->
  zlen data = size -> mem_at (ax_mem s) phys data ->
  disjoint_ranges phys size (po_dma_base (ax_pool s)) (po_dma_size (ax_pool s)) ->
  ax_kzalloc s = [] -> ax_memremap s = [] ->
  wp (axi_mmio_dma_map_phys true phys size DMA_BIDIRECTIONAL) s (fun h s1 =>
    (h = DMA_MAPPING_ERROR /\ s1 = s) \/
    exists start bm, let r := (start, Z.to_nat (page_count size)) in
      h = range_addr (ax_pool s) r /\ pool_inv (ax_pool s1) (r :: live) /\
      ax_pool s1 = set_bounces
        ({| bo_dma_handle := h; bo_phys := phys; bo_size := size |}
           :: po_bounces (ax_pool s)) (set_bitmap bm (ax_pool s)) /\
      ax_mem s1 = mem_write (ax_mem s) h data /\ ax_memremap s1 = []).
Proof.
  intros Hi Hap Hs Hmax Hz Hat Hdis Hk Hr. unfold axi_mmio_dma_map_phys. cbn [negb orb].
  rewrite (proj2 (Z.eqb_neq _ _)) by lia. rewrite wpx_bind, wpx_gets.
  rewrite outside_aperture by assumption. rewrite wpx_bind.
  unfold kzalloc at 1. unfold wpx at 1. rewrite Hk. cbn [negb].
  destruct (page_count_covers size Hs Hmax) as [Hpos Hcov].
  rewrite wpx_bind.
  destruct (wp_elim _ _ _ (pool_alloc_spec s live size Hi Hs Hmax))
    as (h & s1 & E & Em & Eb & Hpost).
  rewrite (wpx_done _ _ _ _ _ _ E). destruct h as [h|]; [|left; now destruct Hpost].
  destruct Hpost as (start & -> & Hi1 & Hs1).
  set (r := (start, Z.to_nat (page_count size))) in *.
  assert (ax_memremap s1 = []) as Hr1.
  { revert E. unfold axi_mmio_pool_alloc. rewrite (proj2 (Z.eqb_neq _ _)) by lia.
    unfold bind, gets, modify, ret. destruct (bitmap_find_next_zero_area _ _); [|easy].
    intros [= _ <-]. exact Hr. }
  rewrite wpx_bind. destruct (decide (DMA_BIDIRECTIONAL = DMA_FROM_DEVICE)); [easy|].
  unfold axi_mmio_copy_phys_to_pool. rewrite wpx_bind.
  unfold memremap at 1. unfold wpx at 1. rewrite Hr1. cbn [negb].
  assert (mapped (ax_mem s1) (range_addr (ax_pool s) r) size) as Hdst.
  { rewrite Em. pose proof (range_inside _ _ _ Hi1) as [Hlo Hin].
    rewrite Hs1 in Hlo, Hin. cbn [snd r] in Hin. unfold range_addr in *.
    cbn [set_bitmap po_dma_base po_dma_size] in *.
    eapply mapped_sub; [exact Hap | lia | lia]. }
  rewrite wpx_bind, (wpx_done _ _ _ _ _ _ (phys_copy_spec s1 _ phys size data
    ltac:(lia) Hz ltac:(now rewrite Em) Hdst)).
  rewrite wpx_ret. cbn [negb]. rewrite wpx_bind, wpx_modify, wpx_ret. right.
  exists start, (po_dma_bitmap (ax_pool s1)). cbv zeta. split; [reflexivity|].
  cbn. split; [now apply pool_inv_bounces|]. split; [now rewrite Eb, Hs1|].
  split; [now rewrite Em | exact Hr1].
Qed.

(** Unmapping the most recent mapping. *)
Lemma unmap_phys_spec s live r phys size data l :
  let h := range_addr (ax_pool s) r in
  pool_inv (ax_pool s) (r :: live) -> r.2 = Z.to_nat (page_count size) ->
  0 < size -> size + 4095 < 2 ^ 44 ->
  po_bounces (ax_pool s) = {| bo_dma_handle := h; bo_phys := phys; bo_size := size |} :: l ->
  zlen data = size -> mem_at (ax_mem s) h data -> mapped (ax_mem s) phys size ->
  ax_memremap s = [] ->
  wp (axi_mmio_dma_unmap_phys true h size DMA_BIDIRECTIONAL) s (fun _ s' =>
    pool_inv (ax_pool s') live /\
    ax_pool s' = set_bounces l (set_bitmap (po_dma_bitmap (ax_pool s')) (ax_pool s)) /\
    ax_mem s' = mem_write (ax_mem s) phys data).
Proof.
  intros h Hi Er Hs Hmax Hb Hz Hat Hmap Hrm.
  destruct (page_count_covers size Hs Hmax) as [Hpos Hcov].
  unfold axi_mmio_dma_unmap_phys. rewrite wpx_bind, wpx_gets.
  unfold h. rewrite (inside_range _ live) by (rewrite ?Er; assumption). cbn [negb orb].
  rewrite Hb. cbn [bounce_find find bo_dma_handle]. fold h. rewrite Z.eqb_refl.
  rewrite wpx_bind, wpx_modify, wpx_bind.
  destruct (decide (DMA_BIDIRECTIONAL = DMA_TO_DEVICE)); [easy|].
  unfold axi_mmio_copy_pool_to_phys. rewrite !wpx_bind.
  unfold memremap at 1. unfold wpx at 1. cbn [ax_memremap set_pool]. rewrite Hrm. cbn [negb].
  rewrite wpx_bind. cbn [bo_phys bo_size bounce_del bo_dma_handle].
  rewrite Z.min_id, Z.eqb_refl.
  rewrite (wpx_done _ _ _ _ _ _ (phys_copy_spec (set_pool (set_bounces l (ax_pool s)) s)
    phys h size data ltac:(lia) Hz Hat Hmap)), !wpx_ret.
  set (s2 := set_mem _ _). destruct r as [start nr]. cbn [snd] in Er. subst nr.
  change h with (range_addr (ax_pool s2) (start, Z.to_nat (page_count size))).
  wpuse (pool_free_spec s2 live); [now apply pool_inv_bounces | assumption | assumption|].
  intros _ s' (Em & Hi' & Hs'). split; [assumption|]. split; [|exact Em].
  rewrite Hs' at 1. reflexivity.
Qed.
End streaming.
