(* ===== verification/AxiService.v ===== *)
(** * What the restricted DMA pool promises

    The theorems on [AxiPool]: exclusive ownership of pages, allocation and release,
    streaming and scatter-gather mappings with their data, and the initial pool. *)

From S2P Require Import Prelude AxiPool.

#[local] Open Scope Z_scope.
#[local] Open Scope c_scope.

Section pool_facts.
Implicit Types (s : axi_state) (live : list (nat * nat)).

(** A set bit has an owner. *)
Lemma owned_bit p live i :
  pool_inv p live -> po_dma_bitmap p !! i = Some true ->
  exists r, r ∈ live /\ covers i r = true.
Proof.
  intros Hi E. pose proof (lookup_lt_Some _ _ _ E) as Hl.
  rewrite (pi_bits _ _ Hi i Hl) in E. injection E as E. apply Nat.ltb_lt in E.
  unfold owners in E. destruct (List.filter (covers i) live) as [|r l] eqn:Ef; [cbn in E; lia|].
  exists r. assert (In r (List.filter (covers i) live)) as Hin by (rewrite Ef; now left).
  apply filter_In in Hin as [Hin ?]. split; [now apply list_elem_of_In | assumption].
Qed.

Lemma range_aligned p live r : pool_inv p live -> range_addr p r mod PAGE_SIZE = 0.
Proof.
  intros Hi. unfold range_addr. rewrite Z.mod_add by easy. apply (pi_align _ _ Hi).
Qed.

(** The pool is determined by its owners and the fields the allocator leaves. *)
Lemma same_pool_eq p0 p live :
  pool_inv p0 live -> pool_inv p live -> same_pool p0 p -> p = p0.
Proof.
  intros H0 H1 Hs. apply set_bitmap_id; [exact Hs|].
  apply (pool_inv_bitmap _ _ live); [assumption | assumption|]. now rewrite Hs.
Qed.

Lemma new_pool_inv base size :
  aperture_valid base size = true -> 0 <= base -> 0 <= size < 2 ^ 44 ->
  base + size < 2 ^ 64 -> pool_inv (new_pool base size) [].
Proof.
  unfold aperture_valid. rewrite !andb_true_iff, !Z.eqb_eq.
  change (PAGE_SIZE - 1) with (Z.ones 12). rewrite !Z.land_ones by lia.
  intros [[Ha Hz] _] Hb Hs Ht. unfold new_pool, PAGE_SHIFT. rewrite Z.shiftr_div_pow2 by lia.
  assert (0 <= size / 2 ^ 12 < 2 ^ 32) as Hw by (Z.div_mod_to_equations; lia).
  split; cbn [po_dma_bitmap po_dma_pages po_dma_size po_dma_base].
  - rewrite length_replicate, bitmap_nr_small by assumption. lia.
  - lia.
  - unfold PAGE_SIZE. Z.div_mod_to_equations. lia.
  - assumption.
  - exact Ha.
  - assumption.
  - constructor.
  - intros i Hi. rewrite length_replicate in Hi. cbn. now apply lookup_replicate_2.
  - intros i. cbn. lia.
Qed.
End pool_facts.

(** ** Allocation *)

(** C17: an allocation of less than 2^44 - 4095 bytes hands out whole pages nobody else
    owns; for a larger one the 32-bit counts of the bitmap functions wrap, see
    [huge_alloc_reserves_nothing]. It returns a page-aligned bus address whose range
    lies inside the aperture and is disjoint from every live allocation, and records the
    new owner; or it fails, changes nothing, and every window of the requested number of
    pages has a page with an owner. *)
Theorem pool_alloc_exclusive s live size :
  pool_inv (ax_pool s) live -> 0 < size -> size + 4095 < 2 ^ 44 ->
  let p := ax_pool s in let nr := Z.to_nat (page_count size) in
  exists r s', axi_mmio_pool_alloc size s = Done (r, s') /\ ax_mem s' = ax_mem s /\
    match r with
    | Some h => exists start, h = range_addr p (start, nr) /\
        h mod PAGE_SIZE = 0 /\ po_dma_base p <= h /\ h + size <= po_dma_base p + po_dma_size p /\
        pool_inv (ax_pool s') ((start, nr) :: live) /\
        forall r', r' ∈ live ->
          disjoint_ranges h size (range_addr p r') (Z.of_nat r'.2 * PAGE_SIZE)
    | None => s' = s /\ forall start, (start + nr <= length (po_dma_bitmap p))%nat ->
        exists i r', covers i (start, nr) = true /\ r' ∈ live /\ covers i r' = true
    end.
Proof.
  intros Hi Hs Hmax p nr. destruct (page_count_covers size Hs Hmax) as [_ Hcov].
  destruct (wp_elim _ _ _ (pool_alloc_spec s live size Hi Hs Hmax))
    as (r & s' & E & Em & _ & Hr).
  exists r, s'. split; [exact E|]. split; [exact Em|]. destruct r as [h|].
  - destruct Hr as (start & -> & Hi' & Hs'). fold nr in Hi', Hcov |- *. exists start.
    assert (forall r, range_addr (ax_pool s') r = range_addr p r) as Era
      by (intros; rewrite Hs'; reflexivity).
    pose proof (range_inside _ _ _ Hi') as Hin. rewrite Era, Hs' in Hin.
    cbn [set_bitmap po_dma_base po_dma_size snd] in Hin. fold p in Hin |- *.
    split; [reflexivity|]. split; [eapply range_aligned, Hi|]. split; [apply Hin|].
    split; [lia|]. split; [assumption|]. intros r' Hr'.
    pose proof (fresh_disjoint _ _ _ r' Hi' Hr') as Hd. rewrite !Era in Hd.
    cbn [snd] in Hd. unfold disjoint_ranges in *. lia.
  - destruct Hr as [-> Hno]. split; [reflexivity|]. intros start Hst.
    destruct (Hno start Hst) as (i & Hc & Hb).
    destruct (owned_bit _ _ _ Hi Hb) as (r' & Hin & Hc'). eauto.
Qed.

(** A machine with 48 KiB of memory whose last four pages are the aperture. *)
Definition ram48 : mem := fun a =>
  if (0 <=? a) && (a <? 0xC000) then Some (a mod 256) else None.
Definition axi0 : axi_state :=
  {| ax_pool := new_pool 0x8000 0x4000; ax_mem := ram48; ax_kzalloc := []; ax_memremap := [] |}.

Lemma axi0_inv : pool_inv (ax_pool axi0) [].
Proof. apply new_pool_inv; [reflexivity | lia | lia | lia]. Defined.

Lemma axi0_mapped : aperture_mapped axi0.
Proof.
  intros x Hx. cbn in Hx |- *. unfold ram48.
  rewrite (proj2 (Z.leb_le _ _)), (proj2 (Z.ltb_lt _ _)) by lia. eauto.
Defined.

Lemma pool_alloc_exclusive_witness :
  exists r s', axi_mmio_pool_alloc 5000 axi0 = Done (r, s') /\ r = Some 0x8000.
Proof.
  destruct (pool_alloc_exclusive axi0 [] 5000 axi0_inv) as (r & s' & E & _); [lia | lia|].
  exists r, s'. split; [exact E|].
  apply (f_equal returned) in E. vm_compute in E. now injection E as <-.
Defined.

(** Releasing an allocation undoes it. Freeing the address an allocation returned,
    with the same size, gives back the pool as it was before the allocation, bit for
    bit. *)
Theorem pool_alloc_free_roundtrip s live size h s1 :
  pool_inv (ax_pool s) live -> 0 < size -> size + 4095 < 2 ^ 44 ->
  axi_mmio_pool_alloc size s = Done (Some h, s1) ->
  exists s2, axi_mmio_pool_free h size s1 = Done (tt, s2) /\ ax_pool s2 = ax_pool s /\
    ax_mem s2 = ax_mem s.
Proof.
  intros Hi Hs Hmax E.
  destruct (wp_elim _ _ _ (pool_alloc_spec s live size Hi Hs Hmax))
    as (r & s1' & E' & Em & _ & Hr).
  rewrite E in E'. injection E' as <- <-. destruct Hr as (start & -> & Hi1 & Hs1).
  replace (range_addr (ax_pool s) _)
    with (range_addr (ax_pool s1) (start, Z.to_nat (page_count size)))
    by (rewrite Hs1; reflexivity).
  destruct (wp_elim _ _ _ (pool_free_spec s1 live start size Hi1 Hs Hmax))
    as ([] & s2 & E2 & Em2 & Hi2 & Hs2).
  exists s2. split; [exact E2|]. split; [|congruence].
  apply (same_pool_eq _ _ live); [assumption | assumption|].
  exact (same_pool_trans _ _ _ Hs1 Hs2).
Qed.

Lemma pool_alloc_free_roundtrip_witness :
  exists s1 s2, axi_mmio_pool_alloc 5000 axi0 = Done (Some 0x8000, s1) /\
    axi_mmio_pool_free 0x8000 5000 s1 = Done (tt, s2) /\ ax_pool s2 = ax_pool axi0.
Proof.
  eexists. destruct (pool_alloc_free_roundtrip axi0 [] 5000 0x8000 _ axi0_inv
    ltac:(lia) ltac:(lia) eq_refl) as (s2 & E & Ep & _).
  exists s2. split; [reflexivity|]. split; [exact E | exact Ep].
Defined.

(** Page counts are truncated. An allocation of [2^44] bytes from a four-page pool
    succeeds and reserves nothing: its [2^32] pages are 0 as the [unsigned int] count of
    the bitmap functions. *)
Theorem huge_alloc_reserves_nothing :
  axi_mmio_pool_alloc (2 ^ 44) axi0 = Done (Some 0x8000, axi0).
Proof. vm_compute. reflexivity. Qed.

(** ** Streaming mappings *)

(** C19: a bounced mapping carries the data both ways and leaves no trace in the pool.
    Mapping memory outside the aperture either fails and changes nothing, or returns
    pages inside the aperture that hold a copy of the buffer; once the device has
    replaced their contents, unmapping delivers the new contents to the buffer and the
    pool, with its list of bounce buffers, is the one before the mapping. *)
Theorem bounce_roundtrip s live phys size data :
  pool_inv (ax_pool s) live -> aperture_mapped s -> 0 < size -> size + 4095 < 2 ^ 44 ->
  zlen data = size -> mem_at (ax_mem s) phys data ->
  disjoint_ranges phys size (po_dma_base (ax_pool s)) (po_dma_size (ax_pool s)) ->
  ax_kzalloc s = [] -> ax_memremap s = [] ->
  exists h s1, axi_mmio_dma_map_phys true phys size DMA_BIDIRECTIONAL s = Done (h, s1) /\
    ((h = DMA_MAPPING_ERROR /\ s1 = s) \/
     (po_dma_base (ax_pool s) <= h /\
      h + size <= po_dma_base (ax_pool s) + po_dma_size (ax_pool s) /\
      mem_at (ax_mem s1) h data /\
      forall reply, zlen reply = size ->
      exists s2, axi_mmio_dma_unmap_phys true h size DMA_BIDIRECTIONAL
          (set_mem (mem_write (ax_mem s1) h reply) s1) = Done (tt, s2) /\
        ax_pool s2 = ax_pool s /\ mem_at (ax_mem s2) phys reply)).
Proof.
  intros Hi Hap Hs Hmax Hz Hat Hdis Hk Hr.
  destruct (wp_elim _ _ _ (map_phys_spec s live phys size data Hi Hap Hs Hmax Hz Hat Hdis Hk Hr))
    as (h & s1 & E & Hpost).
  exists h, s1. split; [exact E|]. destruct Hpost as [|Hpost]; [now left | right].
  destruct Hpost as (start & bm & Eh & Hi1 & Ep1 & Em1 & Hr1).
  set (r := (start, Z.to_nat (page_count size))) in *.
  destruct (page_count_covers size Hs Hmax) as [_ Hcov].
  pose proof (range_inside _ _ _ Hi1) as Hin.
  assert (range_addr (ax_pool s1) r = h) as Er by (rewrite Ep1, Eh; reflexivity).
  rewrite Er, Ep1 in Hin. cbn [set_bounces set_bitmap po_dma_base po_dma_size snd r] in Hin.
  split; [apply Hin|]. split; [lia|].
  split; [rewrite Em1; apply mem_at_write_same|]. intros reply Hrep.
  set (s1' := set_mem _ s1).
  assert (mem_at (ax_mem s1') (range_addr (ax_pool s1') r) reply) as Hat1.
  { cbn [s1' set_mem ax_pool ax_mem]. rewrite Er. apply mem_at_write_same. }
  assert (mapped (ax_mem s1') phys size) as Hmap1.
  { cbn [s1' set_mem ax_mem]. apply mapped_write. rewrite Em1. apply mapped_write.
    rewrite <- Hz. now apply mem_at_mapped. }
  destruct (wp_elim _ _ _ (unmap_phys_spec s1' live r phys size reply
    (po_bounces (ax_pool s)) Hi1 eq_refl Hs Hmax
    ltac:(cbn [s1' set_mem ax_pool]; now rewrite Er, Ep1) Hrep Hat1 Hmap1 Hr1))
    as ([] & s2 & E2 & Hi2 & Ep2 & Em2).
  cbn [s1' set_mem ax_pool] in E2. rewrite Er in E2. exists s2. split; [exact E2|].
  split; [|rewrite Em2; apply mem_at_write_same].
  apply (same_pool_eq _ _ live); [assumption | assumption|].
  unfold same_pool. rewrite Ep2 at 1. cbn [s1' set_mem ax_pool]. rewrite Ep1. reflexivity.
Qed.

Lemma bounce_roundtrip_witness :
  exists h s1, axi_mmio_dma_map_phys true 0x100 4 DMA_BIDIRECTIONAL axi0 = Done (h, s1) /\
    h = 0x8000 /\
    exists s2, axi_mmio_dma_unmap_phys true h 4 DMA_BIDIRECTIONAL
        (set_mem (mem_write (ax_mem s1) h [9; 8; 7; 6]) s1) = Done (tt, s2) /\
      ax_pool s2 = ax_pool axi0 /\ mem_at (ax_mem s2) 0x100 [9; 8; 7; 6].
Proof.
  destruct (bounce_roundtrip axi0 [] 0x100 4 [0; 1; 2; 3] axi0_inv)
    as (h & s1 & E & Hpost); try reflexivity.
  - exact axi0_mapped.
  - intros [|[|[|[|i]]]] b Hb; vm_compute in Hb; try discriminate; injection Hb as <-;
      reflexivity.
  - left. vm_compute. discriminate.
  - exists h, s1. split; [exact E|]. apply (f_equal returned) in E. vm_compute in E.
    injection E as <-. split; [reflexivity|]. destruct Hpost as [[? _]|(_ & _ & _ & H)]; [easy|].
    now apply H.
Defined.

(** ** Scatter-gather mappings *)

(** C18: mapping a scatterlist is all or nothing. It either maps every entry, to pages
    of its own that hold a copy of the entry's memory (for a direction that reads
    memory), or it returns -ENOMEM: then the pool is exactly the one before the call,
    the entries mapped on the way are marked unmapped and the others are untouched. *)
Theorem map_sg_all_or_nothing s live sgl datas dir :
  pool_inv (ax_pool s) live -> aperture_mapped s -> Forall2 (sg_holds s) sgl datas ->
  exists n sgl' s', axi_mmio_dma_map_sg true sgl dir s = Done ((n, sgl'), s') /\
    ((n = - ENOMEM /\ ax_pool s' = ax_pool s /\
        exists k, (k < length sgl)%nat /\
          sgl' = map (sg_set DMA_MAPPING_ERROR 0) (take k sgl) ++ drop k sgl) \/
     (n = Z.of_nat (length sgl) /\ exists rs, pool_inv (ax_pool s') (rs ++ live) /\
        Forall2 (sg_owns (ax_pool s')) sgl' rs /\
        (dir <> DMA_FROM_DEVICE -> Forall2 (sg_bounced (ax_mem s')) sgl' datas))).
Proof.
  intros Hi Hap Hok. unfold axi_mmio_dma_map_sg. cbn [negb].
  destruct (wp_elim _ _ _ (map_sg_from_spec dir [] [] [] sgl datas s live Hi Hap
    (Forall_nil _) (Forall2_nil _) (fun _ => Forall2_nil _) Hok))
    as ([n sgl'] & s' & E & Hs & Hpost).
  exists n, sgl', s'. split; [exact E|]. cbn [fst snd length Nat.add app] in Hpost.
  destruct Hpost as [(-> & Hi' & todo & sg & rest & -> & ->)|Hpost]; [left | now right].
  split; [reflexivity|]. split; [now apply (same_pool_eq _ _ live)|].
  exists (length todo). rewrite length_app, take_app_length, drop_app_length.
  cbn [length]. split; [lia | reflexivity].
Qed.

Definition entry (phys len : Z) : scatterlist :=
  {| sg_phys := phys; sg_length := len; sg_dma_address := 0; sg_dma_len := 0 |}.

Lemma map_sg_all_or_nothing_witness :
  exists n sgl' s', axi_mmio_dma_map_sg true [entry 0x10 2; entry 0x20 2] DMA_TO_DEVICE axi0
    = Done ((n, sgl'), s') /\ n = 2 /\ Forall2 (sg_bounced (ax_mem s')) sgl' [[16; 17]; [32; 33]].
Proof.
  destruct (map_sg_all_or_nothing axi0 [] [entry 0x10 2; entry 0x20 2]
    [[16; 17]; [32; 33]] DMA_TO_DEVICE axi0_inv axi0_mapped) as (n & sgl' & s' & E & Hpost).
  - constructor; [|constructor; [|constructor]]; split;
      [split; reflexivity | reflexivity | | left; vm_compute; discriminate
      |split; reflexivity | reflexivity | | left; vm_compute; discriminate];
      intros [|[|i]] b Hb; vm_compute in Hb; try discriminate; injection Hb as <-; reflexivity.
  - exists n, sgl', s'. split; [exact E|]. apply (f_equal returned) in E.
    vm_compute in E. injection E as <- _.
    destruct Hpost as [[? _]|(_ & rs & _ & _ & Hd)]; [easy|]. split; [reflexivity|].
    now apply Hd.
Defined.

(** Unmapping a scatterlist delivers the device's data and frees its pages. For
    entries mapped by the pool, with memory outside the aperture and pairwise disjoint,
    whose pages the device has filled, every entry's memory holds what its pages held,
    the entries are marked unmapped, exactly their pages are freed, and no other memory
    changes. *)
Theorem unmap_sg_delivers dir sgl rs datas s live :
  dir <> DMA_TO_DEVICE ->
  pool_inv (ax_pool s) (rs ++ live) -> Forall2 (sg_owns (ax_pool s)) sgl rs ->
  Forall2 (sg_returns s) sgl datas -> ForallOrdPairs sg_apart sgl ->
  exists s', axi_mmio_dma_unmap_sg true sgl dir s
      = Done (map (sg_set DMA_MAPPING_ERROR 0) sgl, s') /\
    pool_inv (ax_pool s') live /\
    Forall2 (fun sg d => mem_at (ax_mem s') (sg_phys sg) d) sgl datas /\
    (forall a d, mem_at (ax_mem s) a d ->
       Forall (fun sg => disjoint_ranges (sg_phys sg) (sg_length sg) a (zlen d)) sgl ->
       mem_at (ax_mem s') a d).
Proof.
  intros Hd Hi Ho Hr Hp. unfold axi_mmio_dma_unmap_sg. cbn [negb].
  destruct (wp_elim _ _ _ (unmap_sg_each_spec dir sgl rs datas s live Hd Hi Ho Hr Hp))
    as (r & s' & E & -> & Hi' & _ & Hm & Hf).
  exists s'. split; [exact E|]. split; [assumption|]. now split.
Qed.

(** The machine with one entry mapped to the first page of the aperture. *)
Definition mapped_entry : scatterlist := sg_set 0x8000 2 (entry 0x10 2).
Definition axi1 : axi_state :=
  set_pool (set_bitmap [true; false; false; false] (ax_pool axi0)) axi0.

Lemma unmap_sg_delivers_witness :
  exists s', axi_mmio_dma_unmap_sg true [mapped_entry] DMA_FROM_DEVICE axi1
      = Done ([sg_set DMA_MAPPING_ERROR 0 mapped_entry], s') /\ pool_inv (ax_pool s') [] /\
    Forall2 (fun sg d => mem_at (ax_mem s') (sg_phys sg) d) [mapped_entry] [[0; 1]].
Proof.
  destruct (unmap_sg_delivers DMA_FROM_DEVICE [mapped_entry] [(0, 1)%nat] [[0; 1]] axi1 [])
    as (s' & E & Hi & Hm & _).
  - discriminate.
  - destruct axi0_inv as [H1 H2 H3 H4 H5 H6 _ _ _]. split; try assumption.
    + constructor; [cbn; lia | constructor].
    + intros [|[|[|[|i]]]] Hi; try reflexivity. cbn in Hi. lia.
    + intros [|i]; cbn; lia.
  - constructor; [now split | constructor].
  - constructor; [|constructor]. split.
    + split; reflexivity.
    + split; vm_compute; discriminate.
    + split; [reflexivity|]. intros [|[|i]] b Hb; vm_compute in Hb; try discriminate;
        injection Hb as <-; reflexivity.
    + intros x Hx. cbn in Hx |- *. unfold ram48.
      rewrite (proj2 (Z.leb_le _ _)), (proj2 (Z.ltb_lt _ _)) by lia. eauto.
    + left. vm_compute. discriminate.
  - repeat constructor.
  - exists s'. split; [exact E|]. now split.
Defined.

(** ** The initial pool *)

(** The probe checks give a well-formed pool. For an aperture that passes the
    alignment checks of the probe and is smaller than [2^44] bytes, the new pool has no
    owner, one clear bit per page, and its pages tile the aperture exactly. *)
Theorem probe_pool_wellformed base size :
  aperture_valid base size = true -> 0 <= base -> 0 <= size < 2 ^ 44 ->
  base + size < 2 ^ 64 ->
  pool_inv (new_pool base size) [] /\ 0 < po_dma_pages (new_pool base size) /\
  size = Z.of_nat (length (po_dma_bitmap (new_pool base size))) * PAGE_SIZE.
Proof.
  intros Hv Hb Hs Ht. pose proof (new_pool_inv base size Hv Hb Hs Ht) as Hi.
  split; [exact Hi|]. split.
  - unfold aperture_valid in Hv. rewrite !andb_true_iff, negb_true_iff, Z.eqb_neq in Hv.
    destruct Hv as [_ Hn]. cbn. pose proof (proj2 (Z.shiftr_nonneg size PAGE_SHIFT)). lia.
  - rewrite (pi_pages _ _ Hi), <- (pi_size _ _ Hi). reflexivity.
Qed.

Lemma probe_pool_wellformed_witness :
  pool_inv (new_pool 0x8000 0x4000) [] /\ 0 < po_dma_pages (new_pool 0x8000 0x4000).
Proof.
  destruct (probe_pool_wellformed 0x8000 0x4000) as (Hi & Hp & _);
    [reflexivity | lia | lia | lia | now split].
Defined.
