(* ===== verification/AxiRegistry.v ===== *)
(** * The registry of DMA pools

    [axi_mmio_pool_get] and [axi_mmio_pool_put] of [src/kernel/axi_mmio.c]: the list of
    pools shared by every probed device, under [axi_mmio_pools_lock]. A get is two
    critical sections with the construction of a pool between them, so gets and puts of
    several devices interleave: each critical section is one step. *)

From S2P Require Import Prelude.

#[local] Open Scope Z_scope.

(** A pool of the list; [pr_id] is its address, [pr_refs] its [refcount_t]. *)
Record pool_ref : Type := {
  pr_id : nat;
  pr_base : Z;
  pr_size : Z;
  pr_refs : nat;
}.

Definition same_aperture (base size : Z) (p : pool_ref) : bool :=
  (pr_base p =? base) && (pr_size p =? size).

Definition set_refs (n : nat) (p : pool_ref) : pool_ref :=
  {| pr_id := pr_id p; pr_base := pr_base p; pr_size := pr_size p; pr_refs := n |}.

(** A critical section of the get: the first pool with the aperture gains a
    reference. *)
Fixpoint pool_find_get (base size : Z) (pools : list pool_ref)
  : option (nat * list pool_ref) :=
  match pools with
  | [] => None
  | p :: pools =>
      if same_aperture base size p then Some (pr_id p, set_refs (S (pr_refs p)) p :: pools)
      else match pool_find_get base size pools with
           | Some (id, pools') => Some (id, p :: pools')
           | None => None
           end
  end.

(** The second critical section: [id] is the new pool, dropped when another thread was
    faster. *)
Definition pool_publish (id : nat) (base size : Z) (pools : list pool_ref)
  : nat * list pool_ref :=
  match pool_find_get base size pools with
  | Some r => r
  | None => (id, {| pr_id := id; pr_base := base; pr_size := size; pr_refs := 1 |} :: pools)
  end.

(** The outcome of [axi_mmio_pool_get] when no other thread runs; [built] tells whether
    the new pool could be constructed. *)
Definition axi_mmio_pool_get (id : nat) (built : bool) (base size : Z) (pools : list pool_ref)
  : option nat * list pool_ref :=
  match pool_find_get base size pools with
  | Some (id', pools') => (Some id', pools')
  | None => if negb built then (None, pools)
            else let '(id', pools') := pool_publish id base size pools in (Some id', pools')
  end.

(** [axi_mmio_pool_put]: the last reference takes the pool off the list. *)
Fixpoint axi_mmio_pool_put (id : nat) (pools : list pool_ref) : list pool_ref :=
  match pools with
  | [] => []
  | p :: pools =>
      if (pr_id p =? id)%nat then
        if (pr_refs p =? 1)%nat then pools else set_refs (pred (pr_refs p)) p :: pools
      else p :: axi_mmio_pool_put id pools
  end.

(** ** Interleavings *)

(** A device holds a pool, with the aperture it asked for; [sy_building] are the threads
    between the two sections of a get, [sy_next] bounds the addresses in use. *)
Record system : Type := {
  sy_pools : list pool_ref;
  sy_held : list (nat * (Z * Z));
  sy_building : list (nat * (Z * Z));
  sy_next : nat;
}.

Definition boot : system :=
  {| sy_pools := []; sy_held := []; sy_building := []; sy_next := 0 |}.

Inductive step : system -> system -> Prop :=
| step_get_found sy base size id pools :
    pool_find_get base size (sy_pools sy) = Some (id, pools) ->
    step sy {| sy_pools := pools; sy_held := (id, (base, size)) :: sy_held sy;
               sy_building := sy_building sy; sy_next := sy_next sy |}
| step_get_build sy base size :
    pool_find_get base size (sy_pools sy) = None ->
    step sy {| sy_pools := sy_pools sy; sy_held := sy_held sy;
               sy_building := (sy_next sy, (base, size)) :: sy_building sy;
               sy_next := S (sy_next sy) |}
| step_get_failed sy l1 id base size l2 :
    sy_building sy = l1 ++ (id, (base, size)) :: l2 ->
    step sy {| sy_pools := sy_pools sy; sy_held := sy_held sy;
               sy_building := l1 ++ l2; sy_next := sy_next sy |}
| step_get_publish sy l1 id base size l2 id' pools :
    sy_building sy = l1 ++ (id, (base, size)) :: l2 ->
    pool_publish id base size (sy_pools sy) = (id', pools) ->
    step sy {| sy_pools := pools; sy_held := (id', (base, size)) :: sy_held sy;
               sy_building := l1 ++ l2; sy_next := sy_next sy |}
| step_put sy l1 id ap l2 :
    sy_held sy = l1 ++ (id, ap) :: l2 ->
    step sy {| sy_pools := axi_mmio_pool_put id (sy_pools sy); sy_held := l1 ++ l2;
               sy_building := sy_building sy; sy_next := sy_next sy |}.

Inductive reachable : system -> Prop :=
| reach_boot : reachable boot
| reach_step sy sy' : reachable sy -> step sy sy' -> reachable sy'.

(** ** The invariant *)

Definition aperture (p : pool_ref) : Z * Z := (pr_base p, pr_size p).

Definition holders (id : nat) (held : list (nat * (Z * Z))) : nat :=
  length (List.filter (fun h => (h.1 =? id)%nat) held).

Record pools_ok (held : list (nat * (Z * Z))) (pools : list pool_ref) : Prop := {
  po_apertures : NoDup (map aperture pools);
  po_ids : NoDup (map pr_id pools);
  po_counts : Forall (fun p => pr_refs p = holders (pr_id p) held /\ (0 < pr_refs p)%nat) pools;
  po_holds : Forall (fun h => exists p, p ∈ pools /\ pr_id p = h.1 /\ aperture p = h.2) held;
}.

(** The addresses in use: published pools and pools under construction. *)
Definition addresses (sy : system) : list nat :=
  map pr_id (sy_pools sy) ++ map fst (sy_building sy).

Record system_ok (sy : system) : Prop := {
  so_pools : pools_ok (sy_held sy) (sy_pools sy);
  so_addresses : NoDup (addresses sy);
  so_next : Forall (fun id => id < sy_next sy)%nat (addresses sy);
}.

Section registry.
Implicit Types (pools : list pool_ref) (held : list (nat * (Z * Z))).

Lemma same_aperture_spec base size p :
  same_aperture base size p = true <-> aperture p = (base, size).
Proof.
  unfold same_aperture, aperture. rewrite andb_true_iff, !Z.eqb_eq.
  split; [intros [-> ->]; reflexivity | intros [= -> ->]; now split].
Qed.

(** A hit splits the list at the pool that gains the reference. *)
Lemma pool_find_get_some base size pools id pools' :
  pool_find_get base size pools = Some (id, pools') ->
  exists l1 p l2, pools = l1 ++ p :: l2 /\ pr_id p = id /\ aperture p = (base, size) /\
    pools' = l1 ++ set_refs (S (pr_refs p)) p :: l2.
Proof.
  revert pools'. induction pools as [|p pools IH]; intros pools'; cbn; [easy|].
  destruct (same_aperture base size p) eqn:E.
  - intros [= <- <-]. apply same_aperture_spec in E. now exists [], p, pools.
  - destruct (pool_find_get base size pools) as [[id' l]|]; [|easy].
    intros [= -> <-]. destruct (IH l eq_refl) as (l1 & p' & l2 & -> & ? & ? & ->).
    now exists (p :: l1), p', l2.
Qed.

Lemma pool_find_get_none base size pools :
  pool_find_get base size pools = None -> ~ (base, size) ∈ map aperture pools.
Proof.
  induction pools as [|p pools IH]; cbn; [intros _ H; inversion H|].
  destruct (same_aperture base size p) eqn:E; [easy|].
  destruct (pool_find_get base size pools) as [[]|]; [easy|]. intros _ Hin.
  apply list_elem_of_In in Hin as [Hin|Hin].
  - apply same_aperture_spec in Hin. congruence.
  - now apply IH, list_elem_of_In.
Qed.

Lemma put_split id l1 p l2 :
  ~ id ∈ map pr_id l1 -> pr_id p = id ->
  axi_mmio_pool_put id (l1 ++ p :: l2) =
    l1 ++ (if (pr_refs p =? 1)%nat then l2 else set_refs (pred (pr_refs p)) p :: l2).
Proof.
  intros Hn Hp. induction l1 as [|q l1 IH]; cbn.
  - rewrite Hp, Nat.eqb_refl. now destruct (_ =? 1)%nat.
  - cbn in Hn. rewrite (proj2 (Nat.eqb_neq _ _)).
    + f_equal. apply IH. intros Hin. apply Hn. now right.
    + intros E. apply Hn. rewrite E. constructor.
Qed.

Lemma holders_cons id h held :
  holders id (h :: held) = ((if (h.1 =? id)%nat then 1 else 0) + holders id held)%nat.
Proof. unfold holders. cbn. now destruct (_ =? id)%nat. Qed.

Lemma holders_perm id h1 h2 : Permutation h1 h2 -> holders id h1 = holders id h2.
Proof. induction 1; rewrite ?holders_cons in *; lia || congruence. Qed.

Lemma pools_ok_perm h1 h2 p1 p2 :
  Permutation h1 h2 -> Permutation p1 p2 -> pools_ok h1 p1 -> pools_ok h2 p2.
Proof.
  intros Hh Hp [Ha Hi Hc Hh1]. split.
  - now rewrite <- Hp.
  - now rewrite <- Hp.
  - rewrite <- Hp. eapply Forall_impl; [|exact Hc]. cbn. intros p [-> ?].
    now rewrite (holders_perm _ _ _ Hh) in *.
  - rewrite <- Hh. eapply Forall_impl; [|exact Hh1]. cbn. intros h (p & Hin & ?).
    exists p. now rewrite <- Hp.
Qed.

(** One more holder of the pool at the head. *)
Lemma pools_ok_get held p l :
  pools_ok held (p :: l) ->
  pools_ok ((pr_id p, aperture p) :: held) (set_refs (S (pr_refs p)) p :: l).
Proof.
  intros [Ha Hi Hc Hh]. apply Forall_cons_iff in Hc as [[Hp Hpos] Hc].
  cbn [map] in Ha, Hi. pose proof (NoDup_cons_1_1 _ _ Hi) as Hni.
  split; [exact Ha | exact Hi | |].
  - constructor; cbn [set_refs pr_id pr_refs].
    + rewrite holders_cons. cbn [fst]. rewrite Nat.eqb_refl. lia.
    + apply Forall_forall. intros q Hq. rewrite Forall_forall in Hc.
      specialize (Hc q Hq). rewrite holders_cons. cbn [fst].
      rewrite (proj2 (Nat.eqb_neq _ _)); [lia|]. intros E. apply Hni. rewrite E.
      apply list_elem_of_In. apply in_map. exact Hq.
  - constructor.
    + exists (set_refs (S (pr_refs p)) p). now split; [constructor|].
    + eapply Forall_impl; [|exact Hh]. cbn. intros h (q & Hq & E1 & E2).
      apply list_elem_of_In in Hq as [<-|Hq].
      * exists (set_refs (S (pr_refs p)) p). now split; [constructor|].
      * exists q. split; [constructor; now apply list_elem_of_In | now split].
Qed.

Lemma holders_in h held : In h held -> (0 < holders h.1 held)%nat.
Proof.
  induction held as [|h' held IH]; [easy|]. rewrite holders_cons. intros [->|Hin].
  - rewrite Nat.eqb_refl. lia.
  - specialize (IH Hin). lia.
Qed.

Lemma no_holders id held (l : list pool_ref) :
  Forall (fun h => exists p, p ∈ l /\ pr_id p = h.1 /\ aperture p = h.2) held ->
  (forall q, q ∈ l -> pr_id q <> id) -> holders id held = 0%nat.
Proof.
  intros Hh Hne. induction Hh as [|h held (p & Hin & E & _) Hh IH]; [reflexivity|].
  rewrite holders_cons, IH, (proj2 (Nat.eqb_neq _ _)); [reflexivity|].
  rewrite <- E. now apply Hne.
Qed.

(** A new pool with its first holder. *)
Lemma pools_ok_new held id base size l :
  pools_ok held l -> ~ (base, size) ∈ map aperture l -> ~ id ∈ map pr_id l ->
  pools_ok ((id, (base, size)) :: held)
    ({| pr_id := id; pr_base := base; pr_size := size; pr_refs := 1 |} :: l).
Proof.
  intros [Ha Hi Hc Hh] Hna Hni.
  assert (forall q, q ∈ l -> pr_id q <> id) as Hne.
  { intros q Hq E. apply Hni. rewrite <- E. apply list_elem_of_In, in_map.
    now apply list_elem_of_In. }
  split; cbn [map].
  - constructor; assumption.
  - constructor; assumption.
  - constructor; cbn [pr_id pr_refs].
    + rewrite holders_cons. cbn [fst]. rewrite Nat.eqb_refl.
      assert (holders id held = 0%nat) as ->; [|lia].
      apply (no_holders id held l Hh). intros q Hq. now apply Hne.
    + apply Forall_forall. intros q Hq. rewrite Forall_forall in Hc.
      specialize (Hc q Hq). rewrite holders_cons. cbn [fst].
      rewrite (proj2 (Nat.eqb_neq _ _)); [lia|]. intros E.
      apply (Hne q); [now apply list_elem_of_In | now symmetry].
  - constructor.
    + eexists. now split; [constructor|].
    + eapply Forall_impl; [|exact Hh]. cbn. intros h (q & Hq & E). exists q.
      split; [now constructor | assumption].
Qed.

(** One holder less of the pool at the head. *)
Lemma pools_ok_put held p ap l :
  pools_ok ((pr_id p, ap) :: held) (p :: l) ->
  pools_ok held (if (pr_refs p =? 1)%nat then l else set_refs (pred (pr_refs p)) p :: l).
Proof.
  intros [Ha Hi Hc Hh]. apply Forall_cons_iff in Hc as [[Hp Hpos] Hc].
  apply Forall_cons_iff in Hh as [_ Hh]. cbn [map] in Ha, Hi.
  pose proof (NoDup_cons_1_1 _ _ Hi) as Hni. pose proof (NoDup_cons_1_2 _ _ Hi) as Hi'.
  pose proof (NoDup_cons_1_1 _ _ Ha) as Hna. pose proof (NoDup_cons_1_2 _ _ Ha) as Ha'.
  rewrite holders_cons in Hp. cbn [fst] in Hp. rewrite Nat.eqb_refl in Hp.
  assert (Forall (fun q => pr_refs q = holders (pr_id q) held /\ (0 < pr_refs q)%nat) l) as Hc'.
  { apply Forall_forall. intros q Hq. rewrite Forall_forall in Hc. specialize (Hc q Hq).
    rewrite holders_cons in Hc. cbn [fst] in Hc. rewrite (proj2 (Nat.eqb_neq _ _)) in Hc.
    - lia.
    - intros E. apply Hni. rewrite E. apply list_elem_of_In. now apply in_map. }
  destruct (Nat.eqb_spec (pr_refs p) 1) as [E1|E1].
  - split; try assumption. apply Forall_forall. intros h Hin.
    pose proof (proj1 (Forall_forall _ _) Hh h Hin) as (q & Hq & Eq1 & Eq2).
    apply list_elem_of_In in Hq as [->|Hq].
    + exfalso. pose proof (holders_in h held Hin). rewrite <- Eq1 in *. lia.
    + exists q. split; [now apply list_elem_of_In | now split].
  - split; cbn [map].
    + constructor; assumption.
    + constructor; assumption.
    + constructor; [cbn; lia | assumption].
    + eapply Forall_impl; [|exact Hh]. cbn. intros h (q & Hq & Eq).
      apply list_elem_of_In in Hq as [<-|Hq].
      * exists (set_refs (pred (pr_refs p)) p). now split; [constructor|].
      * exists q. split; [constructor; now apply list_elem_of_In | assumption].
Qed.
End registry.

(** ** Reachable systems *)

Lemma boot_ok : system_ok boot.
Proof. repeat split; constructor. Qed.

Section steps.
Implicit Types sy : system.

(** The head pool's key and address survive a change of its count. *)
Lemma map_ids_middle l1 p l2 n :
  map pr_id (l1 ++ set_refs n p :: l2) = map pr_id (l1 ++ p :: l2).
Proof. now rewrite !map_app. Qed.

Lemma find_get_ids base size pools id pools' :
  pool_find_get base size pools = Some (id, pools') -> map pr_id pools' = map pr_id pools.
Proof.
  intros E. apply pool_find_get_some in E as (l1 & p & l2 & -> & _ & _ & ->).
  apply map_ids_middle.
Qed.

Lemma find_get_ok base size pools id pools' held :
  pools_ok held pools -> pool_find_get base size pools = Some (id, pools') ->
  pools_ok ((id, (base, size)) :: held) pools'.
Proof.
  intros Hok E. apply pool_find_get_some in E as (l1 & p & l2 & -> & <- & <- & ->).
  eapply pools_ok_perm; [reflexivity | apply Permutation_middle|]. apply pools_ok_get.
  eapply pools_ok_perm; [reflexivity | symmetry; apply Permutation_middle | exact Hok].
Qed.

Lemma put_ok held l1 id ap l2 pools :
  held = l1 ++ (id, ap) :: l2 -> pools_ok held pools ->
  pools_ok (l1 ++ l2) (axi_mmio_pool_put id pools).
Proof.
  intros -> Hok.
  assert (exists p, p ∈ pools /\ pr_id p = id) as (p & Hin & Hid).
  { pose proof (po_holds _ _ Hok) as Hh. apply Forall_app in Hh as [_ Hh].
    apply Forall_cons_iff in Hh as [(p & ? & ? & _) _]. eauto. }
  apply list_elem_of_split in Hin as (k1 & k2 & ->).
  pose proof (po_ids _ _ Hok) as Hn. rewrite map_app in Hn. cbn [map] in Hn.
  apply list.NoDup_app in Hn as (_ & Hn & _).
  rewrite put_split; [|intros Hx; apply (Hn _ Hx); rewrite Hid; constructor | assumption].
  assert (pools_ok ((pr_id p, ap) :: l1 ++ l2) (p :: k1 ++ k2)) as Hok'.
  { eapply pools_ok_perm; [| |exact Hok].
    - rewrite Hid. symmetry. apply Permutation_middle.
    - symmetry. apply Permutation_middle. }
  apply pools_ok_put in Hok'. destruct (_ =? 1)%nat; [exact Hok'|].
  eapply pools_ok_perm; [reflexivity | apply Permutation_middle | exact Hok'].
Qed.

Lemma pool_publish_ok id base size pools id' pools' held :
  pools_ok held pools -> ~ id ∈ map pr_id pools ->
  pool_publish id base size pools = (id', pools') ->
  pools_ok ((id', (base, size)) :: held) pools' /\
  (map pr_id pools' = map pr_id pools \/ map pr_id pools' = id :: map pr_id pools).
Proof.
  intros Hok Hni. unfold pool_publish. destruct (pool_find_get _ _ _) as [[i l]|] eqn:E.
  - intros [= -> ->]. split; [eapply find_get_ok; eassumption|]. left.
    exact (find_get_ids _ _ _ _ _ E).
  - intros [= <- <-]. split; [|now right].
    apply pools_ok_new; [assumption | now apply pool_find_get_none | assumption].
Qed.

Lemma put_sublist id pools : map pr_id (axi_mmio_pool_put id pools) `sublist_of` map pr_id pools.
Proof.
  induction pools as [|p pools IH]; cbn; [constructor|].
  destruct (_ =? id)%nat; [destruct (_ =? 1)%nat|]; cbn.
  - now apply sublist_cons.
  - reflexivity.
  - now apply sublist_skip.
Qed.

(** Fewer addresses stay fresh. *)
Lemma addresses_sub sy sy' :
  addresses sy' ⊆+ addresses sy -> sy_next sy' = sy_next sy ->
  NoDup (addresses sy) /\ Forall (fun id => id < sy_next sy)%nat (addresses sy) ->
  NoDup (addresses sy') /\ Forall (fun id => id < sy_next sy')%nat (addresses sy').
Proof.
  intros Hs -> [Hn Hf]. apply submseteq_Permutation in Hs as [k Hk].
  rewrite Hk in Hn, Hf. apply list.NoDup_app in Hn as [Hn _]. apply Forall_app in Hf as [Hf _].
  now split.
Qed.

Lemma building_split (l1 l2 : list (nat * (Z * Z))) id ap :
  Permutation (map fst (l1 ++ (id, ap) :: l2)) (id :: map fst (l1 ++ l2)).
Proof. rewrite !map_app. cbn. symmetry. apply Permutation_middle. Qed.

Lemma step_ok sy sy' : step sy sy' -> system_ok sy -> system_ok sy'.
Proof.
  intros Hst [Hp Hn Hx]. destruct Hst as
    [sy base size id pools E | sy base size E | sy l1 id base size l2 Eb
    |sy l1 id base size l2 id' pools Eb E | sy l1 id ap l2 Eh].
  - split; unfold addresses in *; cbn; rewrite ?(find_get_ids _ _ _ _ _ E); try assumption.
    eapply find_get_ok; eassumption.
  - split; [assumption | |]; unfold addresses in *; cbn;
      rewrite <- Permutation_middle; [constructor; [|assumption] | constructor; [lia|]].
    + intros Hin. rewrite Forall_forall in Hx.
      specialize (Hx _ (proj1 (list_elem_of_In _ _) Hin)). cbn in Hx. lia.
    + eapply Forall_impl; [|exact Hx]. cbn. lia.
  - edestruct (addresses_sub sy) as [Hn' Hx'];
      [| |split; [exact Hn | exact Hx] | split; [assumption | exact Hn' | exact Hx']];
      [|reflexivity].
    unfold addresses. cbn. rewrite Eb, building_split. apply submseteq_app; [reflexivity|].
    now apply submseteq_cons.
  - assert (~ id ∈ map pr_id (sy_pools sy)) as Hni.
    { intros Hin. apply list.NoDup_app in Hn as (_ & Hn & _). apply (Hn _ Hin).
      rewrite Eb, building_split. constructor. }
    destruct (pool_publish_ok _ _ _ _ _ _ _ Hp Hni E) as [Hok Hids].
    edestruct (addresses_sub sy) as [Hn' Hx'];
      [| |split; [exact Hn | exact Hx] | split; [exact Hok | exact Hn' | exact Hx']];
      [|reflexivity].
    unfold addresses. cbn. rewrite Eb, building_split.
    destruct Hids as [->| ->]; [apply submseteq_app; [reflexivity | now apply submseteq_cons]|].
    cbn. now rewrite Permutation_middle.
  - edestruct (addresses_sub sy) as [Hn' Hx'];
      [| |split; [exact Hn | exact Hx] | split; [eapply put_ok; eassumption | exact Hn' | exact Hx']];
      [|reflexivity].
    unfold addresses. cbn. apply submseteq_app; [|reflexivity].
    apply sublist_submseteq, put_sublist.
Qed.

Lemma reachable_ok sy : reachable sy -> system_ok sy.
Proof. induction 1; [apply boot_ok | eauto using step_ok]. Qed.
End steps.

(** C11: devices share pools soundly under every interleaving. In every reachable state:
    a pool some device holds is still on the list (never freed under a holder) and has
    the aperture that device asked for; no aperture has two pools, so devices with the
    same aperture hold the same pool; and every listed pool counts exactly its holders,
    at least one. *)
Theorem pool_registry_sound sy :
  reachable sy ->
  (forall id ap, (id, ap) ∈ sy_held sy ->
     exists p, p ∈ sy_pools sy /\ pr_id p = id /\ aperture p = ap /\
       pr_refs p = holders id (sy_held sy)) /\
  (forall id1 id2 ap, (id1, ap) ∈ sy_held sy -> (id2, ap) ∈ sy_held sy -> id1 = id2) /\
  (forall p, p ∈ sy_pools sy -> (0 < holders (pr_id p) (sy_held sy))%nat).
Proof.
  intros Hr. destruct (so_pools _ (reachable_ok _ Hr)) as [Ha Hi Hc Hh].
  rewrite Forall_forall in Hc, Hh.
  assert (forall id ap, (id, ap) ∈ sy_held sy ->
    exists p, p ∈ sy_pools sy /\ pr_id p = id /\ aperture p = ap) as Hown.
  { intros id ap Hin. apply list_elem_of_In in Hin. exact (Hh _ Hin). }
  split; [|split].
  - intros id ap Hin. destruct (Hown _ _ Hin) as (p & Hp & <- & <-). exists p.
    repeat (split; [easy|]). apply Hc. now apply list_elem_of_In.
  - intros id1 id2 ap H1 H2. destruct (Hown _ _ H1) as (p1 & Hp1 & <- & E1).
    destruct (Hown _ _ H2) as (p2 & Hp2 & <- & E2).
    apply list_elem_of_lookup in Hp1 as [i Hi1], Hp2 as [j Hj2].
    assert (i = j) as ->; [|congruence].
    apply (NoDup_lookup (map aperture (sy_pools sy)) i j ap Ha); rewrite list_lookup_fmap.
    + rewrite Hi1. cbn. congruence.
    + rewrite Hj2. cbn. congruence.
  - intros p Hp. apply list_elem_of_In in Hp. destruct (Hc _ Hp) as [<- ?]. assumption.
Qed.

(** Two devices race for the same aperture: both miss, both build, both publish. *)
Definition ap0 : Z * Z := (0x8000, 0x4000).
Definition racing (refs : nat) : list pool_ref :=
  [{| pr_id := 1; pr_base := 0x8000; pr_size := 0x4000; pr_refs := refs |}].
Definition one_building : system :=
  {| sy_pools := []; sy_held := []; sy_building := [(0%nat, ap0)]; sy_next := 1 |}.
Definition both_building : system :=
  {| sy_pools := []; sy_held := []; sy_building := [(1%nat, ap0); (0%nat, ap0)]; sy_next := 2 |}.
Definition one_published : system :=
  {| sy_pools := racing 1; sy_held := [(1%nat, ap0)]; sy_building := [(0%nat, ap0)];
     sy_next := 2 |}.
Definition raced : system :=
  {| sy_pools := racing 2; sy_held := [(1%nat, ap0); (1%nat, ap0)]; sy_building := [];
     sy_next := 2 |}.

Lemma raced_reachable : reachable raced.
Proof.
  apply (reach_step one_published).
  2: now apply (step_get_publish one_published [] 0 0x8000 0x4000 [] 1 (racing 2)).
  apply (reach_step both_building).
  2: now apply (step_get_publish both_building [] 1 0x8000 0x4000 [(0%nat, ap0)] 1 (racing 1)).
  apply (reach_step one_building); [|now apply (step_get_build one_building 0x8000 0x4000)].
  apply (reach_step boot); [apply reach_boot | now apply (step_get_build boot 0x8000 0x4000)].
Defined.

Lemma pool_registry_sound_witness :
  reachable raced /\
  (forall id1 id2 ap, (id1, ap) ∈ sy_held raced -> (id2, ap) ∈ sy_held raced -> id1 = id2).
Proof.
  split; [exact raced_reachable|].
  destruct (pool_registry_sound raced raced_reachable) as (_ & H & _). exact H.
Defined.

(** Releasing a pool just obtained restores the registry. With no other thread
    running, whether the get found a pool or built one, putting what it returned gives
    back the list of pools and their counts as they were; a get fails only when no pool
    has the aperture and the construction failed, and then changes nothing. *)
Theorem pool_get_put_roundtrip id built base size held pools :
  pools_ok held pools -> ~ id ∈ map pr_id pools ->
  match axi_mmio_pool_get id built base size pools with
  | (Some id', pools') => axi_mmio_pool_put id' pools' = pools
  | (None, pools') => pools' = pools /\ built = false /\ ~ (base, size) ∈ map aperture pools
  end.
Proof.
  intros Hok Hni. unfold axi_mmio_pool_get.
  destruct (pool_find_get base size pools) as [[id' pools']|] eqn:E.
  - apply pool_find_get_some in E as (l1 & p & l2 & -> & <- & _ & ->).
    pose proof (po_ids _ _ Hok) as Hn. rewrite map_app in Hn. apply list.NoDup_app in Hn as (_ & Hn & _).
    rewrite put_split; [|intros Hx; apply (Hn _ Hx); constructor | reflexivity].
    pose proof (po_counts _ _ Hok) as Hc. apply Forall_app in Hc as [_ Hc].
    apply Forall_cons_iff in Hc as [[_ Hpos] _]. cbn [set_refs pr_refs pred].
    rewrite (proj2 (Nat.eqb_neq _ _)) by lia. now destruct p.
  - destruct built; cbn [negb].
    + unfold pool_publish. rewrite E. cbn. now rewrite Nat.eqb_refl.
    + split; [reflexivity|]. split; [reflexivity | now apply pool_find_get_none].
Qed.

Lemma pool_get_put_roundtrip_witness :
  axi_mmio_pool_get 7 true 0x8000 0x4000 (racing 1) = (Some 1%nat, racing 2) /\
  axi_mmio_pool_put 1 (racing 2) = racing 1.
Proof.
  split; [reflexivity|].
  apply (pool_get_put_roundtrip 7 true 0x8000 0x4000 [(1%nat, ap0)] (racing 1)).
  - split; cbn.
    + repeat constructor; apply not_elem_of_nil.
    + repeat constructor; apply not_elem_of_nil.
    + repeat constructor.
    + repeat constructor. eexists. now split; [constructor|].
  - cbn. intros H. apply list_elem_of_In in H as [H|[]]. discriminate H.
Defined.
