(* ===== verification/QemuSocket.v ===== *)
(** * The QEMU socket fabric

    [src/fabrics/qemu_socket.c]: a stream socket to QEMU carries register accesses in
    one direction and DMA and interrupt requests in the other, as 24-byte headers with
    an optional payload. The other end is a [Peer]: a machine that consumes the bytes
    written to the socket and produces bytes to be read from it. Reads and writes of
    the socket may be interrupted or cut short. *)

From S2P Require Import Prelude Endian Fabric QueueService Posix.

#[local] Open Scope Z_scope.
#[local] Open Scope c_scope.

Definition AXI_MSG_MMIO_READ : Z := 3.
Definition AXI_MSG_MMIO_READ_REPLY : Z := 4.
Definition AXI_MSG_MMIO_WRITE : Z := 5.
Definition AXI_MSG_IRQ_ASSERT : Z := 6.
Definition AXI_MSG_IRQ_DEASSERT : Z := 7.
Definition AXI_MSG_DMA_READ : Z := 8.
Definition AXI_MSG_DMA_READ_REPLY : Z := 9.
Definition AXI_MSG_DMA_WRITE : Z := 10.
Definition AXI_MSG_ERROR : Z := 0xffff.

Definition AXI_HEADER_LEN : nat := 24.

Record axi_header : Type := {
  ah_kind : Z;       (* uint16_t *)
  ah_flags : Z;      (* uint16_t *)
  ah_window_id : Z;  (* uint32_t *)
  ah_offset : Z;     (* uint64_t *)
  ah_length : Z;     (* uint32_t *)
}.

(** The peer: [feed p c] is its state after receiving [c] and the bytes it sends in
    response. A stream has no message boundaries: only the bytes received so far
    matter. A peer that ignores what it receives and has sent everything in advance
    is one, so every sequence of received bytes is covered. *)
Class Peer (P : Type) : Type := {
  feed : P -> list Z -> P * list Z;
  feed_nil p : feed p [] = (p, []);
  feed_app p a b :
    feed p (a ++ b) =
    ((feed (feed p a).1 b).1, (feed p a).2 ++ (feed (feed p a).1 b).2);
  feed_bytes p a : bytes (feed p a).2;
}.

(** The connection: the peer, the bytes it sent that are not yet read, and the
    outcomes of the system calls and of [malloc]. *)
Record sock (P : Type) : Type := {
  sk_peer : P;
  sk_in : list Z;
  sk_ev : list io_event;
  sk_alloc : list bool;
}.
Arguments sk_peer {P} _.
Arguments sk_in {P} _.
Arguments sk_ev {P} _.
Arguments sk_alloc {P} _.

Section socket.
Context {P : Type} `{Peer P}.

Definition sk_put (s : sock P) (c : list Z) (ev : list io_event) : sock P :=
  {| sk_peer := (feed (sk_peer s) c).1; sk_in := sk_in s ++ (feed (sk_peer s) c).2;
     sk_ev := ev; sk_alloc := sk_alloc s |}.

Definition sk_get (s : sock P) (n : nat) (ev : list io_event) : sock P :=
  {| sk_peer := sk_peer s; sk_in := drop n (sk_in s); sk_ev := ev; sk_alloc := sk_alloc s |}.

(** [write(fd, ..)] *)
Definition sk_write (pos : nat) (data : list Z) : M (sock P) (sysret nat) := fun s =>
  match io_step (sk_ev s) (length data) with
  | (SysOk n, ev) => Done (SysOk n, sk_put s (take n data) ev)
  | (SysIntr, ev) => Done (SysIntr, sk_put s [] ev)
  | (SysFail, ev) => Done (SysFail, sk_put s [] ev)
  end.

(** [read(fd, ..)]: no byte to come is the end of the stream. *)
Definition sk_read (pos len : nat) : M (sock P) (sysret (list Z)) := fun s =>
  match io_step (sk_ev s) (Nat.min len (length (sk_in s))) with
  | (SysOk n, ev) => Done (SysOk (take n (sk_in s)), sk_get s n ev)
  | (SysIntr, ev) => Done (SysIntr, sk_get s 0 ev)
  | (SysFail, ev) => Done (SysFail, sk_get s 0 ev)
  end.

(** [io_all] with [write_op] true, then with [write_op] false: the flag and the bytes
    stored in the buffer. *)
Definition io_all_write (buf : list Z) : M (sock P) bool := fun s =>
  write_loop (loop_fuel (sk_ev s)) sk_write 0 buf s.

Definition io_all_read (len : nat) : M (sock P) (bool * list Z) := fun s =>
  read_loop (loop_fuel (sk_ev s)) sk_read 0 len s.

Definition decode_header (buf : list Z) : axi_header :=
  {| ah_kind := virtio_load_le16 buf; ah_flags := virtio_load_le16 (drop 2 buf);
     ah_window_id := virtio_load_le32 (drop 4 buf);
     ah_offset := virtio_load_le64 (drop 8 buf);
     ah_length := virtio_load_le32 (drop 16 buf) |}.

Definition encode_header (h : axi_header) : list Z :=
  virtio_store_le16 (ah_kind h) ++ virtio_store_le16 (ah_flags h)
  ++ virtio_store_le32 (ah_window_id h) ++ virtio_store_le64 (ah_offset h)
  ++ virtio_store_le32 (ah_length h) ++ [0; 0; 0; 0].

Definition read_header : M (sock P) (option axi_header) :=
  r ← io_all_read AXI_HEADER_LEN;
  if negb (fst r) then ret None else ret (Some (decode_header (snd r))).

Definition write_header (h : axi_header) : M (sock P) bool :=
  io_all_write (encode_header h).

Definition write_read_reply (request : axi_header) (value : Z) : M (sock P) bool :=
  let len := if ah_length request <? 8 then ah_length request else 8 in
  check write_header {| ah_kind := AXI_MSG_MMIO_READ_REPLY; ah_flags := ah_flags request;
                        ah_window_id := ah_window_id request;
                        ah_offset := ah_offset request; ah_length := len |};
  io_all_write (take (Z.to_nat len) (virtio_store_le64 value)).

(** The bytes not received stay zero. *)
Definition read_value (len : Z) : M (sock P) (option Z) :=
  if 8 <? len then ret None else
  r ← io_all_read (Z.to_nat len);
  if negb (fst r) then ret None else
  ret (Some (virtio_load_le64 (snd r ++ replicate (8 - Z.to_nat len) 0))).

(** A header with only a kind, an offset and a length. *)
Definition message (kind offset length : Z) : axi_header :=
  {| ah_kind := kind; ah_flags := 0; ah_window_id := 0; ah_offset := offset;
     ah_length := length |}.

(** ** DMA and interrupts *)

Definition sk_malloc : M (sock P) bool := fun s =>
  match sk_alloc s with
  | [] => Done (true, s)
  | ok :: l => Done (ok, {| sk_peer := sk_peer s; sk_in := sk_in s; sk_ev := sk_ev s;
                            sk_alloc := l |})
  end.

Definition qemu_dma_read_into (gpa len : Z) : M (sock P) (option (list Z)) :=
  check write_header (message AXI_MSG_DMA_READ gpa len);
  reply ←? read_header;
  if negb (ah_kind reply =? AXI_MSG_DMA_READ_REPLY) || negb (ah_length reply =? len)
  then ret None else
  if len =? 0 then ret (Some []) else
  r ← io_all_read (Z.to_nat len);
  if negb (fst r) then ret None else ret (Some (snd r)).

Definition qemu_dma_read (gpa len : Z) : M (sock P) (option (list Z)) :=
  ok ← (if len =? 0 then ret true else sk_malloc);
  if negb ok then ret None else qemu_dma_read_into gpa len.

Definition qemu_dma_map (gpa len : Z) : M (sock P) (option dma_ptr) := ret None.

Definition qemu_dma_read_u16 (gpa : Z) : M (sock P) (option Z) :=
  data ←? qemu_dma_read_into gpa 2;
  ret (Some (virtio_load_le16 data)).

Definition qemu_dma_write (gpa : Z) (data : list Z) : M (sock P) bool :=
  check write_header (message AXI_MSG_DMA_WRITE gpa (zlen data));
  check (if zlen data =? 0 then ret true else io_all_write data);
  reply ←? read_header;
  ret (ah_kind reply =? AXI_MSG_ERROR).

Definition qemu_lower_irq : M (sock P) bool :=
  write_header (message AXI_MSG_IRQ_DEASSERT 0 0).

Definition qemu_raise_irq : M (sock P) bool :=
  check qemu_lower_irq; write_header (message AXI_MSG_IRQ_ASSERT 0 0).

#[global] Instance qemu_fabric : Fabric (sock P) := {|
  fabric_dma_read := qemu_dma_read;
  fabric_dma_read_into := qemu_dma_read_into;
  fabric_dma_map := qemu_dma_map;
  fabric_ptr_store := fun _ _ => undefined;
  fabric_dma_read_u16 := qemu_dma_read_u16;
  fabric_dma_write := qemu_dma_write;
  fabric_raise_irq := qemu_raise_irq;
  fabric_lower_irq := qemu_lower_irq;
  fabric_usleep := fun _ => ret tt;
|}.
End socket.

(** ** Serving register accesses *)

Section serve.
Context {P : Type} `{Peer P} {D : Type} (dev : fabric_device (sock P) D).

Definition access_in_range (h : axi_header) : bool :=
  (ah_window_id h =? 0) && (ah_length h <=? 8) && (fd_addr dev <=? ah_offset h)
  && (ah_offset h <=? u64 (fd_addr dev + fd_size dev))
  && (ah_length h <=? u64 (u64 (fd_addr dev + fd_size dev) - ah_offset h)).

Definition device_offset (bus_addr : Z) : Z := u64 (bus_addr - fd_addr dev).

Definition connect_hook : M (sock P * D) unit := fun s =>
  match fd_ops dev with
  | Some ops => match op_connect ops with
                | Some connect => Done (tt, (fst s, connect (snd s)))
                | None => Done (tt, s)
                end
  | None => UB
  end.

Definition call_read (off len : Z) : M (sock P * D) Z := fun s =>
  match fd_ops dev with
  | Some ops => match op_read ops with
                | Some read => Done (read (snd s) off len, s)
                | None => UB
                end
  | None => UB
  end.

Definition call_write (off value len : Z) : M (sock P * D) bool := fun s =>
  match fd_ops dev with
  | Some ops => match op_write ops with
                | Some write => write off value len s
                | None => UB
                end
  | None => UB
  end.

(** One message; [false] ends the connection. *)
Definition serve_message : M (sock P * D) bool :=
  h ←? liftF read_header;
  if negb (access_in_range h) then ret false
  else if ah_kind h =? AXI_MSG_MMIO_READ then
    value ← call_read (device_offset (ah_offset h)) (ah_length h);
    liftF (write_read_reply h value)
  else if ah_kind h =? AXI_MSG_MMIO_WRITE then
    value ←? liftF (read_value (ah_length h));
    check call_write (device_offset (ah_offset h)) value (ah_length h);
    liftF (write_header (message AXI_MSG_ERROR 0 0))
  else ret false.

(** [fuel] bounds the number of messages. *)
Fixpoint serve_loop (fuel : nat) : M (sock P * D) bool :=
  match fuel with
  | O => out_of_fuel
  | S fuel =>
      ok ← serve_message;
      if negb ok then ret false else serve_loop fuel
  end.

Definition serve_connection (fuel : nat) : M (sock P * D) bool :=
  connect_hook;; serve_loop fuel.
End serve.

(** ** The loops compute the reference *)

Section transfer.
Context {P : Type} `{Peer P}.
Implicit Types s : sock P.

Lemma sk_put_put s c ev c' ev' : sk_put (sk_put s c ev) c' ev' = sk_put s (c ++ c') ev'.
Proof. unfold sk_put. cbn. rewrite feed_app. cbn. now rewrite <- app_assoc. Qed.

Lemma sk_put_nil s ev :
  sk_put s [] ev = {| sk_peer := sk_peer s; sk_in := sk_in s; sk_ev := ev; sk_alloc := sk_alloc s |}.
Proof. unfold sk_put. rewrite feed_nil. cbn. now rewrite app_nil_r. Qed.

Lemma io_all_write_eq buf s :
  io_all_write buf s =
  let '(b, w, ev) := wdrain (sk_ev s) buf in Done (b, sk_put s (take w buf) ev).
Proof.
  unfold io_all_write.
  rewrite (write_loop_wdrain sk_write sk_ev (fun s _ d ev => sk_put s d ev)); try reflexivity.
  - intros s0 pos c ev c' ev'. apply sk_put_put.
  - intros s0 pos. rewrite sk_put_nil. now destruct s0.
Qed.

Lemma io_all_read_eq len s :
  io_all_read len s =
  let '(b, c, ev) := drain (sk_ev s) len (sk_in s) in
  Done ((b, c), sk_get s (length c) ev).
Proof.
  unfold io_all_read.
  rewrite (read_loop_drain sk_read sk_ev (fun s _ => sk_in s) sk_get); try reflexivity.
  - intros s0 n ev n' ev'. unfold sk_get. cbn. now rewrite drop_drop.
  - intros []. unfold sk_get. cbn. now rewrite drop_0.
Qed.

Lemma io_all_write_benign buf s : Forall benign (sk_ev s) ->
  exists ev, io_all_write buf s = Done (true, sk_put s buf ev) /\ Forall benign ev.
Proof.
  intros Hb. rewrite io_all_write_eq.
  destruct (wdrain_benign (sk_ev s) buf Hb) as (ev & -> & Hev). exists ev.
  now rewrite take_ge by lia.
Qed.

Lemma io_all_read_benign len s :
  Forall benign (sk_ev s) -> (len <= length (sk_in s))%nat ->
  exists ev, io_all_read len s = Done ((true, take len (sk_in s)), sk_get s len ev) /\
    Forall benign ev.
Proof.
  intros Hb Hl. rewrite io_all_read_eq.
  destruct (drain_benign (sk_ev s) len (sk_in s) Hb Hl) as (ev & -> & Hev). exists ev.
  rewrite length_take, Nat.min_l by lia. now split.
Qed.
End transfer.

(** ** The message format *)

Record header_wf (h : axi_header) : Prop := {
  hw_kind : in_width 16 (ah_kind h);
  hw_flags : in_width 16 (ah_flags h);
  hw_window : in_width 32 (ah_window_id h);
  hw_offset : in_width 64 (ah_offset h);
  hw_length : in_width 32 (ah_length h);
}.

Lemma length_encode_header h : length (encode_header h) = AXI_HEADER_LEN.
Proof. reflexivity. Qed.

Lemma bytes_encode_header h : bytes (encode_header h).
Proof.
  unfold encode_header. rewrite !bytes_app.
  repeat split; try apply bytes_store_le16; try apply bytes_store_le32;
    try apply bytes_store_le64.
  repeat constructor; lia.
Qed.

Lemma decode_encode_header h rest : header_wf h -> decode_header (encode_header h ++ rest) = h.
Proof.
  destruct h as [k f w o l]. intros [Hk Hf Hw Ho Hl]. cbn in Hk, Hf, Hw, Ho, Hl.
  set (r5 := [0; 0; 0; 0] ++ rest). set (r4 := virtio_store_le32 l ++ r5).
  set (r3 := virtio_store_le64 o ++ r4). set (r2 := virtio_store_le32 w ++ r3).
  set (r1 := virtio_store_le16 f ++ r2).
  transitivity {| ah_kind := virtio_load_le16 (virtio_store_le16 k ++ r1);
    ah_flags := virtio_load_le16 r1; ah_window_id := virtio_load_le32 r2;
    ah_offset := virtio_load_le64 r3; ah_length := virtio_load_le32 r4 |}; [reflexivity|].
  unfold r1, r2, r3, r4.
  rewrite !load_store_le16, !load_store_le32, load_store_le64.
  now rewrite !u16_small, !u32_small, u64_small by assumption.
Qed.

Lemma decode_header_wf buf :
  bytes buf -> length buf = AXI_HEADER_LEN -> header_wf (decode_header buf).
Proof.
  intros Hb Hl. unfold AXI_HEADER_LEN in Hl.
  split; cbn; [apply load_le16_range | apply load_le16_range | apply load_le32_range
              | apply load_le64_range | apply load_le32_range];
    try (now apply Forall_drop); try assumption; rewrite ?length_drop; lia.
Qed.

(** ** Any peer: the fabric is safe *)

Section safe.
Context {P : Type} `{Peer P}.
Implicit Types s : sock P.

Definition sock_ok (s : sock P) : Prop := bytes (sk_in s).

Lemma sk_put_ok s c ev : sock_ok s -> sock_ok (sk_put s c ev).
Proof. intros Hs. apply bytes_app. split; [assumption | apply feed_bytes]. Qed.

Lemma write_safe buf s : sock_ok s -> wp (io_all_write buf) s (fun _ s' => sock_ok s').
Proof.
  intros Hs. unfold wpx. rewrite io_all_write_eq. destruct (wdrain _ _) as [[b w] ev].
  now apply sk_put_ok.
Qed.

Lemma read_safe len s : sock_ok s ->
  wp (io_all_read len) s (fun r s' => sock_ok s' /\
    bytes (snd r) /\ (fst r = true -> length (snd r) = len)).
Proof.
  intros Hs. unfold wpx. rewrite io_all_read_eq.
  destruct (drain _ _ _) as [[b c] ev] eqn:E. apply drain_prefix in E as (Ec & _ & Hb).
  cbn. split; [now apply Forall_drop|]. split; [rewrite Ec; now apply Forall_take|].
  intros ->. destruct (Hb eq_refl) as [-> Hl]. rewrite length_take. lia.
Qed.

Lemma read_header_safe s : sock_ok s ->
  wp read_header s (fun r s' => sock_ok s' /\ forall h, r = Some h -> header_wf h).
Proof.
  intros Hs. unfold read_header. rewrite wpx_bind. wpuse read_safe; [assumption|].
  intros [[] buf] s1 (Hs1 & Hb & Hl); cbn [fst snd negb] in *; rewrite wpx_ret;
    (split; [assumption|]); [|easy].
  intros h [= <-]. apply decode_header_wf; auto.
Qed.

Lemma read_into_safe s gpa len : sock_ok s -> in_width 32 len ->
  wp (qemu_dma_read_into gpa len) s (fun r s' => sock_ok s' /\
    forall l, r = Some l -> bytes l /\ zlen l = len).
Proof.
  intros Hs Hl. unfold qemu_dma_read_into. rewrite wpx_check.
  wpuse write_safe; [assumption|]. intros [] s1 Hs1; [|easy].
  rewrite wpx_try. wpuse read_header_safe; [assumption|].
  intros [h|] s2 [Hs2 _]; [|easy]. destruct (_ || _); [easy|].
  destruct (len =? 0) eqn:E0.
  { rewrite wpx_ret. split; [assumption|]. intros l [= <-].
    split; [constructor | unfold zlen; cbn; lia]. }
  rewrite wpx_bind. wpuse read_safe; [assumption|].
  intros [[] c] s3 (Hs3 & Hb & Hlen); cbn [fst snd negb] in *; rewrite wpx_ret;
    (split; [assumption|]); [|easy].
  intros l [= <-]. split; [assumption|]. unfold zlen. rewrite Hlen by reflexivity.
  unfold in_width in Hl. lia.
Qed.

#[global, program] Instance qemu_safe : FabricSafe (sock P) := {|
  fab_ok := sock_ok;
  ptr_ok := fun _ _ _ => False;
|}.
Next Obligation.
  intros s gpa len Hs _ Hl. cbn. unfold qemu_dma_read. rewrite wpx_bind.
  destruct (len =? 0); [rewrite wpx_ret; now apply read_into_safe|].
  unfold sk_malloc. unfold wpx at 1. destruct (sk_alloc s) as [|[] l]; cbn [negb];
    [now apply read_into_safe | now apply read_into_safe | now rewrite wpx_ret].
Qed.
Next Obligation. intros s gpa len Hs _ Hl. now apply read_into_safe. Qed.
Next Obligation.
  intros s gpa Hs Hg. cbn. unfold qemu_dma_read_u16. rewrite wpx_try.
  wpuse read_into_safe; [assumption | unfold in_width; lia|].
  intros [l|] s1 [Hs1 Hr]; [|easy]. rewrite wpx_ret. split; [assumption|].
  intros v [= <-]. destruct (Hr l eq_refl) as [Hb Hz].
  apply load_le16_range; [assumption | unfold zlen in Hz; lia].
Qed.
Next Obligation. intros s gpa len Hs _ _. cbn. easy. Qed.
Next Obligation. intros s p len data _ []. Qed.
Next Obligation.
  intros s gpa data Hs _ _ _. cbn. unfold qemu_dma_write. rewrite wpx_check.
  wpuse write_safe; [assumption|]. intros [] s1 Hs1; [|easy]. rewrite wpx_check.
  eapply wpx_mono with (Q := fun _ s' => sock_ok s').
  { destruct (_ =? 0); [now rewrite wpx_ret | now apply write_safe]. }
  intros [] s2 Hs2; [|easy]. rewrite wpx_try. wpuse read_header_safe; [assumption|].
  intros [h|] s3 [Hs3 _]; [|easy]. now rewrite wpx_ret.
Qed.
Next Obligation.
  intros s Hs. cbn. unfold qemu_raise_irq. rewrite wpx_check.
  wpuse write_safe; [assumption|]. intros [] s1 Hs1; [|easy]. now apply write_safe.
Qed.
Next Obligation. intros s Hs. now apply write_safe. Qed.
Next Obligation. intros s us Hs. cbn. easy. Qed.
End safe.
