(* ===== verification/QemuPeer.v ===== *)
(** * QEMU at the other end of the socket

    The socket mode of the QEMU device ([patches/qemu/0001-chiplets-qemu-support.patch],
    functions [axi_read], [axi_write] and [axi_service_backend]): register accesses of
    the guest are sent one after the other; a read waits for its reply, a write serves
    DMA and interrupt requests until it is acknowledged. A failed access to guest memory
    or an unexpected message closes the connection. With this peer the socket fabric is
    a byte memory, and a connection serves a guest program access by access. *)

From S2P Require Import Prelude Endian Fabric QueueService Posix QemuSocket.

#[local] Open Scope Z_scope.
#[local] Open Scope c_scope.

(** A register access of the guest. *)
Inductive access : Type :=
| GuestRead (off size : Z)
| GuestWrite (off size value : Z).

Inductive qemu_wait : Type :=
| QIdle      (* no access in progress *)
| QReply     (* axi_read: waiting for the reply *)
| QService   (* axi_write: in axi_service_backend *)
| QClosed.

(** [qm_pending]: bytes received and not consumed; [qm_script]: the accesses the guest
    will make; [qm_log]: the values its reads returned. *)
Record qemu : Type := {
  qm_mem : mem;
  qm_irq : bool;
  qm_wait : qemu_wait;
  qm_pending : list Z;
  qm_script : list access;
  qm_log : list Z;
}.

Definition qm_with (m : mem) (irq : bool) (w : qemu_wait) (pending : list Z) (q : qemu)
  : qemu :=
  {| qm_mem := m; qm_irq := irq; qm_wait := w; qm_pending := pending;
     qm_script := qm_script q; qm_log := qm_log q |}.

Definition receive (b : list Z) (q : qemu) : qemu :=
  qm_with (qm_mem q) (qm_irq q) (qm_wait q) (qm_pending q ++ b) q.

Definition close_peer (n : nat) (q : qemu) : qemu :=
  qm_with (qm_mem q) (qm_irq q) QClosed (drop n (qm_pending q)) q.

(** The bytes of a request. *)
Definition request_bytes (a : access) : list Z :=
  match a with
  | GuestRead off size => encode_header (message AXI_MSG_MMIO_READ off size)
  | GuestWrite off size value =>
      encode_header (message AXI_MSG_MMIO_WRITE off size)
      ++ take (Z.to_nat size) (virtio_store_le64 value)
  end.

Definition wait_for (a : access) : qemu_wait :=
  match a with GuestRead _ _ => QReply | GuestWrite _ _ _ => QService end.

(** The access in progress is done: the guest makes its next one. *)
Definition next_access (n : nat) (log : list Z) (q : qemu) : qemu * list Z :=
  let go w script :=
    {| qm_mem := qm_mem q; qm_irq := qm_irq q; qm_wait := w;
       qm_pending := drop n (qm_pending q); qm_script := script; qm_log := log |} in
  match qm_script q with
  | [] => (go QIdle [], [])
  | a :: script => (go (wait_for a) script, request_bytes a)
  end.

Definition HLEN : nat := AXI_HEADER_LEN.

(** One message, once it is complete; the bytes sent in response. *)
Definition qemu_step (q : qemu) : option (qemu * list Z) :=
  if (length (qm_pending q) <? HLEN)%nat then None else
  let h := decode_header (take HLEN (qm_pending q)) in
  let len := Z.to_nat (ah_length h) in
  let payload := take len (drop HLEN (qm_pending q)) in
  let consumed n m irq := qm_with m irq QService (drop n (qm_pending q)) q in
  match qm_wait q with
  | QIdle | QClosed => None
  | QReply =>
      if negb (ah_kind h =? AXI_MSG_MMIO_READ_REPLY) || (8 <? ah_length h)
      then Some (close_peer HLEN q, [])
      else if (length (qm_pending q) <? HLEN + len)%nat then None
      else Some (next_access (HLEN + len)
             (qm_log q ++ [virtio_load_le64 (payload ++ replicate (8 - len) 0)]) q)
  | QService =>
      if ah_kind h =? AXI_MSG_ERROR then Some (next_access HLEN (qm_log q) q)
      else if ah_kind h =? AXI_MSG_IRQ_ASSERT then Some (consumed HLEN (qm_mem q) true, [])
      else if ah_kind h =? AXI_MSG_IRQ_DEASSERT then Some (consumed HLEN (qm_mem q) false, [])
      else if ah_kind h =? AXI_MSG_DMA_READ then
        match load_range (qm_mem q) (ah_offset h) len with
        | None => Some (close_peer HLEN q, [])
        | Some data =>
            Some (consumed HLEN (qm_mem q) (qm_irq q),
                  encode_header (message AXI_MSG_DMA_READ_REPLY (ah_offset h) (ah_length h))
                  ++ map u8 data)
        end
      else if ah_kind h =? AXI_MSG_DMA_WRITE then
        if (length (qm_pending q) <? HLEN + len)%nat then None else
        match load_range (qm_mem q) (ah_offset h) len with
        | None => Some (close_peer (HLEN + len) q, [])
        | Some _ =>
            Some (consumed (HLEN + len)%nat
                    (mem_write (qm_mem q) (ah_offset h) payload) (qm_irq q),
                  encode_header (message AXI_MSG_ERROR 0 0))
        end
      else Some (close_peer HLEN q, [])
  end.

Fixpoint qemu_run (fuel : nat) (q : qemu) : qemu * list Z :=
  match fuel with
  | O => (q, [])
  | S fuel =>
      match qemu_step q with
      | None => (q, [])
      | Some (q', out) => let '(q2, out2) := qemu_run fuel q' in (q2, out ++ out2)
      end
  end.

(** Every message has at least a header, so there are fewer messages than bytes. *)
Definition qemu_settle (q : qemu) : qemu * list Z := qemu_run (length (qm_pending q)) q.

Definition qemu_feed (q : qemu) (c : list Z) : qemu * list Z :=
  match c with [] => (q, []) | _ :: _ => qemu_settle (receive c q) end.

(** ** Processing is independent of how the stream is cut *)

Section stream.
Implicit Types q : qemu.

Lemma take_app_le' (n : nat) (a b : list Z) : (n <= length a)%nat -> take n (a ++ b) = take n a.
Proof. intros. now apply take_app_le. Qed.

Lemma payload_app (n m : nat) (a b : list Z) : (n + m <= length a)%nat ->
  take m (drop n (a ++ b)) = take m (drop n a).
Proof.
  intros Hl. rewrite drop_app_le by lia. apply take_app_le'. rewrite length_drop. lia.
Qed.

Lemma next_access_app n log q b : (n <= length (qm_pending q))%nat ->
  next_access n log (receive b q) =
    (receive b (next_access n log q).1, (next_access n log q).2).
Proof.
  intros Hl. unfold next_access. cbn. rewrite drop_app_le by assumption.
  destruct (qm_script q); reflexivity.
Qed.

Lemma close_peer_app n q b : (n <= length (qm_pending q))%nat ->
  close_peer n (receive b q) = receive b (close_peer n q).
Proof. intros. unfold close_peer, receive. cbn. now rewrite drop_app_le by assumption. Qed.

(** A complete message is processed the same whatever follows it. *)
Lemma qemu_step_app q b q' out :
  qemu_step q = Some (q', out) -> qemu_step (receive b q) = Some (receive b q', out).
Proof.
  unfold qemu_step. cbn [receive qm_with qm_pending qm_wait qm_mem qm_irq qm_log].
  rewrite length_app. destruct (Nat.ltb_spec (length (qm_pending q)) HLEN) as [|Hlen]; [easy|].
  rewrite (proj2 (Nat.ltb_ge (_ + length b) HLEN)) by lia. rewrite take_app_le' by assumption.
  set (h := decode_header _). set (len := Z.to_nat _).
  assert (forall m i, qm_with m i QService (drop HLEN (qm_pending q ++ b)) (receive b q)
    = receive b (qm_with m i QService (drop HLEN (qm_pending q)) q)) as Hc.
  { intros. unfold receive, qm_with. cbn. now rewrite drop_app_le by assumption. }
  destruct (qm_wait q); try easy.
  - destruct (_ || _); [intros [= <- <-]; f_equal; f_equal; now apply close_peer_app|].
    destruct (Nat.ltb_spec (length (qm_pending q)) (HLEN + len)) as [|Hl]; [easy|].
    rewrite (proj2 (Nat.ltb_ge _ (HLEN + len))), payload_app by lia. intros E%(inj Some).
    f_equal. rewrite next_access_app by assumption. now rewrite E.
  - destruct (_ =? AXI_MSG_ERROR).
    { intros E%(inj Some). f_equal. rewrite next_access_app by assumption. now rewrite E. }
    destruct (_ =? AXI_MSG_IRQ_ASSERT); [intros [= <- <-]; now rewrite <- Hc|].
    destruct (_ =? AXI_MSG_IRQ_DEASSERT); [intros [= <- <-]; now rewrite <- Hc|].
    destruct (_ =? AXI_MSG_DMA_READ).
    { destruct (load_range _ _ _); intros [= <- <-]; [now rewrite <- Hc|].
      do 2 f_equal. now apply close_peer_app. }
    destruct (_ =? AXI_MSG_DMA_WRITE).
    2:{ intros [= <- <-]. do 2 f_equal. now apply close_peer_app. }
    destruct (Nat.ltb_spec (length (qm_pending q)) (HLEN + len)) as [|Hl]; [easy|].
    rewrite (proj2 (Nat.ltb_ge _ (HLEN + len))), payload_app by lia.
    destruct (load_range _ _ _); intros [= <- <-]; do 2 f_equal; [|now apply close_peer_app].
    unfold receive, qm_with. cbn. now rewrite drop_app_le by assumption.
Qed.

Lemma qemu_step_shrinks q q' out :
  qemu_step q = Some (q', out) -> (length (qm_pending q') < length (qm_pending q))%nat.
Proof.
  unfold qemu_step. destruct (Nat.ltb_spec (length (qm_pending q)) HLEN) as [|Hlen]; [easy|].
  assert (forall n, (HLEN <= n)%nat ->
    (length (drop n (qm_pending q)) < length (qm_pending q))%nat) as Hd.
  { intros n Hn. rewrite length_drop. unfold HLEN, AXI_HEADER_LEN in *. lia. }
  set (h := decode_header _). set (len := Z.to_nat _).
  assert (forall n log q' out, (HLEN <= n)%nat -> next_access n log q = (q', out) ->
    (length (qm_pending q') < length (qm_pending q))%nat) as Hn.
  { intros n log q1 o Hle. unfold next_access. destruct (qm_script q);
      intros [= <- <-]; now apply Hd. }
  destruct (qm_wait q); try easy; repeat case_match; try easy; intros E%(inj Some);
    first [apply (inj2 pair) in E as [<- _]; apply Hd; lia | refine (Hn _ _ _ _ _ E); lia].
Qed.

Lemma qemu_run_enough n q : (length (qm_pending q) <= n)%nat -> qemu_run n q = qemu_settle q.
Proof.
  unfold qemu_settle. remember (length (qm_pending q)) as k eqn:Ek.
  revert n q Ek. induction (lt_wf k) as [k _ IH]. intros n q Ek Hn.
  assert (qemu_step q = None -> forall j, qemu_run j q = (q, [])) as Hstuck.
  { intros E [|j]; cbn; [reflexivity | now rewrite E]. }
  destruct (qemu_step q) as [[q' out]|] eqn:E; [|now rewrite !Hstuck].
  pose proof (qemu_step_shrinks _ _ _ E) as Hs.
  destruct n as [|n]; [lia|]. destruct k as [|k]; [lia|]. cbn. rewrite E.
  rewrite (IH (length (qm_pending q')) ltac:(lia) n), (IH (length (qm_pending q')) ltac:(lia) k);
    try lia; reflexivity.
Qed.

Lemma qemu_settle_eq q :
  qemu_settle q =
  match qemu_step q with
  | None => (q, [])
  | Some (q', out) => ((qemu_settle q').1, out ++ (qemu_settle q').2)
  end.
Proof.
  destruct (qemu_step q) as [[q' out]|] eqn:E.
  - pose proof (qemu_step_shrinks _ _ _ E). unfold qemu_settle at 1.
    destruct (length (qm_pending q)) as [|k] eqn:Ek; [lia|]. cbn. rewrite E.
    rewrite qemu_run_enough by lia. now destruct (qemu_settle q').
  - unfold qemu_settle. destruct (length (qm_pending q)); cbn; [reflexivity | now rewrite E].
Qed.

Lemma receive_receive a b q : receive b (receive a q) = receive (a ++ b) q.
Proof. unfold receive, qm_with. cbn. now rewrite app_assoc. Qed.

Lemma qemu_settle_app q b :
  qemu_settle (receive b q) =
  let r := qemu_settle (receive b (qemu_settle q).1) in (r.1, (qemu_settle q).2 ++ r.2).
Proof.
  remember (length (qm_pending q)) as k eqn:Ek. revert q Ek.
  induction (lt_wf k) as [k _ IH]. intros q Ek. rewrite (qemu_settle_eq q).
  destruct (qemu_step q) as [[q' out]|] eqn:E; [|cbv zeta; cbn [fst snd app]; apply surjective_pairing].
  rewrite qemu_settle_eq, (qemu_step_app _ _ _ _ E). pose proof (qemu_step_shrinks _ _ _ E).
  rewrite (IH (length (qm_pending q')) ltac:(lia) q' eq_refl). cbn [fst snd].
  now rewrite app_assoc.
Qed.
End stream.

Lemma map_u8_bytes l : bytes (map u8 l).
Proof. induction l; constructor; [apply u8_range | assumption]. Qed.

Lemma request_bytes_bytes a : bytes (request_bytes a).
Proof.
  destruct a; cbn [request_bytes]; [apply bytes_encode_header|].
  apply bytes_app. split; [apply bytes_encode_header | apply Forall_take, bytes_store_le64].
Qed.

Lemma qemu_step_bytes q q' out : qemu_step q = Some (q', out) -> bytes out.
Proof.
  assert (forall n log q' out, next_access n log q = (q', out) -> bytes out) as Hn.
  { intros n log q1 o. unfold next_access. destruct (qm_script q) as [|a l]; intros [= _ <-];
      [constructor | apply request_bytes_bytes]. }
  unfold qemu_step. destruct (_ <? HLEN)%nat; [easy|].
  destruct (qm_wait q); try easy; repeat case_match; try easy; intros E%(inj Some);
    first [exact (Hn _ _ _ _ E) | apply (inj2 pair) in E as [_ <-]];
    first [solve [constructor] | apply bytes_encode_header
          |apply bytes_app; split; [apply bytes_encode_header | apply map_u8_bytes]].
Qed.

Lemma qemu_settle_bytes q : bytes (qemu_settle q).2.
Proof.
  unfold qemu_settle. generalize (length (qm_pending q)). intros n. revert q.
  induction n as [|n IH]; intros q; cbn; [constructor|].
  destruct (qemu_step q) as [[q' out]|] eqn:E; [|constructor].
  specialize (IH q'). destruct (qemu_run n q'). apply bytes_app.
  split; [eapply qemu_step_bytes, E | exact IH].
Qed.

#[global, program] Instance qemu_peer : Peer qemu := {| feed := qemu_feed |}.
Next Obligation. reflexivity. Qed.
Next Obligation.
  intros q [|x a] b; [apply surjective_pairing|].
  destruct b as [|y b].
  { rewrite app_nil_r.
    change (qemu_feed q (x :: a) = ((qemu_feed q (x :: a)).1, (qemu_feed q (x :: a)).2 ++ [])).
    rewrite app_nil_r. apply surjective_pairing. }
  change (qemu_settle (receive ((x :: a) ++ y :: b) q) =
    (let r := qemu_settle (receive (y :: b) (qemu_settle (receive (x :: a) q)).1) in
     (r.1, (qemu_settle (receive (x :: a) q)).2 ++ r.2))).
  now rewrite <- qemu_settle_app, receive_receive.
Qed.
Next Obligation.
  intros q [|x a]; [constructor|]. apply qemu_settle_bytes.
Qed.

(** ** The socket fabric over QEMU is a byte memory *)

Section exchange.
Context (script : list access) (log : list Z).
Implicit Types (q : qemu) (s : sock qemu).

(** QEMU serves requests of a register write, the guest's remaining accesses are
    [script] and the values read so far are [log]. *)
Record serving q : Prop := {
  sv_wait : qm_wait q = QService;
  sv_pending : qm_pending q = [];
  sv_script : qm_script q = script;
  sv_log : qm_log q = log;
  sv_mem : forall a b, qm_mem q a = Some b -> is_byte b;
}.

Record qemu_quiet s : Prop := {
  qq_peer : serving (sk_peer s);
  qq_in : sk_in s = [];
  qq_ev : Forall benign (sk_ev s);
  qq_alloc : sk_alloc s = [];
}.

Lemma message_wf kind off len :
  in_width 16 kind -> in_width 64 off -> in_width 32 len -> header_wf (message kind off len).
Proof. intros. split; cbn; try assumption; unfold in_width; lia. Qed.

(** What a waiting QEMU does with one complete message. *)
Lemma feed_message q kind off len payload q' out :
  serving q -> in_width 16 kind -> in_width 64 off -> in_width 32 len ->
  qemu_step (receive (encode_header (message kind off len) ++ payload) q) = Some (q', out) ->
  qm_pending q' = [] ->
  qemu_feed q (encode_header (message kind off len) ++ payload) = (q', out).
Proof.
  intros Hq Hk Ho Hl E Hp.
  change (qemu_feed q (encode_header (message kind off len) ++ payload))
    with (qemu_settle (receive (encode_header (message kind off len) ++ payload) q)).
  rewrite qemu_settle_eq, E. rewrite qemu_settle_eq. unfold qemu_step.
  rewrite Hp. cbn. now rewrite app_nil_r.
Qed.

(** QEMU's view of a message it has received completely. *)
Lemma service_step q kind off len payload :
  serving q -> in_width 16 kind -> in_width 64 off -> in_width 32 len ->
  let q1 := receive (encode_header (message kind off len) ++ payload) q in
  let n := Z.to_nat len in
  qemu_step q1 =
  if kind =? AXI_MSG_ERROR then Some (next_access HLEN (qm_log q) q1)
  else if kind =? AXI_MSG_IRQ_ASSERT then
    Some (qm_with (qm_mem q) true QService payload q, [])
  else if kind =? AXI_MSG_IRQ_DEASSERT then
    Some (qm_with (qm_mem q) false QService payload q, [])
  else if kind =? AXI_MSG_DMA_READ then
    match load_range (qm_mem q) off n with
    | None => Some (close_peer HLEN q1, [])
    | Some data => Some (qm_with (qm_mem q) (qm_irq q) QService payload q,
        encode_header (message AXI_MSG_DMA_READ_REPLY off len) ++ map u8 data)
    end
  else if kind =? AXI_MSG_DMA_WRITE then
    if (length payload <? n)%nat then None else
    match load_range (qm_mem q) off n with
    | None => Some (close_peer (HLEN + n) q1, [])
    | Some _ => Some (qm_with (mem_write (qm_mem q) off (take n payload)) (qm_irq q) QService
                        (drop n payload) q, encode_header (message AXI_MSG_ERROR 0 0))
    end
  else Some (close_peer HLEN q1, []).
Proof.
  intros Hq Hk Ho Hl q1 n.
  assert (qm_pending q1 = encode_header (message kind off len) ++ payload) as Ep.
  { unfold q1, receive, qm_with. cbn [qm_pending]. now rewrite (sv_pending _ Hq). }
  assert (take HLEN (qm_pending q1) = encode_header (message kind off len)) as Et
    by (rewrite Ep; now apply take_app_length').
  assert (drop HLEN (qm_pending q1) = payload) as Ed
    by (rewrite Ep; now apply drop_app_length').
  assert (length (qm_pending q1) = (HLEN + length payload)%nat) as El
    by (rewrite Ep, length_app; reflexivity).
  assert (decode_header (encode_header (message kind off len)) = message kind off len) as Eh.
  { rewrite <- (app_nil_r (encode_header _)). apply decode_encode_header.
    now apply message_wf. }
  unfold qemu_step. rewrite El, Et, Ed, Eh.
  rewrite (proj2 (Nat.ltb_ge _ HLEN)) by lia.
  change (qm_wait q1) with (qm_wait q). rewrite (sv_wait _ Hq).
  cbn [message ah_kind ah_offset ah_length]. fold n.
  change (qm_mem q1) with (qm_mem q). change (qm_irq q1) with (qm_irq q).
  change (qm_log q1) with (qm_log q).
  rewrite <- drop_drop, Ed.
  replace (HLEN + length payload <? HLEN + n)%nat with (length payload <? n)%nat; [reflexivity|].
  destruct (Nat.ltb_spec (length payload) n), (Nat.ltb_spec (HLEN + length payload) (HLEN + n));
    (reflexivity || lia).
Qed.

(** *** The daemon's side of an exchange *)

Definition link q (l : list Z) (ev : list io_event) : sock qemu :=
  {| sk_peer := q; sk_in := l; sk_ev := ev; sk_alloc := [] |}.

Lemma quiet_link s : qemu_quiet s -> exists q ev,
  s = link q [] ev /\ serving q /\ Forall benign ev.
Proof. destruct s as [q l ev al]. intros [Hq Hi He Ha]. cbn in *. subst. eauto. Qed.

Lemma link_quiet q ev : serving q -> Forall benign ev -> qemu_quiet (link q [] ev).
Proof. now split. Qed.

Lemma wp_send q l ev c q' out (Q : bool -> sock qemu -> Prop) :
  Forall benign ev -> qemu_feed q c = (q', out) ->
  (forall ev', Forall benign ev' -> Q true (link q' (l ++ out) ev')) ->
  wp (io_all_write c) (link q l ev) Q.
Proof.
  intros Hb E HQ. destruct (io_all_write_benign c (link q l ev) Hb) as (ev' & Ew & Hb').
  rewrite (wpx_done _ _ _ _ _ _ Ew).
  replace (sk_put (link q l ev) c ev') with (link q' (l ++ out) ev'); [now apply HQ|].
  unfold sk_put, link. cbn. now rewrite E.
Qed.

Lemma wp_recv q data rest ev (Q : bool * list Z -> sock qemu -> Prop) :
  Forall benign ev ->
  (forall ev', Forall benign ev' -> Q (true, data) (link q rest ev')) ->
  wp (io_all_read (length data)) (link q (data ++ rest) ev) Q.
Proof.
  intros Hb HQ. destruct (io_all_read_benign (length data) (link q (data ++ rest) ev) Hb)
    as (ev' & Er & Hb').
  { cbn. rewrite length_app. lia. }
  rewrite (wpx_done _ _ _ _ _ _ Er). cbn [sk_in link]. rewrite take_app_length.
  replace (sk_get _ _ _) with (link q rest ev'); [now apply HQ|].
  unfold sk_get, link. cbn. now rewrite drop_app_length.
Qed.

Lemma wp_recv_header q h rest ev (Q : option axi_header -> sock qemu -> Prop) :
  Forall benign ev -> header_wf h ->
  (forall ev', Forall benign ev' -> Q (Some h) (link q rest ev')) ->
  wp read_header (link q (encode_header h ++ rest) ev) Q.
Proof.
  intros Hb Hh HQ. unfold read_header. rewrite wpx_bind.
  change AXI_HEADER_LEN with (length (encode_header h)).
  apply wp_recv; [assumption|]. intros ev' Hb'. cbn [fst snd negb]. rewrite wpx_ret.
  rewrite <- (app_nil_r (encode_header h)), decode_encode_header by assumption. now apply HQ.
Qed.

Lemma map_u8_id m a data :
  (forall x b, m x = Some b -> is_byte b) -> mem_at m a data -> map u8 data = data.
Proof.
  intros Hm Hat. rewrite <- (map_id data) at 2. apply map_ext_in. intros x Hx.
  apply list_elem_of_In, list_elem_of_lookup in Hx as [i Hi].
  pose proof (Hm _ _ (Hat _ _ Hi)) as [? ?]. unfold u8. apply Z.mod_small. lia.
Qed.

Lemma read_into_quiet q ev gpa data :
  serving q -> Forall benign ev -> in_width 64 gpa -> in_width 32 (zlen data) ->
  mem_at (qm_mem q) gpa data ->
  wp (qemu_dma_read_into gpa (zlen data)) (link q [] ev) (fun r s' =>
    r = Some data /\ exists ev', s' = link q [] ev' /\ Forall benign ev').
Proof.
  intros Hq Hb Hg Hl Hat. unfold qemu_dma_read_into, write_header. rewrite wpx_check.
  set (reply := message AXI_MSG_DMA_READ_REPLY gpa (zlen data)).
  apply (wp_send _ _ _ _ q (encode_header reply ++ data)); [assumption | |].
  { rewrite <- (app_nil_r (encode_header _)) at 1.
    replace q with (qm_with (qm_mem q) (qm_irq q) QService [] q) at 2.
    2:{ destruct q, Hq; cbn in *; subst; reflexivity. }
    apply feed_message; try assumption; [unfold in_width, AXI_MSG_DMA_READ; lia | | reflexivity].
    rewrite service_step; try assumption; [|unfold in_width, AXI_MSG_DMA_READ; lia].
    cbn [Z.eqb AXI_MSG_DMA_READ AXI_MSG_ERROR AXI_MSG_IRQ_ASSERT AXI_MSG_IRQ_DEASSERT Pos.eqb].
    unfold zlen at 1. rewrite Nat2Z.id, load_range_at by assumption.
    now rewrite (map_u8_id (qm_mem q) gpa) by (apply Hq || assumption). }
  intros ev1 Hb1. cbn [app]. rewrite wpx_try.
  apply wp_recv_header; [assumption|apply message_wf; try assumption;
    unfold in_width, AXI_MSG_DMA_READ_REPLY; lia|].
  intros ev2 Hb2. cbn [reply message ah_kind ah_length].
  rewrite !Z.eqb_refl. cbn [negb orb]. destruct (zlen data =? 0) eqn:E0.
  { rewrite wpx_ret. destruct data; [|discriminate E0]. eauto. }
  rewrite wpx_bind. unfold zlen. rewrite Nat2Z.id.
  rewrite <- (app_nil_r data) at 2. apply wp_recv; [assumption|]. intros ev3 Hb3.
  cbn [fst snd negb]. rewrite wpx_ret. eauto.
Qed.

Lemma send_irq kind b q ev (Q : bool -> sock qemu -> Prop) :
  serving q -> Forall benign ev ->
  (kind = AXI_MSG_IRQ_ASSERT /\ b = true) \/ (kind = AXI_MSG_IRQ_DEASSERT /\ b = false) ->
  (forall ev', Forall benign ev' -> serving (qm_with (qm_mem q) b QService [] q) ->
     Q true (link (qm_with (qm_mem q) b QService [] q) [] ev')) ->
  wp (write_header (message kind 0 0)) (link q [] ev) Q.
Proof.
  intros Hq Hb Hk HQ. assert (in_width 16 kind) as Hk16
    by (unfold in_width, AXI_MSG_IRQ_ASSERT, AXI_MSG_IRQ_DEASSERT in *; lia).
  apply (wp_send _ _ _ _ (qm_with (qm_mem q) b QService [] q) []); [assumption | |].
  - rewrite <- (app_nil_r (encode_header _)).
    apply feed_message; try assumption; try (unfold in_width; lia); [|reflexivity].
    rewrite service_step; try assumption; try (unfold in_width; lia).
    now destruct Hk as [[-> ->]|[-> ->]].
  - intros ev' Hb'. apply HQ; [assumption|]. destruct Hq. now split.
Qed.

Lemma mem_write_is_byte m a data :
  (forall x b, m x = Some b -> is_byte b) -> bytes data ->
  forall x b, mem_write m a data x = Some b -> is_byte b.
Proof.
  intros Hm Hd x b. unfold mem_write. destruct (_ && _); [|apply Hm].
  intros E. exact (proj1 (Forall_lookup _ _) Hd _ _ E).
Qed.

Lemma write_quiet q ev gpa data :
  serving q -> Forall benign ev -> in_width 64 gpa -> in_width 32 (zlen data) ->
  bytes data -> mapped (qm_mem q) gpa (zlen data) ->
  let q' := qm_with (mem_write (qm_mem q) gpa data) (qm_irq q) QService [] q in
  wp (qemu_dma_write gpa data) (link q [] ev) (fun r s' =>
    r = true /\ serving q' /\ exists ev', s' = link q' [] ev' /\ Forall benign ev').
Proof.
  intros Hq Hb Hg Hl Hd Hmap q'.
  set (msg := encode_header (message AXI_MSG_DMA_WRITE gpa (zlen data))).
  set (ack := encode_header (message AXI_MSG_ERROR 0 0)).
  assert (in_width 16 AXI_MSG_DMA_WRITE) as Hk by (unfold in_width, AXI_MSG_DMA_WRITE; lia).
  assert (serving q') as Hq'.
  { destruct Hq. split; try assumption; try reflexivity. cbn. now apply mem_write_is_byte. }
  assert (qemu_feed q (msg ++ data) = (q', ack)) as Efeed.
  { apply feed_message; try assumption; [|reflexivity].
    rewrite service_step by assumption. cbv zeta.
    replace (Z.to_nat (zlen data)) with (length data) by (unfold zlen; lia).
    cbn [Z.eqb AXI_MSG_DMA_WRITE AXI_MSG_DMA_READ AXI_MSG_ERROR AXI_MSG_IRQ_ASSERT
         AXI_MSG_IRQ_DEASSERT Pos.eqb]. rewrite Nat.ltb_irrefl.
    destruct (load_range_mapped (qm_mem q) gpa (length data) Hmap) as (old & -> & _).
    rewrite take_ge, drop_ge by lia. reflexivity. }
  unfold qemu_dma_write. change (write_header _) with (io_all_write msg).
  eapply (wpx_mono _ _ _ (fun r s' => r = true /\ exists ev', s' = link q' [] ev' /\
    Forall benign ev')); [|now intros r s' [-> ?]].
  assert (forall ev1, Forall benign ev1 ->
    wp (reply ←? read_header; ret (ah_kind reply =? AXI_MSG_ERROR)) (link q' ack ev1)
      (fun r s' => r = true /\ exists ev', s' = link q' [] ev' /\ Forall benign ev')) as Hack.
  { intros ev1 Hb1. rewrite wpx_try. unfold ack. rewrite <- (app_nil_r (encode_header _)).
    apply wp_recv_header; [assumption|apply message_wf; unfold in_width, AXI_MSG_ERROR; lia|].
    intros ev2 Hb2. rewrite wpx_ret. eauto. }
  rewrite wpx_check. destruct (zlen data =? 0) eqn:E0.
  - destruct data as [|]; [|discriminate E0]. rewrite app_nil_r in Efeed.
    apply (wp_send _ _ _ _ q' ack); [assumption | exact Efeed|]. intros ev1 Hb1.
    rewrite wpx_check, wpx_ret. now apply Hack.
  - destruct (qemu_feed q msg) as [q1 o1] eqn:E1.
    pose proof (feed_app q msg data) as Eapp. cbn [feed qemu_peer] in Eapp.
    rewrite Efeed, E1 in Eapp. cbn [fst snd] in Eapp.
    apply (wp_send _ _ _ _ q1 o1); [assumption | exact E1|]. intros ev1 Hb1.
    rewrite wpx_check. destruct (qemu_feed q1 data) as [q2 o2] eqn:E2.
    cbn [fst snd] in Eapp. injection Eapp as -> Eo.
    apply (wp_send _ _ _ _ q2 o2); [assumption | exact E2|]. intros ev2 Hb2.
    cbn [app]. rewrite <- Eo. now apply Hack.
Qed.
End exchange.

(** For every remaining guest program: the contract of [Fabric.v]. *)
#[program] Definition qemu_ram (script : list access) (log : list Z)
  : RamFabric (sock qemu) := {|
  ram_ok := qemu_quiet script log;
  peek := fun s => qm_mem (sk_peer s);
|}.
Next Obligation.
  intros script log s gpa data Hs Hg _ Hl Hat.
  destruct (quiet_link _ _ _ Hs) as (q & ev & -> & Hq & Hb). cbn in Hat. cbn [fabric_dma_read qemu_fabric].
  unfold qemu_dma_read. rewrite wpx_bind. eapply wpx_mono with (Q := fun r s' =>
    r = true /\ s' = link q [] ev).
  { destruct (_ =? 0); [now rewrite wpx_ret | now cbn]. }
  intros ? ? [-> ->]. cbn [negb]. wpuse (read_into_quiet script log); try eassumption.
  intros r s' (-> & ev' & -> & Hb'). split; [reflexivity|]. split; [easy | now apply link_quiet].
Qed.
Next Obligation.
  intros script log s gpa data Hs Hg _ Hl Hat.
  destruct (quiet_link _ _ _ Hs) as (q & ev & -> & Hq & Hb). cbn in Hat.
  wpuse (read_into_quiet script log); try eassumption.
  intros r s' (-> & ev' & -> & Hb'). split; [reflexivity|]. split; [easy | now apply link_quiet].
Qed.
Next Obligation.
  intros script log s gpa b0 b1 Hs Hg _ Hat.
  destruct (quiet_link _ _ _ Hs) as (q & ev & -> & Hq & Hb). cbn in Hat.
  cbn [fabric_dma_read_u16 qemu_fabric]. unfold qemu_dma_read_u16. rewrite wpx_try.
  wpuse (read_into_quiet script log q ev gpa [b0; b1]); try eassumption.
  { unfold in_width, zlen. cbn. lia. }
  intros r s' (-> & ev' & -> & Hb'). rewrite wpx_ret.
  split; [reflexivity|]. split; [easy | now apply link_quiet].
Qed.
Next Obligation. intros script log s gpa len Hs _ _ _. cbn. easy. Qed.
Next Obligation.
  intros script log s gpa data Hs Hg _ Hl Hd Hm.
  destruct (quiet_link _ _ _ Hs) as (q & ev & -> & Hq & Hb). cbn in Hm.
  wpuse (write_quiet script log); try eassumption.
  intros r s' (-> & Hq' & ev' & -> & Hb'). split; [reflexivity|].
  split; [easy | now apply link_quiet].
Qed.
Next Obligation.
  intros script log s Hs. destruct (quiet_link _ _ _ Hs) as (q & ev & -> & Hq & Hb).
  cbn [fabric_raise_irq qemu_fabric]. unfold qemu_raise_irq. rewrite wpx_check.
  eapply (send_irq script log _ false); [assumption | assumption | now right|].
  intros ev1 Hb1 Hq1. eapply (send_irq script log _ true); [assumption | assumption | now left|].
  intros ev2 Hb2 Hq2. split; [reflexivity|]. split; [easy | now apply link_quiet].
Qed.
Next Obligation.
  intros script log s Hs. destruct (quiet_link _ _ _ Hs) as (q & ev & -> & Hq & Hb).
  eapply (send_irq script log _ false); [assumption | assumption | now right|].
  intros ev2 Hb2 Hq2. split; [reflexivity|]. split; [easy | now apply link_quiet].
Qed.
Next Obligation. intros script log s us Hs. cbn. easy. Qed.

(** ** A connection serves a guest program *)

Section session.
Context {D : Type} (dev : fabric_device (sock qemu) D) (rd : D -> Z -> Z -> Z)
        (wr : Z -> Z -> Z -> M (sock qemu * D) bool) (ops : fabric_device_ops (sock qemu) D).
Context (Hops : fd_ops dev = Some ops) (Hrd : op_read ops = Some rd)
        (Hwr : op_write ops = Some wr).
Context (Haddr : 0 <= fd_addr dev) (Hsize : 0 <= fd_size dev)
        (Htop : fd_addr dev + fd_size dev < 2 ^ 64).

(** An access QEMU may send to the device. *)
Definition in_aperture (off size : Z) : Prop :=
  fd_addr dev <= off /\ 0 <= size <= 8 /\ off + size <= fd_addr dev + fd_size dev.

Definition access_ok (a : access) : Prop :=
  match a with
  | GuestRead off size => in_aperture off size
  | GuestWrite off size _ => in_aperture off size
  end.

(** What the guest gets from a read of [size] bytes, and the device from a write. *)
Definition low_bytes (size v : Z) : Z := u64 v mod 2 ^ (8 * size).

(** The effect of the device's write handler, on the device and on guest memory; where
    [pre] holds it succeeds on quiescent memory and leaves the guest's program alone. *)
Context (pre : Z -> Z -> Z -> D -> mem -> Prop).
Context (effect : Z -> Z -> Z -> D -> mem -> D -> mem -> Prop).
Context (wr_spec : forall script log off v size s d,
  qemu_quiet script log s -> in_width 64 v -> pre off v size d (qm_mem (sk_peer s)) ->
  wp (wr off v size) (s, d) (fun ok s' => ok = true /\ qemu_quiet script log (fst s') /\
    effect off v size d (qm_mem (sk_peer s)) (snd s') (qm_mem (sk_peer (fst s'))))).

(** The reference: the accesses take effect one after the other, in order. *)
Inductive runs : list access -> D -> mem -> list Z -> D -> mem -> Prop :=
| runs_nil d m : runs [] d m [] d m
| runs_read off size l d m vs d' m' :
    runs l d m vs d' m' ->
    runs (GuestRead off size :: l) d m
         (low_bytes size (rd d (off - fd_addr dev) size) :: vs) d' m'
| runs_write off size v l d m d1 m1 vs d' m' :
    effect (off - fd_addr dev) (low_bytes size v) size d m d1 m1 ->
    runs l d1 m1 vs d' m' ->
    runs (GuestWrite off size v :: l) d m vs d' m'.

(** Every write of the program finds its precondition. *)
Fixpoint admissible (l : list access) (d : D) (m : mem) : Prop :=
  match l with
  | [] => True
  | GuestRead _ _ :: l => admissible l d m
  | GuestWrite off size v :: l =>
      pre (off - fd_addr dev) (low_bytes size v) size d m /\
      forall d1 m1, effect (off - fd_addr dev) (low_bytes size v) size d m d1 m1 ->
        admissible l d1 m1
  end.

Lemma access_in_range_ok kind off size :
  in_aperture off size -> access_in_range dev (message kind off size) = true.
Proof.
  intros (H1 & H2 & H3). unfold access_in_range. cbn [message ah_window_id ah_length ah_offset].
  rewrite (u64_small (fd_addr dev + fd_size dev)) by (unfold in_width; lia).
  rewrite u64_small by (unfold in_width; lia). lia.
Qed.

Lemma device_offset_ok off size :
  in_aperture off size -> device_offset dev off = off - fd_addr dev.
Proof.
  intros (H1 & H2 & H3). unfold device_offset. apply u64_small. unfold in_width. lia.
Qed.

(** The state between two accesses: QEMU has sent [a] and waits for its completion. *)
Record waiting (a : access) (script : list access) (log : list Z) (m : mem) (s : sock qemu)
  : Prop := {
  wg_wait : qm_wait (sk_peer s) = wait_for a;
  wg_pending : qm_pending (sk_peer s) = [];
  wg_script : qm_script (sk_peer s) = script;
  wg_log : qm_log (sk_peer s) = log;
  wg_mem : qm_mem (sk_peer s) = m;
  wg_bytes : forall x b, m x = Some b -> is_byte b;
  wg_in : sk_in s = request_bytes a;
  wg_ev : Forall benign (sk_ev s);
  wg_alloc : sk_alloc s = [];
}.

(** Nothing left to do: the guest is done. *)
Record finished (log : list Z) (m : mem) (s : sock qemu) : Prop := {
  fi_wait : qm_wait (sk_peer s) = QIdle;
  fi_log : qm_log (sk_peer s) = log;
  fi_mem : qm_mem (sk_peer s) = m;
  fi_in : sk_in s = [];
}.

Definition after (script : list access) (log : list Z) (m : mem) (s : sock qemu) : Prop :=
  match script with
  | [] => finished log m s
  | a :: script => waiting a script log m s
  end.

(** The state [next_access] leads to. *)
Lemma after_next q n log ev :
  (forall x b, qm_mem q x = Some b -> is_byte b) -> Forall benign ev ->
  drop n (qm_pending q) = [] ->
  after (qm_script q) log (qm_mem q)
    (link (next_access n log q).1 (next_access n log q).2 ev).
Proof.
  intros Hm Hb Hp. unfold next_access, after. destruct (qm_script q); now split.
Qed.

Lemma settle_stuck q : (length (qm_pending q) < HLEN)%nat -> qemu_settle q = (q, []).
Proof.
  intros Hl. rewrite qemu_settle_eq. unfold qemu_step.
  now rewrite (proj2 (Nat.ltb_lt _ _)) by assumption.
Qed.

(** Two writes in a row are one. *)
Lemma wp_send2 q l ev c1 c2 q' out (Q : bool -> sock qemu -> Prop) :
  Forall benign ev -> qemu_feed q (c1 ++ c2) = (q', out) ->
  (forall ev', Forall benign ev' -> Q true (link q' (l ++ out) ev')) ->
  wp (check io_all_write c1; io_all_write c2) (link q l ev) Q.
Proof.
  intros Hb E HQ. pose proof (feed_app q c1 c2) as Eapp. cbn [feed qemu_peer] in Eapp.
  rewrite E in Eapp. destruct (qemu_feed q c1) as [q1 o1] eqn:E1. cbn [fst snd] in Eapp.
  destruct (qemu_feed q1 c2) as [q2 o2] eqn:E2. cbn [fst snd] in Eapp.
  injection Eapp as -> ->. rewrite wpx_check.
  eapply wp_send; [assumption | exact E1|]. intros ev1 Hb1.
  eapply wp_send; [assumption | exact E2|]. intros ev2 Hb2. rewrite <- app_assoc. now apply HQ.
Qed.

(** A reply completes the read in progress. *)
Lemma reply_feed q off size v :
  qm_wait q = QReply -> qm_pending q = [] -> in_width 64 off -> 0 <= size <= 8 ->
  let reply := encode_header (message AXI_MSG_MMIO_READ_REPLY off size)
               ++ take (Z.to_nat size) (virtio_store_le64 v) in
  qemu_feed q reply =
    next_access (HLEN + Z.to_nat size) (qm_log q ++ [low_bytes size v]) (receive reply q).
Proof.
  intros Hw Hp Ho Hs reply.
  change (qemu_feed q reply) with (qemu_settle (receive reply q)).
  set (q1 := receive reply q). set (n := Z.to_nat size).
  assert (qm_pending q1 = reply) as Ep
    by (unfold q1, receive, qm_with; cbn [qm_pending]; now rewrite Hp).
  assert (length (take n (virtio_store_le64 v)) = n) as Hn
    by (rewrite length_take, length_store_le64; lia).
  assert (length (qm_pending q1) = (HLEN + n)%nat) as El
    by (rewrite Ep; unfold reply; rewrite length_app; fold n; rewrite Hn; reflexivity).
  assert (header_wf (message AXI_MSG_MMIO_READ_REPLY off size)) as Hh.
  { apply message_wf; [unfold in_width, AXI_MSG_MMIO_READ_REPLY; lia | assumption
      | unfold in_width; lia]. }
  assert (qemu_step q1 =
    Some (next_access (HLEN + n) (qm_log q ++ [low_bytes size v]) q1)) as Est.
  { unfold qemu_step. rewrite El, (proj2 (Nat.ltb_ge _ HLEN)) by lia.
    change (qm_wait q1) with (qm_wait q). rewrite Hw, Ep. unfold reply.
    rewrite take_app_length' by reflexivity. rewrite drop_app_length' by reflexivity.
    rewrite <- (app_nil_r (encode_header _)), decode_encode_header by exact Hh.
    cbn [message ah_kind ah_length]. fold n. rewrite Z.eqb_refl, (proj2 (Z.ltb_ge 8 size)) by lia.
    cbn [negb orb]. rewrite Nat.ltb_irrefl. rewrite (take_ge (take n _)) by lia.
    unfold n. now rewrite load_padded. }
  rewrite qemu_settle_eq, Est.
  destruct (next_access (HLEN + n) _ q1) as [q2 out] eqn:En.
  rewrite settle_stuck; [now rewrite app_nil_r|].
  apply (f_equal (fun r => length (qm_pending r.1))) in En. cbn [fst] in En. rewrite <- En.
  replace (length _) with (length (drop (HLEN + n) (qm_pending q1))).
  - rewrite length_drop, El. unfold HLEN, AXI_HEADER_LEN. lia.
  - unfold next_access. now destruct (qm_script q1).
Qed.

Lemma waiting_link a script log m s : waiting a script log m s ->
  s = link (sk_peer s) (request_bytes a) (sk_ev s).
Proof. destruct s as [q l ev al]. intros []. cbn in *. now subst. Qed.

Lemma in_aperture_width off size : in_aperture off size -> in_width 64 off.
Proof. unfold in_aperture, in_width. lia. Qed.

Lemma serve_read off size script log m s d :
  waiting (GuestRead off size) script log m s -> in_aperture off size ->
  wp (serve_message dev) (s, d) (fun ok s' => ok = true /\ snd s' = d /\
    after script (log ++ [low_bytes size (rd d (off - fd_addr dev) size)]) m (fst s')).
Proof.
  intros Hw Hin. rewrite (waiting_link _ _ _ _ _ Hw). destruct Hw as [Ww Wp Ws Wl Wm Wb _ We _].
  set (q := sk_peer s) in *. cbn [request_bytes]. unfold serve_message.
  assert (header_wf (message AXI_MSG_MMIO_READ off size)) as Hh.
  { apply message_wf; [unfold in_width, AXI_MSG_MMIO_READ; lia
      | now apply (in_aperture_width off size) | destruct Hin; unfold in_width; lia]. }
  rewrite wpx_try, wpx_liftF. cbn [fst snd]. rewrite <- (app_nil_r (encode_header _)).
  apply wp_recv_header; [assumption | exact Hh|]. intros ev1 Hb1.
  rewrite access_in_range_ok by assumption. cbn [negb message ah_kind ah_offset ah_length].
  rewrite Z.eqb_refl. rewrite wpx_bind. unfold call_read. unfold wpx at 1.
  rewrite Hops, Hrd, (device_offset_ok off size) by assumption. cbn [snd].
  rewrite wpx_liftF. cbn [fst snd]. unfold write_read_reply.
  cbn [message ah_kind ah_offset ah_length ah_flags ah_window_id].
  set (v := rd d (off - fd_addr dev) size).
  replace (if size <? 8 then size else 8) with size
    by (destruct Hin as (_ & ? & _); destruct (Z.ltb_spec size 8); lia).
  pose proof (reply_feed q off size v Ww Wp (in_aperture_width off size Hin)
    (proj1 (proj2 Hin))) as Ef. cbv zeta in Ef.
  rewrite (surjective_pairing (next_access _ _ _)) in Ef.
  unfold write_header. eapply wp_send2; [assumption | exact Ef|].
  intros ev2 Hb2. cbn [app fst snd]. split; [reflexivity|]. split; [reflexivity|].
  rewrite <- Wl, <- Wm, <- Ws. set (r := receive _ q).
  change (qm_script q) with (qm_script r). change (qm_mem q) with (qm_mem r).
  rewrite Wl. apply after_next; [cbn; now rewrite Wm | assumption|].
  unfold r, receive, qm_with. cbn [qm_pending]. rewrite Wp. cbn [app].
  apply drop_ge. rewrite length_app, length_take, length_store_le64.
  rewrite length_encode_header. unfold HLEN. lia.
Qed.

(** The acknowledgement completes the write in progress. *)
Lemma ack_feed script log q :
  serving script log q ->
  qemu_feed q (encode_header (message AXI_MSG_ERROR 0 0)) =
    next_access HLEN log (receive (encode_header (message AXI_MSG_ERROR 0 0)) q).
Proof.
  intros Hq. set (ack := encode_header _). change (qemu_feed q ack) with (qemu_settle (receive ack q)).
  rewrite qemu_settle_eq. replace (qemu_step (receive ack q))
    with (Some (next_access HLEN log (receive ack q))).
  - destruct (next_access _ _ _) as [q2 out] eqn:En.
    rewrite settle_stuck; [now rewrite app_nil_r|].
    apply (f_equal (fun r => length (qm_pending r.1))) in En. cbn [fst] in En. rewrite <- En.
    replace (length _) with (length (drop HLEN (qm_pending (receive ack q)))).
    + unfold receive, qm_with. cbn [qm_pending]. rewrite (sv_pending _ _ _ Hq). cbn [app].
      rewrite length_drop. unfold ack. rewrite length_encode_header.
      unfold HLEN, AXI_HEADER_LEN. lia.
    + unfold next_access. now destruct (qm_script _).
  - rewrite <- (app_nil_r ack). unfold ack.
    rewrite (service_step script log) by (assumption || (unfold in_width, AXI_MSG_ERROR; lia)).
    now rewrite (sv_log _ _ _ Hq).
Qed.

Lemma serve_write off size v script log m s d :
  waiting (GuestWrite off size v) script log m s -> in_aperture off size ->
  pre (off - fd_addr dev) (low_bytes size v) size d m ->
  wp (serve_message dev) (s, d) (fun ok s' => ok = true /\ exists m',
    effect (off - fd_addr dev) (low_bytes size v) size d m (snd s') m' /\
    after script log m' (fst s')).
Proof.
  intros Hw Hin Hpre. rewrite (waiting_link _ _ _ _ _ Hw). destruct Hw as [Ww Wp Ws Wl Wm Wb _ We _].
  set (q := sk_peer s) in *. cbn [request_bytes]. unfold serve_message.
  assert (header_wf (message AXI_MSG_MMIO_WRITE off size)) as Hh.
  { apply message_wf; [unfold in_width, AXI_MSG_MMIO_WRITE; lia
      | now apply (in_aperture_width off size) | destruct Hin; unfold in_width; lia]. }
  rewrite wpx_try, wpx_liftF. cbn [fst snd].
  apply wp_recv_header; [assumption | exact Hh|]. intros ev1 Hb1.
  rewrite access_in_range_ok by assumption. cbn [negb message ah_kind ah_offset ah_length].
  change (AXI_MSG_MMIO_WRITE =? AXI_MSG_MMIO_READ) with false. rewrite Z.eqb_refl.
  rewrite wpx_try, wpx_liftF. cbn [fst snd]. unfold read_value.
  pose proof (proj1 (proj2 Hin)) as Hs. rewrite (proj2 (Z.ltb_ge 8 size)) by lia. rewrite wpx_bind.
  assert (length (take (Z.to_nat size) (virtio_store_le64 v)) = Z.to_nat size) as Hl
    by (rewrite length_take, length_store_le64; lia).
  rewrite <- Hl at 1. rewrite <- (app_nil_r (take _ _)) at 2.
  apply wp_recv; [assumption|]. intros ev2 Hb2. cbn [fst snd negb]. rewrite wpx_ret.
  rewrite load_padded by assumption. fold (low_bytes size v). rewrite wpx_check.
  assert (serving script log q) as Hq by (split; try assumption; now rewrite Wm).
  assert (in_width 64 (low_bytes size v)) as Hv.
  { unfold low_bytes. pose proof (u64_range v). pose proof (Z.mod_le (u64 v) (2 ^ (8 * size))).
    pose proof (Z.mod_pos_bound (u64 v) (2 ^ (8 * size))). unfold in_width in *. lia. }
  unfold call_write. unfold wpx at 1. rewrite Hops, Hwr, (device_offset_ok off size) by assumption.
  pose proof (wr_spec script log (off - fd_addr dev) (low_bytes size v) size
    (link q [] ev2) d (link_quiet _ _ _ _ Hq Hb2) Hv ltac:(cbn; now rewrite Wm)) as Hwp.
  destruct (wp_elim _ _ _ Hwp) as (ok & [s3 d3] & Ew & -> & Hq3 & Heff). rewrite Ew.
  cbn [fst snd] in Hq3, Heff.
  destruct (quiet_link _ _ _ Hq3) as (q3 & ev3 & -> & Hsv & Hb3). cbn [fst snd] in *.
  rewrite wpx_liftF. cbn [fst snd]. unfold write_header.
  pose proof (ack_feed script log q3 Hsv) as Ef. rewrite (surjective_pairing (next_access _ _ _)) in Ef.
  eapply wp_send; [assumption | exact Ef|]. intros ev4 Hb4. cbn [app fst snd].
  split; [reflexivity|]. exists (qm_mem q3). cbn in Heff. rewrite Wm in Heff.
  split; [exact Heff|]. rewrite <- (sv_script _ _ _ Hsv). set (r := receive _ q3).
  change (qm_script q3) with (qm_script r). change (qm_mem q3) with (qm_mem r).
  apply after_next; [apply Hsv | assumption|].
  unfold r, receive, qm_with. cbn [qm_pending]. rewrite (sv_pending _ _ _ Hsv). cbn [app].
  apply drop_ge. rewrite length_encode_header. reflexivity.
Qed.

Lemma drain_empty ev n : exists ev', drain ev (S n) [] = (false, [], ev').
Proof.
  induction ev as [|[| |k] ev IH]; cbn; [eauto | exact IH | eauto|].
  replace (Nat.min k 0) with 0%nat by lia. eauto.
Qed.

Lemma serve_end log m s d : finished log m s ->
  wp (serve_message dev) (s, d) (fun ok s' => ok = false /\ snd s' = d /\
    finished log m (fst s')).
Proof.
  intros [Fw Fl Fm Fi]. unfold serve_message, read_header. rewrite wpx_try, wpx_liftF, wpx_bind.
  cbn [fst snd]. unfold wpx at 1. rewrite io_all_read_eq, Fi.
  change AXI_HEADER_LEN with 24%nat.
  destruct (drain_empty (sk_ev s) 23) as [ev' ->]. cbn [fst snd negb length]. rewrite wpx_ret.
  split; [reflexivity|]. split; [reflexivity|]. split; assumption.
Qed.

Lemma serve_all script : forall log m s d,
  after script log m s -> Forall access_ok script -> admissible script d m ->
  wp (serve_loop dev (S (length script))) (s, d) (fun r s' => r = false /\
    exists vs m', runs script d m vs (snd s') m' /\ finished (log ++ vs) m' (fst s')).
Proof.
  induction script as [|a script IH]; intros log m s d Ha Hok Hadm.
  - cbn [length serve_loop]. rewrite wpx_bind. wpuse serve_end; [exact Ha|].
    intros ok [s1 d1] (-> & E & Hf). cbn [negb fst snd] in *. subst d1. rewrite wpx_ret.
    split; [reflexivity|]. exists [], m. rewrite app_nil_r. split; [constructor | assumption].
  - apply Forall_cons_iff in Hok as [Hin Hok]. cbn [length]. remember (S (length script)) as k.
    cbn [serve_loop]. rewrite wpx_bind. destruct a as [off size|off size v]; cbn in Hin.
    + wpuse serve_read; [exact Ha | exact Hin|]. intros ok [s1 d1] (-> & E & H1).
      cbn [negb fst snd] in *. subst d1. wpuse IH; [exact H1 | exact Hok | exact Hadm|].
      intros r s2 (-> & vs & m' & Hr & Hf). split; [reflexivity|].
      eexists _, m'. rewrite <- app_assoc in Hf. split; [apply runs_read, Hr | exact Hf].
    + destruct Hadm as [Hpre Hadm]. wpuse serve_write; [exact Ha | exact Hin | exact Hpre|]. intros ok [s1 d1] (-> & m1 & Heff & H1).
      cbn [negb fst snd] in *. wpuse IH; [exact H1 | exact Hok | now apply Hadm|].
      intros r s2 (-> & vs & m' & Hr & Hf). split; [reflexivity|]. exists vs, m'.
      split; [eapply runs_write; eassumption | exact Hf].
Qed.
End session.
