(* ===== verification/QemuService.v ===== *)
(** * What the QEMU socket fabric promises

    Guest memory through the socket, whole connections, and the guard on register
    accesses. *)

From S2P Require Import Prelude Endian Fabric QueueService Posix QemuSocket QemuPeer.

#[local] Open Scope Z_scope.
#[local] Open Scope c_scope.

(** Guest memory through the socket. With QEMU serving a register write, whatever
    the interruptions and short transfers on the socket, a DMA write succeeds and changes
    exactly the written bytes of guest memory, a DMA read of the same range then returns
    them, both leave the exchange ready for the next request, and the guest's remaining
    accesses and the values it has read are untouched. *)
Theorem qemu_dma_roundtrip script log s gpa data :
  qemu_quiet script log s -> in_width 64 gpa -> in_width 32 (zlen data) -> bytes data ->
  mapped (qm_mem (sk_peer s)) gpa (zlen data) ->
  exists s1 s2, qemu_dma_write gpa data s = Done (true, s1) /\
    qm_mem (sk_peer s1) = mem_write (qm_mem (sk_peer s)) gpa data /\
    qemu_dma_read_into gpa (zlen data) s1 = Done (Some data, s2) /\
    qm_mem (sk_peer s2) = qm_mem (sk_peer s1) /\ qemu_quiet script log s2.
Proof.
  intros Hs Hg Hl Hd Hm. destruct (quiet_link _ _ _ Hs) as (q & ev & -> & Hq & Hb).
  destruct (wp_elim _ _ _ (write_quiet script log q ev gpa data Hq Hb Hg Hl Hd Hm))
    as (r & s1 & E1 & -> & Hq1 & ev1 & -> & Hb1).
  destruct (wp_elim _ _ _ (read_into_quiet script log _ ev1 gpa data Hq1 Hb1 Hg Hl
    (mem_at_write_same _ _ _))) as (r & s2 & E2 & -> & ev2 & -> & Hb2).
  eexists _, _. split; [exact E1|]. split; [reflexivity|]. split; [exact E2|].
  split; [reflexivity | now apply link_quiet].
Qed.

(** A guest with 64 bytes of memory, interrupted and short transfers. *)
Definition ram64 : mem := fun a => if (0 <=? a) && (a <? 64) then Some 0 else None.
Definition guest (w : qemu_wait) (script : list access) : qemu :=
  {| qm_mem := ram64; qm_irq := false; qm_wait := w; qm_pending := [];
     qm_script := script; qm_log := [] |}.
Definition bumpy : list io_event := [IoShort 3; IoIntr; IoShort 1; IoShort 30; IoIntr].

Lemma ram64_bytes a b : ram64 a = Some b -> is_byte b.
Proof. unfold ram64. destruct (_ && _); [|discriminate]. intros [= <-]. unfold is_byte. lia. Defined.

Lemma guest_quiet : qemu_quiet [] [] (link (guest QService []) [] bumpy).
Proof.
  apply link_quiet; [split; try reflexivity; exact ram64_bytes|].
  repeat constructor; discriminate.
Defined.

Lemma qemu_dma_roundtrip_witness :
  exists s1 s2, qemu_dma_write 8 [1; 2; 3] (link (guest QService []) [] bumpy) = Done (true, s1) /\
    qemu_dma_read_into 8 3 s1 = Done (Some [1; 2; 3], s2).
Proof.
  destruct (qemu_dma_roundtrip [] [] _ 8 [1; 2; 3] guest_quiet) as (s1 & s2 & E1 & _ & E2 & _).
  - unfold in_width. lia.
  - unfold in_width, zlen. cbn. lia.
  - repeat constructor; unfold is_byte; lia.
  - intros x Hx. unfold zlen in Hx. cbn in Hx |- *. unfold ram64.
    rewrite (proj2 (Z.leb_le _ _)), (proj2 (Z.ltb_lt _ _)) by lia. eauto.
  - exists s1, s2. split; [exact E1 | exact E2].
Defined.

(** Serving one connection, for any registered device whose write callback succeeds
    where [pre] holds. *)
Lemma connection_admissible {D : Type} (dev : fabric_device (sock qemu) D) ops rd wr pre effect
    script m s d :
  fd_ops dev = Some ops -> op_read ops = Some rd -> op_write ops = Some wr ->
  0 <= fd_addr dev -> 0 <= fd_size dev -> fd_addr dev + fd_size dev < 2 ^ 64 ->
  (forall script log off v size s d,
    qemu_quiet script log s -> in_width 64 v -> pre off v size d (qm_mem (sk_peer s)) ->
    wp (wr off v size) (s, d) (fun ok s' => ok = true /\ qemu_quiet script log (fst s') /\
      effect off v size d (qm_mem (sk_peer s)) (snd s') (qm_mem (sk_peer (fst s'))))) ->
  let d0 := match op_connect ops with Some connect => connect d | None => d end in
  Forall (access_ok dev) script -> after script [] m s ->
  admissible dev pre effect script d0 m ->
  exists s' d' vs m',
    serve_connection dev (S (length script)) (s, d) = Done (false, (s', d')) /\
    runs dev rd effect script d0 m vs d' m' /\ finished vs m' s'.
Proof.
  intros Hops Hrd Hwr Ha Hs Ht Hspec d0 Hok Hst Hadm.
  destruct (wp_elim _ _ _ (serve_all dev rd wr ops Hops Hrd Hwr Ha Hs Ht pre effect Hspec
    script [] m s d0 Hst Hok Hadm)) as (r & [s' d'] & E & -> & vs & m' & Hr & Hf).
  exists s', d', vs, m'. split; [|now split]. unfold serve_connection, bind, connect_hook.
  rewrite Hops. fold d0. unfold d0 in E. now destruct (op_connect ops).
Qed.

Lemma admissible_always {D : Type} (dev : fabric_device (sock qemu) D) effect l d m :
  admissible dev (fun _ _ _ _ _ => True) effect l d m.
Proof. revert d m. induction l as [|[] l IH]; cbn; auto. Qed.

Lemma connection_serves {D : Type} (dev : fabric_device (sock qemu) D) ops rd wr effect
    script m s d :
  fd_ops dev = Some ops -> op_read ops = Some rd -> op_write ops = Some wr ->
  0 <= fd_addr dev -> 0 <= fd_size dev -> fd_addr dev + fd_size dev < 2 ^ 64 ->
  (forall script log off v size s d,
    qemu_quiet script log s -> in_width 64 v ->
    wp (wr off v size) (s, d) (fun ok s' => ok = true /\ qemu_quiet script log (fst s') /\
      effect off v size d (qm_mem (sk_peer s)) (snd s') (qm_mem (sk_peer (fst s'))))) ->
  Forall (access_ok dev) script -> after script [] m s ->
  let d0 := match op_connect ops with Some connect => connect d | None => d end in
  exists s' d' vs m',
    serve_connection dev (S (length script)) (s, d) = Done (false, (s', d')) /\
    runs dev rd effect script d0 m vs d' m' /\ finished vs m' s'.
Proof.
  intros Hops Hrd Hwr Ha Hs Ht Hspec Hok Hst d0.
  apply (connection_admissible dev ops rd wr (fun _ _ _ _ _ => True)); auto using admissible_always.
Qed.

(** C10: a connection serves the guest's program. For a registered device and a guest
    that makes any sequence of accesses inside the device's window, serving the
    connection performs them on the device one by one and in order: each read returns to
    the guest the low bytes of what the device's read callback gives, each write calls
    the device's write callback with the written low bytes, DMA included; when the
    program is over the connection ends. The write callback is only assumed to succeed
    on quiescent guest memory, with [effect] on device and memory. *)
Theorem qemu_serves_program {D : Type} (dev : fabric_device (sock qemu) D) ops rd wr effect
    script m s d :
  fd_ops dev = Some ops -> op_read ops = Some rd -> op_write ops = Some wr ->
  0 <= fd_addr dev -> 0 <= fd_size dev -> fd_addr dev + fd_size dev < 2 ^ 64 ->
  (forall script log off v size s d,
    qemu_quiet script log s -> in_width 64 v ->
    wp (wr off v size) (s, d) (fun ok s' => ok = true /\ qemu_quiet script log (fst s') /\
      effect off v size d (qm_mem (sk_peer s)) (snd s') (qm_mem (sk_peer (fst s'))))) ->
  Forall (access_ok dev) script -> after script [] m s ->
  let d0 := match op_connect ops with Some connect => connect d | None => d end in
  exists s' d' vs m',
    serve_connection dev (S (length script)) (s, d) = Done (false, (s', d')) /\
    runs dev rd effect script d0 m vs d' m' /\ finished vs m' s'.
Proof. apply connection_serves. Qed.

(** A register that keeps the value written to it. *)
Definition latch_ops : fabric_device_ops (sock qemu) Z :=
  {| op_connect := Some (fun _ => 0); op_read := Some (fun d off len => d);
     op_write := Some (fun off v len s => Done (true, (fst s, v))) |}.
Definition latch : fabric_device (sock qemu) Z :=
  {| fd_name := "latch"; fd_socket_path := "/run/latch"; fd_addr := 0; fd_size := 0x200;
     fd_ops := Some latch_ops |}.
Definition latch_program : list access := [GuestWrite 0x30 4 0x1234567890; GuestRead 0x30 2].
Definition latch_start : sock qemu :=
  {| sk_peer := guest QService (tl latch_program);
     sk_in := request_bytes (GuestWrite 0x30 4 0x1234567890); sk_ev := bumpy; sk_alloc := [] |}.

Lemma qemu_serves_program_witness :
  exists s' d' vs m',
    serve_connection latch 3 (latch_start, 99) = Done (false, (s', d')) /\
    finished vs m' s' /\ d' = 0x34567890 /\ vs = [0x7890].
Proof.
  destruct (qemu_serves_program latch latch_ops (fun d off len => d)
    (fun off v len s => Done (true, (fst s, v)))
    (fun off v len d m d' m' => d' = v /\ m' = m) latch_program ram64 latch_start 99)
    as (s' & d' & vs & m' & E & Hr & Hf); try reflexivity.
  - vm_compute. discriminate.
  - intros script log off v size s d Hq Hv. unfold wpx.
    split; [reflexivity|]. split; [exact Hq | now split].
  - repeat constructor; cbn; lia.
  - split; try reflexivity; [exact ram64_bytes | repeat constructor; discriminate].
  - exists s', d', vs, m'. split; [exact E|]. split; [exact Hf|].
    inversion Hr as [| |? ? ? ? ? ? d1 m1 ? ? ? [E1 _] Hr1]; subst.
    inversion Hr1 as [|? ? ? ? ? vs1 ? ? Hr2|]; subst. inversion Hr2; subst.
    split; reflexivity.
Defined.

(** The guard on register accesses is exact and is checked first. A header passes
    exactly when it addresses window 0 with at most 8 bytes inside the device's window;
    for any peer, a header that does not pass ends the connection without a call of the
    device, without consuming a payload and without a byte sent. *)
Theorem qemu_access_guard {P : Type} `{Peer P} {D : Type} (dev : fabric_device (sock P) D)
    (h : axi_header) rest s d :
  0 <= fd_addr dev -> 0 <= fd_size dev -> fd_addr dev + fd_size dev < 2 ^ 64 ->
  header_wf h -> sk_in s = encode_header h ++ rest -> Forall benign (sk_ev s) ->
  (access_in_range dev h = true <->
     ah_window_id h = 0 /\ ah_length h <= 8 /\ fd_addr dev <= ah_offset h /\
     ah_offset h + ah_length h <= fd_addr dev + fd_size dev) /\
  (access_in_range dev h = false ->
     exists s', serve_message dev (s, d) = Done (false, (s', d)) /\
       sk_in s' = rest /\ sk_peer s' = sk_peer s).
Proof.
  intros Ha Hs Ht Hh Hin Hb. split.
  - destruct Hh as [_ _ _ Ho Hl]. unfold access_in_range, in_width in *.
    rewrite (u64_small (fd_addr dev + fd_size dev)) by (unfold in_width; lia).
    rewrite !andb_true_iff, !Z.leb_le, Z.eqb_eq. split.
    + intros [[[[? ?] ?] ?] Hle]. rewrite u64_small in Hle by (unfold in_width; lia). lia.
    + intros (? & ? & ? & ?). rewrite u64_small by (unfold in_width; lia). lia.
  - intros E.
    destruct (io_all_read_benign AXI_HEADER_LEN s Hb) as (ev & Er & _).
    { rewrite Hin, length_app, length_encode_header. lia. }
    rewrite Hin, take_app_length' in Er by reflexivity.
    eexists. split; [|split].
    + unfold serve_message, try_bind, bind, liftF, zoom, read_header, bind. cbn [fst snd].
      rewrite Er. cbn [fst snd negb].
      rewrite <- (app_nil_r (encode_header h)), decode_encode_header by assumption.
      unfold ret. rewrite E. reflexivity.
    + cbn. rewrite Hin. now apply drop_app_length'.
    + reflexivity.
Qed.

Lemma qemu_access_guard_witness :
  exists s', serve_message latch ({| sk_peer := guest QService []; sk_ev := bumpy;
      sk_in := encode_header (message AXI_MSG_MMIO_READ 0x1fd 4); sk_alloc := [] |}, 5)
    = Done (false, (s', 5)).
Proof.
  destruct (qemu_access_guard latch (message AXI_MSG_MMIO_READ 0x1fd 4) []
    {| sk_peer := guest QService []; sk_ev := bumpy;
       sk_in := encode_header (message AXI_MSG_MMIO_READ 0x1fd 4); sk_alloc := [] |} 5)
    as [_ H]; try reflexivity.
  - vm_compute. discriminate.
  - split; (split; [vm_compute; discriminate | reflexivity]).
  - repeat constructor; discriminate.
  - destruct (H eq_refl) as (s' & E & _). exists s'. exact E.
Defined.
