(* ===== verification/VirtioConsole.v ===== *)
(** * The virtio-console device

    [src/drivers/virtio-consoled.c]: the output backend, the transmit path, queue
    notification and the MMIO binding, then the properties of the device. *)

From S2P Require Import Prelude Endian Fabric Virtio VirtioMmio QueueService Rings.
From S2P Require Import Posix LinuxUio UioMirror.

#[local] Open Scope Z_scope.
#[local] Open Scope c_scope.

Definition COND_QUEUE_SIZE : Z := 256.
Definition COND_QUEUE_COUNT : Z := 2.
Definition STDOUT_FILENO : Z := 1.

(** [linux/virtio_ids.h], [linux/virtio_console.h], [linux/virtio_config.h]. *)
Definition VIRTIO_ID_CONSOLE : Z := 3.
Definition VIRTIO_CONSOLE_F_SIZE : Z := 0.
Definition VIRTIO_F_VERSION_1 : Z := 32.
Definition VIRTIO_F_ACCESS_PLATFORM : Z := 33.

Record cond_console_backend : Type := { cb_fd : Z }.

Record cond_virtio_device : Type := { cd_backend : cond_console_backend }.

(** [struct cond_fabric_binding] with the host side: the bytes written to the
    output so far and the outcomes of the next [write] calls. *)
Record cond : Type := {
  co_mmio : virtio_mmio cond_virtio_device;
  co_out : list Z;
  co_io : list io_event;
}.

Definition set_out (out : list Z) (ev : list io_event) (c : cond) : cond :=
  {| co_mmio := co_mmio c; co_out := out; co_io := ev |}.

Definition on_cond_vdev (f : virtio_device cond_virtio_device ->
                             virtio_device cond_virtio_device) (c : cond) : cond :=
  {| co_mmio := set_vdev (f (m_vdev (co_mmio c))) (co_mmio c);
     co_out := co_out c; co_io := co_io c |}.

Definition cond_queue (i : nat) (c : cond) : virtio_queue :=
  v_queues (m_vdev (co_mmio c)) !!! i.

(** ** Output backend *)

Definition cond_write_call (pos : nat) (data : list Z) : M cond (sysret nat) := fun c =>
  match io_step (co_io c) (length data) with
  | (SysOk n, ev) => Done (SysOk n, set_out (co_out c ++ take n data) ev c)
  | (SysIntr, ev) => Done (SysIntr, set_out (co_out c) ev c)
  | (SysFail, ev) => Done (SysFail, set_out (co_out c) ev c)
  end.

Definition write_all (buf : list Z) : M cond bool := fun c =>
  write_loop (loop_fuel (co_io c)) cond_write_call 0 buf c.

(** [open_ret] is what [open] would return for [path]. *)
Definition cond_console_open (path : option string) (open_ret : Z)
  : bool * cond_console_backend :=
  match path with
  | None => (true, {| cb_fd := STDOUT_FILENO |})
  | Some p =>
      if String.eqb p "" || String.eqb p "-" then (true, {| cb_fd := STDOUT_FILENO |})
      else (0 <=? open_ret, {| cb_fd := open_ret |})
  end.

(** The descriptors closed, and the backend after it. *)
Definition cond_console_close (backend : cond_console_backend)
  : cond_console_backend * list Z :=
  ({| cb_fd := -1 |},
   if (0 <=? cb_fd backend) && negb (cb_fd backend =? STDOUT_FILENO)
   then [cb_fd backend] else []).

Definition cond_console_write (buf : list Z) : M cond bool := write_all buf.

(** ** Device callbacks *)

Definition get_features (_ : cond_virtio_device) : Z :=
  Z.lor (Z.lor (Z.shiftl 1 VIRTIO_CONSOLE_F_SIZE) (Z.shiftl 1 VIRTIO_F_VERSION_1))
        (Z.shiftl 1 VIRTIO_F_ACCESS_PLATFORM).

(** Offsets in [struct virtio_console_config]: [cols] 0, [rows] 2,
    [max_nr_ports] 4. *)
Definition get_config (_ : cond_virtio_device) (offset _len : Z) : Z :=
  if offset =? 0 then 80
  else if offset =? 2 then 25
  else if offset =? 4 then 1
  else 0.

Definition virtio_ops : virtio_device_ops cond_virtio_device :=
  {| vo_get_features := Some get_features; vo_get_config := Some get_config;
     vo_reset := None |}.

Definition zero_queue : virtio_queue :=
  {| q_num := 0; q_ready := 0; q_desc := 0; q_avail := 0; q_used := 0;
     q_last_avail_idx := 0 |}.

Definition cond_virtio_init (backend : cond_console_backend)
  : virtio_device cond_virtio_device :=
  let opaque := {| cd_backend := backend |} in
  virtio_device_init
    {| v_device_id := 0; v_vendor_id := 0; v_queue_count := 0; v_queue_size := 0;
       v_queues := []; v_driver_features := 0; v_status := 0;
       v_interrupt_status := 0; v_config_generation := 0; v_opaque := opaque;
       v_ops := None |}
    VIRTIO_ID_CONSOLE VIRTIO_VENDOR_ID_LOCAL COND_QUEUE_COUNT COND_QUEUE_SIZE
    [zero_queue; zero_queue] opaque (Some virtio_ops).

(** ** Transmission and notification *)

Section console.
Context {F : Type} `{Fabric F}.

Definition cond_ack_notify : M (F * cond) bool :=
  pending ← gets (fun s => v_interrupt_status (m_vdev (co_mmio (snd s))));
  if has_bit pending VIRTIO_INTERRUPT_VRING then liftF fabric_raise_irq
  else liftF fabric_lower_irq.

(** The chain walk of [process_tx_chain] on queue [qi]. *)
Fixpoint tx_loop (fuel qi : nat) (index total : Z) : M (F * cond) (option Z) :=
  match fuel with
  | O => out_of_fuel
  | S fuel =>
      q ← gets (fun s => cond_queue qi (snd s));
      desc ←? liftF (virtio_read_desc q index);
      total ←? (if negb (has_bit (d_flags desc) VRING_DESC_F_WRITE)
                   && negb (d_len desc =? 0) then
                  data ←? liftF (fabric_dma_read (d_addr desc) (d_len desc));
                  ok ← liftD (cond_console_write data);
                  ret (if ok then Some (u32 (total + d_len desc)) else None)
                else ret (Some total));
      if negb (has_bit (d_flags desc) VRING_DESC_F_NEXT) then ret (Some total)
      else tx_loop fuel qi (d_next desc) total
  end.

Definition process_tx_chain (fuel qi : nat) (head : Z) : M (F * cond) (option Z) :=
  tx_loop fuel qi head 0.

Definition cond_bump (qi : nat) (c : cond) : cond :=
  on_cond_vdev (fun v => set_queues (alter advance_cursor qi (v_queues v)) v) c.

Definition cond_raise_vring (c : cond) : cond :=
  on_cond_vdev (fun v => set_interrupt
    (Z.lor (v_interrupt_status v) VIRTIO_INTERRUPT_VRING) v) c.

(** [requests] bounds the service loop, [fuel] the walk of one chain. *)
Definition cond_virtio_notify_queue (requests fuel : nat) (queue_index : Z)
  : M (F * cond) bool :=
  if COND_QUEUE_COUNT <=? queue_index then cond_ack_notify else
  q ← gets (fun s => cond_queue (Z.to_nat queue_index) (snd s));
  if q_ready q =? 0 then cond_ack_notify else
  if queue_index =? 0 then cond_ack_notify else
  let qi := Z.to_nat queue_index in
  used_any ←? service_loop (cond_queue qi) (cond_bump qi)
                           (process_tx_chain fuel qi) requests false;
  if used_any then
    (modify (fun s => (fst s, cond_raise_vring (snd s))));;
    liftF fabric_raise_irq
  else cond_ack_notify.

(** ** MMIO binding *)

Definition cond_connect (c : cond) : cond :=
  {| co_mmio := virtio_mmio_init
                  (cond_virtio_init (cd_backend (v_opaque (m_vdev (co_mmio c)))));
     co_out := co_out c; co_io := co_io c |}.

Definition cond_mmio_read (c : cond) (offset len : Z) : Z :=
  virtio_mmio_read (co_mmio c) offset len.

Definition cond_mmio_write (requests fuel : nat) (offset raw_value _len : Z)
  : M (F * cond) bool :=
  (modify (fun s => (fst s,
    {| co_mmio := virtio_mmio_write (co_mmio (snd s)) offset raw_value;
       co_out := co_out (snd s); co_io := co_io (snd s) |})));;
  check (if (offset =? VIRTIO_MMIO_STATUS) && (raw_value =? 0)
         then liftF fabric_lower_irq else ret true);
  check (if offset =? VIRTIO_MMIO_INTERRUPT_ACK
         then liftF fabric_lower_irq else ret true);
  check (if offset =? VIRTIO_MMIO_QUEUE_NOTIFY
         then cond_virtio_notify_queue requests fuel (u32 raw_value)
         else ret true);
  ret true.

Definition cond_fabric_ops (requests fuel : nat) : fabric_device_ops F cond :=
  {| op_connect := Some cond_connect; op_read := Some cond_mmio_read;
     op_write := Some (cond_mmio_write requests fuel) |}.

Definition cond_fabric_init_device (requests fuel : nat) (socket_path : string)
  : fabric_device F cond :=
  {| fd_name := "cond"; fd_socket_path := socket_path; fd_addr := 0;
     fd_size := 0x200; fd_ops := Some (cond_fabric_ops requests fuel) |}.
End console.

(** ** Output *)

Lemma write_all_eq buf c :
  write_all buf c =
  let '(b, w, ev) := wdrain (co_io c) buf in
  Done (b, set_out (co_out c ++ take w buf) ev c).
Proof.
  unfold write_all.
  rewrite (write_loop_wdrain cond_write_call co_io
    (fun c _ d ev => set_out (co_out c ++ d) ev c)); try reflexivity.
  - intros s pos data. unfold cond_write_call.
    destruct (io_step _ _) as [[] ev]; now rewrite ?app_nil_r.
  - intros s pos d ev d' ev'. unfold set_out. cbn. now rewrite <- app_assoc.
  - intros [] pos. unfold set_out. cbn. now rewrite app_nil_r.
Qed.

Lemma write_all_benign buf c : Forall benign (co_io c) ->
  exists ev, write_all buf c = Done (true, set_out (co_out c ++ buf) ev c) /\
             Forall benign ev.
Proof.
  intros Hb. rewrite write_all_eq. destruct (wdrain_benign (co_io c) buf Hb) as (ev & -> & Hev).
  exists ev. now rewrite take_ge by lia.
Qed.

(** ** The transmit path on quiescent memory *)

(** The bytes a descriptor contributes: those it makes readable. *)
Definition tx_bytes (s : virtio_desc * list Z) : list Z :=
  if has_bit (d_flags s.1) VRING_DESC_F_WRITE then [] else s.2.

Definition tx_output (ps : list (virtio_desc * list Z)) : list Z :=
  concat (map tx_bytes ps).

Section transmit.
Context {F : Type} `{RamFabric F}.
Implicit Types (f : F) (c : cond).

(** One descriptor. *)
Lemma tx_segment f c d p total :
  ram_ok f -> Forall benign (co_io c) -> desc_wf d -> payload_at (peek f) (d, p) ->
  0 <= total -> total + zlen (tx_bytes (d, p)) < 2 ^ 32 ->
  wp (if negb (has_bit (d_flags d) VRING_DESC_F_WRITE) && negb (d_len d =? 0) then
        data ←? liftF (fabric_dma_read (d_addr d) (d_len d));
        ok ← liftD (cond_console_write data);
        ret (if ok : bool then Some (u32 (total + d_len d)) else None)
      else ret (Some total)) (f, c) (fun r s =>
    r = Some (total + zlen (tx_bytes (d, p))) /\ ram_ok (fst s) /\
    peek (fst s) ≡m peek f /\
    exists ev, Forall benign ev /\
      snd s = set_out (co_out c ++ tx_bytes (d, p)) ev c).
Proof.
  intros Hf Hb Hd (Hby & Hz & Hr & Hm) Ht Hlt. cbn [fst snd] in *. unfold tx_bytes in *.
  cbn [fst snd] in *. destruct (has_bit _ _); cbn [negb andb].
  { rewrite wpx_ret. change (zlen []) with 0. rewrite Z.add_0_r.
    repeat (split; [easy|]). exists (co_io c). split; [assumption|].
    rewrite app_nil_r. now destruct c. }
  destruct (d_len d =? 0) eqn:E0; cbn [negb].
  { rewrite wpx_ret. rewrite (zlen_nil_inv p) by lia. change (zlen []) with 0.
    rewrite Z.add_0_r. repeat (split; [easy|]). exists (co_io c). split; [assumption|].
    rewrite app_nil_r. now destruct c. }
  rewrite wpx_try, wpx_liftF. cbn [fst snd].
  wpuse (dma_read_ram f (d_addr d) p); try assumption; try apply Hd.
  intros ? f1 (-> & Hp & Hf1). rewrite wpx_bind, wpx_liftD. cbn [fst snd].
  destruct (write_all_benign p c Hb) as (ev & E & Hev).
  rewrite (wpx_done _ _ _ _ _ _ E), wpx_ret. cbn [fst snd].
  rewrite u32_small by (unfold in_width; pose proof (dw_len _ Hd); unfold in_width in *; lia).
  rewrite Hz. repeat (split; [easy|]). eauto.
Qed.

Lemma tx_loop_ram fuel qi ps last f c index total :
  ram_ok f -> Forall benign (co_io c) ->
  chain_at (peek f) (cond_queue qi c) index (map fst ps) last.1 ->
  Forall (payload_at (peek f)) (ps ++ [last]) ->
  0 <= total -> total + zlen (tx_output (ps ++ [last])) < 2 ^ 32 ->
  (length ps < fuel)%nat ->
  wp (tx_loop fuel qi index total) (f, c) (fun r s =>
    r = Some (total + zlen (tx_output (ps ++ [last]))) /\ ram_ok (fst s) /\
    peek (fst s) ≡m peek f /\
    exists ev, Forall benign ev /\
      snd s = set_out (co_out c ++ tx_output (ps ++ [last])) ev c).
Proof.
  revert fuel f c index total.
  induction ps as [|[d p] ps IH]; intros fuel f c index total Hf Hb Hc Hp Ht Hlt Hfuel;
    (destruct fuel as [|fuel]; [cbn in Hfuel; lia|]); cbn [tx_loop map fst chain_at app length] in *;
    rewrite wpx_bind, wpx_gets, wpx_try, wpx_liftF; cbn [fst snd].
  - destruct last as [d p]. cbn [fst] in Hc. destruct Hc as [(Hd & Ha & Hm) Hn].
    apply Forall_cons_iff in Hp as [Hp _].
    unfold tx_output in *. cbn [map concat] in *. rewrite app_nil_r in *.
    wpuse (virtio_read_desc_ram _ _ d); try assumption.
    intros ? f1 (-> & Hp1 & Hf1). rewrite wpx_try.
    wpuse (tx_segment f1 c d p total); try assumption.
    { eapply payload_at_proper; [symmetry; eassumption | assumption]. }
    intros r [f2 c2] (-> & Hf2 & Hp2 & ev & Hev & Ec). cbn [fst snd] in *. subst c2.
    rewrite Hn. cbn [negb]. rewrite wpx_ret. rewrite Hp1 in Hp2. eauto 8.
  - destruct Hc as ((Hd & Ha & Hm) & Hn & Hc). apply Forall_cons_iff in Hp as [Hpd Hp].
    unfold tx_output in *. cbn [map concat] in *. rewrite zlen_app in *.
    assert (0 <= zlen (concat (map tx_bytes (ps ++ [last])))) as Hpos by (unfold zlen; lia).
    assert (0 <= zlen (tx_bytes (d, p))) as Hpos' by (unfold zlen; lia).
    wpuse (virtio_read_desc_ram _ _ d); try assumption.
    intros ? f1 (-> & Hp1 & Hf1). rewrite wpx_try.
    wpuse (tx_segment f1 c d p total); try assumption; try lia.
    { eapply payload_at_proper; [symmetry; eassumption | assumption]. }
    intros r [f2 c2] (-> & Hf2 & Hp2 & ev & Hev & Ec). cbn [fst snd] in *. subst c2.
    rewrite Hn. cbn [negb]. rewrite Hp1 in Hp2.
    wpuse (IH fuel f2); try assumption; try lia.
    + eapply chain_at_proper; [symmetry; eassumption | exact Hc].
    + eapply Forall_impl; [exact Hp|]. intros s. apply payload_at_proper. now symmetry.
    + intros r [f3 c3] (-> & Hf3 & Hp3 & ev' & Hev' & Ec). cbn [fst snd] in *. subst c3.
      rewrite Hp2 in Hp3. split; [f_equal; lia|]. split; [assumption|].
      split; [assumption|]. exists ev'. split; [assumption|].
      unfold set_out. cbn. now rewrite <- app_assoc.
Qed.
End transmit.

(** ** The device invariant *)

Record cond_ok (Pnum : Z -> Prop) (c : cond) : Prop := {
  ck_mmio : mmio_wf (co_mmio c);
  ck_count : v_queue_count (m_vdev (co_mmio c)) = COND_QUEUE_COUNT;
  ck_qsize : v_queue_size (m_vdev (co_mmio c)) = COND_QUEUE_SIZE;
  ck_ops : v_ops (m_vdev (co_mmio c)) = Some virtio_ops;
  ck_num : Forall (fun q => Pnum (q_num q)) (v_queues (m_vdev (co_mmio c)));
}.

Definition divisible (num : Z) : Prop := u16 num <> 0.

Section invariant.
Context (Pnum : Z -> Prop).
Implicit Types c : cond.

Lemma cond_queue_lookup c qi : cond_ok Pnum c -> (qi < 2)%nat ->
  v_queues (m_vdev (co_mmio c)) !! qi = Some (cond_queue qi c).
Proof.
  intros [[[] _ _ _] Hc _ _ _] Hq. unfold cond_queue, COND_QUEUE_COUNT in *.
  apply list_lookup_lookup_total_lt. lia.
Qed.

Lemma cond_queue_num c qi : cond_ok Pnum c -> (qi < 2)%nat -> Pnum (q_num (cond_queue qi c)).
Proof.
  intros Hok Hq. pose proof (ck_num _ _ Hok) as Hn. rewrite Forall_lookup in Hn.
  exact (Hn qi _ (cond_queue_lookup c qi Hok Hq)).
Qed.

Lemma cond_queue_wf c qi : cond_ok Pnum c -> (qi < 2)%nat -> queue_wf (cond_queue qi c).
Proof.
  intros Hok Hq. pose proof (vw_queues _ (mw_vdev _ (ck_mmio _ _ Hok))) as Hn.
  rewrite Forall_lookup in Hn. exact (Hn qi _ (cond_queue_lookup c qi Hok Hq)).
Qed.

Lemma set_out_ok c out ev : cond_ok Pnum c -> cond_ok Pnum (set_out out ev c).
Proof. intros []. now split. Qed.

Lemma cond_bump_ok c qi : cond_ok Pnum c -> cond_ok Pnum (cond_bump qi c).
Proof.
  intros [[[] ? ? ?] ? ? ? ?]. split; try assumption.
  - split; try assumption. split; cbn; try assumption.
    + apply Forall_alter; [assumption|]. intros q _ Hq. destruct Hq. split; cbn; auto with acs.
    + now rewrite length_alter.
  - cbn. now apply Forall_alter.
Qed.

Lemma cond_raise_ok c : cond_ok Pnum c -> cond_ok Pnum (cond_raise_vring c).
Proof.
  intros [[[] ? ? ?] ? ? ? ?]. split; try assumption. split; try assumption.
  split; cbn; try assumption. apply in_width_lor; [lia | assumption|].
  unfold in_width, VIRTIO_INTERRUPT_VRING. lia.
Qed.

Lemma cond_write_ok c offset raw_value :
  Pnum COND_QUEUE_SIZE -> (offset = VIRTIO_MMIO_QUEUE_NUM -> Pnum (u32 raw_value)) ->
  cond_ok Pnum c ->
  cond_ok Pnum {| co_mmio := virtio_mmio_write (co_mmio c) offset raw_value;
                  co_out := co_out c; co_io := co_io c |}.
Proof.
  intros Hp Hg [Hm Hc Hq Ho Hn].
  pose proof (mmio_write_identity (co_mmio c) offset raw_value (mw_vdev _ Hm)) as Hid.
  unfold no_reset_hook in Hid. rewrite Ho in Hid. specialize (Hid eq_refl).
  injection Hid as _ _ Ec Eq _ _ Eop.
  split; cbn [co_mmio]; try congruence; [now apply mmio_write_wf|].
  apply mmio_write_nums; auto; [apply Hm | now rewrite Hq].
Qed.

Lemma cond_connect_ok c : Pnum COND_QUEUE_SIZE -> cond_ok Pnum (cond_connect c).
Proof.
  intros Hp.
  assert (in_width 32 0 /\ in_width 64 0 /\ in_width 32 2 /\ in_width 32 3 /\
          in_width 32 256 /\ in_width 32 VIRTIO_VENDOR_ID_LOCAL)
    as (H0 & H64 & H2 & H3 & H256 & Hv)
    by (unfold in_width, VIRTIO_VENDOR_ID_LOCAL; lia).
  split; try reflexivity.
  - apply mmio_init_wf. apply device_reset_wf.
    split; cbn; try assumption; [|reflexivity].
    repeat (apply Forall_cons_2 || apply Forall_nil_2); split; cbn; (assumption || width).
  - cbn. repeat constructor; assumption.
Qed.
End invariant.

(** ** Safety *)

Section cond_safety.
Context {F : Type} `{FabricSafe F}.

(** Any invariant of the device that the transmit path keeps. *)
Context (I : cond -> Prop).
Context (I_ok : forall c, I c -> cond_ok divisible c).
Context (I_out : forall out ev c, I c -> I (set_out out ev c)).
Context (I_bump : forall qi c, I c -> I (cond_bump qi c)).
Context (I_raise : forall c, I c -> I (cond_raise_vring c)).
Implicit Types (f : F) (c : cond).

Lemma write_all_safe buf c : I c -> wp (cond_console_write buf) c (fun _ c' => I c').
Proof.
  intros Hc. unfold wpx, cond_console_write. rewrite write_all_eq.
  destruct (wdrain _ _) as [[b w] ev]. now apply I_out.
Qed.

Lemma tx_loop_safe fuel qi index total f c :
  fab_ok f -> I c ->
  wlp (tx_loop fuel qi index total) (f, c) (fun _ s => fab_ok (fst s) /\ I (snd s)).
Proof.
  revert index total f c. induction fuel as [|fuel IH]; intros index total f c Hf Hc;
    cbn [tx_loop]; [reflexivity|].
  rewrite wpx_bind, wpx_gets, wpx_try, wpx_liftF. cbn [fst snd].
  wptotal virtio_read_desc_safe; [assumption|].
  intros [d|] f1 [Hf1 Hd]; [|easy]. specialize (Hd d eq_refl). rewrite wpx_try.
  eapply wpx_mono with (Q := fun _ s => fab_ok (fst s) /\ I (snd s)).
  - destruct (_ && _); [|now rewrite wpx_ret]. rewrite wpx_try, wpx_liftF. cbn [fst snd].
    wptotal fs_read; [assumption | apply Hd | apply Hd|].
    intros [data|] f2 [Hf2 _]; [|easy]. rewrite wpx_bind, wpx_liftD. cbn [fst snd].
    wptotal write_all_safe; [assumption|]. intros ok c2 Hc2. now rewrite wpx_ret.
  - intros [t|] [f2 c2] [Hf2 Hc2]; cbn [fst snd] in *; [|easy].
    destruct (negb _); [now rewrite wpx_ret | now apply IH].
Qed.

Lemma cond_ack_safe f c : fab_ok f -> I c ->
  wlp cond_ack_notify (f, c) (fun _ s => fab_ok (fst s) /\ I (snd s)).
Proof.
  intros Hf Hc. unfold cond_ack_notify. rewrite wpx_bind, wpx_gets. cbn [fst snd].
  destruct (has_bit _ _); rewrite wpx_liftF; [wptotal fs_raise | wptotal fs_lower]; easy.
Qed.

Lemma cond_notify_safe requests fuel queue_index f c :
  fab_ok f -> I c -> 0 <= queue_index ->
  wlp (cond_virtio_notify_queue requests fuel queue_index) (f, c) (fun _ s =>
    fab_ok (fst s) /\ I (snd s)).
Proof.
  intros Hf Hc Hq. unfold cond_virtio_notify_queue.
  destruct (COND_QUEUE_COUNT <=? queue_index) eqn:E; [now apply cond_ack_safe|].
  rewrite wpx_bind, wpx_gets. cbn [fst snd].
  destruct (_ =? 0); [now apply cond_ack_safe|].
  destruct (queue_index =? 0); [now apply cond_ack_safe|].
  cbv zeta. set (qi := Z.to_nat queue_index).
  assert (qi < 2)%nat as Hqi by (unfold qi, COND_QUEUE_COUNT in *; lia).
  rewrite wpx_try.
  wpuse (service_loop_safe (cond_queue qi) (cond_bump qi) _ I); try assumption.
  - intros d Hd. exact (cond_queue_num divisible d qi (I_ok d Hd) Hqi).
  - intros d Hd. now apply I_bump.
  - intros f1 c1 head Hf1 Hc1 _. now apply tx_loop_safe.
  - intros [[]|] [f1 c1] [Hf1 Hc1]; cbn [fst snd] in *; [| now apply cond_ack_safe | easy].
    rewrite wpx_bind, wpx_modify, wpx_liftF. cbn [fst snd].
    wptotal fs_raise; [assumption|]. intros _ f2 Hf2. split; [assumption|]. now apply I_raise.
Qed.

(** A register write, from the state it leaves in the registers. *)
Lemma cond_mmio_write_inv requests fuel offset raw_value len f c :
  fab_ok f ->
  I {| co_mmio := virtio_mmio_write (co_mmio c) offset raw_value;
       co_out := co_out c; co_io := co_io c |} ->
  wlp (cond_mmio_write requests fuel offset raw_value len) (f, c) (fun _ s =>
    fab_ok (fst s) /\ I (snd s)).
Proof.
  intros Hf Hc'. unfold cond_mmio_write. rewrite wpx_bind, wpx_modify. cbn [fst snd].
  set (c' := {| co_mmio := _; co_out := _; co_io := _ |}) in *. clearbody c'.
  assert (forall b f1, fab_ok f1 ->
    wlp (if b : bool then liftF fabric_lower_irq else ret true) (f1, c')
      (fun _ s => fab_ok (fst s) /\ snd s = c')) as Hl.
  { intros [] f1 Hf1; [rewrite wpx_liftF; wptotal fs_lower; easy | now rewrite wpx_ret]. }
  rewrite wpx_check. wpuse Hl; [assumption|].
  intros [] [f1 c1] [Hf1 E]; cbn [fst snd] in *; subst c1; [|easy].
  rewrite wpx_check. wpuse Hl; [assumption|].
  intros [] [f2 c2] [Hf2 E]; cbn [fst snd] in *; subst c2; [|easy].
  rewrite wpx_check.
  destruct (offset =? VIRTIO_MMIO_QUEUE_NOTIFY); [|now rewrite !wpx_ret].
  wpuse cond_notify_safe; [assumption | assumption | apply (u32_range raw_value)|].
  intros [] s Hs; [now rewrite wpx_ret | exact Hs].
Qed.
End cond_safety.

Lemma cond_mmio_write_safe {F} `{FabricSafe F} requests fuel offset raw_value len f c :
  fab_ok f -> cond_ok divisible c ->
  (offset = VIRTIO_MMIO_QUEUE_NUM -> divisible (u32 raw_value)) ->
  wlp (cond_mmio_write requests fuel offset raw_value len) (f, c) (fun _ s =>
    fab_ok (fst s) /\ cond_ok divisible (snd s)).
Proof.
  intros Hf Hc Hg.
  apply (cond_mmio_write_inv (cond_ok divisible));
    auto using set_out_ok, cond_bump_ok, cond_raise_ok.
  apply cond_write_ok; [discriminate | assumption | assumption].
Qed.
