(* ===== verification/ConsoleService.v ===== *)
(** * Properties of the console device

    Transmission is exact and in order; the receive queue is left alone; sessions
    are safe; and two places where the device misbehaves. *)

From S2P Require Import Prelude Endian Fabric Virtio VirtioMmio QueueService Rings.
From S2P Require Import Posix LinuxUio UioMirror VirtioConsole.

#[local] Open Scope Z_scope.
#[local] Open Scope c_scope.

(** ** Pending transmissions *)

Record tx_request : Type := {
  t_head : Z;
  t_segs : list (virtio_desc * list Z);
  t_last : virtio_desc * list Z;
}.

Definition t_output (t : tx_request) : list Z := tx_output (t_segs t ++ [t_last t]).

Definition used_region (q : virtio_queue) (a : Z) : Prop :=
  q_used q <= a < q_used q + (4 + ring_size q * 8).

(** The transmissions [ts] are available from the cursor on. *)
Record tx_pending (m : mem) (q : virtio_queue) (ts : list tx_request) : Prop := {
  tp_index : mem_at m (q_avail q + 2)
    (virtio_store_le16 (u16 (q_last_avail_idx q + Z.of_nat (length ts))));
  tp_slot : forall j t, ts !! j = Some t ->
    in_width 16 (t_head t) /\
    mem_at m (avail_slot q (u16 (q_last_avail_idx q + Z.of_nat j)))
           (virtio_store_le16 (t_head t)) /\
    chain_at m q (t_head t) (map fst (t_segs t)) (t_last t).1 /\
    Forall (payload_at m) (t_segs t ++ [t_last t]) /\
    zlen (t_output t) < 2 ^ 32;
}.

(** They stay so whatever is written to the used ring. *)
Record tx_independent (m : mem) (q : virtio_queue) (ts : list tx_request) : Prop := {
  ti_pending : forall m', agree (used_region q) m m' -> tx_pending m' q ts;
  ti_count : Z.of_nat (length ts) <= ring_size q;
  ti_power : (ring_size q | 2 ^ 16);
}.

Section serve.
Context {F : Type} `{RamFabric F}.
Context (fuel : nat) (m0 : mem) (q : virtio_queue) (ts : list tx_request)
        (out0 : list Z) (u0 : Z).
Hypothesis rings : rings_ok m0 q.
Hypothesis indep : tx_independent m0 q ts.
Hypothesis enough_fuel : Forall (fun t => (length (t_segs t) < fuel)%nat) ts.
Implicit Types (f : F) (c : cond).

Record tx_served (k : nat) (f : F) (c : cond) : Prop := {
  ts_fab : ram_ok f;
  ts_ok : cond_ok divisible c;
  ts_io : Forall benign (co_io c);
  ts_agree : agree (used_region q) m0 (peek f);
  ts_queue : cond_queue 1 c = cursor_to q (u16 (q_last_avail_idx q + Z.of_nat k));
  ts_out : co_out c = out0 ++ concat (map t_output (take k ts));
  ts_index : mem_at (peek f) (q_used q + 2) (virtio_store_le16 (u16 (u0 + Z.of_nat k)));
  ts_done : forall j t, (j < k)%nat -> ts !! j = Some t ->
    mem_at (peek f) (used_slot q (u16 (u0 + Z.of_nat j)))
           (virtio_store_le32 (t_head t) ++ virtio_store_le32 (zlen (t_output t)));
}.

Lemma tx_served_peek k f f' c :
  tx_served k f c -> ram_ok f' -> peek f' ≡m peek f -> tx_served k f' c.
Proof.
  intros [] Hf E. split; try assumption.
  - eapply agree_proper; eassumption.
  - now rewrite E.
  - intros j t Hj Ht. rewrite E. auto.
Qed.

Lemma cond_bump_queue c : cond_ok divisible c ->
  cond_queue 1 (cond_bump 1 c) = advance_cursor (cond_queue 1 c).
Proof.
  intros Hok. pose proof (cond_queue_lookup _ c 1 Hok ltac:(lia)) as E.
  unfold cond_queue at 1. cbn. apply list_lookup_total_correct.
  rewrite list_lookup_alter, decide_True by reflexivity. now rewrite E.
Qed.

Lemma tx_served_done k f f' c t :
  tx_served k f c -> ts !! k = Some t ->
  peek f' ≡m used_push (peek f) q (u16 (u0 + Z.of_nat k)) (t_head t) (zlen (t_output t)) ->
  forall j t', (j < S k)%nat -> ts !! j = Some t' ->
    mem_at (peek f') (used_slot q (u16 (u0 + Z.of_nat j)))
           (virtio_store_le32 (t_head t') ++ virtio_store_le32 (zlen (t_output t'))).
Proof.
  intros Hse Ht E j t' Hj Ht'. rewrite E.
  pose proof (ro_size _ _ rings) as Hs. destruct indep as [_ Hcount Hpow].
  pose proof (lookup_lt_Some _ _ _ Ht) as Hk.
  destruct (slot_inside q (u16 (u0 + Z.of_nat j)) Hs) as [Hj1 Hj2].
  destruct (decide (j = k)) as [->|Hne].
  { rewrite Ht in Ht'. injection Ht' as <-. now apply used_push_entry. }
  apply used_push_other; change (zlen (_ ++ _)) with 8.
  - apply slot_distinct; [assumption | assumption | lia | lia].
  - left. lia.
  - apply (ts_done _ _ _ Hse j t'); [lia | assumption].
Qed.

Lemma tx_served_process k f c t :
  tx_served k f c -> ts !! k = Some t ->
  wp (process_tx_chain fuel 1 (t_head t)) (f, c) (fun r s =>
    exists used_len used_idx, r = Some used_len /\ ram_ok (fst s) /\
      rings_ok (peek (fst s)) (cond_queue 1 (snd s)) /\ in_width 16 used_idx /\
      mem_at (peek (fst s)) (q_used (cond_queue 1 (snd s)) + 2)
             (virtio_store_le16 used_idx) /\
      forall f', ram_ok f' ->
        peek f' ≡m used_push (peek (fst s)) (cond_queue 1 (snd s)) used_idx
                             (t_head t) used_len ->
        tx_served (S k) f' (cond_bump 1 (snd s))).
Proof.
  intros Hse Ht. pose proof (ti_pending _ _ _ indep _ (ts_agree _ _ _ Hse)) as Hpe.
  destruct (tp_slot _ _ _ Hpe k t Ht) as (_ & _ & Hch & Hpay & Hlen).
  pose proof (ro_size _ _ rings) as Hs. unfold t_output in Hlen.
  wpuse (tx_loop_ram fuel 1 (t_segs t) (t_last t) f c); try apply Hse; try assumption.
  { rewrite (ts_queue _ _ _ Hse). now apply chain_at_cursor. }
  { lia. }
  { apply (proj1 (Forall_lookup _ _) enough_fuel k t Ht). }
  intros r [f1 c1] (-> & Hf1 & Hp1 & ev & Hev & Ec). cbn [fst snd] in *. subst c1.
  rewrite Z.add_0_l. change (tx_output (t_segs t ++ [t_last t])) with (t_output t).
  exists (zlen (t_output t)), (u16 (u0 + Z.of_nat k)).
  change (cond_queue 1 (set_out _ ev c)) with (cond_queue 1 c).
  rewrite (ts_queue _ _ _ Hse).
  assert (agree (used_region q) m0 (peek f1)) as Hag
    by (eapply agree_proper; [exact Hp1 | apply Hse]).
  split; [reflexivity|]. split; [assumption|].
  split; [pose proof (rings_ok_agree _ _ _ _ Hag rings) as Hro; now destruct Hro|].
  split; [apply u16_range|]. split; [rewrite Hp1; apply Hse|].
  intros f' Hf' Hp'.
  assert (peek f' ≡m used_push (peek f) q (u16 (u0 + Z.of_nat k)) (t_head t)
            (zlen (t_output t))) as Hp.
  { rewrite Hp'. unfold used_push. rewrite Hp1. reflexivity. }
  pose proof (ts_ok _ _ _ Hse) as Hok.
  assert (cond_ok divisible (set_out (co_out c ++ t_output t) ev c)) as Hok1
    by (now apply set_out_ok).
  split; try assumption.
  - now apply cond_bump_ok.
  - eapply agree_proper; [exact Hp'|].
    apply (used_push_agree q); [assumption | easy | assumption].
  - rewrite cond_bump_queue by assumption.
    change (cond_queue 1 (set_out _ ev c)) with (cond_queue 1 c).
    rewrite (ts_queue _ _ _ Hse). unfold advance_cursor, cursor_to. cbn.
    f_equal. unfold u16. rewrite Zplus_mod_idemp_l. f_equal. lia.
  - cbn. rewrite (ts_out _ _ _ Hse), (take_S_r _ _ _ Ht), map_app, concat_app.
    cbn. now rewrite app_nil_r, app_assoc.
  - rewrite Hp.
    replace (u16 (u0 + Z.of_nat (S k))) with (u16 (u16 (u0 + Z.of_nat k) + 1)).
    + apply used_push_index.
    + unfold u16. rewrite Zplus_mod_idemp_l. f_equal. lia.
  - eapply tx_served_done; eassumption.
Qed.

Lemma tx_served_all requests f c : (length ts < requests)%nat -> tx_served 0 f c ->
  wp (service_loop (cond_queue 1) (cond_bump 1) (process_tx_chain fuel 1)
                   requests false) (f, c) (fun r s =>
    r = Some (0 <? length ts)%nat /\ tx_served (length ts) (fst s) (snd s)).
Proof.
  intros Hreq Hse. rewrite <- (length_map t_head ts).
  assert (forall k head, map t_head ts !! k = Some head ->
    exists t, ts !! k = Some t /\ head = t_head t) as Hheads.
  { intros k head. rewrite list_lookup_fmap. destruct (ts !! k) as [t|]; [|easy].
    intros [= <-]. eauto. }
  pose proof (u16_range (q_num q)) as Hr. fold (ring_size q) in Hr. unfold in_width in Hr.
  pose proof (ti_count _ _ _ indep) as Hcount.
  change (0 <? length (map t_head ts))%nat with (false || (0 <? length (map t_head ts))%nat).
  apply (service_loop_ram (cond_queue 1) (cond_bump 1) _ (map t_head ts) tx_served
    (u16 (q_last_avail_idx q + Z.of_nat (length ts)))); try assumption.
  - apply u16_range.
  - intros k f1 c1 H1'. rewrite (ts_queue _ _ _ H1').
    pose proof (ti_pending _ _ _ indep _ (ts_agree _ _ _ H1')) as Hpe.
    split; [apply H1'|]. split.
    { pose proof (rings_ok_agree _ _ _ _ (ts_agree _ _ _ H1') rings) as Hro.
      now destruct Hro. }
    split; [apply u16_range | apply Hpe].
  - intros k f1 c1 head H1' Hh. destruct (Hheads _ _ Hh) as (t & Ht & ->).
    rewrite (ts_queue _ _ _ H1').
    pose proof (ti_pending _ _ _ indep _ (ts_agree _ _ _ H1')) as Hpe.
    destruct (tp_slot _ _ _ Hpe k t Ht) as (Hth & Hslot & _).
    apply lookup_lt_Some in Ht. split; [assumption|]. split; [|exact Hslot].
    cbn. apply cursor_distinct; lia.
  - intros f1 c1 H1'. rewrite (ts_queue _ _ _ H1'). cbn. now rewrite length_map.
  - intros. eapply tx_served_peek; eassumption.
  - intros k f1 c1 head H1' Hh. destruct (Hheads _ _ Hh) as (t & Ht & ->).
    now apply tx_served_process.
  - lia.
  - rewrite length_map. lia.
Qed.
End serve.

(** ** Claims *)

Definition tx_queue : virtio_queue :=
  {| q_num := 4; q_ready := 1; q_desc := 0x1000; q_avail := 0x1100;
     q_used := 0x1200; q_last_avail_idx := 0 |}.

Definition idle_cond (ev : list io_event) : cond :=
  {| co_mmio := virtio_mmio_init (cond_virtio_init {| cb_fd := 1 |});
     co_out := []; co_io := ev |}.

(** A connected console whose transmit queue is set up. *)
Definition demo_cond (ev : list io_event) : cond :=
  on_cond_vdev (set_queues [fresh_queue 256; tx_queue]) (cond_connect (idle_cond ev)).

Definition tx_desc : virtio_desc :=
  {| d_addr := 0x1040; d_len := 3; d_flags := 0; d_next := 0 |}.

Definition tx_memory : list Z :=
  encode_desc tx_desc ++ replicate 48 0 ++ [104; 105; 10] ++ replicate 189 0
  ++ [0; 0] ++ virtio_store_le16 1 ++ virtio_store_le16 0 ++ replicate 250 0
  ++ replicate 64 0.

Definition tx_fabric : uio_state := uio_over 0x1000 (replicate 1024 0) tx_memory.

Definition demo_tx : tx_request :=
  {| t_head := 0; t_segs := []; t_last := (tx_desc, [104; 105; 10]) |}.

Ltac closed_le := vm_compute; first [reflexivity | discriminate].
Ltac demo_range := split; [closed_le | split; closed_le].

Lemma demo_cond_ok ev : cond_ok divisible (demo_cond ev).
Proof.
  assert (divisible COND_QUEUE_SIZE) as Hd by discriminate.
  destruct (cond_connect_ok divisible (idle_cond ev) Hd) as [[[] ? ? ?] ? ? ? ?].
  split; try assumption.
  - split; try assumption. split; try assumption.
    repeat (apply Forall_cons_2 || apply Forall_nil_2); split; decided.
  - repeat (apply Forall_cons_2 || apply Forall_nil_2); discriminate.
Qed.

(** The state in which a notification of the transmit queue sends [ts]. *)
Record tx_ready (requests fuel : nat) (c : cond) (m : mem) (ts : list tx_request) (u0 : Z)
  : Prop := {
  tr_ok : cond_ok divisible c;
  tr_io : Forall benign (co_io c);
  tr_queue : q_ready (cond_queue 1 c) <> 0;
  tr_rings : rings_ok m (cond_queue 1 c);
  tr_apart : tx_independent m (cond_queue 1 c) ts;
  tr_width : in_width 16 u0;
  tr_used : mem_at m (q_used (cond_queue 1 c) + 2) (virtio_store_le16 u0);
  tr_fuel : Forall (fun t => (length (t_segs t) < fuel)%nat) ts;
  tr_requests : (length ts < requests)%nat;
}.

(** The console [c'] and guest memory [m'] after them. *)
Record tx_done (q : virtio_queue) (out0 : list Z) (ts : list tx_request) (u0 : Z) (m : mem)
    (c' : cond) (m' : mem) : Prop := {
  td_out : co_out c' = out0 ++ concat (map t_output ts);
  td_cursor : cond_queue 1 c' = cursor_to q (u16 (q_last_avail_idx q + Z.of_nat (length ts)));
  td_index : mem_at m' (q_used q + 2) (virtio_store_le16 (u16 (u0 + Z.of_nat (length ts))));
  td_used : forall j t, ts !! j = Some t ->
    mem_at m' (used_slot q (u16 (u0 + Z.of_nat j)))
           (virtio_store_le32 (t_head t) ++ virtio_store_le32 (zlen (t_output t)));
  td_irq : ts <> [] ->
    has_bit (v_interrupt_status (m_vdev (co_mmio c'))) VIRTIO_INTERRUPT_VRING = true;
  td_agree : agree (used_region q) m m';
}.

Lemma cond_notify_id c raw_value :
  {| co_mmio := virtio_mmio_write (co_mmio c) VIRTIO_MMIO_QUEUE_NOTIFY raw_value;
     co_out := co_out c; co_io := co_io c |} = c.
Proof. now destruct c. Qed.

Lemma cond_raise_bit c :
  has_bit (v_interrupt_status (m_vdev (co_mmio (cond_raise_vring c)))) VIRTIO_INTERRUPT_VRING
  = true.
Proof.
  unfold has_bit. cbn. unfold VIRTIO_INTERRUPT_VRING. apply negb_true_iff, Z.eqb_neq. intros E0.
  apply (f_equal (fun x => Z.testbit x 0)) in E0.
  rewrite Z.land_spec, Z.lor_spec, orb_true_r in E0. discriminate.
Qed.

Lemma tx_start {F} `{HR : RamFabric F} requests fuel f c ts u0 :
  ram_ok f -> tx_ready requests fuel c (peek f) ts u0 ->
  tx_served (peek f) (cond_queue 1 c) ts (co_out c) u0 0 f c.
Proof.
  intros Hf [Hc Hio _ _ _ Hu0 Hu _ _].
  split; try assumption; [apply agree_refl | | | | intros; lia].
  - rewrite Z.add_0_r, u16_small by apply (cond_queue_wf divisible c 1 Hc ltac:(lia)).
    now destruct (cond_queue 1 c).
  - cbn. now rewrite app_nil_r.
  - rewrite Z.add_0_r, u16_small by assumption. assumption.
Qed.

(** A notification of the transmit queue, on any fabric over quiescent memory. *)
Lemma tx_kick {F} `{HR : RamFabric F} requests fuel f c ts u0 len :
  ram_ok f -> tx_ready requests fuel c (peek f) ts u0 ->
  exists f' c',
    cond_mmio_write requests fuel VIRTIO_MMIO_QUEUE_NOTIFY 1 len (f, c)
      = Done (true, (f', c')) /\ ram_ok f' /\
    (ts <> [] -> exists f0, ram_ok f0 /\ fabric_raise_irq f0 = Done (true, f')) /\
    tx_done (cond_queue 1 c) (co_out c) ts u0 (peek f) c' (peek f').
Proof.
  intros Hf Hr. pose proof (tx_start requests fuel f c ts u0 Hf Hr) as Hse.
  destruct Hr as [Hc Hio Hrdy Hro Hin Hu0 Hu Hfuel Hreq]. set (q := cond_queue 1 c) in *.
  destruct (wp_elim (cond_mmio_write requests fuel VIRTIO_MMIO_QUEUE_NOTIFY 1 len) (f, c)
    (fun r s => r = true /\ ram_ok (fst s) /\
      (ts <> [] -> exists f0, ram_ok f0 /\ fabric_raise_irq f0 = Done (true, fst s)) /\
      exists f1 c1, snd s = (if (0 <? length ts)%nat then cond_raise_vring c1 else c1) /\
      peek (fst s) ≡m peek f1 /\
      tx_served (peek f) q ts (co_out c) u0 (length ts) f1 c1))
    as (r & [f' c'] & E & -> & Hf' & Hraise & f1 & c1 & Ec & Hp & Hfin).
  - unfold cond_mmio_write. rewrite wpx_bind, wpx_modify. cbn [fst snd].
    rewrite cond_notify_id, wpx_check. cbn [Z.eqb VIRTIO_MMIO_QUEUE_NOTIFY VIRTIO_MMIO_STATUS
      VIRTIO_MMIO_INTERRUPT_ACK Pos.eqb andb].
    rewrite wpx_ret, wpx_check, wpx_ret, wpx_check.
    unfold cond_virtio_notify_queue. change (COND_QUEUE_COUNT <=? u32 1) with false.
    cbn iota. rewrite wpx_bind, wpx_gets. cbn [fst snd].
    change (Z.to_nat (u32 1)) with 1%nat. fold q.
    rewrite (proj2 (Z.eqb_neq _ _) Hrdy). change (u32 1 =? 0) with false. cbn iota.
    rewrite wpx_try.
    wpuse (tx_served_all fuel (peek f) q ts (co_out c) u0); try eassumption.
    intros r [f1 c1] [-> Hfin]. cbn [fst snd] in *.
    destruct (Nat.ltb_spec 0 (length ts)) as [Hlt|Hge].
    + wpsimpl. cbn [fst snd].
      destruct (wp_elim _ _ _ (ram_raise f1 (ts_fab _ _ _ _ _ _ _ _ Hfin)))
        as (r & f2 & Er & -> & Hp2 & Hf2).
      unfold wpx at 1. rewrite Er. wpsimpl. split; [reflexivity|]. split; [exact Hf2|].
      split; [|eauto]. intros _. exists f1. split; [apply Hfin | exact Er].
    + unfold cond_ack_notify. wpsimpl. cbn [fst snd].
      destruct (has_bit _ _); wpsimpl; [wpuse ram_raise | wpuse ram_lower]; try apply Hfin;
        intros r f2 (-> & Hp2 & Hf2); wpsimpl; (split; [reflexivity|]; split; [exact Hf2|];
        split; [|eauto]; intros Hne; destruct ts; [easy | cbn in Hge; lia]).
  - cbn [fst snd] in *. subst c'. destruct Hfin. exists f'. eexists.
    split; [exact E|]. split; [exact Hf'|]. split; [exact Hraise|].
    split; [| | now rewrite Hp | | | eapply agree_proper; eassumption].
    + transitivity (co_out c1); [now destruct (0 <? _)%nat|]. now rewrite ts_out0, firstn_all.
    + rewrite <- ts_queue0. now destruct (0 <? _)%nat.
    + intros j t Hj. rewrite Hp. apply ts_done0; [|assumption]. now apply lookup_lt_Some in Hj.
    + intros Hne. destruct ts; [easy|]. apply cond_raise_bit.
Qed.

(** Everything transmitted appears once, in order. When the guest notifies the
    transmit queue with any number of chains pending, the daemon returns success and
    the console output grows by the concatenation, in ring order, of the
    device-readable bytes of the chains; each chain is published in the used ring
    with the number of bytes taken, the cursor reaches the available index, the
    interrupt is pending, and only used-ring bytes of guest memory changed. *)
Theorem console_kick_transmits {F} `{HR : RamFabric F} requests fuel f c ts u0 len :
  ram_ok f -> cond_ok divisible c -> Forall benign (co_io c) ->
  q_ready (cond_queue 1 c) <> 0 -> rings_ok (peek f) (cond_queue 1 c) ->
  tx_independent (peek f) (cond_queue 1 c) ts ->
  in_width 16 u0 ->
  mem_at (peek f) (q_used (cond_queue 1 c) + 2) (virtio_store_le16 u0) ->
  Forall (fun t => (length (t_segs t) < fuel)%nat) ts ->
  ts <> [] -> (length ts < requests)%nat ->
  exists f' c',
    cond_mmio_write requests fuel VIRTIO_MMIO_QUEUE_NOTIFY 1 len (f, c)
      = Done (true, (f', c')) /\
    co_out c' = co_out c ++ concat (map t_output ts) /\
    cond_queue 1 c' = cursor_to (cond_queue 1 c)
      (u16 (q_last_avail_idx (cond_queue 1 c) + Z.of_nat (length ts))) /\
    mem_at (peek f') (q_used (cond_queue 1 c) + 2)
           (virtio_store_le16 (u16 (u0 + Z.of_nat (length ts)))) /\
    (forall j t, ts !! j = Some t ->
       mem_at (peek f') (used_slot (cond_queue 1 c) (u16 (u0 + Z.of_nat j)))
              (virtio_store_le32 (t_head t) ++ virtio_store_le32 (zlen (t_output t)))) /\
    has_bit (v_interrupt_status (m_vdev (co_mmio c'))) VIRTIO_INTERRUPT_VRING = true /\
    agree (used_region (cond_queue 1 c)) (peek f) (peek f').
Proof.
  intros Hf Hc Hio Hrdy Hro Hin Hu0 Hu Hfuel Hne Hreq.
  destruct (tx_kick requests fuel f c ts u0 len Hf) as (f' & c' & E & _ & _ & []); [now split|].
  exists f', c'. auto 8.
Qed.

Lemma demo_tx_independent : tx_independent (uio_peek tx_fabric) tx_queue [demo_tx].
Proof.
  split; [|closed_le | now exists 16384]. intros m Hag.
  assert (forall a data, 0x1000 <= a -> a + zlen data <= 0x1200 ->
    slice (a - 0x1000) (zlen data) tx_memory = data -> mem_at m a data) as Hat.
  { intros a data Ha Hl E. eapply mem_at_agree; [|exact Hag | now apply uio_over_mem_at].
    intros x Hx [Hu _]. change (q_used tx_queue) with 0x1200 in Hu. lia. }
  split; [apply Hat; [closed_le | closed_le | vm_compute; reflexivity]|].
  intros [|j] t Ht; [|easy]. injection Ht as <-.
  split; [decided|]. split; [apply Hat; [closed_le | closed_le | vm_compute; reflexivity]|].
  split; [|split; [|reflexivity]].
  - split; [|reflexivity]. split; [split; decided|]. split; [demo_range|].
    apply Hat; [closed_le | closed_le | vm_compute; reflexivity].
  - constructor; [|constructor]. split; [decided|]. split; [reflexivity|].
    split; [demo_range | apply Hat; [closed_le | closed_le | vm_compute; reflexivity]].
Qed.

Lemma console_kick_transmits_witness :
  exists f' c', cond_mmio_write 2 1 VIRTIO_MMIO_QUEUE_NOTIFY 1 4
      (tx_fabric, demo_cond [IoShort 1; IoIntr]) = Done (true, (f', c')) /\
    co_out c' = [104; 105; 10] /\
    mem_at (uio_peek f') 0x1204 (virtio_store_le32 0 ++ virtio_store_le32 3).
Proof.
  destruct (console_kick_transmits (HR := uio_ram) 2 1 tx_fabric
    (demo_cond [IoShort 1; IoIntr]) [demo_tx] 0 4) as (f' & c' & E & Ho & _ & _ & Hd & _).
  - apply uio_over_inv; decided.
  - apply demo_cond_ok.
  - repeat constructor; cbn; lia.
  - discriminate.
  - split; [reflexivity | demo_range | demo_range | apply uio_over_mapped; closed_le].
  - exact demo_tx_independent.
  - decided.
  - apply uio_over_mem_at; [closed_le | vm_compute; reflexivity].
  - repeat constructor.
  - discriminate.
  - cbn. lia.
  - exists f', c'. split; [exact E|]. split; [exact Ho|].
    apply (Hd 0%nat demo_tx eq_refl).
Defined.

(** Buffers the guest posts for input stay pending. A notification of the
    receive queue, of a queue that does not exist or of one that is not ready
    changes neither the device nor guest memory; the interrupt line is set to the
    pending state. *)
Theorem console_rx_untouched {F} `{HR : RamFabric F} requests fuel f c queue_index :
  ram_ok f -> 0 <= queue_index ->
  queue_index = 0 \/ COND_QUEUE_COUNT <= queue_index \/
    q_ready (cond_queue (Z.to_nat queue_index) c) = 0 ->
  exists f', cond_virtio_notify_queue requests fuel queue_index (f, c)
      = Done (true, (f', c)) /\ peek f' ≡m peek f /\ ram_ok f' /\
    (has_bit (v_interrupt_status (m_vdev (co_mmio c))) VIRTIO_INTERRUPT_VRING = true ->
       fabric_raise_irq f = Done (true, f')) /\
    (has_bit (v_interrupt_status (m_vdev (co_mmio c))) VIRTIO_INTERRUPT_VRING = false ->
       fabric_lower_irq f = Done (true, f')).
Proof.
  intros Hf Hq Hcase.
  assert (cond_virtio_notify_queue requests fuel queue_index (f, c) = cond_ack_notify (f, c))
    as ->.
  { unfold cond_virtio_notify_queue. destruct (COND_QUEUE_COUNT <=? queue_index) eqn:E;
      [reflexivity|]. unfold bind, gets. cbn [snd].
    destruct (q_ready _ =? 0) eqn:E1; [reflexivity|].
    destruct (queue_index =? 0) eqn:E2; [reflexivity|]. lia. }
  unfold cond_ack_notify, bind, gets, liftF, zoom. cbn [fst snd].
  destruct (has_bit _ _).
  - destruct (wp_elim _ _ _ (ram_raise f Hf)) as (r & f' & E & -> & Hp & Hf').
    cbn [fst snd]. rewrite E. exists f'. split; [reflexivity|].
    split; [assumption|]. split; [assumption|]. now split.
  - destruct (wp_elim _ _ _ (ram_lower f Hf)) as (r & f' & E & -> & Hp & Hf').
    cbn [fst snd]. rewrite E. exists f'. split; [reflexivity|].
    split; [assumption|]. split; [assumption|]. now split.
Qed.

Lemma console_rx_untouched_witness :
  exists f', cond_virtio_notify_queue 2 1 0 (tx_fabric, demo_cond [])
      = Done (true, (f', demo_cond [])) /\ uio_peek f' ≡m uio_peek tx_fabric.
Proof.
  destruct (console_rx_untouched (HR := uio_ram) 2 1 tx_fabric (demo_cond []) 0)
    as (f' & E & Hp & _).
  - apply uio_over_inv; decided.
  - lia.
  - now left.
  - exists f'. split; [exact E | exact Hp].
Defined.

(** C35: a cyclic transmit chain is never left. The walk has no bound on the number
    of descriptors: on a descriptor that links to itself and contributes no bytes
    it runs for ever, whatever number of iterations it is given. *)
Theorem console_cycle_diverges {F} `{HR : RamFabric F} fuel f c d index :
  ram_ok f -> desc_at (peek f) (cond_queue 1 c) index d ->
  has_bit (d_flags d) VRING_DESC_F_NEXT = true -> d_next d = index ->
  has_bit (d_flags d) VRING_DESC_F_WRITE = true \/ d_len d = 0 ->
  process_tx_chain fuel 1 index (f, c) = NoFuel.
Proof.
  intros Hf Hd Hn Hnext Hempty. unfold process_tx_chain. generalize 0 as total.
  revert f Hf Hd. induction fuel as [|fuel IH]; intros f Hf Hd total; [reflexivity|].
  cbn [tx_loop]. pose proof Hd as (Hw & Ha & Hm).
  destruct (wp_elim _ _ _ (virtio_read_desc_ram (cond_queue 1 c) index d f Hf Hw Ha Hm))
    as (r & f' & E & -> & Hp & Hf').
  unfold bind at 1, gets at 1. cbn [snd].
  unfold try_bind at 1, bind at 1, liftF at 1, zoom at 1. cbn [fst snd]. rewrite E.
  replace (negb (has_bit (d_flags d) VRING_DESC_F_WRITE) && negb (d_len d =? 0)) with false.
  2:{ destruct Hempty as [-> | ->]; [reflexivity | now rewrite andb_false_r]. }
  unfold try_bind, bind, ret. rewrite Hn. cbn [negb]. rewrite Hnext. apply IH; [assumption|].
  eapply desc_at_proper; [symmetry; exact Hp | assumption].
Qed.

Definition cycle_desc : virtio_desc :=
  {| d_addr := 0x1040; d_len := 0; d_flags := VRING_DESC_F_NEXT; d_next := 0 |}.

Lemma console_cycle_diverges_witness :
  process_tx_chain 1000 1 0
    (uio_over 0x1000 (replicate 1024 0) (encode_desc cycle_desc), demo_cond []) = NoFuel.
Proof.
  apply (console_cycle_diverges (HR := uio_ram) 1000
    (uio_over 0x1000 (replicate 1024 0) (encode_desc cycle_desc)) (demo_cond [])
    cycle_desc 0).
  - apply uio_over_inv; decided.
  - split; [split; decided|]. split; [demo_range|].
    apply uio_over_mem_at; [closed_le | vm_compute; reflexivity].
  - reflexivity.
  - reflexivity.
  - now right.
Defined.

(** The number of rows does not reach a guest behind the register mirror. The
    configuration field [rows] (16 bits at offset 2) reads 25 through
    [virtio_mmio_read], but the mirror publishes 32-bit words read at offsets that
    are multiples of 4, and the word at offset 0 is just [cols]: the page shows 0. *)
Theorem console_rows_unpublished requests fuel path (f : uio_state) c :
  uio_ok f -> cond_ok divisible c -> 0x200 <= um_size (us_mmio f) ->
  cond_mmio_read c (VIRTIO_MMIO_CONFIG + 2) 2 = 25 /\
  exists s' pg',
    refresh_read_registers (cond_fabric_init_device requests fuel path) (f, c)
      = Done (tt, s') /\
    um_addr (us_mmio (fst s')) = Some pg' /\
    virtio_load_le16 (slice VIRTIO_MMIO_CONFIG 2 pg') = 80 /\
    virtio_load_le16 (slice (VIRTIO_MMIO_CONFIG + 2) 2 pg') = 0.
Proof.
  intros Hf Hc Hsz. pose proof (ck_ops _ _ Hc) as Hops. split.
  { unfold cond_mmio_read, virtio_mmio_read, register_value. cbn. unfold config_read.
    now rewrite Hops. }
  destruct (uo_mmio _ Hf) as [pg0 Hm0].
  set (dev := cond_fabric_init_device requests fuel path).
  destruct (wp_elim _ _ _ (refresh_ok dev cond_mmio_read ltac:(eexists; split; reflexivity)
    (f, c) pg0 Hm0 ltac:(vm_compute; split; [discriminate | reflexivity])))
    as ([] & s' & E & [_ _ (pg & pg' & Hm & Hm' & Hl & Hs & _)]).
  cbn [fst snd] in *. pose proof (mo_size _ _ Hm) as Hlen. rewrite Hlen in Hsz.
  exists s', pg'. split; [exact E|]. split; [apply Hm'|].
  assert (slice VIRTIO_MMIO_CONFIG 4 pg' = [80; 0; 0; 0]) as Hword.
  { rewrite Hs.
    - unfold cond_mmio_read, virtio_mmio_read, register_value. cbn. unfold config_read.
      now rewrite Hops.
    - unfold published, config_words, window. apply orb_true_iff. right.
      unfold uio_size. cbn [fst fd_size dev cond_fabric_init_device].
      rewrite Hlen. unfold VIRTIO_MMIO_CONFIG. change (256 mod 4 =? 0) with true. lia. }
  unfold slice, VIRTIO_MMIO_CONFIG in *.
  change (Z.to_nat 256) with 256%nat in *. change (Z.to_nat (256 + 2)) with (256 + 2)%nat.
  rewrite <- drop_drop. remember (drop 256 pg') as tl eqn:Et. clear Et.
  change (Z.to_nat 4) with 4%nat in Hword. change (Z.to_nat 2) with 2%nat.
  destruct tl as [|b0 [|b1 [|b2 [|b3 tl]]]]; try discriminate Hword.
  injection Hword as -> -> -> ->. split; reflexivity.
Qed.

Lemma console_rows_unpublished_witness :
  cond_mmio_read (demo_cond []) (VIRTIO_MMIO_CONFIG + 2) 2 = 25 /\
  exists s' pg',
    refresh_read_registers (cond_fabric_init_device 1 1 "uio:/dev/uio0")
      (tx_fabric, demo_cond []) = Done (tt, s') /\
    um_addr (us_mmio (fst s')) = Some pg' /\
    virtio_load_le16 (slice VIRTIO_MMIO_CONFIG 2 pg') = 80 /\
    virtio_load_le16 (slice (VIRTIO_MMIO_CONFIG + 2) 2 pg') = 0.
Proof.
  apply (console_rows_unpublished 1 1 "uio:/dev/uio0" tx_fabric (demo_cond [])).
  - apply uio_over_inv with (quiet := true); decided.
  - apply demo_cond_ok.
  - vm_compute. discriminate.
Defined.

(** A sequence of register writes by the guest. *)
Fixpoint cond_session {F} `{Fabric F} (requests fuel : nat) (ws : list (Z * Z))
  : M (F * cond) unit :=
  match ws with
  | [] => ret tt
  | (offset, value) :: ws =>
      _ ← cond_mmio_write requests fuel offset value 4;
      cond_session requests fuel ws
  end.

(** C32: the console cannot be driven into undefined behaviour. On any fabric, with
    any guest memory and any output behaviour, any sequence of register writes after
    a connection that programs no queue size with zero low 16 bits performs no
    undefined operation and keeps the device well formed. *)
Theorem console_session_safe {F} `{HS : FabricSafe F} requests fuel c f ws :
  fab_ok f ->
  Forall (fun w => w.1 = VIRTIO_MMIO_QUEUE_NUM -> u16 (u32 w.2) <> 0) ws ->
  wlp (cond_session requests fuel ws) (f, cond_connect c) (fun _ s =>
    fab_ok (fst s) /\ cond_ok divisible (snd s)).
Proof.
  intros Hf Hws.
  assert (cond_ok divisible (cond_connect c)) as Hc
    by (apply cond_connect_ok; discriminate).
  revert f Hf Hc. generalize (cond_connect c) as c'.
  induction ws as [|[offset value] ws IH]; intros c' f Hf Hc; cbn [cond_session].
  { now rewrite wpx_ret. }
  apply Forall_cons_iff in Hws as [Hw Hws]. rewrite wpx_bind.
  wpuse cond_mmio_write_safe; [assumption | assumption | exact Hw |].
  intros _ [f1 c1] [Hf1 Hc1]. now apply IH.
Qed.

Lemma console_session_safe_witness :
  wlp (cond_session (F := uio_state) 2 4
         [(VIRTIO_MMIO_QUEUE_SEL, 1); (VIRTIO_MMIO_QUEUE_NUM, 4);
          (VIRTIO_MMIO_QUEUE_READY, 1); (VIRTIO_MMIO_QUEUE_NOTIFY, 1)])
    (tx_fabric, cond_connect (idle_cond [IoFail]))
    (fun _ s => v_queue_count (m_vdev (co_mmio (snd s))) = 2).
Proof.
  eapply wpx_mono.
  - apply (console_session_safe (HS := uio_safe)).
    + apply uio_over_inv; decided.
    + repeat constructor; cbn; intros; discriminate.
  - cbn. intros _ s [_ Hc]. apply Hc.
Defined.
