(* ===== verification/VirtioBlk.v ===== *)
(** * The virtio-blk device

    The device half of [src/drivers/virtio-blkd.c]: feature and configuration
    callbacks, request processing, queue notification, and the MMIO binding.
    Timing counters and log output, which influence nothing else, are left out;
    the environment switch [CHIPLETS_BLKD_DIRECT_READ] is the parameter
    [direct_read]. *)

From S2P Require Import Prelude Endian Fabric Virtio VirtioMmio QueueService.
From S2P Require Import Posix BlockBackend.

#[local] Open Scope Z_scope.
#[local] Open Scope c_scope.

Definition BLKD_SECTOR_SIZE : Z := 512.
Definition BLKD_QUEUE_SIZE : Z := 256.
Definition BLKD_MAX_SEG_SIZE : Z := 256 * 1024.
Definition BLKD_MAX_SEGMENTS : Z := 128.

(** [linux/virtio_ids.h], [linux/virtio_blk.h], [linux/virtio_config.h]. *)
Definition VIRTIO_ID_BLOCK : Z := 2.
Definition VIRTIO_BLK_F_SIZE_MAX : Z := 1.
Definition VIRTIO_BLK_F_SEG_MAX : Z := 2.
Definition VIRTIO_BLK_F_BLK_SIZE : Z := 6.
Definition VIRTIO_BLK_F_FLUSH : Z := 9.
Definition VIRTIO_F_VERSION_1 : Z := 32.
Definition VIRTIO_F_ACCESS_PLATFORM : Z := 33.
Definition VIRTIO_BLK_T_IN : Z := 0.
Definition VIRTIO_BLK_T_OUT : Z := 1.
Definition VIRTIO_BLK_T_FLUSH : Z := 4.
Definition VIRTIO_BLK_S_OK : Z := 0.
Definition VIRTIO_BLK_S_IOERR : Z := 1.
Definition VIRTIO_BLK_S_UNSUPP : Z := 2.
Definition UINT64_MAX : Z := 2 ^ 64 - 1.

(** A heap pointer: null, an allocated block with its contents, or an
    indeterminate value. *)
Inductive heap_ptr : Type :=
| PNull
| PBlock (contents : list Z)
| PWild.

(** [struct blkd_virtio_device] without its embedded [vdev] and [queue], which
    are the [virtio_device] that carries this record behind [opaque]. *)
Record blkd_virtio_device : Type := {
  bd_backend : blkd_block_backend;
  bd_capacity_sectors : Z;
  bd_io_buf : heap_ptr;
  bd_io_buf_size : Z;
}.

(** [struct blkd_fabric_binding]: the device and its MMIO transport; with the
    host resources the daemon uses. *)
Record blkd : Type := {
  bk_mmio : virtio_mmio blkd_virtio_device;
  bk_host : host;
}.

Definition blkd_dev (b : blkd) : blkd_virtio_device :=
  v_opaque (m_vdev (bk_mmio b)).

(** [dev->queue], the storage [vdev.queues] points to. *)
Definition blkd_queue (b : blkd) : virtio_queue :=
  v_queues (m_vdev (bk_mmio b)) !!! 0%nat.

(** ** Updates *)

Definition set_opaque {D} (d : D) (v : virtio_device D) : virtio_device D :=
  {| v_device_id := v_device_id v; v_vendor_id := v_vendor_id v;
     v_queue_count := v_queue_count v; v_queue_size := v_queue_size v;
     v_queues := v_queues v; v_driver_features := v_driver_features v;
     v_status := v_status v; v_interrupt_status := v_interrupt_status v;
     v_config_generation := v_config_generation v; v_opaque := d;
     v_ops := v_ops v |}.

Definition on_vdev (f : virtio_device blkd_virtio_device ->
                        virtio_device blkd_virtio_device) (b : blkd) : blkd :=
  {| bk_mmio := set_vdev (f (m_vdev (bk_mmio b))) (bk_mmio b);
     bk_host := bk_host b |}.

Definition set_blkd_host (h : host) (b : blkd) : blkd :=
  {| bk_mmio := bk_mmio b; bk_host := h |}.

Definition set_io_buf (p : heap_ptr) (size : Z) (b : blkd) : blkd :=
  on_vdev (fun v => set_opaque
    {| bd_backend := bd_backend (v_opaque v);
       bd_capacity_sectors := bd_capacity_sectors (v_opaque v);
       bd_io_buf := p; bd_io_buf_size := size |} v) b.

Definition on_host {A} (m : M host A) : M blkd A := zoom bk_host set_blkd_host m.

(** ** Device callbacks *)

Definition get_features (_ : blkd_virtio_device) : Z :=
  Z.lor (Z.lor (Z.lor (Z.lor (Z.lor
    (Z.shiftl 1 VIRTIO_BLK_F_SIZE_MAX) (Z.shiftl 1 VIRTIO_BLK_F_SEG_MAX))
    (Z.shiftl 1 VIRTIO_BLK_F_BLK_SIZE)) (Z.shiftl 1 VIRTIO_BLK_F_FLUSH))
    (Z.shiftl 1 VIRTIO_F_VERSION_1)) (Z.shiftl 1 VIRTIO_F_ACCESS_PLATFORM).

(** Offsets in [struct virtio_blk_config]: [capacity] 0, [size_max] 8,
    [seg_max] 12, [blk_size] 20. *)
Definition get_config (dev : blkd_virtio_device) (offset _len : Z) : Z :=
  if offset =? 0 then u32 (bd_capacity_sectors dev)
  else if offset =? 0 + 4 then u32 (Z.shiftr (bd_capacity_sectors dev) 32)
  else if offset =? 8 then BLKD_MAX_SEG_SIZE
  else if offset =? 12 then BLKD_MAX_SEGMENTS
  else if offset =? 20 then BLKD_SECTOR_SIZE
  else 0.

Definition virtio_ops : virtio_device_ops blkd_virtio_device :=
  {| vo_get_features := Some get_features; vo_get_config := Some get_config;
     vo_reset := None |}.

(** [memset(dev, 0, ...)] of the embedded structures. *)
Definition zero_vdev {D} (d : D) (queues : list virtio_queue) : virtio_device D :=
  {| v_device_id := 0; v_vendor_id := 0; v_queue_count := 0; v_queue_size := 0;
     v_queues := queues; v_driver_features := 0; v_status := 0;
     v_interrupt_status := 0; v_config_generation := 0; v_opaque := d;
     v_ops := None |}.

Definition zero_queue : virtio_queue :=
  {| q_num := 0; q_ready := 0; q_desc := 0; q_avail := 0; q_used := 0;
     q_last_avail_idx := 0 |}.

(** The payload buffer and its size survive the re-initialization. *)
Definition blkd_virtio_init (dev : blkd_virtio_device)
    (backend : blkd_block_backend) : virtio_device blkd_virtio_device :=
  let opaque := {| bd_backend := backend;
                   bd_capacity_sectors := be_image_len backend / BLKD_SECTOR_SIZE;
                   bd_io_buf := bd_io_buf dev;
                   bd_io_buf_size := bd_io_buf_size dev |} in
  virtio_device_init (zero_vdev opaque []) VIRTIO_ID_BLOCK VIRTIO_VENDOR_ID_LOCAL
    1 BLKD_QUEUE_SIZE [zero_queue] opaque (Some virtio_ops).

(** ** The payload buffer *)

(** [realloc] of the payload buffer: fresh bytes are indeterminate. *)
Definition ensure_io_buf (len : Z) : M blkd bool := fun b =>
  let dev := blkd_dev b in
  if len <=? bd_io_buf_size dev then Done (true, b)
  else
    let grow old :=
      match h_alloc (bk_host b) with
      | false :: al => Done (false, set_blkd_host (set_alloc al (bk_host b)) b)
      | al =>
          Done (true,
            set_io_buf (PBlock (old ++ map (h_junk (bk_host b))
                                         (seq (length old) (Z.to_nat len - length old))))
                       len (set_blkd_host (set_alloc (tail al) (bk_host b)) b))
      end in
    match bd_io_buf dev with
    | PWild => UB
    | PNull => grow []
    | PBlock old => grow old
    end.

(** Storing [data] from the start of the buffer, and reading [len] bytes. No byte
    is accessed when the length is zero. *)
Definition io_buf_store (data : list Z) : M blkd unit := fun b =>
  match data with
  | [] => Done (tt, b)
  | _ :: _ =>
      match bd_io_buf (blkd_dev b) with
      | PBlock old =>
          if zlen data <=? zlen old
          then Done (tt, set_io_buf (PBlock (splice 0 data old))
                                    (bd_io_buf_size (blkd_dev b)) b)
          else UB
      | _ => UB
      end
  end.

Definition io_buf_load (len : Z) : M blkd (list Z) := fun b =>
  if len =? 0 then Done ([], b)
  else match bd_io_buf (blkd_dev b) with
       | PBlock old => if len <=? zlen old then Done (slice 0 len old, b) else UB
       | _ => UB
       end.

(** ** Request processing *)

Section requests.
Context {F : Type} `{Fabric F}.
Context (direct_read : bool).

Definition block_read (offset len : Z) : M (F * blkd) (bool * list Z) :=
  be ← gets (fun s => bd_backend (blkd_dev (snd s)));
  liftD (on_host (blkd_block_read be offset len)).

Definition block_write (offset : Z) (data : list Z) : M (F * blkd) bool :=
  be ← gets (fun s => bd_backend (blkd_dev (snd s)));
  liftD (on_host (blkd_block_write be offset data)).

(** A data descriptor of a read request: the new status. *)
Definition in_segment (offset data_len status : Z) (desc : virtio_desc)
  : M (F * blkd) Z :=
  if negb (has_bit (d_flags desc) VRING_DESC_F_WRITE) then ret VIRTIO_BLK_S_IOERR
  else if status =? VIRTIO_BLK_S_OK then
    dma_data ← (if direct_read
                then liftF (fabric_dma_map (d_addr desc) (d_len desc))
                else ret None);
    match dma_data with
    | Some p =>
        r ← block_read (u64 (offset + data_len)) (d_len desc);
        liftF (fabric_ptr_store p (snd r));;
        ret (if fst r then status else VIRTIO_BLK_S_IOERR)
    | None =>
        ok ← liftD (ensure_io_buf (d_len desc));
        if negb ok then ret VIRTIO_BLK_S_IOERR else
        r ← block_read (u64 (offset + data_len)) (d_len desc);
        liftD (io_buf_store (snd r));;
        if negb (fst r) then ret VIRTIO_BLK_S_IOERR else
        data ← liftD (io_buf_load (d_len desc));
        w ← liftF (fabric_dma_write (d_addr desc) data);
        ret (if w then status else VIRTIO_BLK_S_IOERR)
    end
  else ret status.

(** A data descriptor of a write request; [None] is [return false]. *)
Definition out_segment (offset data_len status : Z) (desc : virtio_desc)
  : M (F * blkd) (option Z) :=
  if has_bit (d_flags desc) VRING_DESC_F_WRITE then ret (Some VIRTIO_BLK_S_IOERR)
  else if status =? VIRTIO_BLK_S_OK then
    ok ← liftD (ensure_io_buf (d_len desc));
    if negb ok then ret None else
    payload ←? liftF (fabric_dma_read_into (d_addr desc) (d_len desc));
    liftD (io_buf_store payload);;
    data ← liftD (io_buf_load (d_len desc));
    w ← block_write (u64 (offset + data_len)) data;
    ret (Some (if w then status else VIRTIO_BLK_S_IOERR))
  else ret (Some status).

(** The chain walk after the header: the status descriptor, the status and
    the accumulated data length. *)
Fixpoint chain_loop (fuel : nat) (request_type offset : Z)
    (status data_len chain_seen index : Z)
  : M (F * blkd) (option (virtio_desc * Z * Z)) :=
  match fuel with
  | O => out_of_fuel
  | S fuel =>
      let chain_seen := u32 (chain_seen + 1) in
      q ← gets (fun s => blkd_queue (snd s));
      if q_num q <? chain_seen then ret None else
      desc ←? liftF (virtio_read_desc q index);
      if negb (has_bit (d_flags desc) VRING_DESC_F_NEXT)
      then ret (Some (desc, status, data_len))
      else if request_type =? VIRTIO_BLK_T_IN then
        status ← in_segment offset data_len status desc;
        chain_loop fuel request_type offset status
          (u32 (data_len + d_len desc)) chain_seen (d_next desc)
      else if request_type =? VIRTIO_BLK_T_OUT then
        status ←? out_segment offset data_len status desc;
        chain_loop fuel request_type offset status
          (u32 (data_len + d_len desc)) chain_seen (d_next desc)
      else
        chain_loop fuel request_type offset status data_len chain_seen
          (d_next desc)
  end.

Definition initial_status (request_type sector : Z) : Z :=
  if negb (request_type =? VIRTIO_BLK_T_IN)
     && negb (request_type =? VIRTIO_BLK_T_OUT)
     && negb (request_type =? VIRTIO_BLK_T_FLUSH)
  then VIRTIO_BLK_S_UNSUPP
  else if UINT64_MAX / BLKD_SECTOR_SIZE <? sector then VIRTIO_BLK_S_IOERR
  else VIRTIO_BLK_S_OK.

Definition request_offset (sector : Z) : Z :=
  if UINT64_MAX / BLKD_SECTOR_SIZE <? sector then 0
  else u64 (sector * BLKD_SECTOR_SIZE).

(** The end of [process_chain], after the walk: flush, then the status byte.
    [Some used_len]: the chain was processed and its status byte written. *)
Definition complete_request (request_type : Z) (status_desc : virtio_desc)
    (status data_len : Z) : M (F * blkd) (option Z) :=
  status ← (if request_type =? VIRTIO_BLK_T_FLUSH then
              ok ← liftD (on_host blkd_block_flush);
              ret (if ok then status else VIRTIO_BLK_S_IOERR)
            else ret status);
  let used_len :=
    if request_type =? VIRTIO_BLK_T_IN then u32 (data_len + 1) else 1 in
  ok ← liftF (fabric_dma_write (d_addr status_desc) [status]);
  ret (if ok then Some used_len else None).

Definition process_chain (fuel : nat) (head : Z) : M (F * blkd) (option Z) :=
  q ← gets (fun s => blkd_queue (snd s));
  header_desc ←? liftF (virtio_read_desc q head);
  if negb (has_bit (d_flags header_desc) VRING_DESC_F_NEXT) then ret None else
  header ←? liftF (fabric_dma_read_into (d_addr header_desc) 16);
  let request_type := virtio_load_le32 header in
  let sector := virtio_load_le64 (drop 8 header) in
  res ←? chain_loop fuel request_type (request_offset sector)
           (initial_status request_type sector) 0 0 (d_next header_desc);
  let '(status_desc, status, data_len) := res in
  complete_request request_type status_desc status data_len.

(** ** Notification *)

Definition blkd_ack_notify : M (F * blkd) bool :=
  pending ← gets (fun s => v_interrupt_status (m_vdev (bk_mmio (snd s))));
  if has_bit pending VIRTIO_INTERRUPT_VRING then liftF fabric_raise_irq
  else liftF fabric_lower_irq.

Definition bump_queue (b : blkd) : blkd :=
  on_vdev (fun v => set_queues (alter advance_cursor 0%nat (v_queues v)) v) b.

Definition raise_vring (b : blkd) : blkd :=
  on_vdev (fun v => set_interrupt
    (Z.lor (v_interrupt_status v) VIRTIO_INTERRUPT_VRING) v) b.

(** [requests] bounds the service loop, [fuel] the walk of one chain. *)
Definition blkd_virtio_notify_queue (requests fuel : nat) (queue : Z)
  : M (F * blkd) bool :=
  q ← gets (fun s => blkd_queue (snd s));
  if negb (queue =? 0) || (q_ready q =? 0) then blkd_ack_notify else
  used_any ←? service_loop blkd_queue bump_queue (process_chain fuel)
                           requests false;
  if used_any then
    (modify (fun s => (fst s, raise_vring (snd s))));;
    liftF fabric_raise_irq
  else blkd_ack_notify.

(** ** MMIO binding *)

Definition blkd_connect (b : blkd) : blkd :=
  {| bk_mmio := virtio_mmio_init
                  (blkd_virtio_init (blkd_dev b) (bd_backend (blkd_dev b)));
     bk_host := bk_host b |}.

Definition blkd_mmio_read (b : blkd) (offset len : Z) : Z :=
  virtio_mmio_read (bk_mmio b) offset len.

Definition blkd_mmio_write (requests fuel : nat) (offset raw_value _len : Z)
  : M (F * blkd) bool :=
  (modify (fun s => (fst s,
    {| bk_mmio := virtio_mmio_write (bk_mmio (snd s)) offset raw_value;
       bk_host := bk_host (snd s) |})));;
  check (if (offset =? VIRTIO_MMIO_STATUS) && (raw_value =? 0)
         then liftF fabric_lower_irq else ret true);
  check (if offset =? VIRTIO_MMIO_INTERRUPT_ACK
         then liftF fabric_lower_irq else ret true);
  check (if offset =? VIRTIO_MMIO_QUEUE_NOTIFY
         then blkd_virtio_notify_queue requests fuel (u32 raw_value)
         else ret true);
  ret true.

Definition blkd_fabric_ops (requests fuel : nat) : fabric_device_ops F blkd :=
  {| op_connect := Some blkd_connect; op_read := Some blkd_mmio_read;
     op_write := Some (blkd_mmio_write requests fuel) |}.

Definition blkd_fabric_init_device (requests fuel : nat) (socket_path : string)
  : fabric_device F blkd :=
  {| fd_name := "blkd"; fd_socket_path := socket_path; fd_addr := 0;
     fd_size := 0x200; fd_ops := Some (blkd_fabric_ops requests fuel) |}.
End requests.
