(* ===== verification/BlkSafety.v ===== *)
(** * Safety and termination of the block device

    Whatever the guest puts in its memory and however the fabric and the host
    file behave, serving the request queue performs no undefined operation, keeps
    the device state well formed, keeps the image inside its bounds, and walks
    every chain in a bounded number of steps. *)

From S2P Require Import Prelude Endian Fabric Virtio VirtioMmio QueueService.
From S2P Require Import Posix BlockBackend VirtioBlk LinuxUio.

#[local] Open Scope Z_scope.
#[local] Open Scope c_scope.

(** ** The device invariant *)

(** The payload buffer is the block its size field describes. *)
Definition io_buf_ok (p : heap_ptr) (size : Z) : Prop :=
  match p with
  | PNull => size = 0
  | PBlock contents => zlen contents = size /\ bytes contents
  | PWild => False
  end.

Record blkd_ok (b : blkd) : Prop := {
  bo_mmio : mmio_wf (bk_mmio b);
  bo_count : v_queue_count (m_vdev (bk_mmio b)) = 1;
  bo_qsize : v_queue_size (m_vdev (bk_mmio b)) = BLKD_QUEUE_SIZE;
  bo_ops : v_ops (m_vdev (bk_mmio b)) = Some virtio_ops;
  bo_buf : io_buf_ok (bd_io_buf (blkd_dev b)) (bd_io_buf_size (blkd_dev b));
  bo_size : in_width 32 (bd_io_buf_size (blkd_dev b));
  bo_image : image_ok (bd_backend (blkd_dev b)) (bk_host b);
  bo_junk : forall i, is_byte (h_junk (bk_host b) i);
}.

(** What processing a request may change: the payload buffer and the host. *)
Definition same_device (b b' : blkd) : Prop :=
  exists p size h, b' = set_blkd_host h (set_io_buf p size b).

(** The effect of a request on the image file: its length stays, and a
    read-only image, or any image under a request that does not write
    ([writes = false]), is left alone. *)
Record image_step (writes : bool) (b b' : blkd) : Prop := {
  is_length : zlen (h_file (bk_host b')) = zlen (h_file (bk_host b));
  is_kept : writes = false \/ be_readonly (bd_backend (blkd_dev b)) = true ->
            h_file (bk_host b') = h_file (bk_host b);
}.

(** A step of request processing. *)
Definition request_step (writes : bool) (b b' : blkd) : Prop :=
  blkd_ok b' /\ same_device b b' /\ image_step writes b b'.

Section steps.
Implicit Types b : blkd.

Lemma same_device_refl b : same_device b b.
Proof.
  exists (bd_io_buf (blkd_dev b)), (bd_io_buf_size (blkd_dev b)), (bk_host b).
  destruct b as [[[? ? ? ? ? ? ? ? ? [] ?] ? ? ?] ?]. reflexivity.
Qed.

Lemma same_device_trans b1 b2 b3 :
  same_device b1 b2 -> same_device b2 b3 -> same_device b1 b3.
Proof. intros (? & ? & ? & ->) (p & n & h & ->). now exists p, n, h. Qed.

Lemma same_device_queue b b' : same_device b b' -> blkd_queue b' = blkd_queue b.
Proof. now intros (? & ? & ? & ->). Qed.

Lemma same_device_backend b b' :
  same_device b b' -> bd_backend (blkd_dev b') = bd_backend (blkd_dev b).
Proof. now intros (? & ? & ? & ->). Qed.

Lemma request_step_refl writes b : blkd_ok b -> request_step writes b b.
Proof. split; [assumption|]. split; [apply same_device_refl | now split]. Qed.

Lemma request_step_trans writes b1 b2 b3 :
  request_step writes b1 b2 -> request_step writes b2 b3 ->
  request_step writes b1 b3.
Proof.
  intros (_ & S12 & [L12 K12]) (O3 & S23 & [L23 K23]).
  pose proof (same_device_backend _ _ S12) as E.
  split; [assumption|]. split; [eapply same_device_trans; eassumption|].
  split; [congruence|]. intros Hk. rewrite K23, K12; [reflexivity | exact Hk|].
  now rewrite E.
Qed.

Lemma queue_ok b : blkd_ok b -> queue_wf (blkd_queue b).
Proof.
  intros [[Hv _ _ _] Hc _ _ _ _ _ _]. destruct Hv. unfold blkd_queue.
  rewrite Hc in vw_length.
  destruct (v_queues (m_vdev (bk_mmio b))) as [|q qs] eqn:E; [easy|].
  now apply Forall_cons_iff in vw_queues as [? _].
Qed.

(** Replacing the buffer and the host resources. *)
Lemma request_step_set writes b p size h :
  blkd_ok b -> io_buf_ok p size -> in_width 32 size ->
  image_ok (bd_backend (blkd_dev b)) h -> h_junk h = h_junk (bk_host b) ->
  (writes = false \/ be_readonly (bd_backend (blkd_dev b)) = true ->
     h_file h = h_file (bk_host b)) ->
  request_step writes b (set_blkd_host h (set_io_buf p size b)).
Proof.
  intros [Hm Hc Hq Ho Hb Hs Hi Hj] Hp Hn Hh Ej Hk.
  split; [|split; [now exists p, size, h|]].
  - split; cbn; try assumption; [|now rewrite Ej].
    destruct Hm as [[] ? ? ?]. split; try assumption. split; assumption.
  - split; [|exact Hk]. cbn. destruct Hh as [-> _ _], Hi as [-> _ _]. reflexivity.
Qed.

(** The same when the buffer stays. *)
Lemma request_step_host writes b h :
  blkd_ok b -> image_ok (bd_backend (blkd_dev b)) h ->
  h_junk h = h_junk (bk_host b) ->
  (writes = false \/ be_readonly (bd_backend (blkd_dev b)) = true ->
     h_file h = h_file (bk_host b)) ->
  request_step writes b (set_blkd_host h b).
Proof.
  intros Hok Hh Ej Hk.
  replace (set_blkd_host h b) with
    (set_blkd_host h (set_io_buf (bd_io_buf (blkd_dev b))
                                 (bd_io_buf_size (blkd_dev b)) b)).
  - apply request_step_set; try assumption; apply Hok.
  - destruct b as [[[? ? ? ? ? ? ? ? ? [] ?] ? ? ?] ?]. reflexivity.
Qed.
End steps.

(** ** The payload buffer *)

Section buffer.
Implicit Types b : blkd.

Lemma map_junk_bytes (j : nat -> Z) n k :
  (forall i, is_byte (j i)) -> bytes (map j (seq n k)).
Proof.
  intros Hj. revert n. induction k as [|k IH]; intros n; constructor; auto.
  apply IH.
Qed.

Lemma ensure_io_buf_safe writes b len :
  blkd_ok b -> in_width 32 len ->
  wp (ensure_io_buf len) b (fun ok b' =>
    request_step writes b b' /\
    (ok = true -> len <= bd_io_buf_size (blkd_dev b'))).
Proof.
  intros Hok Hl. unfold wpx, ensure_io_buf.
  destruct (len <=? bd_io_buf_size (blkd_dev b)) eqn:E.
  { split; [now apply request_step_refl|lia]. }
  pose proof Hok as [_ _ _ _ Hb _ Hi Hj].
  assert (forall old, zlen old <= bd_io_buf_size (blkd_dev b) -> bytes old ->
    io_buf_ok (PBlock (old ++ map (h_junk (bk_host b))
      (seq (length old) (Z.to_nat len - length old)))) len) as Hgrow.
  { intros old Ho Hbo. split; [|apply Forall_app; split; [assumption | now apply map_junk_bytes]].
    unfold zlen in *. rewrite length_app, length_map, length_seq. lia. }
  assert (forall al old, zlen old <= bd_io_buf_size (blkd_dev b) -> bytes old ->
    request_step writes b (set_io_buf (PBlock (old ++ map (h_junk (bk_host b))
      (seq (length old) (Z.to_nat len - length old)))) len
      (set_blkd_host (set_alloc al (bk_host b)) b))) as Hset.
  { intros al old Ho Hbo.
    apply (request_step_set writes b _ len (set_alloc al (bk_host b))); auto.
    split; apply Hi. }
  assert (forall al, request_step writes b
    (set_blkd_host (set_alloc al (bk_host b)) b)) as Hfail.
  { intros al. apply request_step_host; auto. split; apply Hi. }
  destruct (bd_io_buf (blkd_dev b)) as [|old|]; cbn in Hb; [| |easy].
  - destruct (h_alloc (bk_host b)) as [|[] al];
      (split; [apply Hset || apply Hfail|]); try easy;
      unfold zlen; cbn; try constructor; lia.
  - destruct Hb as [Hlen Hbytes].
    destruct (h_alloc (bk_host b)) as [|[] al];
      (split; [apply Hset || apply Hfail|]); try easy; cbn; lia.
Qed.

Lemma io_buf_store_safe writes b data :
  blkd_ok b -> bytes data -> zlen data <= bd_io_buf_size (blkd_dev b) ->
  wp (io_buf_store data) b (fun _ b' =>
    request_step writes b b' /\
    bd_io_buf_size (blkd_dev b') = bd_io_buf_size (blkd_dev b) /\
    bk_host b' = bk_host b /\
    (forall len, len = zlen data -> io_buf_load len b' = Done (data, b'))).
Proof.
  intros Hok Hd Hl. unfold wpx, io_buf_store.
  pose proof Hok as [_ _ _ _ Hb Hs Hi _]. destruct data as [|x data].
  { split; [now apply request_step_refl|]. repeat split. now intros ? ->. }
  remember (x :: data) as d eqn:Ed.
  assert (0 < zlen d) as Hpos by (subst d; unfold zlen; cbn; lia). clear Ed.
  destruct (bd_io_buf (blkd_dev b)) as [|old|] eqn:Ep; cbn in Hb; [lia | | easy].
  destruct Hb as [Hlen Hbytes].
  rewrite (proj2 (Z.leb_le _ _)) by lia.
  assert (zlen (splice 0 d old) = zlen old) as Hsp by (apply zlen_splice; lia).
  split.
  - apply (request_step_set writes b _ _ (bk_host b)); auto.
    split; [congruence | now apply bytes_splice].
  - split; [reflexivity|]. split; [reflexivity|]. intros ? ->.
    unfold io_buf_load. rewrite (proj2 (Z.eqb_neq _ _)) by lia. cbn.
    rewrite Hsp, (proj2 (Z.leb_le _ _)) by lia.
    now rewrite slice_splice_same by lia.
Qed.
End buffer.

(** ** Image access *)

Section image.
Context {F : Type} `{Fabric F}.
Implicit Types (f : F) (b : blkd).

Lemma block_read_safe f b off len :
  blkd_ok b -> 0 <= off -> 0 <= len ->
  wp (block_read off len) (f, b) (fun r s =>
    fst s = f /\ request_step false b (snd s) /\
    bd_io_buf_size (blkd_dev (snd s)) = bd_io_buf_size (blkd_dev b) /\
    bytes (snd r) /\ zlen (snd r) <= len /\
    (fst r = true -> snd r = slice off len (h_file (bk_host b)) /\
                     zlen (snd r) = len)).
Proof.
  intros Hok Ho Hn. unfold block_read, on_host. wpsimpl. cbn [fst snd].
  wpuse block_read_any; [apply Hok | assumption | assumption|].
  intros [r data] h' (Hf & Hr & Hby & Hl & Ht). cbn [fst snd] in *.
  split; [reflexivity|]. split; [|split; [reflexivity|]].
  2:{ split; [assumption|]. split; [assumption|]. intros E.
      now destruct (Ht E) as (_ & ? & ?). }
  apply request_step_host; auto.
  - destruct (bo_image b Hok) as [? ? ?]. split; rewrite ?Hf; assumption.
  - now injection Hr.
Qed.

Lemma block_write_safe f b off data :
  blkd_ok b -> 0 <= off -> bytes data ->
  wp (block_write off data) (f, b) (fun _ s =>
    fst s = f /\ request_step true b (snd s)).
Proof.
  intros Hok Ho Hd. unfold block_write, on_host. wpsimpl. cbn [fst snd].
  wpuse block_write_any; [apply Hok | assumption|].
  intros r h' (Hr & Hc). cbn [fst snd].
  split; [reflexivity|]. destruct (bo_image b Hok) as [Hl Hm Hby].
  assert (h_junk h' = h_junk (bk_host b)) as Hj by now injection Hr.
  destruct Hc as [[Hf _]|(Hro & Hin & w & Hw & _ & Hf)].
  - apply request_step_host; auto. split; rewrite ?Hf; assumption.
  - unfold read_in_bounds in Hin.
    destruct (splice_prefix_image off w data (h_file (bk_host b)) Hd Hby Ho)
      as [Hb' Hl']; [lia|].
    apply request_step_host; auto.
    + split; rewrite ?Hf; congruence.
    + intros [?|?]; congruence.
Qed.

Lemma request_step_weaken b b' : request_step false b b' -> request_step true b b'.
Proof.
  intros (? & ? & [? Hk]). split; [assumption|]. split; [assumption|].
  split; [assumption|]. intros _. apply Hk. now left.
Qed.

Lemma request_step_writes writes b b' :
  request_step false b b' -> request_step writes b b'.
Proof. destruct writes; [apply request_step_weaken | easy]. Qed.
End image.

(** ** Segments and chains *)

Section chains.
Context {F : Type} `{FabricSafe F}.
Context (direct_read : bool).
Implicit Types (f : F) (b : blkd).

(** State after a step that starts in [b]. *)
Definition step_post (writes : bool) (b : blkd) (s : F * blkd) : Prop :=
  fab_ok (fst s) /\ request_step writes b (snd s).

Lemma step_post_trans writes b s1 s2 :
  step_post writes b s1 -> step_post writes (snd s1) s2 ->
  step_post writes b s2.
Proof.
  intros [_ H1] [Hf H2]. split; [assumption|].
  eapply request_step_trans; eassumption.
Qed.

(** A status byte. *)
Definition status_ok (status : Z) : Prop := 0 <= status <= 2.

Lemma in_segment_safe f b offset data_len status desc :
  fab_ok f -> blkd_ok b -> desc_wf desc -> status_ok status ->
  wp (in_segment direct_read offset data_len status desc) (f, b) (fun r s =>
    step_post false b s /\ status_ok r).
Proof.
  intros Hf Hb [Ha Hl _ _] Hst. unfold in_segment, status_ok, VIRTIO_BLK_S_IOERR in *.
  pose proof (u64_range (offset + data_len)) as Hoff. unfold in_width in Hoff.
  assert (step_post false b (f, b)) as Hrefl
    by (split; [exact Hf | now apply request_step_refl]).
  destruct (has_bit _ _); cbn [negb]; [|wpsimpl; split; [assumption | lia]].
  destruct (status =? VIRTIO_BLK_S_OK); [|wpsimpl; split; [assumption | lia]].
  rewrite wpx_bind. eapply wpx_mono with (Q := fun r s => fab_ok (fst s) /\ snd s = b /\
    forall p, r = Some p -> ptr_ok (fst s) p (d_len desc)).
  { destruct direct_read; wpsimpl; [|easy].
    wpuse fs_map; try assumption. now intros r f1 [? ?]. }
  intros [p|] [f1 b1] (Hf1 & E & Hp); cbn [fst snd] in *; subst b1; wpsimpl.
  - wpuse (block_read_safe f1 b); [assumption | lia | unfold in_width in Hl; lia|].
    intros [r data] [f2 b2] (E & Hs & _ & Hby & Hle & _). cbn [fst snd] in *.
    subst f2. wpsimpl. cbn [fst snd].
    wpuse fs_store; [eassumption | now apply Hp | assumption | assumption|].
    intros _ f2 Hf2. wpsimpl. split; [now split|]. destruct r; lia.
  - wpuse (ensure_io_buf_safe false); [assumption | assumption|].
    intros [] b1 [Hs1 He]; wpsimpl; cbn [negb fst snd]; wpsimpl;
      [|split; [now split | lia]].
    wpuse (block_read_safe f1 b1); [apply Hs1 | lia | unfold in_width in Hl; lia|].
    intros [r data] [f2 b2] (E & Hs2 & Esz & Hby & Hle & Ht). cbn [fst snd] in *.
    subst f2. wpsimpl. cbn [fst snd].
    wpuse (io_buf_store_safe false); [apply Hs2 | assumption | specialize (He eq_refl); lia|].
    intros _ b3 (Hs3 & _ & _ & Hload). cbn [fst snd].
    assert (request_step false b b3) as Hs
      by (do 2 (eapply request_step_trans; [eassumption|]); assumption).
    destruct r; cbn [negb]; wpsimpl; [|split; [now split | lia]].
    destruct (Ht eq_refl) as [_ Hz].
    rewrite (wpx_done _ _ _ _ _ _ (Hload _ (eq_sym Hz))). wpsimpl. cbn [fst snd].
    wpuse fs_write; try assumption; [now rewrite Hz|].
    intros w f4 Hf4. wpsimpl. split; [now split | destruct w; lia].
Qed.

Lemma out_segment_safe f b offset data_len status desc :
  fab_ok f -> blkd_ok b -> desc_wf desc -> status_ok status ->
  wp (out_segment offset data_len status desc) (f, b) (fun r s =>
    step_post true b s /\ forall st, r = Some st -> status_ok st).
Proof.
  intros Hf Hb [Ha Hl _ _] Hst. unfold out_segment, status_ok, VIRTIO_BLK_S_IOERR in *.
  pose proof (u64_range (offset + data_len)) as Hoff. unfold in_width in Hoff.
  assert (step_post true b (f, b)) as Hrefl
    by (split; [exact Hf | now apply request_step_refl]).
  destruct (has_bit _ _); wpsimpl; [split; [assumption | intros ? [= <-]; lia]|].
  destruct (status =? VIRTIO_BLK_S_OK); wpsimpl;
    [|split; [assumption | intros ? [= <-]; lia]].
  cbn [fst snd]. wpuse (ensure_io_buf_safe true); [assumption | assumption|].
  intros [] b1 [Hs1 He]; wpsimpl; cbn [negb fst snd]; wpsimpl; [|easy].
  wpuse fs_read_into; try assumption. intros [data|] f2 [Hf2 Hr]; [|easy].
  destruct (Hr data eq_refl) as [Hby Hz]. wpsimpl. cbn [fst snd].
  wpuse (io_buf_store_safe true); [apply Hs1 | assumption | specialize (He eq_refl); lia|].
  intros _ b3 (Hs3 & _ & _ & Hload). wpsimpl. cbn [fst snd].
  rewrite (wpx_done _ _ _ _ _ _ (Hload _ (eq_sym Hz))). wpsimpl. cbn [fst snd].
  wpuse block_write_safe; [apply Hs3 | lia | assumption|].
  intros w [f4 b4] [E Hs4]. cbn [fst snd] in *. subst f4. wpsimpl. split.
  - split; [assumption|]. do 2 (eapply request_step_trans; [eassumption|]). assumption.
  - intros ? [= <-]. destruct w; lia.
Qed.

(** Loop bound: enough iterations remain for a chain of [num] descriptors. *)
Definition enough (term : bool) (fuel : nat) (chain_seen : Z) (q : virtio_queue) : Prop :=
  term = true ->
  0 <= chain_seen <= q_num q /\ q_num q < 2 ^ 32 - 1 /\
  q_num q - chain_seen < Z.of_nat fuel.

(** The walk ends in a well-formed status descriptor and status. *)
Definition chain_post (writes : bool) (b : blkd)
    (r : option (virtio_desc * Z * Z)) (s : F * blkd) : Prop :=
  step_post writes b s /\
  forall d st dl, r = Some (d, st, dl) -> desc_wf d /\ status_ok st.

Lemma chain_loop_safe term fuel f b request_type offset status data_len
    chain_seen index :
  fab_ok f -> blkd_ok b -> status_ok status ->
  enough term fuel chain_seen (blkd_queue b) ->
  wpx term (chain_loop direct_read fuel request_type offset status data_len
                       chain_seen index) (f, b)
           (chain_post (request_type =? VIRTIO_BLK_T_OUT) b).
Proof.
  revert f b status data_len chain_seen index.
  induction fuel as [|fuel IH];
    intros f b status data_len chain_seen index Hf Hb Hst Hen; cbn [chain_loop].
  { destruct term; [|reflexivity]. destruct (Hen eq_refl) as (? & ? & ?). lia. }
  assert (forall w f', fab_ok f' -> step_post w b (f', b)) as Hrefl
    by (intros; split; [assumption | now apply request_step_refl]).
  wpsimpl. cbn [fst snd].
  destruct (q_num (blkd_queue b) <? u32 (chain_seen + 1)) eqn:Eb; wpsimpl;
    [split; [now apply Hrefl | easy]|].
  assert (forall b', same_device b b' ->
            enough term fuel (u32 (chain_seen + 1)) (blkd_queue b')) as Hen'.
  { intros b' Hsd Et. rewrite (same_device_queue _ _ Hsd).
    destruct (Hen Et) as (? & ? & ?). rewrite u32_small in * by (unfold in_width; lia).
    lia. }
  cbn [fst snd]. wptotal virtio_read_desc_safe; [assumption|].
  intros [desc|] f1 [Hf1 Hd]; [|split; [now apply Hrefl | easy]].
  specialize (Hd desc eq_refl).
  destruct (has_bit (d_flags desc) VRING_DESC_F_NEXT); cbn [negb]; wpsimpl.
  2:{ split; [now apply Hrefl|]. intros ? ? ? [= <- <- <-]. easy. }
  assert (forall w s1 status' dl, step_post w b s1 -> status_ok status' ->
    w = (request_type =? VIRTIO_BLK_T_OUT) ->
    wpx term (chain_loop direct_read fuel request_type offset status' dl
                (u32 (chain_seen + 1)) (d_next desc)) s1 (chain_post w b)) as Hgo.
  { intros w [f2 b2] st' dl [Hf2 Hs2] Hst' ->.
    wpuse (IH f2 b2); try assumption; [apply Hs2 | apply Hen', Hs2 |].
    intros r s [Hs Hr]. split; [|assumption].
    eapply (step_post_trans _ b (f2, b2)); [now split | assumption]. }
  destruct (request_type =? VIRTIO_BLK_T_IN) eqn:Ein; wpsimpl.
  { replace (request_type =? VIRTIO_BLK_T_OUT) with false in *
      by (unfold VIRTIO_BLK_T_IN, VIRTIO_BLK_T_OUT in *; lia).
    wptotal in_segment_safe; try assumption. intros st s [Hs Hst'].
    now apply Hgo. }
  destruct (request_type =? VIRTIO_BLK_T_OUT) eqn:Eout; wpsimpl.
  - wptotal out_segment_safe; try assumption. intros [st|] s [Hs Hst'];
      [apply Hgo; auto | easy].
  - apply Hgo; [now apply Hrefl | assumption | reflexivity].
Qed.

Lemma initial_status_ok request_type sector :
  status_ok (initial_status request_type sector).
Proof.
  unfold initial_status, status_ok, VIRTIO_BLK_S_UNSUPP, VIRTIO_BLK_S_IOERR,
    VIRTIO_BLK_S_OK.
  destruct (_ && _); [lia|]. destruct (_ <? _); lia.
Qed.

Lemma block_flush_safe f b :
  blkd_ok b ->
  wp (liftD (on_host blkd_block_flush)) (f, b) (fun ok s =>
    fst s = f /\ request_step false b (snd s)).
Proof.
  intros Hb. unfold on_host, blkd_block_flush, fsync. wpsimpl. cbn [fst snd].
  unfold wpx. destruct (io_step _ _) as [r ev]; destruct r; cbn;
    (split; [reflexivity|]; apply request_step_host; auto; split; apply Hb).
Qed.

Lemma process_chain_safe term fuel f b head :
  fab_ok f -> blkd_ok b -> enough term fuel 0 (blkd_queue b) ->
  wpx term (process_chain direct_read fuel head) (f, b) (fun _ s =>
    step_post true b s).
Proof.
  intros Hf Hb Hen. unfold process_chain. wpsimpl. cbn [fst snd].
  assert (forall f', fab_ok f' -> step_post true b (f', b)) as Hrefl
    by (intros; split; [assumption | now apply request_step_refl]).
  wptotal virtio_read_desc_safe; [assumption|].
  intros [desc|] f1 [Hf1 Hd]; [|now apply Hrefl]. specialize (Hd desc eq_refl).
  wpsimpl. destruct (negb _); wpsimpl; [now apply Hrefl|].
  wptotal fs_read_into; [assumption | apply Hd | width |].
  intros [header|] f2 [Hf2 Hh]; [|now apply Hrefl]. wpsimpl. cbn [fst snd].
  wpuse (chain_loop_safe term fuel f2 b); try assumption; [apply initial_status_ok|].
  intros [[[sd st] dl]|] [f3 b3] [[Hf3 Hs3] Hr]; cbn [fst snd] in *.
  2:{ split; [assumption|]. destruct (_ =? VIRTIO_BLK_T_OUT);
        [assumption | now apply request_step_weaken]. }
  destruct (Hr _ _ _ eq_refl) as [Hsd Hst].
  unfold complete_request. rewrite wpx_bind.
  assert (request_step true b b3) as Hs3'
    by (destruct (_ =? VIRTIO_BLK_T_OUT) in Hs3;
        [assumption | now apply request_step_weaken]).
  eapply wpx_mono with (Q := fun st s => status_ok st /\ step_post true b s).
  - destruct (_ =? VIRTIO_BLK_T_FLUSH); [rewrite wpx_bind | wpsimpl; now split].
    wptotal block_flush_safe; [apply Hs3|].
    intros ok [f4 b4] [E Hs4]. cbn [fst snd] in *. subst f4. wpsimpl.
    split; [destruct ok; [assumption | unfold status_ok, VIRTIO_BLK_S_IOERR; lia]|].
    split; [assumption|]. eapply request_step_trans; [eassumption|].
    now apply request_step_weaken.
  - intros st' [f4 b4] [Hst' [Hf4 Hs4]]. wpsimpl. cbn [fst snd] in *.
    wptotal fs_write; [assumption | apply Hsd | unfold zlen, in_width; cbn; lia | |].
    { constructor; [|constructor]. unfold status_ok, is_byte in *. lia. }
    intros ok f5 Hf5. wpsimpl. now split.
Qed.
End chains.

(** ** Notifications and register accesses *)

(** The state between register accesses: the device is well formed, uses the
    backend [be] it was started on, and a read-only image still has the contents
    [image]. [Pnum] is a property of the queue size. *)
Record serving (be : blkd_block_backend) (image : list Z) (Pnum : Z -> Prop)
    (b : blkd) : Prop := {
  sv_ok : blkd_ok b;
  sv_num : Forall (fun q => Pnum (q_num q)) (v_queues (m_vdev (bk_mmio b)));
  sv_backend : bd_backend (blkd_dev b) = be;
  sv_image : be_readonly be = true -> h_file (bk_host b) = image;
}.

(** The ring size the code divides by is not zero. *)
Definition divisible (num : Z) : Prop := u16 num <> 0.

Section serving.
Context {F : Type} `{FabricSafe F}.
Context (direct_read : bool) (be : blkd_block_backend) (image : list Z).
Implicit Types (f : F) (b : blkd).

Lemma serving_queue P b : serving be image P b -> P (q_num (blkd_queue b)).
Proof.
  intros [Hok Hn _ _]. unfold blkd_queue. destruct Hok as [[[] _ _ _] Hc _ _ _ _ _ _].
  rewrite Hc in vw_length.
  destruct (v_queues (m_vdev (bk_mmio b))) as [|q qs]; [easy|].
  now apply Forall_cons_iff in Hn as [? _].
Qed.

Lemma serving_step P b b' :
  serving be image P b -> request_step true b b' -> serving be image P b'.
Proof.
  intros [Hok Hn Hbe Hi] (Hok' & Hs & [_ Hk]).
  pose proof (same_device_backend _ _ Hs) as E.
  split; [assumption | | congruence |].
  - destruct Hs as (? & ? & ? & ->). exact Hn.
  - intros Hr. rewrite Hk; [now apply Hi|]. right. now rewrite Hbe.
Qed.

Lemma advance_cursor_wf q : queue_wf q -> queue_wf (advance_cursor q).
Proof. intros []. split; cbn; auto with acs. Qed.

Lemma serving_bump P b : serving be image P b -> serving be image P (bump_queue b).
Proof.
  intros [Hok Hn Hbe Hi]. split; [| | assumption | assumption].
  - destruct Hok as [[[] ? ? ?] ? ? ? ? ? ? ?].
    split; try assumption. split; try assumption. split; cbn; try assumption.
    + apply Forall_alter; [assumption|]. intros. now apply advance_cursor_wf.
    + now rewrite length_alter.
  - cbn. now apply Forall_alter.
Qed.

Lemma serving_raise P b : serving be image P b -> serving be image P (raise_vring b).
Proof.
  intros [Hok Hn Hbe Hi]. split; try assumption.
  destruct Hok as [[[] ? ? ?] ? ? ? ? ? ? ?].
  split; try assumption. split; try assumption. split; cbn; try assumption.
  apply in_width_lor; [lia | assumption | unfold in_width, VIRTIO_INTERRUPT_VRING; lia].
Qed.

Lemma ack_notify_safe P f b : fab_ok f -> serving be image P b ->
  wlp blkd_ack_notify (f, b) (fun _ s =>
    fab_ok (fst s) /\ serving be image P (snd s)).
Proof.
  intros Hf Hb. unfold blkd_ack_notify. wpsimpl. cbn [fst snd].
  destruct (has_bit _ _); wpsimpl; [wptotal fs_raise | wptotal fs_lower]; easy.
Qed.

Lemma notify_queue_safe requests fuel queue f b :
  fab_ok f -> serving be image divisible b ->
  wlp (blkd_virtio_notify_queue direct_read requests fuel queue) (f, b)
    (fun _ s => fab_ok (fst s) /\ serving be image divisible (snd s)).
Proof.
  intros Hf Hb. unfold blkd_virtio_notify_queue. wpsimpl. cbn [fst snd].
  destruct (_ || _); [now apply ack_notify_safe|]. rewrite wpx_try.
  wpuse (service_loop_safe blkd_queue bump_queue _ (serving be image divisible));
    try assumption.
  - intros d Hd. apply (serving_queue _ _ Hd).
  - apply serving_bump.
  - intros f1 b1 head Hf1 Hb1 _.
    wpuse process_chain_safe; [assumption | apply Hb1 | easy |].
    intros _ [f2 b2] [? ?]. split; [assumption|]. eapply serving_step; eassumption.
  - intros [used_any|] [f1 b1] [Hf1 Hb1]; cbn [fst snd] in *; [|easy].
    destruct used_any; wpsimpl; [|now apply ack_notify_safe].
    cbn [fst snd]. wptotal fs_raise; [assumption|]. intros _ f2 Hf2.
    split; [assumption | now apply serving_raise].
Qed.

Lemma serving_mmio_write (P : Z -> Prop) b offset raw_value :
  P BLKD_QUEUE_SIZE ->
  (offset = VIRTIO_MMIO_QUEUE_NUM -> P (u32 raw_value)) ->
  serving be image P b ->
  serving be image P
    {| bk_mmio := virtio_mmio_write (bk_mmio b) offset raw_value;
       bk_host := bk_host b |}.
Proof.
  intros Hp Hg [Hok Hn Hbe Hi].
  pose proof Hok as [Hm Hc Hq Ho Hbuf Hs Him Hj].
  pose proof (mmio_write_identity (bk_mmio b) offset raw_value (mw_vdev _ Hm)) as Hid.
  unfold no_reset_hook in Hid. rewrite Ho in Hid. specialize (Hid eq_refl).
  injection Hid as _ _ Ec Eq _ Eo Eop.
  split.
  - split; cbn [bk_mmio bk_host]; unfold blkd_dev; cbn [bk_mmio]; rewrite ?Eo; try congruence;
      [now apply mmio_write_wf | assumption..].
  - apply mmio_write_nums; auto; [apply Hm | now rewrite Hq].
  - unfold blkd_dev. cbn [bk_mmio]. now rewrite Eo.
  - assumption.
Qed.

Lemma blkd_mmio_write_safe requests fuel offset raw_value len f b :
  fab_ok f -> serving be image divisible b ->
  (offset = VIRTIO_MMIO_QUEUE_NUM -> divisible (u32 raw_value)) ->
  wlp (blkd_mmio_write direct_read requests fuel offset raw_value len) (f, b)
    (fun _ s => fab_ok (fst s) /\ serving be image divisible (snd s)).
Proof.
  intros Hf Hb Hg. unfold blkd_mmio_write.
  rewrite wpx_bind, wpx_modify. cbn [fst snd].
  assert (serving be image divisible
    {| bk_mmio := virtio_mmio_write (bk_mmio b) offset raw_value;
       bk_host := bk_host b |}) as Hb'
    by (apply serving_mmio_write; [discriminate | assumption | assumption]).
  set (b' := {| bk_mmio := _; bk_host := _ |}) in *. clearbody b'.
  assert (forall c f1, fab_ok f1 ->
    wlp (if c : bool then liftF fabric_lower_irq else ret true) (f1, b')
      (fun _ s => fab_ok (fst s) /\ snd s = b')) as Hl.
  { intros [] f1 Hf1; wpsimpl; [|easy]. wptotal fs_lower; easy. }
  rewrite wpx_check. wpuse Hl; [assumption|].
  intros [] [f1 b1] [Hf1 E]; cbn [fst snd] in *; subst b1; [|easy].
  rewrite wpx_check. wpuse Hl; [assumption|].
  intros [] [f2 b2] [Hf2 E]; cbn [fst snd] in *; subst b2; [|easy].
  rewrite wpx_check.
  destruct (offset =? VIRTIO_MMIO_QUEUE_NOTIFY); [|wpsimpl; easy].
  wpuse notify_queue_safe; [assumption | assumption|].
  intros [] s Hs; wpsimpl; exact Hs.
Qed.
End serving.

(** ** Sessions *)

Section session.
Context {F : Type} `{Fabric F}.

(** A sequence of register writes by the guest. *)
Fixpoint guest_writes (direct_read : bool) (requests fuel : nat)
    (ws : list (Z * Z)) : M (F * blkd) unit :=
  match ws with
  | [] => ret tt
  | (offset, value) :: ws =>
      _ ← blkd_mmio_write direct_read requests fuel offset value 4;
      guest_writes direct_read requests fuel ws
  end.
End session.

(** What the daemon provides before a guest connects: an image that matches its
    recorded length and an initialized payload buffer. *)
Record blkd_startable (b : blkd) : Prop := {
  bs_image : image_ok (bd_backend (blkd_dev b)) (bk_host b);
  bs_buf : io_buf_ok (bd_io_buf (blkd_dev b)) (bd_io_buf_size (blkd_dev b));
  bs_size : in_width 32 (bd_io_buf_size (blkd_dev b));
  bs_junk : forall i, is_byte (h_junk (bk_host b) i);
}.

Lemma connect_serving b : blkd_startable b ->
  serving (bd_backend (blkd_dev b)) (h_file (bk_host b)) divisible (blkd_connect b).
Proof.
  intros [Hi Hb Hs Hj].
  assert (in_width 32 0 /\ in_width 64 0 /\ in_width 32 1 /\ in_width 32 2 /\
          in_width 32 256 /\ in_width 32 VIRTIO_VENDOR_ID_LOCAL)
    as (H0 & H64 & H1 & H2 & H256 & Hv)
    by (unfold in_width, VIRTIO_VENDOR_ID_LOCAL; lia).
  split; [split; try reflexivity; try assumption | | reflexivity | reflexivity].
  - apply mmio_init_wf. apply device_reset_wf.
    split; cbn; try assumption; [|reflexivity].
    constructor; [|constructor]. split; cbn; (assumption || width).
  - cbn. repeat constructor. discriminate.
Qed.

Lemma guest_writes_safe {F} `{FabricSafe F} direct_read requests fuel be image ws f b :
  fab_ok f -> serving be image divisible b ->
  Forall (fun w => w.1 = VIRTIO_MMIO_QUEUE_NUM -> divisible (u32 w.2)) ws ->
  wlp (guest_writes direct_read requests fuel ws) (f, b) (fun _ s =>
    fab_ok (fst s) /\ serving be image divisible (snd s)).
Proof.
  revert f b. induction ws as [|[offset value] ws IH]; intros f b Hf Hb Hw;
    cbn [guest_writes]; wpsimpl; [easy|].
  apply Forall_cons_iff in Hw as [Hn Hw].
  wpuse blkd_mmio_write_safe; [assumption | eassumption | exact Hn |].
  intros _ [f1 b1] [Hf1 Hb1]. now apply IH.
Qed.

(** ** Claims *)

(** A daemon with a 1 KiB read-write image, before the guest connects. *)
Definition sample_blkd (readonly : bool) (buf : heap_ptr) (buf_size : Z)
    (ev : list io_event) : blkd :=
  let be := {| be_fd := 3; be_image_len := 1024; be_readonly := readonly |} in
  let dev := {| bd_backend := be; bd_capacity_sectors := 0; bd_io_buf := buf;
                bd_io_buf_size := buf_size |} in
  {| bk_mmio := virtio_mmio_init (zero_vdev dev []);
     bk_host := {| h_file := replicate 1024 7; h_durable := []; h_io := ev;
                   h_alloc := []; h_junk := fun _ => 0xa5 |} |}.

Lemma sample_startable readonly ev : blkd_startable (sample_blkd readonly PNull 0 ev).
Proof.
  split; [split| | |].
  - reflexivity.
  - now change (1024 <= INT64_MAX).
  - apply (Forall_replicate is_byte 1024 7). unfold is_byte. lia.
  - reflexivity.
  - now change (in_width 32 0).
  - intros i. now change (is_byte 0xa5).
Qed.

(** C9: the block device cannot be driven into undefined behaviour, two cases apart. On
    any fabric, with any guest memory contents (concurrent changes included) and any
    host I/O behaviour, any sequence of register writes after a connection performs no
    undefined operation, keeps the device well formed and the image at its length, and
    never changes a read-only image, provided that the daemon starts with an initialised
    payload buffer (in [blkd_startable]; [main] leaves it uninitialised, see
    [payload_buffer_uninitialized]) and that no queue size is programmed whose low 16
    bits are zero (the code does not refuse it, see [queue_size_unchecked]). *)
Theorem blkd_session_safe {F} `{FabricSafe F} direct_read requests fuel b f ws :
  fab_ok f -> blkd_startable b ->
  Forall (fun w => w.1 = VIRTIO_MMIO_QUEUE_NUM -> u16 (u32 w.2) <> 0) ws ->
  wlp (guest_writes direct_read requests fuel ws) (f, blkd_connect b) (fun _ s =>
    fab_ok (fst s) /\ blkd_ok (snd s) /\
    image_ok (bd_backend (blkd_dev b)) (bk_host (snd s)) /\
    (be_readonly (bd_backend (blkd_dev b)) = true ->
       h_file (bk_host (snd s)) = h_file (bk_host b))).
Proof.
  intros Hf Hb Hw.
  wpuse (guest_writes_safe (F := F)); [assumption | now apply connect_serving | exact Hw |].
  intros _ [f' b'] [Hf' [Hok _ Hbe Hi]]. cbn [fst snd] in *.
  split; [assumption|]. split; [assumption|]. split; [|assumption].
  rewrite <- Hbe. apply Hok.
Qed.

(** Guest memory for the witnesses: 4 KiB at address 0x1000. *)
Definition sample_fabric (dma : list Z) : uio_state :=
  uio_over 0x1000 (replicate 1024 0) dma.

Lemma blkd_session_safe_witness :
  wlp (guest_writes (F := uio_state) false 4 300
         [(VIRTIO_MMIO_QUEUE_NUM, 8); (VIRTIO_MMIO_QUEUE_READY, 1);
          (VIRTIO_MMIO_QUEUE_NOTIFY, 0)])
    (sample_fabric (replicate 64 0xff), blkd_connect (sample_blkd true PNull 0 [IoFail]))
    (fun _ s => h_file (bk_host (snd s)) = replicate 1024 7).
Proof.
  eapply wpx_mono.
  - apply (blkd_session_safe (F := uio_state)).
    + apply uio_over_inv; decided.
    + apply sample_startable.
    + repeat constructor; cbn; intros; discriminate.
  - cbn. intros _ s (_ & _ & _ & Hk). now apply Hk.
Defined.

(** C26: every chain is walked in bounded time, for every queue size but one. On any
    fabric, for any descriptor table (cycles included) and any queue size below
    [2 ^ 32 - 1], processing one request returns: the loop runs at most [queue.num]
    times, so that more fuel than that is enough. (For the queue size [2 ^ 32 - 1] the
    32-bit count never exceeds it, see [chain_bound_never_fires].) *)
Theorem process_chain_returns {F} `{FabricSafe F} direct_read fuel f b head :
  fab_ok f -> blkd_ok b -> q_num (blkd_queue b) < 2 ^ 32 - 1 ->
  q_num (blkd_queue b) < Z.of_nat fuel ->
  exists r f' b', process_chain direct_read fuel head (f, b) = Done (r, (f', b')) /\
    fab_ok f' /\ blkd_ok b' /\ blkd_queue b' = blkd_queue b.
Proof.
  intros Hf Hb Hn Hfuel.
  destruct (wp_elim _ _ _ (process_chain_safe direct_read true fuel f b head Hf Hb
    ltac:(intros _; destruct (queue_ok b Hb); unfold in_width in *; lia)))
    as (r & [f' b'] & E & Hf' & Hb' & Hs & _).
  exists r, f', b'. split; [assumption|]. split; [assumption|].
  split; [assumption | now apply same_device_queue].
Qed.

(** A descriptor table whose only entry is a descriptor that points to itself. *)
Definition cyclic_table : list Z :=
  encode_desc {| d_addr := 0x1000; d_len := 1; d_flags := VRING_DESC_F_NEXT;
                 d_next := 0 |}.

Definition set_up_queue (b : blkd) (q : virtio_queue) : blkd :=
  on_vdev (set_queues [q]) b.

Definition sample_queue : virtio_queue :=
  {| q_num := 4; q_ready := 1; q_desc := 0x1000; q_avail := 0x1100;
     q_used := 0x1200; q_last_avail_idx := 0 |}.

Lemma set_up_queue_ok readonly ev q : queue_wf q ->
  blkd_ok (set_up_queue (blkd_connect (sample_blkd readonly PNull 0 ev)) q).
Proof.
  intros Hq. destruct (connect_serving _ (sample_startable readonly ev)) as [Hok _ _ _].
  destruct Hok as [[[] ? ? ?] ? ? ? ? ? ? ?].
  split; try assumption. split; try assumption. split; try assumption.
  constructor; [assumption | constructor].
Qed.

Lemma sample_queue_wf : queue_wf sample_queue.
Proof. split; cbn; unfold in_width; lia. Qed.

Lemma process_chain_returns_witness :
  exists r f' b', process_chain false 5 0
      (sample_fabric cyclic_table,
       set_up_queue (blkd_connect (sample_blkd false PNull 0 [])) sample_queue)
    = Done (r, (f', b')) /\ r = None /\ blkd_queue b' = sample_queue.
Proof.
  destruct (process_chain_returns false 5 (sample_fabric cyclic_table)
    (set_up_queue (blkd_connect (sample_blkd false PNull 0 [])) sample_queue) 0)
    as (r & f' & b' & E & _ & _ & Hq).
  - apply uio_over_inv; decided.
  - apply set_up_queue_ok, sample_queue_wf.
  - reflexivity.
  - reflexivity.
  - exists r, f', b'. split; [exact E|]. split; [|exact Hq].
    apply (f_equal returned) in E. vm_compute in E. now injection E.
Defined.

(** The largest queue size defeats the bound: the 32-bit count of descriptors wraps before
    it can exceed it, and the walk of the cyclic table above does not end, whatever the
    fuel. *)
Definition unbounded_queue : virtio_queue :=
  {| q_num := 2 ^ 32 - 1; q_ready := 1; q_desc := 0x1000; q_avail := 0x1100;
     q_used := 0x1200; q_last_avail_idx := 0 |}.

Definition unbounded_blkd : blkd :=
  set_up_queue (blkd_connect (sample_blkd false PNull 0 [])) unbounded_queue.

Definition cyclic_desc : virtio_desc :=
  {| d_addr := 0x1000; d_len := 1; d_flags := VRING_DESC_F_NEXT; d_next := 0 |}.

(** The fabric's answers, on a quiescent window of 16 bytes. *)
Lemma cyclic_read (b : blkd) :
  liftF (virtio_read_desc unbounded_queue 0) (sample_fabric cyclic_table, b)
  = Done (Some cyclic_desc, (sample_fabric cyclic_table, b)).
Proof. unfold liftF, zoom. cbn [fst snd]. now vm_compute. Qed.

Lemma cyclic_header (b : blkd) :
  liftF (fabric_dma_read_into 0x1000 16) (sample_fabric cyclic_table, b)
  = Done (Some cyclic_table, (sample_fabric cyclic_table, b)).
Proof. unfold liftF, zoom. cbn [fst snd]. now vm_compute. Qed.

Lemma cyclic_walk fuel offset status data_len chain_seen :
  chain_loop (F := uio_state) false fuel 0x1000 offset status data_len chain_seen 0
    (sample_fabric cyclic_table, unbounded_blkd) = NoFuel.
Proof.
  revert chain_seen. induction fuel as [|fuel IH]; intros chain_seen; [reflexivity|].
  cbn [chain_loop]. pose proof (u32_range (chain_seen + 1)) as Hr. unfold in_width in Hr.
  rewrite (bind_done _ _ _ unbounded_queue (sample_fabric cyclic_table, unbounded_blkd)) by reflexivity.
  change (q_num unbounded_queue) with (2 ^ 32 - 1).
  rewrite (proj2 (Z.ltb_ge (2 ^ 32 - 1) _)) by lia.
  rewrite (try_done _ _ _ _ _ (cyclic_read unbounded_blkd)). apply IH.
Qed.

Theorem chain_bound_never_fires fuel :
  process_chain (F := uio_state) false fuel 0 (sample_fabric cyclic_table, unbounded_blkd) = NoFuel.
Proof.
  unfold process_chain.
  rewrite (bind_done _ _ _ unbounded_queue (sample_fabric cyclic_table, unbounded_blkd)) by reflexivity.
  rewrite (try_done _ _ _ _ _ (cyclic_read unbounded_blkd)).
  change (negb (has_bit (d_flags cyclic_desc) VRING_DESC_F_NEXT)) with false. cbv iota.
  change (d_addr cyclic_desc) with 0x1000. rewrite (try_done _ _ _ _ _ (cyclic_header unbounded_blkd)).
  change (virtio_load_le32 cyclic_table) with 0x1000. change (d_next cyclic_desc) with 0.
  cbv zeta. unfold try_bind, bind at 1. now rewrite cyclic_walk.
Qed.
