(* ===== verification/BlkRequest.v ===== *)
(** * Functional correctness of block requests

    While the guest is quiescent, processing a descriptor chain refines a pure
    reference: the data segments of a write request are spliced into the image one
    after the other, those of a read request are filled from it, and the first
    segment that cannot be served turns the status into an error that stops the
    transfer. The statements hold for every fabric that is a byte memory, and for
    both the bounce-buffer and the direct-read path. *)

From S2P Require Import Prelude Endian Fabric Virtio VirtioMmio QueueService Rings.
From S2P Require Import Posix BlockBackend VirtioBlk LinuxUio BlkSafety.

#[local] Open Scope Z_scope.
#[local] Open Scope c_scope.

(** ** Reference semantics of the data phase *)

(** One data descriptor of a write request with its payload. *)
Definition out_step (be : blkd_block_backend) (pos : Z) (d : virtio_desc)
    (payload : list Z) (status : Z) (file : list Z) : Z * list Z :=
  if has_bit (d_flags d) VRING_DESC_F_WRITE then (VIRTIO_BLK_S_IOERR, file)
  else if status =? VIRTIO_BLK_S_OK then
    if negb (be_readonly be) && read_in_bounds be pos (d_len d)
    then (status, splice pos payload file)
    else (VIRTIO_BLK_S_IOERR, file)
  else (status, file).

Fixpoint out_spec (be : blkd_block_backend) (offset : Z)
    (segs : list (virtio_desc * list Z)) (data_len status : Z) (file : list Z)
  : Z * Z * list Z :=
  match segs with
  | [] => (status, data_len, file)
  | (d, payload) :: segs =>
      let '(status, file) :=
        out_step be (u64 (offset + data_len)) d payload status file in
      out_spec be offset segs (u32 (data_len + d_len d)) status file
  end.

(** One data descriptor of a read request. *)
Definition in_step (be : blkd_block_backend) (file : list Z) (pos : Z)
    (d : virtio_desc) (status : Z) (m : mem) : Z * mem :=
  if has_bit (d_flags d) VRING_DESC_F_WRITE then
    if status =? VIRTIO_BLK_S_OK then
      if read_in_bounds be pos (d_len d)
      then (status, mem_write m (d_addr d) (slice pos (d_len d) file))
      else (VIRTIO_BLK_S_IOERR, m)
    else (status, m)
  else (VIRTIO_BLK_S_IOERR, m).

Fixpoint in_spec (be : blkd_block_backend) (file : list Z) (offset : Z)
    (segs : list virtio_desc) (data_len status : Z) (m : mem) : Z * Z * mem :=
  match segs with
  | [] => (status, data_len, m)
  | d :: segs =>
      let '(status, m) := in_step be file (u64 (offset + data_len)) d status m in
      in_spec be file offset segs (u32 (data_len + d_len d)) status m
  end.

(** ** A benign host

    System calls may be interrupted or return short counts but do not fail, and
    allocations succeed. *)
Definition benign_host (h : host) : Prop :=
  Forall benign (h_io h) /\ Forall (fun ok => ok = true) (h_alloc h).

(** The state after a data phase that leaves the image as [file]. *)
Record data_post (b : blkd) (file : list Z) (b' : blkd) : Prop := {
  dp_ok : blkd_ok b';
  dp_same : same_device b b';
  dp_file : h_file (bk_host b') = file;
  dp_durable : h_durable (bk_host b') = h_durable (bk_host b);
  dp_host : benign_host (bk_host b');
}.

Lemma data_post_refl b : blkd_ok b -> benign_host (bk_host b) ->
  data_post b (h_file (bk_host b)) b.
Proof. split; auto using same_device_refl. Qed.

Lemma data_post_trans b1 b2 b3 file2 file3 :
  data_post b1 file2 b2 -> data_post b2 file3 b3 -> data_post b1 file3 b3.
Proof.
  intros [_ S12 _ D12 _] [O S23 F D H]. split; auto; [|congruence].
  eapply same_device_trans; eassumption.
Qed.

Section host_steps.
Context {F : Type} `{Fabric F}.
Implicit Types (f : F) (b : blkd).

Lemma ensure_io_buf_benign b len :
  blkd_ok b -> benign_host (bk_host b) -> in_width 32 len ->
  wp (ensure_io_buf len) b (fun ok b' =>
    ok = true /\ len <= bd_io_buf_size (blkd_dev b') /\
    data_post b (h_file (bk_host b)) b').
Proof.
  intros Hb Hh Hl. eapply wpx_mono.
  { apply (wpx_conj true); [now apply (ensure_io_buf_safe false)|].
    instantiate (1 := fun ok b' => ok = true /\ benign_host (bk_host b') /\
      h_durable (bk_host b') = h_durable (bk_host b)).
    unfold wpx, ensure_io_buf. destruct (_ <=? _); [easy|].
    pose proof (bo_buf _ Hb) as Hbuf. destruct Hh as [Hio Hal].
    destruct (bd_io_buf (blkd_dev b)); [| |easy];
      destruct (h_alloc (bk_host b)) as [|[] al]; cbn; unfold benign_host; cbn;
      try (now repeat split; try assumption; constructor);
      apply Forall_cons_iff in Hal as [? ?]; easy. }
  cbn. intros ok b' [[(Hok & Hs & [_ Hk]) He] (-> & Hh' & Hd)].
  split; [reflexivity|]. split; [now apply He|]. split; auto.
Qed.

Lemma io_buf_store_benign b data :
  blkd_ok b -> benign_host (bk_host b) -> bytes data ->
  zlen data <= bd_io_buf_size (blkd_dev b) ->
  wp (io_buf_store data) b (fun _ b' =>
    data_post b (h_file (bk_host b)) b' /\
    io_buf_load (zlen data) b' = Done (data, b')).
Proof.
  intros Hb Hh Hd Hl. wpuse (io_buf_store_safe false); try assumption.
  intros _ b' ((Hok & Hs & [_ Hk]) & _ & Eh & Hload).
  split; [|now apply Hload]. split; try assumption; now rewrite Eh.
Qed.

Lemma block_read_benign f b off len :
  blkd_ok b -> benign_host (bk_host b) -> in_width 64 off -> 0 <= len ->
  wp (block_read off len) (f, b) (fun r s =>
    fst s = f /\ data_post b (h_file (bk_host b)) (snd s) /\
    bd_io_buf_size (blkd_dev (snd s)) = bd_io_buf_size (blkd_dev b) /\
    r = (if read_in_bounds (bd_backend (blkd_dev b)) off len
         then (true, slice off len (h_file (bk_host b))) else (false, []))).
Proof.
  intros Hb [Hio Hal] Ho Hl. set (be := bd_backend (blkd_dev b)).
  pose proof (bo_image b Hb) as Him. fold be in Him. unfold in_width in Ho.
  eapply wpx_mono.
  { apply (wpx_conj true); [apply (block_read_safe f b off len); auto; lia|].
    instantiate (1 := fun r s => r = (if read_in_bounds be off len
      then (true, slice off len (h_file (bk_host b))) else (false, [])) /\
      benign_host (bk_host (snd s)) /\
      h_durable (bk_host (snd s)) = h_durable (bk_host b)).
    unfold block_read, on_host. wpsimpl. cbn [fst snd]. fold be.
    destruct (read_in_bounds be off len) eqn:Eb.
    - destruct (block_read_ok be off len (bk_host b)) as (ev & E & Hev);
        try assumption; try lia.
      { unfold read_in_bounds in Eb. lia. }
      now rewrite (wpx_done _ _ _ _ _ _ E).
    - unfold blkd_block_read. rewrite (in_bounds_eq be off len (bk_host b)) by (assumption || lia).
      rewrite Eb. cbn [negb]. now wpsimpl. }
  cbn. intros r [f' b'] [(E & (Hok & Hs & [_ Hk]) & Esz & _) (-> & Hh' & Hd)].
  cbn [fst snd] in *. split; [assumption|]. split; [split; auto|]. now split.
Qed.

Lemma block_write_benign f b off data :
  blkd_ok b -> benign_host (bk_host b) -> in_width 64 off -> bytes data ->
  let be := bd_backend (blkd_dev b) in
  let fits := negb (be_readonly be) && read_in_bounds be off (zlen data) in
  wp (block_write off data) (f, b) (fun r s =>
    fst s = f /\ r = fits /\
    data_post b (if fits then splice off data (h_file (bk_host b))
                 else h_file (bk_host b)) (snd s)).
Proof.
  intros Hb [Hio Hal] Ho Hd be fits.
  pose proof (bo_image b Hb) as Him. fold be in Him. unfold in_width in Ho.
  eapply wpx_mono.
  { apply (wpx_conj true); [apply (block_write_safe f b off data); auto; lia|].
    instantiate (1 := fun r s => r = fits /\ benign_host (bk_host (snd s)) /\
      h_durable (bk_host (snd s)) = h_durable (bk_host b) /\
      h_file (bk_host (snd s)) = if fits then splice off data (h_file (bk_host b))
                                 else h_file (bk_host b)).
    unfold block_write, on_host. wpsimpl. cbn [fst snd]. fold be.
    destruct fits eqn:Ef; unfold fits in Ef.
    - apply andb_prop in Ef as [Er Eb]. apply negb_true_iff in Er.
      destruct (block_write_ok be off data (bk_host b)) as (ev & E & Hev);
        try assumption; try lia.
      { unfold read_in_bounds in Eb. lia. }
      now rewrite (wpx_done _ _ _ _ _ _ E).
    - unfold blkd_block_write.
      destruct (be_readonly be); cbn [negb andb] in Ef; cbn [orb]; [now wpsimpl|].
      rewrite (in_bounds_eq be off (zlen data) (bk_host b))
        by (assumption || unfold zlen; lia).
      rewrite Ef. cbn [negb]. now wpsimpl. }
  cbn. intros r [f' b'] [(E & (Hok & Hs & _)) (-> & Hh' & Hdu & Hf)].
  cbn [fst snd] in *. split; [assumption|]. split; [reflexivity|]. now split.
Qed.
End host_steps.

(** ** The data phase refines the reference *)

(** The segment changed nothing. *)
Ltac kept := split; [reflexivity|]; split; [assumption|];
  split; [reflexivity | now apply data_post_refl].

Section data_phase.
Context {F : Type} `{RamFabric F}.
Context (direct_read : bool).
Implicit Types (f : F) (b : blkd).

Lemma out_segment_ram f b offset data_len status d payload :
  ram_ok f -> blkd_ok b -> benign_host (bk_host b) -> desc_wf d ->
  bytes payload -> zlen payload = d_len d -> seg_range d ->
  mem_at (peek f) (d_addr d) payload ->
  wp (out_segment offset data_len status d) (f, b) (fun r s =>
    let '(st, file) := out_step (bd_backend (blkd_dev b)) (u64 (offset + data_len))
                         d payload status (h_file (bk_host b)) in
    r = Some st /\ ram_ok (fst s) /\ peek (fst s) ≡m peek f /\
    data_post b file (snd s)).
Proof.
  intros Hf Hb Hh Hd Hby Hz Hr Hm. unfold out_segment, out_step.
  destruct (has_bit (d_flags d) VRING_DESC_F_WRITE); wpsimpl.
  { kept. }
  destruct (status =? VIRTIO_BLK_S_OK); wpsimpl.
  2:{ kept. }
  cbn [fst snd]. wpuse ensure_io_buf_benign; try assumption; [apply Hd|].
  intros ? b1 (-> & Hsz & P1). cbn [negb]. wpsimpl. cbn [fst snd].
  wpuse (dma_read_into_ram f (d_addr d) payload); try assumption; try apply Hd.
  intros ? f2 (-> & Hp2 & Hf2). wpsimpl. cbn [fst snd].
  wpuse io_buf_store_benign; [apply P1 | apply P1 | assumption | lia |].
  intros _ b2 [P2 Hload]. wpsimpl. cbn [fst snd]. rewrite <- Hz.
  rewrite (wpx_done _ _ _ _ _ _ Hload). wpsimpl. cbn [fst snd].
  wpuse block_write_benign; [apply P2 | apply P2 | apply u64_range | assumption|].
  intros r [f3 b3] (E & -> & P3). cbn [fst snd] in *. subst f3. wpsimpl.
  rewrite (same_device_backend _ _ (dp_same _ _ _ P2)),
    (same_device_backend _ _ (dp_same _ _ _ P1)) in *.
  rewrite (dp_file _ _ _ P2), (dp_file _ _ _ P1) in P3.
  pose proof (data_post_trans _ _ _ _ _ P1 (data_post_trans _ _ _ _ _ P2 P3)) as P.
  cbn [fst snd]. destruct (_ && _); split; auto.
Qed.

(** What a read segment at [pos] leaves behind, once it is known to be writable and
    the status is still OK. *)
Definition read_done f b pos d status (r : Z) (s : F * blkd) : Prop :=
  let fits := read_in_bounds (bd_backend (blkd_dev b)) pos (d_len d) in
  r = (if fits then status else VIRTIO_BLK_S_IOERR) /\ ram_ok (fst s) /\
  peek (fst s) ≡m (if fits then mem_write (peek f) (d_addr d)
                            (slice pos (d_len d) (h_file (bk_host b))) else peek f) /\
  data_post b (h_file (bk_host b)) (snd s).

Lemma image_slice b pos d : blkd_ok b -> in_width 64 pos -> 0 <= d_len d ->
  read_in_bounds (bd_backend (blkd_dev b)) pos (d_len d) = true ->
  zlen (slice pos (d_len d) (h_file (bk_host b))) = d_len d /\
  bytes (slice pos (d_len d) (h_file (bk_host b))).
Proof.
  intros Hb Hp Hl E. split; [|apply bytes_slice, Hb].
  destruct (bo_image b Hb) as [Hi _ _]. unfold read_in_bounds, in_width in *.
  apply zlen_slice; lia.
Qed.

(** The direct path: the image is read through the mapped pointer. *)
Lemma read_direct f f1 b pos d status p :
  ram_ok f1 -> blkd_ok b -> benign_host (bk_host b) -> in_width 64 pos -> 0 <= d_len d ->
  peek f1 ≡m peek f ->
  (forall data, zlen data <= d_len d -> bytes data ->
     wp (fabric_ptr_store p data) f1 (fun _ f3 =>
       peek f3 ≡m mem_write (peek f1) (d_addr d) data /\ ram_ok f3)) ->
  wp (r ← block_read pos (d_len d);
      liftF (fabric_ptr_store p (snd r));;
      ret (if fst r then status else VIRTIO_BLK_S_IOERR)) (f1, b)
    (read_done f b pos d status).
Proof.
  intros Hf1 Hb Hh Hoff Hlen Hp1 Hwr. unfold read_done. wpsimpl.
  wpuse (block_read_benign f1 b pos (d_len d)); try assumption.
  intros r [f2 b2] (E & P2 & _ & ->). cbn [fst snd] in *. subst f2. wpsimpl. cbn [fst snd].
  destruct (read_in_bounds _ _ _) eqn:Eb; cbn [fst snd].
  - destruct (image_slice b pos d Hb Hoff Hlen Eb) as [Hz Hby].
    wpuse Hwr; [rewrite Hz; lia | assumption|].
    cbn. intros _ f3 [Hp3 Hf3]. rewrite Hp1 in Hp3. auto 6.
  - wpuse (Hwr []); [exact Hlen | constructor|].
    cbn. intros _ f3 [Hp3 Hf3]. rewrite <- (write_nil_id _ _), Hp1 in Hp3. auto 6.
Qed.

(** The bounce path: through the payload buffer. *)
Lemma read_bounced f f1 b pos d status :
  ram_ok f1 -> blkd_ok b -> benign_host (bk_host b) -> desc_wf d -> seg_range d ->
  in_width 64 pos -> mapped (peek f) (d_addr d) (d_len d) -> peek f1 ≡m peek f ->
  wp (ok ← liftD (ensure_io_buf (d_len d));
      if negb ok then ret VIRTIO_BLK_S_IOERR else
      r ← block_read pos (d_len d);
      liftD (io_buf_store (snd r));;
      if negb (fst r) then ret VIRTIO_BLK_S_IOERR else
      data ← liftD (io_buf_load (d_len d));
      w ← liftF (fabric_dma_write (d_addr d) data);
      ret (if w then status else VIRTIO_BLK_S_IOERR)) (f1, b)
    (read_done f b pos d status).
Proof.
  intros Hf1 Hb Hh Hd Hr Hoff Hm Hp1. unfold read_done. wpsimpl.
  pose proof (dw_len _ Hd) as [Hlen _]. wpuse ensure_io_buf_benign; try assumption; [apply Hd|].
  intros ? b1 (-> & Hsz & P1). cbn [negb]. wpsimpl. cbn [fst snd].
  wpuse (block_read_benign f1 b1 pos (d_len d)); try apply P1; try assumption.
  intros r [f2 b2] (E & P2 & Esz & ->). cbn [fst snd] in *. subst f2. wpsimpl.
  rewrite (same_device_backend _ _ (dp_same _ _ _ P1)), (dp_file _ _ _ P1) in *.
  pose proof (data_post_trans _ _ _ _ _ P1 P2) as P12.
  destruct (read_in_bounds _ _ _) eqn:Eb; cbn [fst snd negb].
  - destruct (image_slice b pos d Hb Hoff Hlen Eb) as [Hz Hby].
    wpuse io_buf_store_benign; [apply P2 | apply P2 | assumption | rewrite Hz; lia|].
    intros _ b3 [P3 Hload]. wpsimpl. cbn [fst snd]. rewrite Hz in Hload.
    rewrite (wpx_done _ _ _ _ _ _ Hload). wpsimpl. cbn [fst snd].
    wpuse dma_write_ram; rewrite ?Hz; try assumption; [apply Hd | apply Hd | now rewrite Hp1|].
    intros w f4 (-> & Hp4 & Hf4). wpsimpl. rewrite Hp1 in Hp4.
    rewrite (dp_file _ _ _ P2) in P3.
    pose proof (data_post_trans _ _ _ _ _ P12 P3). auto.
  - wpuse (io_buf_store_benign b2 []); [apply P2 | apply P2 | constructor | |].
    { pose proof (bo_size _ (dp_ok _ _ _ P2)) as [? _]. unfold zlen. cbn. lia. }
    intros _ b3 [P3 _]. wpsimpl. cbn [fst snd]. rewrite (dp_file _ _ _ P2) in P3.
    pose proof (data_post_trans _ _ _ _ _ P12 P3). auto.
Qed.

(** The bounce-buffer and the direct path of a read segment have the same
    effect. *)
Lemma in_segment_ram f b offset data_len status d :
  ram_ok f -> blkd_ok b -> benign_host (bk_host b) -> desc_wf d ->
  seg_range d -> mapped (peek f) (d_addr d) (d_len d) ->
  wp (in_segment direct_read offset data_len status d) (f, b) (fun r s =>
    let '(st, m) := in_step (bd_backend (blkd_dev b)) (h_file (bk_host b))
                      (u64 (offset + data_len)) d status (peek f) in
    r = st /\ ram_ok (fst s) /\ peek (fst s) ≡m m /\
    data_post b (h_file (bk_host b)) (snd s)).
Proof.
  intros Hf Hb Hh Hd Hr Hm. unfold in_segment, in_step.
  destruct (has_bit (d_flags d) VRING_DESC_F_WRITE); cbn [negb].
  2:{ wpsimpl. kept. }
  destruct (status =? VIRTIO_BLK_S_OK).
  2:{ wpsimpl. kept. }
  pose proof (u64_range (offset + data_len)) as Hoff. pose proof (dw_len _ Hd) as [Hlen _].
  eapply wpx_mono with (Q := read_done f b (u64 (offset + data_len)) d status).
  2:{ intros r s Hpost. unfold read_done in Hpost. now destruct (read_in_bounds _ _ _). }
  rewrite wpx_bind.
  eapply wpx_mono with (Q := fun r s => ram_ok (fst s) /\ snd s = b /\
    peek (fst s) ≡m peek f /\
    forall p, r = Some p ->
      forall data, zlen data <= d_len d -> bytes data ->
        wp (fabric_ptr_store p data) (fst s) (fun _ f3 =>
          peek f3 ≡m mem_write (peek (fst s)) (d_addr d) data /\ ram_ok f3)).
  { destruct direct_read; wpsimpl; [|easy]. cbn [fst snd].
    wpuse ram_map; try assumption; [apply Hd | apply Hd|].
    intros r f1 (Hp1 & Hok1 & Hst). auto. }
  intros [p|] [f1 b1] (Hf1 & E & Hp1 & Hst); cbn [fst snd] in *; subst b1.
  - apply read_direct; auto.
  - now apply read_bounced.
Qed.
End data_phase.

(** ** The chain walk *)

(** A destination of a read request: backed by memory, and away from the
    descriptors that remain to be read. *)
Definition target_ok (m : mem) (slots : list Z) (d : virtio_desc) : Prop :=
  seg_range d /\ mapped m (d_addr d) (d_len d) /\
  Forall (fun slot => disjoint_ranges (d_addr d) (d_len d) slot 16) slots.

Section walk.
Context {F : Type} `{RamFabric F}.
Context (direct_read : bool).
Implicit Types (f : F) (b : blkd).

(** The first iteration of the walk on a table entry that is linked further. *)
Lemma walk_step fuel f b request_type offset status data_len seen index d Q :
  ram_ok f -> desc_at (peek f) (blkd_queue b) index d ->
  has_bit (d_flags d) VRING_DESC_F_NEXT = true ->
  0 <= seen < q_num (blkd_queue b) -> in_width 32 (q_num (blkd_queue b)) ->
  (forall f1, ram_ok f1 -> peek f1 ≡m peek f ->
    wp (if request_type =? VIRTIO_BLK_T_IN then
          status ← in_segment direct_read offset data_len status d;
          chain_loop direct_read fuel request_type offset status
            (u32 (data_len + d_len d)) (seen + 1) (d_next d)
        else if request_type =? VIRTIO_BLK_T_OUT then
          status ←? out_segment offset data_len status d;
          chain_loop direct_read fuel request_type offset status
            (u32 (data_len + d_len d)) (seen + 1) (d_next d)
        else chain_loop direct_read fuel request_type offset status data_len
               (seen + 1) (d_next d)) (f1, b) Q) ->
  wp (chain_loop direct_read (S fuel) request_type offset status data_len seen
                 index) (f, b) Q.
Proof.
  intros Hf (Hd & Ha & Hm) Hnext Hseen Hw Hgo. cbn [chain_loop].
  rewrite wpx_bind, wpx_gets. cbn [fst snd].
  rewrite (u32_small (seen + 1)) by (unfold in_width in *; lia).
  rewrite (proj2 (Z.ltb_ge _ _)) by lia.
  rewrite wpx_try, wpx_liftF. cbn [fst snd].
  wpuse (virtio_read_desc_ram _ _ d); try assumption.
  intros ? f1 (-> & Hp & Hok). rewrite Hnext. cbn [negb]. now apply Hgo.
Qed.

(** The last iteration: the status descriptor. *)
Lemma walk_end fuel f b request_type offset status data_len seen index sd :
  ram_ok f -> desc_at (peek f) (blkd_queue b) index sd ->
  has_bit (d_flags sd) VRING_DESC_F_NEXT = false ->
  0 <= seen < q_num (blkd_queue b) -> in_width 32 (q_num (blkd_queue b)) ->
  wp (chain_loop direct_read (S fuel) request_type offset status data_len seen
                 index) (f, b) (fun r s =>
    r = Some (sd, status, data_len) /\ ram_ok (fst s) /\
    peek (fst s) ≡m peek f /\ snd s = b).
Proof.
  intros Hf (Hd & Ha & Hm) Hnext Hseen Hw. cbn [chain_loop].
  rewrite wpx_bind, wpx_gets. cbn [fst snd].
  rewrite (u32_small (seen + 1)) by (unfold in_width in *; lia).
  rewrite (proj2 (Z.ltb_ge _ _)) by lia.
  rewrite wpx_try, wpx_liftF. cbn [fst snd].
  wpuse (virtio_read_desc_ram _ _ sd); try assumption.
  intros ? f1 (-> & Hp & Hok). rewrite Hnext. cbn [negb]. now wpsimpl.
Qed.

Lemma walk_out fuel ps sd f b offset status data_len seen index :
  ram_ok f -> blkd_ok b -> benign_host (bk_host b) ->
  chain_at (peek f) (blkd_queue b) index (map fst ps) sd ->
  Forall (payload_at (peek f)) ps ->
  0 <= seen -> seen + Z.of_nat (length ps) < q_num (blkd_queue b) ->
  (length ps < fuel)%nat ->
  wp (chain_loop direct_read fuel VIRTIO_BLK_T_OUT offset status data_len seen
                 index) (f, b) (fun r s =>
    let '(st, dl, file) := out_spec (bd_backend (blkd_dev b)) offset ps data_len
                             status (h_file (bk_host b)) in
    r = Some (sd, st, dl) /\ ram_ok (fst s) /\ peek (fst s) ≡m peek f /\
    data_post b file (snd s)).
Proof.
  revert fuel f b status data_len seen index.
  induction ps as [|[d p] ps IH]; intros fuel f b status data_len seen index
    Hf Hb Hh Hc Hp Hs Hlt Hfuel; (destruct fuel as [|fuel]; [cbn in Hfuel; lia|]);
    cbn [map fst chain_at length] in *; pose proof (qw_num _ (queue_ok b Hb)) as Hw.
  - destruct Hc as [Hc Hn]. wpuse walk_end; try eassumption; [lia|].
    intros r [f1 b1] (-> & Hf1 & Hp1 & E). cbn [fst snd] in *. subst b1. cbn [out_spec].
    auto using data_post_refl.
  - destruct Hc as (Hd & Hn & Hc). apply Forall_cons_iff in Hp as [Hpd Hp].
    eapply (walk_step fuel f b); try eassumption; [lia|].
    intros f1 Hf1 Hp1. cbn [Z.eqb VIRTIO_BLK_T_OUT VIRTIO_BLK_T_IN Pos.eqb].
    rewrite wpx_try. destruct (payload_at_proper _ (peek f1) _ (symmetry Hp1) Hpd)
      as (Hby & Hz & Hr & Hm). cbn [fst snd] in *.
    wpuse (out_segment_ram f1 b offset data_len status d p); try assumption; [apply Hd|].
    intros r [f2 b2]. cbn [out_spec].
    destruct (out_step _ _ _ _ _ _) as [st file] eqn:Eo.
    intros (-> & Hf2 & Hp2 & P2). cbn [fst snd] in *.
    assert (peek f2 ≡m peek f) as Hp12 by (now rewrite Hp2).
    wpuse (IH fuel f2 b2 st); try assumption; try apply P2.
    + rewrite (same_device_queue _ _ (dp_same _ _ _ P2)).
      eapply chain_at_proper; [symmetry; eassumption | eassumption].
    + eapply Forall_impl; [exact Hp|]. intros s. apply payload_at_proper. now symmetry.
    + lia.
    + rewrite (same_device_queue _ _ (dp_same _ _ _ P2)). lia.
    + lia.
    + intros r [f3 b3].
      rewrite (same_device_backend _ _ (dp_same _ _ _ P2)), (dp_file _ _ _ P2).
      destruct (out_spec _ _ _ _ _ _) as [[st' dl'] file'].
      intros (-> & Hf3 & Hp3 & P3). split; [reflexivity|]. split; [assumption|].
      split; [now rewrite Hp3 | eapply data_post_trans; eassumption].
Qed.

Lemma in_step_slots be file pos d status m slots :
  zlen file = be_image_len be -> 0 <= pos -> 0 <= d_len d ->
  Forall (fun slot => disjoint_ranges (d_addr d) (d_len d) slot 16) slots ->
  let m' := snd (in_step be file pos d status m) in
  (forall q i segs sd, chain_slots q i segs = slots ->
     chain_at m q i segs sd -> chain_at m' q i segs sd) /\
  (forall a len, mapped m a len -> mapped m' a len).
Proof.
  intros Hz Hp Hl Hd m'. unfold m', in_step.
  destruct (has_bit _ _); [|split; auto]. destruct (_ =? _); [|split; auto].
  destruct (read_in_bounds _ _ _) eqn:Eb; [|split; auto]. cbn [snd].
  unfold read_in_bounds in Eb. split; [|intros; now apply mapped_write].
  intros q i segs sd E Hc. apply chain_at_write; [|assumption].
  rewrite zlen_slice, E by lia. assumption.
Qed.

Lemma in_step_proper be file pos d status m1 m2 :
  m1 ≡m m2 ->
  fst (in_step be file pos d status m1) = fst (in_step be file pos d status m2) /\
  snd (in_step be file pos d status m1) ≡m snd (in_step be file pos d status m2).
Proof.
  intros E. unfold in_step. destruct (has_bit _ _); [|easy].
  destruct (_ =? _); [|easy]. destruct (read_in_bounds _ _ _); [|easy].
  cbn. now rewrite E.
Qed.

Lemma walk_in fuel segs sd f b m offset status data_len seen index :
  ram_ok f -> blkd_ok b -> benign_host (bk_host b) -> peek f ≡m m ->
  chain_at m (blkd_queue b) index segs sd ->
  Forall (target_ok m (chain_slots (blkd_queue b) index segs)) segs ->
  0 <= seen -> seen + Z.of_nat (length segs) < q_num (blkd_queue b) ->
  (length segs < fuel)%nat ->
  wp (chain_loop direct_read fuel VIRTIO_BLK_T_IN offset status data_len seen
                 index) (f, b) (fun r s =>
    let '(st, dl, m') := in_spec (bd_backend (blkd_dev b)) (h_file (bk_host b))
                           offset segs data_len status m in
    r = Some (sd, st, dl) /\ ram_ok (fst s) /\ peek (fst s) ≡m m' /\
    data_post b (h_file (bk_host b)) (snd s)).
Proof.
  revert fuel f b m status data_len seen index.
  induction segs as [|d segs IH]; intros fuel f b m status data_len seen index
    Hf Hb Hh Hm Hc Ht Hs Hlt Hfuel; (destruct fuel as [|fuel]; [cbn in Hfuel; lia|]);
    cbn [chain_at length] in *; pose proof (qw_num _ (queue_ok b Hb)) as Hw.
  - destruct Hc as [Hc Hn]. eapply desc_at_proper in Hc; [|symmetry; exact Hm].
    wpuse walk_end; try eassumption; [lia|].
    intros r [f1 b1] (-> & Hf1 & Hp1 & E). cbn [fst snd in_spec] in *. subst b1.
    rewrite Hm in Hp1. auto using data_post_refl.
  - destruct Hc as (Hd & Hn & Hc). apply Forall_cons_iff in Ht as [(Hr & Hma & Hdis) Ht].
    cbn [chain_slots] in *. apply Forall_cons_iff in Hdis as [_ Hdis].
    eapply desc_at_proper in Hd; [|symmetry; exact Hm].
    eapply (walk_step fuel f b); try eassumption; [lia|].
    intros f1 Hf1 Hp1. cbn [Z.eqb VIRTIO_BLK_T_IN].
    rewrite wpx_bind. pose proof (proj1 Hd) as Hdw.
    assert (peek f1 ≡m m) as Hm1 by (now rewrite Hp1).
    wpuse (in_segment_ram direct_read f1 b offset data_len status d); try assumption.
    { now rewrite Hm1. }
    intros st [f2 b2]. cbn [in_spec].
    destruct (in_step_proper (bd_backend (blkd_dev b)) (h_file (bk_host b))
      (u64 (offset + data_len)) d status _ _ Hm1) as [Est Eme].
    destruct (in_step_slots (bd_backend (blkd_dev b)) (h_file (bk_host b))
      (u64 (offset + data_len)) d status m (chain_slots (blkd_queue b) (d_next d) segs))
      as [Hch Hmap]; [apply Hb | apply (u64_range (offset + data_len)) | apply Hdw | assumption|].
    destruct (in_step _ _ _ _ _ (peek f1)) as [st1 m1].
    destruct (in_step _ _ _ _ _ m) as [st2 m2]. cbn [fst snd] in *. subst st2.
    intros (-> & Hf2 & Hp2 & P2). cbn [fst snd] in *. rewrite Eme in Hp2.
    wpuse (IH fuel f2 b2 m2); try assumption; try apply P2.
    + rewrite (same_device_queue _ _ (dp_same _ _ _ P2)). now apply Hch.
    + rewrite (same_device_queue _ _ (dp_same _ _ _ P2)).
      eapply Forall_impl; [exact Ht|]. intros d' (? & ? & Hd').
      apply Forall_cons_iff in Hd' as [_ ?]. split; [assumption|]. split; auto.
    + lia.
    + rewrite (same_device_queue _ _ (dp_same _ _ _ P2)). lia.
    + lia.
    + intros r [f3 b3].
      rewrite (same_device_backend _ _ (dp_same _ _ _ P2)), (dp_file _ _ _ P2).
      destruct (in_spec _ _ _ _ _ _ _) as [[st' dl'] m'].
      intros (-> & Hf3 & Hp3 & P3). split; [reflexivity|]. split; [assumption|].
      split; [assumption | eapply data_post_trans; eassumption].
Qed.

(** Any other request type: the data descriptors are skipped. *)
Lemma walk_other fuel segs sd f b request_type offset status data_len seen index :
  ram_ok f -> blkd_ok b ->
  request_type <> VIRTIO_BLK_T_IN -> request_type <> VIRTIO_BLK_T_OUT ->
  chain_at (peek f) (blkd_queue b) index segs sd ->
  0 <= seen -> seen + Z.of_nat (length segs) < q_num (blkd_queue b) ->
  (length segs < fuel)%nat ->
  wp (chain_loop direct_read fuel request_type offset status data_len seen
                 index) (f, b) (fun r s =>
    r = Some (sd, status, data_len) /\ ram_ok (fst s) /\
    peek (fst s) ≡m peek f /\ snd s = b).
Proof.
  intros Hf Hb Hni Hno. revert fuel f Hf seen index.
  induction segs as [|d segs IH]; intros fuel f Hf seen index
    Hc Hs Hlt Hfuel; (destruct fuel as [|fuel]; [cbn in Hfuel; lia|]);
    cbn [chain_at length] in *; pose proof (qw_num _ (queue_ok b Hb)) as Hw.
  - destruct Hc as [Hc Hn]. apply walk_end; try assumption. lia.
  - destruct Hc as (Hd & Hn & Hc). eapply (walk_step fuel f b); try eassumption; [lia|].
    intros f1 Hf1 Hp1. rewrite !(proj2 (Z.eqb_neq _ _)) by assumption.
    wpuse (IH fuel f1 Hf1); try lia.
    + eapply chain_at_proper; [symmetry; eassumption | eassumption].
    + intros r s (-> & ? & Hp & ->). rewrite Hp. auto.
Qed.
End walk.

(** ** Whole requests *)

Definition blk_header (request_type reserved sector : Z) : list Z :=
  virtio_store_le32 request_type ++ virtio_store_le32 reserved
  ++ virtio_store_le64 sector.

(** A request in guest memory: the header descriptor [hd] at [head], the data
    descriptors [segs] and the status descriptor [sd]. *)
Record request_at (m : mem) (q : virtio_queue) (head request_type sector : Z)
    (hd : virtio_desc) (segs : list virtio_desc) (sd : virtio_desc) : Prop := {
  ra_head : desc_at m q head hd;
  ra_next : has_bit (d_flags hd) VRING_DESC_F_NEXT = true;
  ra_range : addr_range (d_addr hd) 16;
  ra_header : exists reserved,
    mem_at m (d_addr hd) (blk_header request_type reserved sector);
  ra_type : in_width 32 request_type;
  ra_sector : in_width 64 sector;
  ra_chain : chain_at m q (d_next hd) segs sd;
  ra_status : addr_range (d_addr sd) 1 /\ mapped m (d_addr sd) 1;
  ra_length : Z.of_nat (length segs) < q_num q;
}.

Section requests.
Context {F : Type} `{RamFabric F}.
Context (direct_read : bool).
Implicit Types (f : F) (b : blkd).

Lemma process_start fuel f b head request_type sector hd segs sd Q :
  ram_ok f ->
  request_at (peek f) (blkd_queue b) head request_type sector hd segs sd ->
  (forall f1, ram_ok f1 -> peek f1 ≡m peek f ->
    wp (chain_loop direct_read fuel request_type (request_offset sector)
          (initial_status request_type sector) 0 0 (d_next hd)) (f1, b)
       (fun r s => match r with
                   | Some (d, st, dl) => wp (complete_request request_type d st dl) s Q
                   | None => Q None s
                   end)) ->
  wp (process_chain direct_read fuel head) (f, b) Q.
Proof.
  intros Hf [(Hd & Ha & Hm) Hn Hr [res Hh] Ht Hs _ _ _] Hgo. unfold process_chain.
  rewrite wpx_bind, wpx_gets, wpx_try, wpx_liftF. cbn [fst snd].
  wpuse (virtio_read_desc_ram _ _ hd); try assumption.
  intros ? f1 (-> & Hp1 & Hf1). rewrite Hn. cbn [negb].
  rewrite wpx_try, wpx_liftF. cbn [fst snd].
  wpuse (dma_read_into_ram f1 (d_addr hd) (blk_header request_type res sector));
    try assumption; try reflexivity; try (unfold in_width; lia); try apply Hd.
  { now rewrite Hp1. }
  intros ? f2 (-> & Hp2 & Hf2).
  assert (virtio_load_le32 (blk_header request_type res sector) = request_type) as ->.
  { etransitivity; [apply load_store_le32 | now apply u32_small]. }
  assert (virtio_load_le64 (drop 8 (blk_header request_type res sector)) = sector) as ->.
  { rewrite <- (app_nil_r (virtio_store_le64 sector)) at 1.
    etransitivity; [apply (load_store_le64 sector []) | now apply u64_small]. }
  cbv zeta. rewrite wpx_try. wpuse Hgo; [assumption | now rewrite Hp2|].
  now intros [[[d st] dl]|] s.
Qed.

(** The status byte. *)
Lemma complete_ram f b request_type sd status data_len :
  request_type <> VIRTIO_BLK_T_FLUSH -> ram_ok f -> desc_wf sd ->
  status_ok status -> addr_range (d_addr sd) 1 -> mapped (peek f) (d_addr sd) 1 ->
  wp (complete_request request_type sd status data_len) (f, b) (fun r s =>
    r = Some (if request_type =? VIRTIO_BLK_T_IN then u32 (data_len + 1) else 1) /\
    ram_ok (fst s) /\ peek (fst s) ≡m mem_write (peek f) (d_addr sd) [status] /\
    snd s = b).
Proof.
  intros Hnf Hf Hd Hst Ha Hm. unfold complete_request.
  rewrite (proj2 (Z.eqb_neq _ _) Hnf). wpsimpl. cbn [fst snd].
  wpuse (dma_write_ram f (d_addr sd) [status]); try assumption;
    try (unfold in_width, zlen; cbn; lia); [apply Hd| |].
  { constructor; [|constructor]. unfold status_ok, is_byte in *. lia. }
  intros ? f1 (-> & Hp & Hf1). wpsimpl. auto.
Qed.

Lemma out_status_ok be offset ps dl st file :
  status_ok st -> status_ok (out_spec be offset ps dl st file).1.1.
Proof.
  revert dl st file. induction ps as [|[d p] ps IH]; intros dl st file Hst;
    [assumption|]. cbn [out_spec].
  destruct (out_step _ _ _ _ _ _) as [st' file'] eqn:E. apply IH. revert E.
  unfold out_step. destruct (has_bit _ _); [now intros [= <- _]|].
  destruct (_ =? _); [destruct (_ && _)|]; now intros [= <- _].
Qed.

Lemma in_status_ok be file offset segs dl st m :
  status_ok st -> status_ok (in_spec be file offset segs dl st m).1.1.
Proof.
  revert dl st m. induction segs as [|d segs IH]; intros dl st m Hst;
    [assumption|]. cbn [in_spec].
  destruct (in_step _ _ _ _ _ _) as [st' m'] eqn:E. apply IH. revert E.
  unfold in_step. destruct (has_bit _ _); [|now intros [= <- _]].
  destruct (_ =? _); [destruct (read_in_bounds _ _ _)|]; now intros [= <- _].
Qed.

Lemma in_spec_mapped be file offset segs dl st m a len :
  mapped m a len -> mapped (in_spec be file offset segs dl st m).2 a len.
Proof.
  revert dl st m. induction segs as [|d segs IH]; intros dl st m Hm; [assumption|].
  cbn [in_spec]. destruct (in_step _ _ _ _ _ _) as [st' m'] eqn:E. apply IH. revert E.
  unfold in_step. destruct (has_bit _ _); [|now intros [= _ <-]].
  destruct (_ =? _); [destruct (read_in_bounds _ _ _)|]; intros [= _ <-];
    auto using mapped_write.
Qed.

(** Write requests. *)
Lemma process_out fuel f b head sector hd ps sd :
  ram_ok f -> blkd_ok b -> benign_host (bk_host b) ->
  request_at (peek f) (blkd_queue b) head VIRTIO_BLK_T_OUT sector hd (map fst ps) sd ->
  Forall (payload_at (peek f)) ps -> (length ps < fuel)%nat ->
  wp (process_chain direct_read fuel head) (f, b) (fun r s =>
    let '(st, _, file) := out_spec (bd_backend (blkd_dev b)) (request_offset sector)
      ps 0 (initial_status VIRTIO_BLK_T_OUT sector) (h_file (bk_host b)) in
    r = Some 1 /\ ram_ok (fst s) /\
    peek (fst s) ≡m mem_write (peek f) (d_addr sd) [st] /\
    data_post b file (snd s)).
Proof.
  intros Hf Hb Hh Hr Hp Hfuel. pose proof Hr as [_ _ _ _ _ _ Hc [Ha Hm] Hl].
  rewrite length_map in Hl.
  eapply process_start; [assumption | exact Hr|]. intros f1 Hf1 Hp1.
  wpuse (walk_out direct_read fuel ps sd f1 b); try assumption; try lia.
  - eapply chain_at_proper; [symmetry; eassumption | assumption].
  - eapply Forall_impl; [exact Hp|]. intros s. apply payload_at_proper. now symmetry.
  - intros r [f2 b2].
    pose proof (out_status_ok (bd_backend (blkd_dev b)) (request_offset sector) ps 0 _
      (h_file (bk_host b)) (initial_status_ok VIRTIO_BLK_T_OUT sector)) as Hst.
    destruct (out_spec _ _ _ _ _ _) as [[st dl] file]. cbn [fst snd] in *.
    intros (-> & Hf2 & Hp2 & P2). rewrite Hp1 in Hp2.
    wpuse complete_ram; try assumption; [discriminate | eapply chain_at_last; eassumption | now rewrite Hp2|].
    intros r [f3 b3] (-> & Hf3 & Hp3 & E). cbn [fst snd] in *. subst b3.
    rewrite Hp2 in Hp3. auto.
Qed.

(** Read requests. *)
Lemma process_in fuel f b head sector hd segs sd :
  ram_ok f -> blkd_ok b -> benign_host (bk_host b) ->
  request_at (peek f) (blkd_queue b) head VIRTIO_BLK_T_IN sector hd segs sd ->
  Forall (target_ok (peek f) (chain_slots (blkd_queue b) (d_next hd) segs)) segs ->
  (length segs < fuel)%nat ->
  wp (process_chain direct_read fuel head) (f, b) (fun r s =>
    let '(st, dl, m) := in_spec (bd_backend (blkd_dev b)) (h_file (bk_host b))
      (request_offset sector) segs 0 (initial_status VIRTIO_BLK_T_IN sector) (peek f) in
    r = Some (u32 (dl + 1)) /\ ram_ok (fst s) /\
    peek (fst s) ≡m mem_write m (d_addr sd) [st] /\
    data_post b (h_file (bk_host b)) (snd s)).
Proof.
  intros Hf Hb Hh Hr Hp Hfuel. pose proof Hr as [_ _ _ _ _ _ Hc [Ha Hm] Hl].
  eapply process_start; [assumption | exact Hr|]. intros f1 Hf1 Hp1.
  wpuse (walk_in direct_read fuel segs sd f1 b (peek f)); try assumption; try lia.
  intros r [f2 b2].
  pose proof (in_status_ok (bd_backend (blkd_dev b)) (h_file (bk_host b))
    (request_offset sector) segs 0 _ (peek f) (initial_status_ok VIRTIO_BLK_T_IN sector)) as Hst.
  pose proof (in_spec_mapped (bd_backend (blkd_dev b)) (h_file (bk_host b))
    (request_offset sector) segs 0 (initial_status VIRTIO_BLK_T_IN sector) _ _ _ Hm) as Hm'.
  destruct (in_spec _ _ _ _ _ _ _) as [[st dl] m']. cbn [fst snd] in *.
  intros (-> & Hf2 & Hp2 & P2).
  wpuse complete_ram; try assumption; [discriminate | eapply chain_at_last; eassumption | now rewrite Hp2|].
  intros r [f3 b3] (-> & Hf3 & Hp3 & E). cbn [fst snd] in *. subst b3.
  rewrite Hp2 in Hp3. auto.
Qed.
End requests.

(** ** Closed forms of the reference *)

Definition total_len (segs : list virtio_desc) : Z :=
  foldr (fun d n => d_len d + n) 0 segs.

(** [data] distributed over the destinations in order. *)
Fixpoint scatter (m : mem) (segs : list virtio_desc) (data : list Z) : mem :=
  match segs with
  | [] => m
  | d :: segs =>
      scatter (mem_write m (d_addr d) (take (Z.to_nat (d_len d)) data)) segs
              (drop (Z.to_nat (d_len d)) data)
  end.

Section closed.
Context (be : blkd_block_backend).

Lemma total_len_nonneg segs : Forall (fun d => 0 <= d_len d) segs -> 0 <= total_len segs.
Proof. unfold total_len. induction 1; cbn [foldr]; lia. Qed.

Lemma out_spec_ok offset ps dl file :
  be_readonly be = false -> zlen file = be_image_len be ->
  be_image_len be <= INT64_MAX -> 0 <= offset -> 0 <= dl ->
  Forall (fun s => device_readable s.1 /\ zlen s.2 = d_len s.1) ps ->
  offset + dl + total_len (map fst ps) <= be_image_len be ->
  dl + total_len (map fst ps) < 2 ^ 32 ->
  out_spec be offset ps dl VIRTIO_BLK_S_OK file =
  (VIRTIO_BLK_S_OK, dl + total_len (map fst ps),
   splice (offset + dl) (concat (map snd ps)) file).
Proof.
  intros Hro. revert dl file.
  induction ps as [|[d p] ps IH]; intros dl file Hz Hmax Ho Hd Hall Hle Hlt;
    cbn [out_spec map fst snd concat total_len foldr] in *.
  { rewrite splice_nil by lia. now rewrite Z.add_0_r. }
  apply Forall_cons_iff in Hall as [[Hr Hzp] Hall]. cbn [fst snd] in *.
  fold (total_len (map fst ps)) in *.
  assert (0 <= total_len (map fst ps)) as Ht.
  { apply total_len_nonneg. apply List.Forall_map. eapply Forall_impl; [exact Hall|].
    intros s [_ <-]. unfold zlen. lia. }
  assert (0 <= d_len d) as Hdl by (rewrite <- Hzp; unfold zlen; lia).
  unfold INT64_MAX in *. unfold out_step. rewrite Hr, Z.eqb_refl, Hro.
  rewrite (u64_small (offset + dl)), (u32_small (dl + d_len d))
    by (unfold in_width; lia).
  replace (read_in_bounds be (offset + dl) (d_len d)) with true
    by (unfold read_in_bounds, INT64_MAX; lia).
  cbn [negb andb]. rewrite IH; try assumption; try lia.
  - f_equal; [f_equal; lia|]. rewrite Z.add_assoc, <- Hzp. apply splice_app; [lia|].
    replace (zlen (concat (map snd ps))) with (total_len (map fst ps)); [lia|].
    clear -Hall. induction Hall as [|s ps [_ E] _ IH]; [reflexivity|].
    cbn [map concat total_len foldr]. rewrite zlen_app, <- IH, E. reflexivity.
  - rewrite zlen_splice; lia.
Qed.

Lemma out_spec_error offset ps dl file :
  (out_spec be offset ps dl VIRTIO_BLK_S_IOERR file).1.1 = VIRTIO_BLK_S_IOERR /\
  (out_spec be offset ps dl VIRTIO_BLK_S_IOERR file).2 = file.
Proof.
  revert dl. induction ps as [|[d p] ps IH]; intros dl; [easy|]. cbn [out_spec].
  unfold out_step. destruct (has_bit _ _); apply IH.
Qed.

Lemma in_spec_ok file offset segs dl m :
  zlen file = be_image_len be -> be_image_len be <= INT64_MAX ->
  0 <= offset -> 0 <= dl ->
  Forall (fun d => device_writable d /\ 0 <= d_len d) segs ->
  offset + dl + total_len segs <= be_image_len be -> dl + total_len segs < 2 ^ 32 ->
  in_spec be file offset segs dl VIRTIO_BLK_S_OK m =
  (VIRTIO_BLK_S_OK, dl + total_len segs,
   scatter m segs (slice (offset + dl) (total_len segs) file)).
Proof.
  intros Hz Hmax Ho. revert dl m.
  induction segs as [|d segs IH]; intros dl m Hd Hall Hle Hlt;
    cbn [in_spec scatter total_len foldr] in *; [now rewrite Z.add_0_r|].
  apply Forall_cons_iff in Hall as [[Hw Hdl] Hall]. fold (total_len segs) in *.
  assert (0 <= total_len segs) as Ht.
  { apply total_len_nonneg. eapply Forall_impl; [exact Hall|]. now intros s [_ ?]. }
  unfold INT64_MAX in *. unfold in_step. rewrite Hw, Z.eqb_refl.
  rewrite (u64_small (offset + dl)), (u32_small (dl + d_len d))
    by (unfold in_width; lia).
  replace (read_in_bounds be (offset + dl) (d_len d)) with true
    by (unfold read_in_bounds, INT64_MAX; lia).
  rewrite IH; try assumption; try lia. f_equal; [f_equal; lia|].
  unfold slice. rewrite Z.add_assoc. f_equal.
  - f_equal. rewrite take_take. f_equal. lia.
  - rewrite (Z2Nat.inj_add (d_len d)), <- take_drop_commute, drop_drop by lia.
    do 2 f_equal. lia.
Qed.
End closed.

Lemma request_offset_small sector be :
  0 <= sector -> be_image_len be <= INT64_MAX ->
  sector * BLKD_SECTOR_SIZE <= be_image_len be ->
  request_offset sector = sector * BLKD_SECTOR_SIZE /\
  initial_status VIRTIO_BLK_T_OUT sector = VIRTIO_BLK_S_OK /\
  initial_status VIRTIO_BLK_T_IN sector = VIRTIO_BLK_S_OK.
Proof.
  unfold INT64_MAX, BLKD_SECTOR_SIZE. intros H0 Hm Hs.
  assert ((UINT64_MAX / 512 <? sector) = false) as E.
  { apply Z.ltb_ge. change (UINT64_MAX / 512) with 36028797018963967. lia. }
  unfold request_offset, initial_status, BLKD_SECTOR_SIZE. rewrite E. cbn.
  split; [apply u64_small; unfold in_width; lia | split; reflexivity].
Qed.

(** A write request that fits into a writable image. *)
Record write_ok (m : mem) (q : virtio_queue) (be : blkd_block_backend)
    (head sector : Z) (hd : virtio_desc) (ps : list (virtio_desc * list Z))
    (sd : virtio_desc) : Prop := {
  wo_request : request_at m q head VIRTIO_BLK_T_OUT sector hd (map fst ps) sd;
  wo_payload : Forall (payload_at m) ps;
  wo_readable : Forall (fun s => device_readable s.1) ps;
  wo_fits : sector * BLKD_SECTOR_SIZE + total_len (map fst ps) <= be_image_len be;
  wo_total : total_len (map fst ps) < 2 ^ 32;
}.

Lemma process_write_ok {F} `{RamFabric F} direct_read fuel f b head sector hd ps sd :
  ram_ok f -> blkd_ok b -> benign_host (bk_host b) ->
  be_readonly (bd_backend (blkd_dev b)) = false ->
  write_ok (peek f) (blkd_queue b) (bd_backend (blkd_dev b)) head sector hd ps sd ->
  (length ps < fuel)%nat ->
  wp (process_chain direct_read fuel head) (f, b) (fun r s =>
    r = Some 1 /\ ram_ok (fst s) /\
    peek (fst s) ≡m mem_write (peek f) (d_addr sd) [VIRTIO_BLK_S_OK] /\
    data_post b (splice (sector * BLKD_SECTOR_SIZE) (concat (map snd ps))
                        (h_file (bk_host b))) (snd s)).
Proof.
  intros Hf Hb Hh Hw [Hr Hp Hro Hle Hlt] Hfuel.
  destruct (bo_image b Hb) as [Hz Hm _]. pose proof (ra_sector _ _ _ _ _ _ _ _ Hr) as Hs.
  assert (Forall (fun s => device_readable s.1 /\ zlen s.2 = d_len s.1) ps) as Hall.
  { apply Forall_and. split; [assumption|]. eapply Forall_impl; [exact Hp|].
    now intros s (_ & ? & _). }
  assert (0 <= total_len (map fst ps)) as Ht.
  { apply total_len_nonneg, List.Forall_map. eapply Forall_impl; [exact Hall|].
    intros s [_ <-]. unfold zlen. lia. }
  destruct (request_offset_small sector (bd_backend (blkd_dev b))) as (Eo & Es & _);
    [apply Hs | assumption | lia |].
  wpuse process_out; try eassumption. intros r [f' b'].
  rewrite Eo, Es, out_spec_ok; try assumption; try lia;
    [|unfold BLKD_SECTOR_SIZE in *; unfold in_width in Hs; lia].
  rewrite Z.add_0_r. auto.
Qed.

(** ** Claims *)

(** A request in the witness memory: table at 0x1000, header at 0x1040, data at
    0x1060, status byte at 0x1080. *)
Definition demo_header_desc : virtio_desc :=
  {| d_addr := 0x1040; d_len := 16; d_flags := VRING_DESC_F_NEXT; d_next := 1 |}.
Definition demo_data_desc (flags : Z) : virtio_desc :=
  {| d_addr := 0x1060; d_len := 4; d_flags := Z.lor VRING_DESC_F_NEXT flags;
     d_next := 2 |}.
Definition demo_status_desc : virtio_desc :=
  {| d_addr := 0x1080; d_len := 1; d_flags := VRING_DESC_F_WRITE; d_next := 0 |}.

Definition demo_memory (request_type sector flags : Z) : list Z :=
  encode_desc demo_header_desc ++ encode_desc (demo_data_desc flags)
  ++ encode_desc demo_status_desc ++ replicate 16 0
  ++ blk_header request_type 0 sector ++ replicate 16 0
  ++ [1; 2; 3; 4] ++ replicate 28 0 ++ replicate 384 0xff.

Definition demo_fabric (request_type sector flags : Z) : uio_state :=
  sample_fabric (demo_memory request_type sector flags).

Definition demo_blkd (readonly : bool) (ev : list io_event) : blkd :=
  set_up_queue (blkd_connect (sample_blkd readonly PNull 0 ev)) sample_queue.

(** Evaluate the facts about one concrete request in the witness memory. *)
Ltac closed_le := vm_compute; first [reflexivity | discriminate].
Ltac demo_range := split; [closed_le | split; closed_le].
Ltac demo_desc :=
  split; [split; decided | split; [demo_range |
    apply uio_over_mem_at; [closed_le | vm_compute; reflexivity]]].
Ltac demo_request :=
  split; [demo_desc | reflexivity | demo_range
    | exists 0; apply uio_over_mem_at; [closed_le | vm_compute; reflexivity]
    | decided | decided
    | split; [demo_desc | split; [reflexivity | split; [demo_desc | reflexivity]]]
    | split; [demo_range | apply uio_over_mapped; closed_le]
    | reflexivity].

Lemma demo_write_request :
  request_at (uio_peek (demo_fabric VIRTIO_BLK_T_OUT 1 0)) sample_queue 0
    VIRTIO_BLK_T_OUT 1 demo_header_desc [demo_data_desc 0] demo_status_desc.
Proof. demo_request. Qed.

Lemma demo_read_request :
  request_at (uio_peek (demo_fabric VIRTIO_BLK_T_IN 1 VRING_DESC_F_WRITE)) sample_queue 0
    VIRTIO_BLK_T_IN 1 demo_header_desc [demo_data_desc VRING_DESC_F_WRITE] demo_status_desc.
Proof. demo_request. Qed.

Lemma demo_ok readonly ev : blkd_ok (demo_blkd readonly ev).
Proof. apply set_up_queue_ok, sample_queue_wf. Qed.

Lemma demo_payload : Forall (payload_at (uio_peek (demo_fabric VIRTIO_BLK_T_OUT 1 0)))
  [(demo_data_desc 0, [1; 2; 3; 4])].
Proof.
  repeat constructor; try (cbn; unfold is_byte; lia); try closed_le.
  apply uio_over_mem_at; [closed_le | vm_compute; reflexivity].
Qed.

(** C7: a write request writes exactly its payload. On a fabric that is a byte
    memory, with a host that may interrupt or shorten transfers, a write request
    whose data fits into a writable image is completed with used length 1: the
    image afterwards is the old one with the concatenated payloads of the data
    descriptors at byte [sector * 512], and the only guest byte that changed is the
    status byte, now OK. *)
Theorem blk_write_request {F} `{HR : RamFabric F} direct_read fuel f b head sector
    hd ps sd :
  ram_ok f -> blkd_ok b -> benign_host (bk_host b) ->
  request_at (peek f) (blkd_queue b) head VIRTIO_BLK_T_OUT sector hd (map fst ps) sd ->
  Forall (payload_at (peek f)) ps -> Forall (fun s => device_readable s.1) ps ->
  be_readonly (bd_backend (blkd_dev b)) = false ->
  sector * BLKD_SECTOR_SIZE + total_len (map fst ps)
    <= be_image_len (bd_backend (blkd_dev b)) ->
  total_len (map fst ps) < 2 ^ 32 -> (length ps < fuel)%nat ->
  exists f' b', process_chain direct_read fuel head (f, b) = Done (Some 1, (f', b')) /\
    h_file (bk_host b') = splice (sector * BLKD_SECTOR_SIZE) (concat (map snd ps))
                                 (h_file (bk_host b)) /\
    peek f' ≡m mem_write (peek f) (d_addr sd) [VIRTIO_BLK_S_OK] /\
    ram_ok f' /\ blkd_ok b' /\ blkd_queue b' = blkd_queue b.
Proof.
  intros Hf Hb Hh Hr Hp Hro Hw Hle Hlt Hfuel.
  destruct (wp_elim _ _ _ (process_write_ok direct_read fuel f b head sector hd ps sd
    Hf Hb Hh Hw ltac:(now split) Hfuel))
    as (r & [f' b'] & E & -> & Hf' & Hp' & [? Hs' Hfile _ _]).
  exists f', b'. repeat (split; [assumption|]). now apply same_device_queue.
Qed.

Lemma blk_write_request_witness :
  exists f' b', process_chain false 3 0
      (demo_fabric VIRTIO_BLK_T_OUT 1 0, demo_blkd false [IoIntr; IoShort 1])
    = Done (Some 1, (f', b')) /\
    h_file (bk_host b') = splice 512 [1; 2; 3; 4] (replicate 1024 7).
Proof.
  destruct (blk_write_request (HR := uio_ram) false 3 (demo_fabric VIRTIO_BLK_T_OUT 1 0)
    (demo_blkd false [IoIntr; IoShort 1]) 0 1 demo_header_desc
    [(demo_data_desc 0, [1; 2; 3; 4])] demo_status_desc) as (f' & b' & E & Hf & _).
  - apply uio_over_inv; decided.
  - apply demo_ok.
  - split; repeat constructor; cbn; lia.
  - exact demo_write_request.
  - exact demo_payload.
  - repeat constructor.
  - reflexivity.
  - closed_le.
  - reflexivity.
  - cbn. lia.
  - exists f', b'. split; [exact E | exact Hf].
Defined.

(** C8: a read request delivers exactly the addressed image bytes. Under the same
    conditions a read request inside the image, whose destinations do not overlap
    the descriptors of its own chain, is completed with used length
    [data length + 1]; guest memory afterwards is the old one with the image bytes
    from [sector * 512] scattered over the destinations in order and the status
    byte set to OK; the image is unchanged. The bounce-buffer path and the direct
    path ([direct_read]) agree. *)
Theorem blk_read_request {F} `{HR : RamFabric F} direct_read fuel f b head sector
    hd segs sd :
  ram_ok f -> blkd_ok b -> benign_host (bk_host b) ->
  request_at (peek f) (blkd_queue b) head VIRTIO_BLK_T_IN sector hd segs sd ->
  Forall (target_ok (peek f) (chain_slots (blkd_queue b) (d_next hd) segs)) segs ->
  Forall device_writable segs -> Forall (fun d => 0 <= d_len d) segs ->
  sector * BLKD_SECTOR_SIZE + total_len segs <= be_image_len (bd_backend (blkd_dev b)) ->
  total_len segs < 2 ^ 32 - 1 -> (length segs < fuel)%nat ->
  exists f' b', process_chain direct_read fuel head (f, b)
      = Done (Some (total_len segs + 1), (f', b')) /\
    h_file (bk_host b') = h_file (bk_host b) /\
    peek f' ≡m mem_write
      (scatter (peek f) segs
         (slice (sector * BLKD_SECTOR_SIZE) (total_len segs) (h_file (bk_host b))))
      (d_addr sd) [VIRTIO_BLK_S_OK] /\
    ram_ok f' /\ blkd_ok b' /\ blkd_queue b' = blkd_queue b.
Proof.
  intros Hf Hb Hh Hr Hp Hw Hdl Hle Hlt Hfuel.
  destruct (bo_image b Hb) as [Hz Hm _]. pose proof (ra_sector _ _ _ _ _ _ _ _ Hr) as Hs.
  pose proof (total_len_nonneg segs Hdl) as Ht.
  destruct (request_offset_small sector (bd_backend (blkd_dev b))) as (Eo & _ & Es);
    [apply Hs | assumption | lia |].
  destruct (wp_elim _ _ _ (process_in direct_read fuel f b head sector hd segs sd
    Hf Hb Hh Hr Hp Hfuel)) as (r & [f' b'] & E & Q).
  rewrite Eo, Es, in_spec_ok in Q; try assumption; try lia;
    [|unfold BLKD_SECTOR_SIZE in *; unfold in_width in Hs; lia | now apply Forall_and].
  destruct Q as (-> & Hf' & Hp' & [? Hs' Hfile _ _]).
  rewrite Z.add_0_r, Z.add_0_l in *. rewrite u32_small in E by (unfold in_width; lia).
  exists f', b'. repeat (split; [assumption|]). now apply same_device_queue.
Qed.

Lemma demo_target :
  Forall (target_ok (uio_peek (demo_fabric VIRTIO_BLK_T_IN 1 VRING_DESC_F_WRITE))
            (chain_slots sample_queue 1 [demo_data_desc VRING_DESC_F_WRITE]))
         [demo_data_desc VRING_DESC_F_WRITE].
Proof.
  constructor; [|constructor]. split; [demo_range|].
  split; [apply uio_over_mapped; closed_le|].
  constructor; [right; closed_le | constructor; [right; closed_le | constructor]].
Qed.

Lemma blk_read_request_witness :
  exists f' b', process_chain true 3 0
      (demo_fabric VIRTIO_BLK_T_IN 1 VRING_DESC_F_WRITE, demo_blkd true [IoShort 3])
    = Done (Some 5, (f', b')) /\ uio_peek f' 0x1060 = Some 7 /\
      uio_peek f' 0x1080 = Some 0.
Proof.
  destruct (blk_read_request (HR := uio_ram) true 3
    (demo_fabric VIRTIO_BLK_T_IN 1 VRING_DESC_F_WRITE)
    (demo_blkd true [IoShort 3]) 0 1 demo_header_desc
    [demo_data_desc VRING_DESC_F_WRITE] demo_status_desc) as (f' & b' & E & _ & Hp & _).
  - apply uio_over_inv; decided.
  - apply demo_ok.
  - split; repeat constructor; cbn; lia.
  - exact demo_read_request.
  - exact demo_target.
  - repeat constructor.
  - repeat constructor; cbn; lia.
  - closed_le.
  - reflexivity.
  - cbn. lia.
  - exists f', b'. split; [exact E|]. split; (etransitivity; [apply Hp|]);
      vm_compute; reflexivity.
Defined.

Section rejected.
Lemma out_spec_rejected be sector ps file :
  in_width 64 sector ->
  be_readonly be = true \/ be_image_len be < sector * BLKD_SECTOR_SIZE ->
  Forall (fun s => 0 <= d_len s.1) ps -> ps <> [] ->
  let r := out_spec be (request_offset sector) ps 0
             (initial_status VIRTIO_BLK_T_OUT sector) file in
  r.1.1 = VIRTIO_BLK_S_IOERR /\ r.2 = file.
Proof.
  intros Hs Hrej Hall Hne. unfold initial_status. cbn [Z.eqb VIRTIO_BLK_T_OUT
    VIRTIO_BLK_T_IN VIRTIO_BLK_T_FLUSH Pos.eqb negb andb].
  destruct (UINT64_MAX / BLKD_SECTOR_SIZE <? sector) eqn:E; [apply out_spec_error|].
  assert (UINT64_MAX / BLKD_SECTOR_SIZE = 36028797018963967) as Ec by reflexivity.
  unfold request_offset. rewrite E. unfold in_width, BLKD_SECTOR_SIZE in *.
  assert (u64 (sector * 512) = sector * 512) as Eu
    by (apply u64_small; unfold in_width; lia).
  rewrite Eu. destruct ps as [|[d p] ps]; [easy|].
  apply Forall_cons_iff in Hall as [Hd _]. cbn [out_spec fst snd] in *.
  rewrite Z.add_0_r, Eu. unfold out_step.
  destruct (has_bit _ _); [apply out_spec_error|]. rewrite Z.eqb_refl.
  destruct Hrej as [->|Hlt]; [apply out_spec_error|].
  replace (read_in_bounds be (sector * 512) (d_len d)) with false
    by (unfold read_in_bounds; lia).
  rewrite andb_false_r. apply out_spec_error.
Qed.
End rejected.

(** Write requests that must not be served leave the disk alone. A write
    request to a read-only image, or one that starts beyond the end of the image
    (a sector number whose byte offset overflows included), changes no byte of the
    image and reports I/O error in the status byte. *)
Theorem blk_write_rejected {F} `{HR : RamFabric F} direct_read fuel f b head sector
    hd ps sd :
  ram_ok f -> blkd_ok b -> benign_host (bk_host b) ->
  request_at (peek f) (blkd_queue b) head VIRTIO_BLK_T_OUT sector hd (map fst ps) sd ->
  Forall (payload_at (peek f)) ps -> ps <> [] ->
  be_readonly (bd_backend (blkd_dev b)) = true \/
    be_image_len (bd_backend (blkd_dev b)) < sector * BLKD_SECTOR_SIZE ->
  (length ps < fuel)%nat ->
  exists f' b', process_chain direct_read fuel head (f, b) = Done (Some 1, (f', b')) /\
    h_file (bk_host b') = h_file (bk_host b) /\
    peek f' ≡m mem_write (peek f) (d_addr sd) [VIRTIO_BLK_S_IOERR].
Proof.
  intros Hf Hb Hh Hr Hp Hne Hrej Hfuel.
  destruct (out_spec_rejected (bd_backend (blkd_dev b)) sector ps (h_file (bk_host b)))
    as [Est Efile]; try assumption; [apply Hr | |].
  { eapply Forall_impl; [exact Hp|]. intros s (_ & <- & _). unfold zlen. lia. }
  destruct (wp_elim _ _ _ (process_out direct_read fuel f b head sector hd ps sd
    Hf Hb Hh Hr Hp Hfuel)) as (r & [f' b'] & E & Q).
  destruct (out_spec _ _ _ _ _ _) as [[st dl] file]. cbn [fst snd] in *. subst st file.
  destruct Q as (-> & _ & Hp' & [_ _ Hfile _ _]). now exists f', b'.
Qed.

Lemma blk_write_rejected_witness :
  exists f' b', process_chain false 3 0
      (demo_fabric VIRTIO_BLK_T_OUT 1 0, demo_blkd true [])
    = Done (Some 1, (f', b')) /\ h_file (bk_host b') = replicate 1024 7.
Proof.
  destruct (blk_write_rejected (HR := uio_ram) false 3 (demo_fabric VIRTIO_BLK_T_OUT 1 0)
    (demo_blkd true []) 0 1 demo_header_desc
    [(demo_data_desc 0, [1; 2; 3; 4])] demo_status_desc) as (f' & b' & E & Hf & _).
  - apply uio_over_inv; decided.
  - apply demo_ok.
  - split; constructor.
  - exact demo_write_request.
  - exact demo_payload.
  - discriminate.
  - now left.
  - cbn. lia.
  - exists f', b'. split; [exact E | exact Hf].
Defined.

Section flush.
Context {F : Type} `{RamFabric F}.

(** Completion of a flush: the status byte is OK only if [fsync] succeeded, and
    then the image is durable. *)
Lemma complete_flush f b sd status data_len :
  ram_ok f -> blkd_ok b -> desc_wf sd -> status = VIRTIO_BLK_S_OK ->
  addr_range (d_addr sd) 1 -> mapped (peek f) (d_addr sd) 1 ->
  wp (complete_request VIRTIO_BLK_T_FLUSH sd status data_len) (f, b) (fun r s =>
    r = Some 1 /\ h_file (bk_host (snd s)) = h_file (bk_host b) /\
    exists st, peek (fst s) ≡m mem_write (peek f) (d_addr sd) [st] /\
      (st = VIRTIO_BLK_S_OK /\ h_durable (bk_host (snd s)) = h_file (bk_host b) \/
       st = VIRTIO_BLK_S_IOERR /\ h_durable (bk_host (snd s)) = h_durable (bk_host b))).
Proof.
  intros Hf Hb Hd -> Ha Hm. unfold complete_request.
  cbn [Z.eqb VIRTIO_BLK_T_FLUSH VIRTIO_BLK_T_IN Pos.eqb]. rewrite wpx_bind.
  eapply wpx_mono with (Q := fun st s => fst s = f /\ status_ok st /\
    h_file (bk_host (snd s)) = h_file (bk_host b) /\
    (st = VIRTIO_BLK_S_OK /\ h_durable (bk_host (snd s)) = h_file (bk_host b) \/
     st = VIRTIO_BLK_S_IOERR /\ h_durable (bk_host (snd s)) = h_durable (bk_host b))).
  { unfold on_host, blkd_block_flush, fsync. wpsimpl. cbn [fst snd]. unfold wpx.
    unfold status_ok, VIRTIO_BLK_S_OK, VIRTIO_BLK_S_IOERR.
    destruct (io_step _ _) as [[] ev]; cbn; (split; [reflexivity|]);
      (split; [lia|]); (split; [reflexivity|]); auto. }
  intros st [f1 b1] (E & Hst & Hfile & Hdur). cbn [fst snd] in *. subst f1.
  wpsimpl. cbn [fst snd].
  wpuse (dma_write_ram f (d_addr sd) [st]); try assumption;
    try (unfold in_width, zlen; cbn; lia); [apply Hd| |].
  { constructor; [|constructor]. unfold status_ok, is_byte in *. lia. }
  intros ? f2 (-> & Hp & Hf2). wpsimpl. cbn [fst snd]. eauto.
Qed.
End flush.

(** A successful flush means durable. A flush request is completed whatever
    [fsync] does; the image contents are unchanged, and the guest sees status OK only
    if [fsync] succeeded, in which case everything written so far is on stable
    storage; otherwise it sees an I/O error. *)
Theorem blk_flush_request {F} `{HR : RamFabric F} direct_read fuel f b head sector
    hd segs sd :
  ram_ok f -> blkd_ok b ->
  request_at (peek f) (blkd_queue b) head VIRTIO_BLK_T_FLUSH sector hd segs sd ->
  sector * BLKD_SECTOR_SIZE <= INT64_MAX -> (length segs < fuel)%nat ->
  exists f' b' st, process_chain direct_read fuel head (f, b) = Done (Some 1, (f', b')) /\
    h_file (bk_host b') = h_file (bk_host b) /\
    peek f' ≡m mem_write (peek f) (d_addr sd) [st] /\
    (st = VIRTIO_BLK_S_OK /\ h_durable (bk_host b') = h_file (bk_host b) \/
     st = VIRTIO_BLK_S_IOERR /\ h_durable (bk_host b') = h_durable (bk_host b)).
Proof.
  intros Hf Hb Hr Hsec Hfuel. pose proof Hr as [_ _ _ _ _ [Hs _] Hc [Ha Hm] Hl].
  assert (initial_status VIRTIO_BLK_T_FLUSH sector = VIRTIO_BLK_S_OK) as Es.
  { unfold initial_status. cbn [Z.eqb VIRTIO_BLK_T_FLUSH VIRTIO_BLK_T_IN
      VIRTIO_BLK_T_OUT Pos.eqb negb andb].
    rewrite (proj2 (Z.ltb_ge _ _)); [reflexivity|].
    change (UINT64_MAX / BLKD_SECTOR_SIZE) with 36028797018963967.
    unfold INT64_MAX, BLKD_SECTOR_SIZE in *. lia. }
  destruct (wp_elim (process_chain direct_read fuel head) (f, b) (fun r s =>
    r = Some 1 /\ h_file (bk_host (snd s)) = h_file (bk_host b) /\
    exists st, peek (fst s) ≡m mem_write (peek f) (d_addr sd) [st] /\
      (st = VIRTIO_BLK_S_OK /\ h_durable (bk_host (snd s)) = h_file (bk_host b) \/
       st = VIRTIO_BLK_S_IOERR /\ h_durable (bk_host (snd s)) = h_durable (bk_host b))))
    as (r & [f' b'] & E & -> & Hfile & st & Hp & Hst).
  - eapply process_start; [assumption | exact Hr|]. intros f1 Hf1 Hp1. rewrite Es.
    wpuse (walk_other direct_read fuel segs sd f1 b); try assumption; try easy; try lia.
    { eapply chain_at_proper; [symmetry; eassumption | assumption]. }
    intros r [f2 b2] (-> & Hf2 & Hp2 & E). cbn [fst snd] in *. subst b2.
    assert (peek f2 ≡m peek f) as Hp12 by (now rewrite Hp2).
    wpuse complete_flush; try assumption; try reflexivity;
      [eapply chain_at_last; eassumption | now rewrite Hp12|].
    intros r s (-> & Hfile & st & Hp & Hst). rewrite Hp12 in Hp. eauto 6.
  - exists f', b', st. auto.
Qed.

Lemma demo_flush_request :
  request_at (uio_peek (demo_fabric VIRTIO_BLK_T_FLUSH 0 0)) sample_queue 0
    VIRTIO_BLK_T_FLUSH 0 demo_header_desc [demo_data_desc 0] demo_status_desc.
Proof. demo_request. Qed.

Lemma blk_flush_request_witness :
  exists f' b' st, process_chain false 3 0
      (demo_fabric VIRTIO_BLK_T_FLUSH 0 0, demo_blkd false [])
    = Done (Some 1, (f', b')) /\
    (st = VIRTIO_BLK_S_OK /\ h_durable (bk_host b') = replicate 1024 7 \/
     st = VIRTIO_BLK_S_IOERR /\ h_durable (bk_host b') = []).
Proof.
  destruct (blk_flush_request (HR := uio_ram) false 3 (demo_fabric VIRTIO_BLK_T_FLUSH 0 0)
    (demo_blkd false []) 0 0 demo_header_desc [demo_data_desc 0] demo_status_desc)
    as (f' & b' & st & E & _ & _ & Hst).
  - apply uio_over_inv; decided.
  - apply demo_ok.
  - exact demo_flush_request.
  - closed_le.
  - cbn. lia.
  - exists f', b', st. split; [exact E | exact Hst].
Defined.
