(* ===== verification/BlkService.v ===== *)
(** * A notified queue is served completely

    One queue notification with any number of write requests pending: the requests
    are executed once each, in ring order, published in the used ring, and the
    guest is interrupted. *)

From S2P Require Import Prelude Endian Fabric Virtio VirtioMmio QueueService Rings.
From S2P Require Import Posix BlockBackend VirtioBlk LinuxUio BlkSafety BlkRequest.

#[local] Open Scope Z_scope.
#[local] Open Scope c_scope.

(** ** Pending write requests *)

Record blk_write : Type := {
  w_head : Z;
  w_sector : Z;
  w_hd : virtio_desc;
  w_segs : list (virtio_desc * list Z);
  w_sd : virtio_desc;
}.

(** The image after the request. *)
Definition apply_write (file : list Z) (w : blk_write) : list Z :=
  splice (w_sector w * BLKD_SECTOR_SIZE) (concat (map snd (w_segs w))) file.

(** What serving [ws] writes: the used ring and the status bytes. *)
Definition touched (q : virtio_queue) (ws : list blk_write) (a : Z) : Prop :=
  q_used q <= a < q_used q + (4 + ring_size q * 8) \/
  Exists (fun w => a = d_addr (w_sd w)) ws.

Lemma write_ok_cursor m q be c head sector hd ps sd :
  write_ok m q be head sector hd ps sd -> write_ok m (cursor_to q c) be head sector hd ps sd.
Proof.
  intros [[] ? ? ? ?]. split; try assumption. split; try assumption.
  now apply chain_at_cursor.
Qed.

(** [ws] are the requests the guest made available from the cursor on. *)
Record pending (m : mem) (q : virtio_queue) (be : blkd_block_backend)
    (ws : list blk_write) : Prop := {
  pe_index : mem_at m (q_avail q + 2)
    (virtio_store_le16 (u16 (q_last_avail_idx q + Z.of_nat (length ws))));
  pe_slot : forall j w, ws !! j = Some w ->
    in_width 16 (w_head w) /\
    mem_at m (avail_slot q (u16 (q_last_avail_idx q + Z.of_nat j)))
           (virtio_store_le16 (w_head w)) /\
    write_ok m q be (w_head w) (w_sector w) (w_hd w) (w_segs w) (w_sd w);
}.

(** The requests are independent: what serving them writes is neither ring input,
    nor descriptor, header or payload, and no status byte lies in the used ring.
    There are no more of them than ring slots, and the ring size is a power of
    two, as the virtio specification requires. *)
Record independent (m : mem) (q : virtio_queue) (be : blkd_block_backend)
    (ws : list blk_write) : Prop := {
  in_pending : forall m', agree (touched q ws) m m' -> pending m' q be ws;
  in_status : Forall (fun w => d_addr (w_sd w) < q_used q \/
    q_used q + (4 + ring_size q * 8) <= d_addr (w_sd w)) ws;
  in_count : Z.of_nat (length ws) <= ring_size q;
  in_power : (ring_size q | 2 ^ 16);
}.

(** ** Serving the queue *)

Section serve.
Context {F : Type} `{RamFabric F}.
Context (direct_read : bool) (fuel : nat).
(** The state when the notification arrives. *)
Context (m0 : mem) (q : virtio_queue) (be : blkd_block_backend)
        (ws : list blk_write) (file0 : list Z) (u0 : Z).
Hypothesis q_ok : queue_wf q.
Hypothesis rings : rings_ok m0 q.
Hypothesis indep : independent m0 q be ws.
Hypothesis writable : be_readonly be = false.
Hypothesis enough_fuel : Forall (fun w => (length (w_segs w) < fuel)%nat) ws.
Implicit Types (f : F) (b : blkd).

(** After [k] requests. *)
Record served (k : nat) (f : F) (b : blkd) : Prop := {
  se_fab : ram_ok f;
  se_ok : blkd_ok b;
  se_host : benign_host (bk_host b);
  se_agree : agree (touched q ws) m0 (peek f);
  se_queue : blkd_queue b = cursor_to q (u16 (q_last_avail_idx q + Z.of_nat k));
  se_backend : bd_backend (blkd_dev b) = be;
  se_file : h_file (bk_host b) = fold_left apply_write (take k ws) file0;
  se_index : mem_at (peek f) (q_used q + 2) (virtio_store_le16 (u16 (u0 + Z.of_nat k)));
  se_done : forall j w, (j < k)%nat -> ws !! j = Some w ->
    mem_at (peek f) (used_slot q (u16 (u0 + Z.of_nat j)))
           (virtio_store_le32 (w_head w) ++ virtio_store_le32 1) /\
    peek f (d_addr (w_sd w)) = Some VIRTIO_BLK_S_OK;
}.

Lemma served_peek k f f' b :
  served k f b -> ram_ok f' -> peek f' ≡m peek f -> served k f' b.
Proof.
  intros [] Hf E. split; try assumption.
  - eapply agree_proper; eassumption.
  - now rewrite E.
  - intros j w Hj Hw. rewrite E, (E (d_addr (w_sd w))). auto.
Qed.

Lemma bump_queue_queue b : blkd_ok b ->
  blkd_queue (bump_queue b) = advance_cursor (blkd_queue b).
Proof.
  intros [[[] _ _ _] Hc _ _ _ _ _ _]. rewrite Hc in vw_length. unfold blkd_queue.
  cbn. destruct (v_queues (m_vdev (bk_mmio b))) as [|q1 qs]; [easy | reflexivity].
Qed.

Lemma bump_queue_ok b : blkd_ok b -> blkd_ok (bump_queue b).
Proof.
  intros Hok. destruct (serving_bump (bd_backend (blkd_dev b)) (h_file (bk_host b))
    (fun _ => True) b) as [? _ _ _]; [|assumption].
  split; [assumption | | reflexivity | reflexivity]. now apply Forall_true.
Qed.

Lemma write_status_other m a w :
  m a = Some VIRTIO_BLK_S_OK ->
  mem_write m (d_addr (w_sd w)) [VIRTIO_BLK_S_OK] a = Some VIRTIO_BLK_S_OK.
Proof.
  intros E. unfold mem_write, zlen. cbn [length]. change (Z.of_nat 1) with 1.
  destruct (_ && _) eqn:Eb; [|assumption].
  now replace (a - d_addr (w_sd w)) with 0 by lia.
Qed.

(** The bytes one request writes: its status, then its used-ring entry. *)
Lemma served_done k f f' b w :
  served k f b -> ws !! k = Some w ->
  peek f' ≡m used_push (mem_write (peek f) (d_addr (w_sd w)) [VIRTIO_BLK_S_OK]) q
               (u16 (u0 + Z.of_nat k)) (w_head w) 1 ->
  forall j w', (j < S k)%nat -> ws !! j = Some w' ->
    mem_at (peek f') (used_slot q (u16 (u0 + Z.of_nat j)))
           (virtio_store_le32 (w_head w') ++ virtio_store_le32 1) /\
    peek f' (d_addr (w_sd w')) = Some VIRTIO_BLK_S_OK.
Proof.
  intros Hse Hw E j w' Hj Hw'. rewrite E, (E (d_addr (w_sd w'))).
  pose proof (ro_size _ _ rings) as Hs. destruct indep as [_ Hst Hcount Hpow].
  pose proof (proj1 (Forall_lookup _ _) Hst j w' Hw') as Hw'out.
  pose proof (proj1 (Forall_lookup _ _) Hst k w Hw) as Hwout. cbn beta in *.
  pose proof (lookup_lt_Some _ _ _ Hw) as Hk.
  destruct (slot_inside q (u16 (u0 + Z.of_nat k)) Hs) as [Hk1 Hk2].
  destruct (slot_inside q (u16 (u0 + Z.of_nat j)) Hs) as [Hj1 Hj2].
  split.
  - destruct (decide (j = k)) as [->|Hne].
    { rewrite Hw in Hw'. injection Hw' as <-. now apply used_push_entry. }
    destruct (se_done _ _ _ Hse j w') as [Hm _]; [lia | assumption|].
    apply used_push_other; change (zlen (_ ++ _)) with 8.
    + apply slot_distinct; [assumption | assumption | lia | lia].
    + left. lia.
    + apply mem_at_write_disjoint; [|assumption]. unfold disjoint_ranges.
      change (zlen [_]) with 1. change (zlen (_ ++ _)) with 8. lia.
  - enough (mem_at (used_push (mem_write (peek f) (d_addr (w_sd w)) [VIRTIO_BLK_S_OK]) q
      (u16 (u0 + Z.of_nat k)) (w_head w) 1) (d_addr (w_sd w')) [VIRTIO_BLK_S_OK]) as Hm.
    { specialize (Hm 0%nat _ eq_refl). now rewrite Z.add_0_r in Hm. }
    apply used_push_other; unfold disjoint_ranges; change (zlen [_]) with 1; try lia.
    intros i x Hi. destruct i; [|easy]. injection Hi as <-. rewrite Z.add_0_r.
    destruct (decide (j = k)) as [->|Hne].
    { rewrite Hw in Hw'. injection Hw' as <-.
      rewrite mem_write_in by (change (zlen [_]) with 1; lia).
      now rewrite Z.sub_diag. }
    apply write_status_other. apply (se_done _ _ _ Hse j w'); [lia | assumption].
Qed.

Lemma served_process k f b w :
  served k f b -> ws !! k = Some w ->
  wp (process_chain direct_read fuel (w_head w)) (f, b) (fun r s =>
    exists used_len used_idx, r = Some used_len /\ ram_ok (fst s) /\
      rings_ok (peek (fst s)) (blkd_queue (snd s)) /\ in_width 16 used_idx /\
      mem_at (peek (fst s)) (q_used (blkd_queue (snd s)) + 2)
             (virtio_store_le16 used_idx) /\
      forall f', ram_ok f' ->
        peek f' ≡m used_push (peek (fst s)) (blkd_queue (snd s)) used_idx
                             (w_head w) used_len ->
        served (S k) f' (bump_queue (snd s))).
Proof.
  intros Hse Hw. pose proof (in_pending _ _ _ _ indep _ (se_agree _ _ _ Hse)) as Hpe.
  destruct (pe_slot _ _ _ _ Hpe k w Hw) as (_ & _ & Hwo).
  pose proof (ro_size _ _ rings) as Hs.
  wpuse (process_write_ok direct_read fuel f b (w_head w) (w_sector w) (w_hd w)
    (w_segs w) (w_sd w)); try apply Hse.
  { now rewrite (se_backend _ _ _ Hse). }
  { rewrite (se_backend _ _ _ Hse), (se_queue _ _ _ Hse). now apply write_ok_cursor. }
  { apply (proj1 (Forall_lookup _ _) enough_fuel k w Hw). }
  intros r [f1 b1] (-> & Hf1 & Hp1 & [Hok Hsd Hfile Hdur Hh]). cbn [fst snd] in *.
  assert (blkd_queue b1 = cursor_to q (u16 (q_last_avail_idx q + Z.of_nat k))) as Eq
    by (rewrite (same_device_queue _ _ Hsd); apply Hse).
  assert (agree (touched q ws) m0 (peek f1)) as Hag.
  { eapply agree_proper; [exact Hp1|]. apply agree_write; [|apply Hse].
    intros x. change (zlen [_]) with 1. intros Hx. right. apply Exists_exists.
    exists w. split; [eapply list_elem_of_lookup_2; eassumption | lia]. }
  exists 1, (u16 (u0 + Z.of_nat k)). rewrite Eq.
  split; [reflexivity|]. split; [assumption|].
  split; [apply (rings_ok_agree _ _ _ q Hag) in rings; now destruct rings|].
  split; [apply u16_range|].
  split. 
  { rewrite Hp1. cbn [q_used cursor_to].
    apply mem_at_write_disjoint; [|apply Hse].
    pose proof (proj1 (Forall_lookup _ _) (in_status _ _ _ _ indep) k w Hw).
    unfold disjoint_ranges. change (zlen [_]) with 1.
    change (zlen (virtio_store_le16 _)) with 2. cbn beta in *. lia. }
  intros f' Hf' Hp'.
  assert (peek f' ≡m used_push (mem_write (peek f) (d_addr (w_sd w)) [VIRTIO_BLK_S_OK]) q
            (u16 (u0 + Z.of_nat k)) (w_head w) 1) as Hp.
  { rewrite Hp'. unfold used_push. rewrite Hp1. reflexivity. }
  split; try assumption.
  - now apply bump_queue_ok.
  - eapply agree_proper; [exact Hp'|]. apply (used_push_agree q); [assumption | now left | assumption].
  - rewrite bump_queue_queue, Eq by assumption. unfold advance_cursor, cursor_to. cbn.
    f_equal. unfold u16. rewrite Zplus_mod_idemp_l. f_equal. lia.
  - cbn. rewrite <- (se_backend _ _ _ Hse). now apply same_device_backend.
  - cbn. rewrite Hfile, (se_file _ _ _ Hse), (take_S_r _ _ _ Hw), fold_left_app.
    reflexivity.
  - rewrite Hp.
    replace (u16 (u0 + Z.of_nat (S k))) with (u16 (u16 (u0 + Z.of_nat k) + 1)).
    + apply used_push_index.
    + unfold u16. rewrite Zplus_mod_idemp_l. f_equal. lia.
  - eapply served_done; eassumption.
Qed.

Lemma served_all requests f b : (length ws < requests)%nat -> served 0 f b ->
  wp (service_loop blkd_queue bump_queue (process_chain direct_read fuel)
                   requests false) (f, b) (fun r s =>
    r = Some (0 <? length ws)%nat /\ served (length ws) (fst s) (snd s)).
Proof.
  intros Hreq Hse. rewrite <- (length_map w_head ws).
  assert (forall k head, map w_head ws !! k = Some head ->
    exists w, ws !! k = Some w /\ head = w_head w) as Hheads.
  { intros k head. rewrite list_lookup_fmap. destruct (ws !! k) as [w|]; [|easy].
    intros [= <-]. eauto. }
  pose proof (ro_size _ _ rings) as Hs.
  pose proof (u16_range (q_num q)) as Hr. fold (ring_size q) in Hr. unfold in_width in Hr.
  pose proof (in_count _ _ _ _ indep) as Hcount.
  change (0 <? length (map w_head ws))%nat with (false || (0 <? length (map w_head ws))%nat).
  apply (service_loop_ram blkd_queue bump_queue _ (map w_head ws) served
    (u16 (q_last_avail_idx q + Z.of_nat (length ws)))); try assumption.
  - apply u16_range.
  - intros k f1 b1 H1'. rewrite (se_queue _ _ _ H1').
    pose proof (in_pending _ _ _ _ indep _ (se_agree _ _ _ H1')) as Hpe.
    split; [apply H1'|]. split.
    { pose proof (rings_ok_agree _ _ _ _ (se_agree _ _ _ H1') rings) as Hro.
      now destruct Hro. }
    split; [apply u16_range | apply Hpe].
  - intros k f1 b1 head H1' Hh. destruct (Hheads _ _ Hh) as (w & Hw & ->).
    rewrite (se_queue _ _ _ H1').
    pose proof (in_pending _ _ _ _ indep _ (se_agree _ _ _ H1')) as Hpe.
    destruct (pe_slot _ _ _ _ Hpe k w Hw) as (Hwh & Hslot & _).
    apply lookup_lt_Some in Hw. split; [assumption|]. split; [|exact Hslot].
    cbn. apply cursor_distinct; lia.
  - intros f1 b1 H1'. rewrite (se_queue _ _ _ H1'). cbn. now rewrite length_map.
  - intros. eapply served_peek; eassumption.
  - intros k f1 b1 head H1' Hh. destruct (Hheads _ _ Hh) as (w & Hw & ->).
    now apply served_process.
  - lia.
  - rewrite length_map. lia.
Qed.
End serve.

Lemma notify_write_id b offset raw_value : offset = VIRTIO_MMIO_QUEUE_NOTIFY ->
  {| bk_mmio := virtio_mmio_write (bk_mmio b) offset raw_value; bk_host := bk_host b |} = b.
Proof. intros ->. now destruct b. Qed.

Lemma raise_vring_bit b : has_bit (v_interrupt_status (m_vdev (bk_mmio (raise_vring b))))
  VIRTIO_INTERRUPT_VRING = true.
Proof.
  unfold has_bit. cbn. unfold VIRTIO_INTERRUPT_VRING.
  apply negb_true_iff, Z.eqb_neq. intros E.
  apply (f_equal (fun x => Z.testbit x 0)) in E.
  rewrite Z.land_spec, Z.lor_spec, orb_true_r in E. discriminate.
Qed.

(** What serving the pending requests [ws] of queue [q] leaves behind: the daemon [b']
    and guest memory [m'], from the image [file] and guest memory [m]. *)
Record kick_done (q : virtio_queue) (ws : list blk_write) (u0 : Z) (file : list Z) (m : mem)
    (b' : blkd) (m' : mem) : Prop := {
  kd_file : h_file (bk_host b') = fold_left apply_write ws file;
  kd_queue : blkd_queue b' =
    cursor_to q (u16 (q_last_avail_idx q + Z.of_nat (length ws)));
  kd_index : mem_at m' (q_used q + 2) (virtio_store_le16 (u16 (u0 + Z.of_nat (length ws))));
  kd_used : forall j w, ws !! j = Some w ->
    mem_at m' (used_slot q (u16 (u0 + Z.of_nat j)))
           (virtio_store_le32 (w_head w) ++ virtio_store_le32 1) /\
    m' (d_addr (w_sd w)) = Some VIRTIO_BLK_S_OK;
  kd_irq : has_bit (v_interrupt_status (m_vdev (bk_mmio b'))) VIRTIO_INTERRUPT_VRING = true;
  kd_agree : agree (touched q ws) m m';
}.

(** The state in which a notification of queue 0 serves [ws]. *)
Record kick_ready (fuel requests : nat) (b : blkd) (m : mem) (ws : list blk_write) (u0 : Z)
  : Prop := {
  kr_ok : blkd_ok b;
  kr_host : benign_host (bk_host b);
  kr_ready : q_ready (blkd_queue b) <> 0;
  kr_rings : rings_ok m (blkd_queue b);
  kr_indep : independent m (blkd_queue b) (bd_backend (blkd_dev b)) ws;
  kr_writable : be_readonly (bd_backend (blkd_dev b)) = false;
  kr_width : in_width 16 u0;
  kr_used : mem_at m (q_used (blkd_queue b) + 2) (virtio_store_le16 u0);
  kr_fuel : Forall (fun w => (length (w_segs w) < fuel)%nat) ws;
  kr_some : ws <> [];
  kr_requests : (length ws < requests)%nat;
}.

Lemma kick_served {F} `{HR : RamFabric F} direct_read requests fuel f b ws u0 len :
  ram_ok f -> kick_ready fuel requests b (peek f) ws u0 ->
  exists f' b',
    blkd_mmio_write direct_read requests fuel VIRTIO_MMIO_QUEUE_NOTIFY 0 len (f, b)
      = Done (true, (f', b')) /\ ram_ok f' /\
    kick_done (blkd_queue b) ws u0 (h_file (bk_host b)) (peek f) b' (peek f').
Proof.
  intros Hf [Hb Hh Hrdy Hro Hin Hw Hu0 Hu Hfuel Hne Hreq].
  set (q := blkd_queue b) in *.
  assert (served (peek f) q (bd_backend (blkd_dev b)) ws (h_file (bk_host b)) u0 0 f b)
    as Hse.
  { split; try assumption; try reflexivity; [apply agree_refl | | | intros; lia].
    - rewrite Z.add_0_r, u16_small by apply (queue_ok b Hb). fold q. now destruct q.
    - rewrite Z.add_0_r, u16_small by assumption. assumption. }
  destruct (wp_elim (blkd_mmio_write direct_read requests fuel VIRTIO_MMIO_QUEUE_NOTIFY
    0 len) (f, b) (fun r s => r = true /\ ram_ok (fst s) /\ exists f1 b1, snd s = raise_vring b1 /\
      peek (fst s) ≡m peek f1 /\
      served (peek f) q (bd_backend (blkd_dev b)) ws (h_file (bk_host b)) u0
             (length ws) f1 b1)) as (r & [f' b'] & E & -> & Hf' & f1 & b1 & Eb & Hp & Hfin).
  - unfold blkd_mmio_write. rewrite wpx_bind, wpx_modify. cbn [fst snd].
    rewrite notify_write_id by reflexivity.
    rewrite wpx_check. cbn [Z.eqb VIRTIO_MMIO_QUEUE_NOTIFY VIRTIO_MMIO_STATUS
      VIRTIO_MMIO_INTERRUPT_ACK Pos.eqb andb].
    rewrite wpx_ret, wpx_check, wpx_ret, wpx_check.
    unfold blkd_virtio_notify_queue. rewrite wpx_bind, wpx_gets. cbn [fst snd].
    fold q. rewrite (proj2 (Z.eqb_neq _ _) Hrdy). cbn [negb orb u32].
    change (negb (u32 0 =? 0) || false) with false. cbn iota.
    rewrite wpx_try.
    wpuse (served_all direct_read fuel (peek f) q (bd_backend (blkd_dev b)) ws
      (h_file (bk_host b)) u0); try eassumption.
    intros r [f1 b1] [-> Hfin]. cbn [fst snd] in *.
    destruct ws as [|w ws']; [easy|]. cbn [length Nat.ltb Nat.leb].
    wpsimpl. cbn [fst snd]. wpuse ram_raise; [apply Hfin|].
    intros r f2 (-> & Hp2 & Hf2). wpsimpl. split; [reflexivity|]. split; [exact Hf2|]. eauto.
  - cbn [fst snd] in *. subst b'. destruct Hfin. exists f', (raise_vring b1).
    split; [exact E|]. split; [exact Hf'|]. split.
    + cbn. now rewrite se_file0, firstn_all.
    + exact se_queue0.
    + now rewrite Hp.
    + intros j w Hj. rewrite Hp, (Hp (d_addr (w_sd w))). apply se_done0; [|assumption].
      now apply lookup_lt_Some in Hj.
    + apply raise_vring_bit.
    + eapply agree_proper; eassumption.
Qed.

(** ** Claims *)

(** One kick serves the whole queue. When the guest notifies queue 0 with any
    number of independent write requests pending, the daemon returns success after
    executing all of them exactly once and in ring order: the image is the
    composition of the writes, the used ring holds one entry per request in order
    with its index advanced by their number, every status byte is OK, the cursor
    has reached the available index, the interrupt is pending, and no guest byte
    outside the used ring and the status bytes has changed. *)
Theorem blk_kick_serves_all {F} `{HR : RamFabric F} direct_read requests fuel f b
    ws u0 len :
  ram_ok f -> blkd_ok b -> benign_host (bk_host b) ->
  q_ready (blkd_queue b) <> 0 -> rings_ok (peek f) (blkd_queue b) ->
  independent (peek f) (blkd_queue b) (bd_backend (blkd_dev b)) ws ->
  be_readonly (bd_backend (blkd_dev b)) = false ->
  in_width 16 u0 ->
  mem_at (peek f) (q_used (blkd_queue b) + 2) (virtio_store_le16 u0) ->
  Forall (fun w => (length (w_segs w) < fuel)%nat) ws ->
  ws <> [] -> (length ws < requests)%nat ->
  exists f' b',
    blkd_mmio_write direct_read requests fuel VIRTIO_MMIO_QUEUE_NOTIFY 0 len (f, b)
      = Done (true, (f', b')) /\
    h_file (bk_host b') = fold_left apply_write ws (h_file (bk_host b)) /\
    blkd_queue b' = cursor_to (blkd_queue b)
      (u16 (q_last_avail_idx (blkd_queue b) + Z.of_nat (length ws))) /\
    mem_at (peek f') (q_used (blkd_queue b) + 2)
           (virtio_store_le16 (u16 (u0 + Z.of_nat (length ws)))) /\
    (forall j w, ws !! j = Some w ->
       mem_at (peek f') (used_slot (blkd_queue b) (u16 (u0 + Z.of_nat j)))
              (virtio_store_le32 (w_head w) ++ virtio_store_le32 1) /\
       peek f' (d_addr (w_sd w)) = Some VIRTIO_BLK_S_OK) /\
    has_bit (v_interrupt_status (m_vdev (bk_mmio b'))) VIRTIO_INTERRUPT_VRING = true /\
    agree (touched (blkd_queue b) ws) (peek f) (peek f').
Proof.
  intros Hf Hb Hh Hrdy Hro Hin Hw Hu0 Hu Hfuel Hne Hreq.
  destruct (kick_served direct_read requests fuel f b ws u0 len Hf) as (f' & b' & E & _ & []);
    [now split|].
  exists f', b'. auto 10.
Qed.

(** The witness: one write request of four bytes to sector 1, made available in
    the ring at 0x1100. *)
Definition kick_write : blk_write :=
  {| w_head := 0; w_sector := 1; w_hd := demo_header_desc;
     w_segs := [(demo_data_desc 0, [1; 2; 3; 4])]; w_sd := demo_status_desc |}.

Definition kick_memory : list Z :=
  take 256 (demo_memory VIRTIO_BLK_T_OUT 1 0)
  ++ [0; 0] ++ virtio_store_le16 1 ++ virtio_store_le16 0 ++ replicate 250 0
  ++ replicate 64 0.

Definition kick_fabric : uio_state := sample_fabric kick_memory.

Lemma kick_avoid a len :
  a + len <= 0x1080 \/ 0x1081 <= a /\ a + len <= 0x1200 ->
  forall x, a <= x < a + len -> ~ touched sample_queue [kick_write] x.
Proof.
  intros Ha x Hx [Hu|He].
  - change (q_used sample_queue) with 0x1200 in Hu. lia.
  - apply Exists_cons in He as [->|He]; [|now apply Exists_nil in He].
    change (d_addr (w_sd kick_write)) with 0x1080 in Hx. lia.
Qed.

Section kick.
Context (m : mem) (Hag : agree (touched sample_queue [kick_write]) (uio_peek kick_fabric) m).

Lemma kick_at a data :
  a + zlen data <= 0x1080 \/ 0x1081 <= a /\ a + zlen data <= 0x1200 ->
  0x1000 <= a -> slice (a - 0x1000) (zlen data) kick_memory = data -> mem_at m a data.
Proof.
  intros Hr Ha E. eapply mem_at_agree; [|exact Hag|].
  - now apply kick_avoid.
  - now apply uio_over_mem_at.
Qed.

Ltac kick_mem := apply kick_at;
  [first [left; closed_le | right; split; closed_le] | closed_le | vm_compute; reflexivity].
Ltac kick_desc := split; [split; decided | split; [demo_range | kick_mem]].

Lemma kick_pending :
  pending m sample_queue (bd_backend (blkd_dev (demo_blkd false []))) [kick_write].
Proof.
  split; [kick_mem|]. intros [|j] w Hw; [|easy]. injection Hw as <-.
  split; [decided|]. split; [kick_mem|]. split.
  - split; [kick_desc | reflexivity | demo_range | exists 0; kick_mem | decided
      | decided | split; [kick_desc | split; [reflexivity | split; [kick_desc | reflexivity]]]
      | split; [demo_range|] | reflexivity].
    eapply mapped_agree; [exact Hag|]. apply uio_over_mapped; closed_le.
  - constructor; [|constructor]. split; [decided|]. split; [reflexivity|].
    split; [demo_range | kick_mem].
  - repeat constructor.
  - closed_le.
  - reflexivity.
Qed.
End kick.

Lemma kick_rings : rings_ok (uio_peek kick_fabric) sample_queue.
Proof.
  split; [reflexivity | demo_range | demo_range | apply uio_over_mapped; closed_le].
Qed.

Lemma kick_independent : independent (uio_peek kick_fabric) sample_queue
  (bd_backend (blkd_dev (demo_blkd false []))) [kick_write].
Proof.
  split; [apply kick_pending | | closed_le | now exists 16384].
  constructor; [left; closed_le | constructor].
Qed.

Lemma blk_kick_serves_all_witness :
  exists f' b',
    blkd_mmio_write false 2 3 VIRTIO_MMIO_QUEUE_NOTIFY 0 4
      (kick_fabric, demo_blkd false []) = Done (true, (f', b')) /\
    h_file (bk_host b') = splice 512 [1; 2; 3; 4] (replicate 1024 7) /\
    q_last_avail_idx (blkd_queue b') = 1 /\
    mem_at (uio_peek f') 0x1204 (virtio_store_le32 0 ++ virtio_store_le32 1).
Proof.
  destruct (blk_kick_serves_all (HR := uio_ram) false 2 3 kick_fabric
    (demo_blkd false []) [kick_write] 0 4) as (f' & b' & E & Hf & Hq & _ & Hd & _).
  - apply uio_over_inv; decided.
  - apply demo_ok.
  - split; constructor.
  - discriminate.
  - exact kick_rings.
  - exact kick_independent.
  - reflexivity.
  - decided.
  - apply uio_over_mem_at; [closed_le | vm_compute; reflexivity].
  - repeat constructor.
  - discriminate.
  - cbn. lia.
  - exists f', b'. split; [exact E|]. split; [exact Hf|].
    split; [now rewrite Hq|]. apply (Hd 0%nat kick_write eq_refl).
Defined.

(** ** Where the code is undefined *)

(** C33: the queue size is not validated. If the low 16 bits of the programmed queue
    size are zero (the guest may write 0 or any multiple of 65536 to QueueNum) and
    the available index differs from the cursor, a notification divides by zero. *)
Theorem queue_size_unchecked {F} `{HR : RamFabric F} direct_read requests fuel f b idx :
  ram_ok f -> blkd_ok b -> q_ready (blkd_queue b) <> 0 ->
  u16 (q_num (blkd_queue b)) = 0 ->
  addr_range (q_avail (blkd_queue b)) 4 -> in_width 16 idx ->
  mem_at (peek f) (q_avail (blkd_queue b) + 2) (virtio_store_le16 idx) ->
  q_last_avail_idx (blkd_queue b) <> idx ->
  blkd_virtio_notify_queue direct_read (S requests) fuel 0 (f, b) = UB.
Proof.
  intros Hf Hb Hrdy Hn Ha Hi Hm Hne. unfold blkd_virtio_notify_queue.
  set (q := blkd_queue b) in *. unfold addr_range in Ha.
  destruct (wp_elim _ _ _ (dma_read_u16_ram f (q_avail q + 2) idx Hf
    ltac:(unfold addr_range; lia) ltac:(unfold in_width; lia) Hi Hm))
    as (r & f1 & E & -> & _ & _).
  assert (poll_avail q f = UB) as Ep.
  { unfold poll_avail, virtio_next_avail, try_bind, bind.
    rewrite (u64_small (q_avail q + 2)) by (unfold in_width; lia). rewrite E.
    rewrite (proj2 (Z.eqb_neq _ _) Hne), Hn. reflexivity. }
  unfold bind, gets. cbn [fst snd]. fold q.
  rewrite (proj2 (Z.eqb_neq _ _) Hrdy). cbn [Z.eqb negb orb].
  assert (service_loop blkd_queue bump_queue (process_chain direct_read fuel)
            (S requests) false (f, b) = UB) as Es.
  { cbn [service_loop]. unfold bind at 1, gets at 1. cbn [snd]. fold q.
    unfold try_bind at 1, bind at 1, liftF at 1, zoom at 1. cbn [fst]. now rewrite Ep. }
  unfold try_bind, bind. now rewrite Es.
Qed.

Definition empty_ring_queue : virtio_queue := set_num 0x10000 sample_queue.

Lemma queue_size_unchecked_witness :
  blkd_virtio_notify_queue false 1 3 0
    (kick_fabric, set_up_queue (blkd_connect (sample_blkd false PNull 0 []))
                               empty_ring_queue) = UB.
Proof.
  apply (queue_size_unchecked (HR := uio_ram) false 0 3 kick_fabric
    (set_up_queue (blkd_connect (sample_blkd false PNull 0 [])) empty_ring_queue) 1).
  - apply uio_over_inv; decided.
  - apply set_up_queue_ok. split; decided.
  - discriminate.
  - reflexivity.
  - demo_range.
  - decided.
  - apply uio_over_mem_at; [closed_le | vm_compute; reflexivity].
  - discriminate.
Defined.

(** C34: the payload buffer is never initialized. [main] leaves the device structure
    uninitialized and [blkd_virtio_init] carries the buffer pointer and size over;
    from such a state the first nonempty data segment of a write request uses the
    indeterminate pointer, whatever size was left behind. *)
Theorem payload_buffer_uninitialized {F} `{HR : RamFabric F} f b offset data_len d
    payload :
  ram_ok f -> bd_io_buf (blkd_dev b) = PWild ->
  desc_wf d -> device_readable d -> payload <> [] -> bytes payload ->
  zlen payload = d_len d -> seg_range d -> mem_at (peek f) (d_addr d) payload ->
  out_segment offset data_len VIRTIO_BLK_S_OK d (f, blkd_connect b) = UB.
Proof.
  intros Hf Hw Hd Hro Hne Hby Hz Hr Hm. unfold out_segment. rewrite Hro.
  rewrite Z.eqb_refl. set (b1 := blkd_connect b).
  assert (bd_io_buf (blkd_dev b1) = PWild) as Hw1 by exact Hw. clearbody b1.
  destruct (wp_elim _ _ _ (dma_read_into_ram f (d_addr d) payload (d_len d) Hf Hr
    (dw_len _ Hd) Hz (dw_addr _ Hd) Hm)) as (r & f1 & E & -> & _ & _).
  unfold bind, liftD, zoom. cbn [fst snd]. unfold ensure_io_buf. rewrite Hw1.
  destruct (d_len d <=? bd_io_buf_size (blkd_dev b1)); [|reflexivity].
  cbn [negb]. unfold try_bind, bind, liftF, zoom. cbn [fst snd]. rewrite E.
  unfold io_buf_store. cbn [fst snd]. rewrite Hw1. now destruct payload.
Qed.

Lemma payload_buffer_uninitialized_witness :
  out_segment 512 0 VIRTIO_BLK_S_OK (demo_data_desc 0)
    (kick_fabric, blkd_connect (sample_blkd false PWild 65536 [])) = UB.
Proof.
  apply (payload_buffer_uninitialized (HR := uio_ram) kick_fabric
    (sample_blkd false PWild 65536 []) 512 0 (demo_data_desc 0) [1; 2; 3; 4]).
  - apply uio_over_inv; decided.
  - reflexivity.
  - split; decided.
  - reflexivity.
  - discriminate.
  - decided.
  - reflexivity.
  - demo_range.
  - apply uio_over_mem_at; [closed_le | vm_compute; reflexivity].
Defined.
