(* ===== verification/CStrings.v ===== *)
(** * C strings

    The functions of [<string.h>] and [<stdlib.h>] that the configuration code of
    the daemons and fabrics calls. A C string is the [string] of the characters
    before its terminating null; a pointer into a string is the part of the string
    it points at. The null pointer is [None]. *)

From Stdlib Require Export Ascii.
From S2P Require Import Prelude.
From stdpp Require Export strings.

#[local] Open Scope Z_scope.
#[local] Arguments String.append !_ _ /.

Definition char_eqb (a b : ascii) : bool := bool_decide (a = b).

Lemma char_eqb_spec a b : reflect (a = b) (char_eqb a b).
Proof. apply bool_decide_reflect. Qed.

Lemma char_eqb_refl a : char_eqb a a = true.
Proof. now apply bool_decide_eq_true. Qed.

Lemma char_eqb_neq a b : char_eqb a b = false <-> a <> b.
Proof. apply bool_decide_eq_false. Qed.

Definition strlen (s : string) : Z := Z.of_nat (String.length s).

(** [strchr]: the text before and after the first [c]. *)
Fixpoint strchr (c : ascii) (s : string) : option (string * string) :=
  match s with
  | EmptyString => None
  | String a r =>
      if char_eqb a c then Some (EmptyString, r)
      else match strchr c r with
           | Some (before, after) => Some (String a before, after)
           | None => None
           end
  end.

(** [strrchr]: the text after the last [c]. *)
Fixpoint strrchr (c : ascii) (s : string) : option string :=
  match s with
  | EmptyString => None
  | String a r =>
      match strrchr c r with
      | Some after => Some after
      | None => if char_eqb a c then Some r else None
      end
  end.

(** [!strncmp(s, p, strlen(p))], with the rest of [s] behind the prefix. *)
Fixpoint after_prefix (p s : string) : option string :=
  match p, s with
  | EmptyString, _ => Some s
  | String a p, String b s => if char_eqb a b then after_prefix p s else None
  | String _ _, EmptyString => None
  end.

Fixpoint skip_char (c : ascii) (s : string) : string :=
  match s with
  | String a r => if char_eqb a c then skip_char c r else s
  | EmptyString => s
  end.

(** [strtok_r] with one delimiter: the next token and the text behind it. *)
Definition strtok_r (c : ascii) (s : string) : option (string * string) :=
  match skip_char c s with
  | EmptyString => None
  | s => match strchr c s with
         | Some (token, rest) => Some (token, rest)
         | None => Some (s, EmptyString)
         end
  end.

(** The tokens a [for (part = strtok_r(..); part; part = strtok_r(..))] loop
    visits. *)
Fixpoint strtok_loop (fuel : nat) (c : ascii) (s : string) : list string :=
  match fuel with
  | O => []
  | S fuel => match strtok_r c s with
              | None => []
              | Some (token, rest) => token :: strtok_loop fuel c rest
              end
  end.

Definition tokens (c : ascii) (s : string) : list string :=
  strtok_loop (S (String.length s)) c s.

(** ** [strtoull] *)

Definition ULLONG_MAX : Z := 2 ^ 64 - 1.

(** The value of a digit of some base up to 36; [36] for other characters. *)
Definition digit_value (a : ascii) : Z :=
  let n := Z.of_N (N_of_ascii a) in
  if (48 <=? n) && (n <=? 57) then n - 48
  else if (97 <=? n) && (n <=? 122) then n - 87
  else if (65 <=? n) && (n <=? 90) then n - 55
  else 36.

Fixpoint skip_space (s : string) : string :=
  match s with
  | String a r => if Ascii.is_space a then skip_space r else s
  | EmptyString => s
  end.

(** The longest run of digits: its value on top of [acc], and the rest. *)
Fixpoint scan_digits (base acc : Z) (s : string) : Z * string :=
  match s with
  | String a r =>
      if digit_value a <? base then scan_digits base (acc * base + digit_value a) r
      else (acc, s)
  | EmptyString => (acc, s)
  end.

Definition starts_with_digit (base : Z) (s : string) : bool :=
  match s with String a _ => digit_value a <? base | EmptyString => false end.

Definition scan_sign (s : string) : bool * string :=
  match s with
  | String a r => if char_eqb a "-" then (true, r)
                  else if char_eqb a "+" then (false, r) else (false, s)
  | EmptyString => (false, s)
  end.

(** The radix selected by the text when the requested base is 0, and the text
    behind a hexadecimal prefix. *)
Definition scan_base (base : Z) (s : string) : Z * string :=
  if base =? 0 then
    match s with
    | String a r =>
        if char_eqb a "0" then
          match r with
          | String x h =>
              if (char_eqb x "x" || char_eqb x "X") && starts_with_digit 16 h
              then (16, h) else (8, s)
          | EmptyString => (8, s)
          end
        else (10, s)
    | EmptyString => (10, s)
    end
  else (base, s).

(** Value, the text at [*endptr], and whether [errno] became [ERANGE]. *)
Definition strtoull (base : Z) (s : string) : Z * string * bool :=
  let '(negative, s2) := scan_sign (skip_space s) in
  let '(radix, s3) := scan_base base s2 in
  if negb (starts_with_digit radix s3) then (0, s, false) else
  let '(value, rest) := scan_digits radix 0 s3 in
  if ULLONG_MAX <? value then (ULLONG_MAX, rest, true)
  else (if negative then u64 (- value) else value, rest, false).

(** ** Splitting lemmas *)

Fixpoint char_free (c : ascii) (s : string) : bool :=
  match s with
  | EmptyString => true
  | String a r => negb (char_eqb a c) && char_free c r
  end.

Section splitting.
Implicit Types (c : ascii) (s t : string).

Lemma append_nil_r s : s +:+ "" = s.
Proof. induction s as [|a s IH]; [reflexivity|]. cbn. now f_equal. Qed.

Lemma append_assoc s t r : (s +:+ t) +:+ r = s +:+ (t +:+ r).
Proof. induction s as [|a s IH]; [reflexivity|]. cbn. now f_equal. Qed.

Lemma strlen_app s t : strlen (s +:+ t) = strlen s + strlen t.
Proof.
  unfold strlen. induction s as [|a s IH]; [reflexivity|]. cbn -[Z.of_nat] in *. lia.
Qed.

Lemma char_free_app c s t : char_free c (s +:+ t) = char_free c s && char_free c t.
Proof. induction s as [|a s IH]; cbn; [easy|]. now rewrite IH, andb_assoc. Qed.

Lemma strchr_found c s t : char_free c s = true ->
  strchr c (s +:+ String c t) = Some (s, t).
Proof.
  induction s as [|a s IH]; cbn; intros H; [now rewrite char_eqb_refl|].
  apply andb_prop in H as [Ha Hs]. apply negb_true_iff in Ha. now rewrite Ha, (IH Hs).
Qed.

Lemma strchr_none c s : char_free c s = true -> strchr c s = None.
Proof.
  induction s as [|a s IH]; cbn; intros H; [easy|].
  apply andb_prop in H as [Ha Hs]. apply negb_true_iff in Ha. now rewrite Ha, (IH Hs).
Qed.

(** What [strchr] returns recomposes the string. *)
Lemma strchr_spec c s : match strchr c s with
  | Some (p, r) => s = p +:+ String c r /\ char_free c p = true
  | None => char_free c s = true
  end.
Proof.
  induction s as [|a s IH]; cbn; [reflexivity|].
  destruct (char_eqb_spec a c) as [->|]; [easy|].
  destruct (strchr c s) as [[p r]|]; cbn; [|assumption].
  destruct IH as [-> Hp]. split; [reflexivity|]. rewrite Hp.
  now rewrite (proj2 (char_eqb_neq _ _)).
Qed.

Lemma after_prefix_app p s : after_prefix p (p +:+ s) = Some s.
Proof. induction p as [|a p IH]; cbn; [easy|]. now rewrite char_eqb_refl. Qed.

Lemma after_prefix_spec p s r : after_prefix p s = Some r -> s = p +:+ r.
Proof.
  revert s. induction p as [|a p IH]; intros [|b s]; cbn; try easy; try congruence.
  destruct (char_eqb_spec a b) as [->|]; [|easy]. intros E. now rewrite (IH _ E).
Qed.

Lemma skip_char_length c s : (String.length (skip_char c s) <= String.length s)%nat.
Proof.
  induction s as [|a s IH]; cbn; [lia|]. destruct (char_eqb a c); cbn; lia.
Qed.

Lemma strtok_r_shrinks c s t r : strtok_r c s = Some (t, r) ->
  (String.length r < String.length s)%nat.
Proof.
  unfold strtok_r. pose proof (skip_char_length c s) as Hl.
  destruct (skip_char c s) as [|a u] eqn:Es; [easy|].
  pose proof (strchr_spec c (String a u)) as Hc.
  destruct (strchr c (String a u)) as [[p q]|]; intros [= <- <-]; cbn in *; [|lia].
  destruct Hc as [E _]. apply (f_equal strlen) in E.
  rewrite strlen_app in E. unfold strlen in *. cbn -[Z.of_nat] in *. lia.
Qed.

(** Enough fuel: more of it changes nothing. *)
Lemma strtok_loop_fuel c n m s :
  (String.length s < n)%nat -> (String.length s < m)%nat ->
  strtok_loop n c s = strtok_loop m c s.
Proof.
  revert m s. induction n as [|n IH]; intros [|m] s Hn Hm; try lia. cbn.
  destruct (strtok_r c s) as [[t r]|] eqn:E; [|reflexivity].
  apply strtok_r_shrinks in E. f_equal. apply IH; lia.
Qed.

(** A token is non-empty and free of the delimiter. *)
Definition token_ok (c : ascii) (t : string) : bool :=
  char_free c t && negb (bool_decide (t = ""%string)).

Lemma skip_char_token c t s : token_ok c t = true -> skip_char c (t +:+ s) = t +:+ s.
Proof.
  unfold token_ok. intros [Hf Hn]%andb_prop. destruct t as [|a t].
  { now rewrite bool_decide_true in Hn. }
  cbn in *. apply andb_prop in Hf as [Ha _]. apply negb_true_iff in Ha. now rewrite Ha.
Qed.

Lemma tokens_cons c t s : token_ok c t = true ->
  tokens c (t +:+ String c s) = t :: tokens c s.
Proof.
  intros Ht.
  assert (strtok_r c (t +:+ String c s) = Some (t, s)) as E.
  { unfold strtok_r. rewrite skip_char_token by assumption.
    apply andb_prop in Ht as [Hf _]. destruct (t +:+ String c s) as [|a u] eqn:Eu.
    { now destruct t. }
    rewrite <- Eu, strchr_found by assumption. reflexivity. }
  unfold tokens at 1. cbn [strtok_loop]. rewrite E. f_equal.
  apply strtok_r_shrinks in E. apply strtok_loop_fuel; lia.
Qed.

Lemma tokens_last c t : token_ok c t = true -> tokens c t = [t].
Proof.
  intros Ht. unfold tokens. cbn [strtok_loop].
  assert (strtok_r c t = Some (t, ""%string)) as ->.
  { unfold strtok_r. pose proof (skip_char_token c t "" Ht) as E.
    rewrite append_nil_r in E. rewrite E. apply andb_prop in Ht as [Hf Hn].
    destruct t as [|a t]; [now rewrite bool_decide_true in Hn|].
    now rewrite strchr_none. }
  destruct t; reflexivity.
Qed.

(** The tokens of a delimiter-separated list are its elements. *)
Fixpoint join (c : ascii) (ts : list string) : string :=
  match ts with
  | [] => ""
  | [t] => t
  | t :: ts => t +:+ String c (join c ts)
  end.

Lemma tokens_join c ts : Forall (fun t => token_ok c t = true) ts ->
  tokens c (join c ts) = ts.
Proof.
  induction ts as [|t ts IH]; intros H; [reflexivity|].
  apply Forall_cons_iff in H as [Ht Hts]. destruct ts as [|t' ts].
  - now apply tokens_last.
  - change (join c (t :: t' :: ts)) with (t +:+ String c (join c (t' :: ts))).
    rewrite tokens_cons by assumption. f_equal. now apply IH.
Qed.

(** Tokens come from the string: every token is free of the delimiter. *)
Lemma tokens_free c s : Forall (fun t => token_ok c t = true) (tokens c s).
Proof.
  unfold tokens. generalize (S (String.length s)) as n. intros n. revert s.
  induction n as [|n IH]; intros s; cbn; [constructor|].
  destruct (strtok_r c s) as [[t r]|] eqn:E; constructor; [|apply IH].
  unfold strtok_r in E. destruct (skip_char c s) as [|a u] eqn:Es; [easy|].
  assert (char_eqb a c = false) as Ha.
  { clear -Es. induction s as [|b s IHs]; cbn in Es; [easy|].
    destruct (char_eqb b c) eqn:Eb; [auto | congruence]. }
  pose proof (strchr_spec c (String a u)) as Hc. unfold token_ok.
  destruct (strchr c (String a u)) as [[p q]|]; injection E as <- <-.
  - destruct Hc as [Ep ->]. destruct p; [|reflexivity].
    injection Ep as -> _. now rewrite char_eqb_refl in Ha.
  - now rewrite Hc.
Qed.
End splitting.

(** ** Numbers *)

(** The digit characters of the launcher's numbers. *)
Definition digit_char (d : Z) : ascii :=
  ascii_of_N (Z.to_N (if d <? 10 then 48 + d else 87 + d)).

Definition render (ds : list Z) : string :=
  fold_right (fun d s => String (digit_char d) s) ""%string ds.

(** The number a list of digits denotes. *)
Definition value_of (base : Z) (ds : list Z) : Z :=
  fold_left (fun acc d => acc * base + d) ds 0.

(** The [k] hexadecimal digits of [n], most significant first. *)
Fixpoint hex_digits (k : nat) (n : Z) : list Z :=
  match k with
  | O => []
  | S k => hex_digits k (n / 16) ++ [n mod 16]
  end.

(** ["0x%016lx"] *)
Definition hex64 (n : Z) : string := "0x" +:+ render (hex_digits 16 n).

Section numbers.
Implicit Types (ds : list Z) (base d : Z).

Lemma digit_value_char d : 0 <= d < 16 -> digit_value (digit_char d) = d.
Proof.
  intros H.
  assert (Forall (fun d => digit_value (digit_char d) = d) (map Z.of_nat (seq 0 16)))
    as Hall by (repeat constructor).
  rewrite List.Forall_forall in Hall. apply Hall. apply in_map_iff.
  exists (Z.to_nat d). split; [lia | apply in_seq; lia].
Qed.

Lemma scan_digits_render base acc ds rest :
  base <= 16 -> Forall (fun d => 0 <= d < base) ds ->
  starts_with_digit base rest = false ->
  scan_digits base acc (render ds +:+ rest)
  = (fold_left (fun acc d => acc * base + d) ds acc, rest).
Proof.
  intros Hb. revert acc. induction ds as [|d ds IH]; intros acc Hd Hr.
  - cbn. destruct rest as [|a r]; cbn in *; [easy | now rewrite Hr].
  - apply Forall_cons_iff in Hd as [Hd Hds]. cbn.
    rewrite digit_value_char by lia. rewrite (proj2 (Z.ltb_lt _ _)) by lia.
    now apply IH.
Qed.

Lemma hex_digits_range k n : Forall (fun d => 0 <= d < 16) (hex_digits k n).
Proof.
  revert n. induction k as [|k IH]; intros n; cbn; [constructor|].
  apply Forall_app. split; [apply IH|]. repeat constructor; apply Z.mod_pos_bound; lia.
Qed.

Lemma value_hex_digits k n : value_of 16 (hex_digits k n) = n mod 16 ^ Z.of_nat k.
Proof.
  unfold value_of. revert n. induction k as [|k IH]; intros n.
  - cbn. now rewrite Z.mod_1_r.
  - cbn [hex_digits]. rewrite fold_left_app, IH. cbn [fold_left].
    rewrite Nat2Z.inj_succ, Z.pow_succ_r by lia.
    rewrite Z.rem_mul_r by (try apply Z.pow_nonzero; lia). lia.
Qed.

Lemma length_render ds : String.length (render ds) = length ds.
Proof. induction ds as [|d ds IH]; cbn; [reflexivity | now f_equal]. Qed.

Lemma length_hex_digits k n : length (hex_digits k n) = k.
Proof.
  revert n. induction k as [|k IH]; intros n; cbn; [reflexivity|].
  rewrite length_app, IH. cbn. lia.
Qed.

Lemma strlen_hex64 n : strlen (hex64 n) = 18.
Proof. reflexivity. Qed.

(** A digit is not the given separator or a sign. *)
Lemma render_char_free c ds : Forall (fun d => 0 <= d < 16) ds -> digit_value c = 36 ->
  char_free c (render ds) = true.
Proof.
  intros Hds Hc. induction Hds as [|d ds Hd _ IH]; [reflexivity|].
  change (render (d :: ds)) with (String (digit_char d) (render ds)). cbn [char_free].
  rewrite IH, andb_true_r. apply negb_true_iff, char_eqb_neq. intros E.
  apply (f_equal digit_value) in E. rewrite digit_value_char, Hc in E; lia.
Qed.

Lemma hex64_char_free n : char_free ":" (hex64 n) = true.
Proof.
  unfold hex64. rewrite char_free_app.
  now rewrite (render_char_free ":") by (apply hex_digits_range || reflexivity).
Qed.

(** [strtoull] with base 0 reads a hexadecimal number back. *)
Lemma strtoull_hex ds : ds <> [] -> Forall (fun d => 0 <= d < 16) ds ->
  strtoull 0 ("0x" +:+ render ds)
  = if ULLONG_MAX <? value_of 16 ds then (ULLONG_MAX, ""%string, true)
    else (value_of 16 ds, ""%string, false).
Proof.
  intros Hne Hds. destruct ds as [|d ds]; [easy|].
  assert (starts_with_digit 16 (render (d :: ds)) = true) as Hs.
  { apply Forall_cons_iff in Hds as [Hd _]. cbn. rewrite digit_value_char; lia. }
  pose proof (scan_digits_render 16 0 (d :: ds) "" ltac:(lia) Hds eq_refl) as E.
  rewrite append_nil_r in E. fold (value_of 16 (d :: ds)) in E.
  assert (scan_base 0 ("0x" +:+ render (d :: ds)) = (16, render (d :: ds))) as Eb.
  { unfold scan_base. change (0 =? 0) with true. cbn [String.append].
    now rewrite Hs. }
  unfold strtoull.
  change (scan_sign (skip_space ("0x" +:+ render (d :: ds))))
    with (false, "0x" +:+ render (d :: ds)).
  cbn beta iota. rewrite Eb, Hs, E. now destruct (ULLONG_MAX <? _).
Qed.
End numbers.
