(* ===== verification/Endpoints.v ===== *)
(** * Endpoint and environment configuration of the shared-memory fabrics

    [linux_uio.c] and [linux_devmem.c] read their configuration from the endpoint
    string of the registered device and from environment variables. A function
    that fills a structure and reports failure is modelled by an [option] of the
    filled structure: every caller gives up on failure. *)

From stdpp Require Import pretty.
From S2P Require Import Prelude Fabric CStrings LinuxUio.

#[local] Open Scope Z_scope.
#[local] Close Scope c_scope.

(** ** Numbers (identical in both fabrics) *)

Definition parse_u64 (value : option string) : option Z :=
  match value with
  | None => None
  | Some value =>
      if bool_decide (value = "") then None else
      let '(parsed, rest, erange) := strtoull 0 value in
      if erange || negb (bool_decide (rest = "")) then None else Some (u64 parsed)
  end.

#[global] Arguments parse_u64 : simpl never.

Definition parse_u32 (value : option string) : option Z :=
  match parse_u64 value with
  | None => None
  | Some parsed => if 2 ^ 32 - 1 <? parsed then None else Some (u32 parsed)
  end.

(** ** The devmem fabric *)

Record devmem_config : Type := {
  dc_path : string;
  dc_mmio_base : Z;     (* uint64_t *)
  dc_mmio_size : Z;     (* uint64_t *)
  dc_poll_us : Z;       (* uint32_t *)
  dc_have_irq : bool;
  dc_irq_addr : Z;      (* uint64_t *)
  dc_irq_assert : Z;    (* uint32_t *)
  dc_irq_deassert : Z;  (* uint32_t *)
}.

Definition set_mmio_base (v : Z) (c : devmem_config) : devmem_config :=
  {| dc_path := dc_path c; dc_mmio_base := v; dc_mmio_size := dc_mmio_size c;
     dc_poll_us := dc_poll_us c; dc_have_irq := dc_have_irq c;
     dc_irq_addr := dc_irq_addr c; dc_irq_assert := dc_irq_assert c;
     dc_irq_deassert := dc_irq_deassert c |}.
Definition set_mmio_size (v : Z) (c : devmem_config) : devmem_config :=
  {| dc_path := dc_path c; dc_mmio_base := dc_mmio_base c; dc_mmio_size := v;
     dc_poll_us := dc_poll_us c; dc_have_irq := dc_have_irq c;
     dc_irq_addr := dc_irq_addr c; dc_irq_assert := dc_irq_assert c;
     dc_irq_deassert := dc_irq_deassert c |}.
Definition set_poll_us (v : Z) (c : devmem_config) : devmem_config :=
  {| dc_path := dc_path c; dc_mmio_base := dc_mmio_base c;
     dc_mmio_size := dc_mmio_size c; dc_poll_us := v; dc_have_irq := dc_have_irq c;
     dc_irq_addr := dc_irq_addr c; dc_irq_assert := dc_irq_assert c;
     dc_irq_deassert := dc_irq_deassert c |}.
Definition set_irq_addr (v : Z) (c : devmem_config) : devmem_config :=
  {| dc_path := dc_path c; dc_mmio_base := dc_mmio_base c;
     dc_mmio_size := dc_mmio_size c; dc_poll_us := dc_poll_us c;
     dc_have_irq := true; dc_irq_addr := v; dc_irq_assert := dc_irq_assert c;
     dc_irq_deassert := dc_irq_deassert c |}.
Definition set_irq_assert (v : Z) (c : devmem_config) : devmem_config :=
  {| dc_path := dc_path c; dc_mmio_base := dc_mmio_base c;
     dc_mmio_size := dc_mmio_size c; dc_poll_us := dc_poll_us c;
     dc_have_irq := dc_have_irq c; dc_irq_addr := dc_irq_addr c;
     dc_irq_assert := v; dc_irq_deassert := dc_irq_deassert c |}.
Definition set_irq_deassert (v : Z) (c : devmem_config) : devmem_config :=
  {| dc_path := dc_path c; dc_mmio_base := dc_mmio_base c;
     dc_mmio_size := dc_mmio_size c; dc_poll_us := dc_poll_us c;
     dc_have_irq := dc_have_irq c; dc_irq_addr := dc_irq_addr c;
     dc_irq_assert := dc_irq_assert c; dc_irq_deassert := v |}.

(** [getenv]. *)
Definition environment : Type := string -> option string.

(** An unset variable leaves the default, a malformed one is an error. *)
Definition env_u64 (env : environment) (name : string) (out : Z) : option Z :=
  match env name with None => Some out | Some v => parse_u64 (Some v) end.

Definition env_u32 (env : environment) (name : string) (out : Z) : option Z :=
  match env name with None => Some out | Some v => parse_u32 (Some v) end.

(** The loop over the fields of the endpoint: the number of fields. *)
Fixpoint endpoint_fields (index : Z) (parts : list string) (config : devmem_config)
  : option (Z * devmem_config) :=
  match parts with
  | [] => Some (index, config)
  | part :: parts =>
      config ← (if index =? 0 then v ← parse_u64 (Some part); Some (set_mmio_base v config)
                else if index =? 1 then v ← parse_u64 (Some part); Some (set_mmio_size v config)
                else if index =? 2 then v ← parse_u32 (Some part); Some (set_poll_us v config)
                else None);
      endpoint_fields (index + 1) parts config
  end.

Definition devmem_parse_endpoint (endpoint : option string) (config : devmem_config)
  : option devmem_config :=
  match endpoint with
  | None => Some config
  | Some endpoint =>
      match after_prefix "devmem:" endpoint with
      | None => Some config
      | Some rest =>
          if 256 <=? strlen rest then None else
          r ← endpoint_fields 0 (tokens ":" rest) config;
          (if 1 <=? fst r then Some (snd r) else None)
      end
  end.

Definition default_config (env : environment) (size : Z) : devmem_config :=
  {| dc_path := match env "CHIPLETS_DEVMEM_PATH" with
                | Some path => if bool_decide (path = "") then "/dev/mem" else path
                | None => "/dev/mem"
                end;
     dc_mmio_base := 0; dc_mmio_size := size; dc_poll_us := 1000;
     dc_have_irq := false; dc_irq_addr := 0; dc_irq_assert := 1;
     dc_irq_deassert := 0 |}.

Definition load_config {F D} (env : environment) (device : fabric_device F D)
  : option devmem_config :=
  let config := default_config env (fd_size device) in
  config ← match env "CHIPLETS_DEVMEM_MMIO_BASE" with
           | Some base => v ← parse_u64 (Some base); Some (set_mmio_base v config)
           | None => Some config
           end;
  size ← env_u64 env "CHIPLETS_DEVMEM_MMIO_SIZE" (dc_mmio_size config);
  let config := set_mmio_size size config in
  poll ← env_u32 env "CHIPLETS_DEVMEM_POLL_US" (dc_poll_us config);
  let config := set_poll_us poll config in
  high ← env_u32 env "CHIPLETS_DEVMEM_IRQ_ASSERT" (dc_irq_assert config);
  let config := set_irq_assert high config in
  low ← env_u32 env "CHIPLETS_DEVMEM_IRQ_DEASSERT" (dc_irq_deassert config);
  let config := set_irq_deassert low config in
  config ← devmem_parse_endpoint (Some (fd_socket_path device)) config;
  config ← match env "CHIPLETS_DEVMEM_IRQ_ADDR" with
           | Some addr => v ← parse_u64 (Some addr); Some (set_irq_addr v config)
           | None => Some config
           end;
  (if (dc_mmio_base config =? 0) || (dc_mmio_size config <? fd_size device)
   then None else Some config).

(** ** The UIO fabric *)

Definition uio_parse_endpoint (endpoint : option string) : option uio_config :=
  match endpoint with
  | None => None
  | Some value =>
      if bool_decide (value = "") then None else
      let value := match after_prefix "uio:" value with Some v => v | None => value end in
      let '(path, offset) := match strchr ":" value with
                             | Some (path, offset) => (path, Some offset)
                             | None => (value, None)
                             end in
      if (strlen path =? 0) || (256 <=? strlen path) then None else
      match offset with
      | None => Some {| uc_path := path;
                        uc_irq_control_offset := UIO_IRQ_CONTROL_OFFSET;
                        uc_dma_base := 0 |}
      | Some offset =>
          let '(offset_buf, dma_base) := match strchr ":" offset with
                                         | Some (o, base) => (o, Some base)
                                         | None => (offset, None)
                                         end in
          if (strlen offset_buf =? 0) || (64 <=? strlen offset_buf) then None else
          irq ← parse_u64 (Some offset_buf);
          base ← match dma_base with
                 | Some b => parse_u64 (Some b)
                 | None => Some 0
                 end;
          Some {| uc_path := path; uc_irq_control_offset := irq; uc_dma_base := base |}
      end
  end.

(** [fgets] on the text of a file: up to [n - 1] characters, to the end of the
    first line; [None] at the end of the file. *)
Fixpoint fgets (n : nat) (text : string) : string :=
  match n, text with
  | S (S _ as n), String a r =>
      if char_eqb a "010" then String a EmptyString else String a (fgets n r)
  | _, _ => EmptyString
  end.

(** [buf[strcspn(buf, "\n")] = 0]. *)
Definition chomp (buf : string) : string :=
  match strchr "010" buf with Some (line, _) => line | None => buf end.

(** A sysfs file is its text, or [None] when it cannot be opened. *)
Definition read_sysfs_u64 (file : option string) : option Z :=
  match file with
  | None => None
  | Some text =>
      if bool_decide (text = "") then None else parse_u64 (Some (chomp (fgets 64 text)))
  end.

Definition uio_index_from_path (path : string) : option Z :=
  let base := match strrchr "/" path with Some b => b | None => path end in
  match after_prefix "uio" base with
  | None => None
  | Some digits =>
      let '(parsed, rest, erange) := strtoull 10 digits in
      if erange || negb (bool_decide (rest = "")) || (2 ^ 32 - 1 <? parsed)
      then None else Some (u32 parsed)
  end.

(** [fscanf(f, "0x%lx 0x%lx 0x%lx", ..)]: the literal characters match exactly, a
    conversion skips white space and stores a hexadecimal number. *)
Definition scan_hex (s : string) : option (Z * string) :=
  let '(negative, s2) := scan_sign (skip_space s) in
  let s3 := match after_prefix "0x" s2 with Some h => h | None => s2 end in
  if negb (starts_with_digit 16 s3) then None else
  let '(value, rest) := scan_digits 16 0 s3 in
  Some (if ULLONG_MAX <? value then ULLONG_MAX
        else if negative then u64 (- value) else value, rest).

Definition scan_field (s : string) : option (Z * string) :=
  s ← after_prefix "0x" s; scan_hex s.

(** The number of conversions, the variables after them, the unread text. *)
Definition fscanf_resource (vars : Z * Z * Z) (s : string)
  : Z * (Z * Z * Z) * string :=
  let '(start, end_, flags) := vars in
  match scan_field s with
  | None => (0, vars, s)
  | Some (start, s) =>
      match scan_field (skip_space s) with
      | None => (1, (start, end_, flags), s)
      | Some (end_, s) =>
          match scan_field (skip_space s) with
          | None => (2, (start, end_, flags), s)
          | Some (flags, s) => (3, (start, end_, flags), s)
          end
      end
  end.

(** The loop over the lines of the resource list. *)
Fixpoint resource_loop (fuel : nat) (resource current : Z) (vars : Z * Z * Z)
    (s : string) : Z * (Z * Z * Z) :=
  match fuel with
  | O => (current, vars)
  | S fuel =>
      if negb (current <=? resource) then (current, vars) else
      let '(n, vars, s) := fscanf_resource vars s in
      if negb (n =? 3) then (current, vars) else
      if current =? resource then (current, vars)
      else resource_loop fuel resource (current + 1) vars s
  end.

(** What the daemon sees of the host while it sets up: the page size, sysfs files
    by path, the results of [open] by path, and the memory behind a mapping of the
    given file, resource and length ([None] for [MAP_FAILED]). *)
Record uio_host : Type := {
  uh_page_size : Z;
  uh_file : string -> option string;
  uh_open : string -> Z;
  uh_mmap : string -> Z -> Z -> option (list Z);
}.

Definition decimal (n : Z) : string := pretty (Z.to_N n).

Definition map_resource (h : uio_host) (config : uio_config) (resource : Z)
  : option uio_mapping :=
  if uh_page_size h <=? 0 then None else
  index ← uio_index_from_path (uc_path config);
  let dir := "/sys/class/uio/uio" +:+ decimal index in
  let size_path := dir +:+ "/maps/map" +:+ decimal resource +:+ "/size" in
  let direct := match read_sysfs_u64 (uh_file h size_path) with
                | Some size => if size =? 0 then None else Some size
                | None => None
                end in
  match direct with
  | Some size =>
      window ← uh_mmap h (uc_path config) resource size;
      Some {| um_addr := Some window; um_size := size |}
  | None =>
      text ← uh_file h (dir +:+ "/device/resource");
      let '(current, (start, end_, flags)) :=
        resource_loop (Z.to_nat resource + 1) resource 0 (0, 0, 0) text in
      if negb (current =? resource) || (end_ <? start) then None else
      let size := u64 (end_ - start + 1) in
      let path := dir +:+ "/device/resource" +:+ decimal resource in
      if uh_open h path <? 0 then None else
      window ← uh_mmap h path 0 size;
      Some {| um_addr := Some window; um_size := size |}
  end.

(** ** Printing endpoints *)

(** The full form of a UIO endpoint and of a devmem endpoint. *)
Definition print_uio_endpoint (c : uio_config) : string :=
  "uio:" +:+ uc_path c +:+ ":" +:+ hex64 (uc_irq_control_offset c)
         +:+ ":" +:+ hex64 (uc_dma_base c).

Definition print_devmem_endpoint (base size poll : Z) : string :=
  "devmem:" +:+ join ":" [hex64 base; hex64 size; hex64 poll].

Section round_trips.

Lemma parse_hex64 n : in_width 64 n -> parse_u64 (Some (hex64 n)) = Some n.
Proof.
  intros Hn. unfold parse_u64, hex64. rewrite bool_decide_false by easy.
  rewrite strtoull_hex by (easy || apply hex_digits_range).
  rewrite value_hex_digits. change (16 ^ Z.of_nat 16) with (2 ^ 64).
  rewrite Z.mod_small by exact Hn. unfold in_width, ULLONG_MAX in *.
  rewrite (proj2 (Z.ltb_ge _ n)) by lia. cbn [orb].
  rewrite bool_decide_true by reflexivity. cbn [negb]. f_equal. now apply u64_small.
Qed.

Lemma parse_hex32 n : in_width 32 n -> parse_u32 (Some (hex64 n)) = Some n.
Proof.
  intros Hn. unfold parse_u32.
  rewrite parse_hex64 by (apply (in_width_mono 32 64); [lia | assumption]).
  unfold in_width in Hn. rewrite (proj2 (Z.ltb_ge _ n)) by lia.
  now rewrite u32_small.
Qed.

Lemma token_hex64 n : token_ok ":" (hex64 n) = true.
Proof. unfold token_ok. now rewrite hex64_char_free. Qed.

(** A range error or trailing text is an error, never a wrong value. *)
Lemma parse_u64_range v n : parse_u64 v = Some n -> in_width 64 n.
Proof.
  unfold parse_u64. destruct v as [v|]; [|easy]. case_bool_decide; [easy|].
  destruct (strtoull 0 v) as [[p r] e]. destruct (_ || _); [easy|].
  intros [= <-]. apply u64_range.
Qed.

Lemma parse_u32_range v n : parse_u32 v = Some n -> in_width 32 n.
Proof.
  unfold parse_u32. destruct (parse_u64 v); [|easy]. destruct (_ <? _); [easy|].
  intros [= <-]. apply u32_range.
Qed.
End round_trips.

(** A configuration an endpoint string can carry. *)
Record uio_config_ok (c : uio_config) : Prop := {
  uk_path : char_free ":" (uc_path c) = true;
  uk_len : 0 < strlen (uc_path c) < 256;
  uk_irq : in_width 64 (uc_irq_control_offset c);
  uk_base : in_width 64 (uc_dma_base c);
}.

(** Only such configurations are accepted. *)
Lemma uio_parse_endpoint_ok e c : uio_parse_endpoint e = Some c -> uio_config_ok c.
Proof.
  unfold uio_parse_endpoint. destruct e as [value|]; [|easy].
  case_bool_decide; [easy|].
  set (v := match after_prefix _ _ with Some v => v | None => value end). clearbody v.
  pose proof (strchr_spec ":" v) as Hv.
  assert (forall path, char_free ":" path = true ->
    (strlen path =? 0) || (256 <=? strlen path) = false ->
    char_free ":" path = true /\ 0 < strlen path < 256) as Hpath.
  { intros path Hf Hl. split; [assumption|]. unfold strlen in *. lia. }
  destruct (strchr ":" v) as [[path offset]|]; cbn beta iota;
    destruct (_ || _) eqn:El; try easy.
  - destruct (Hpath path (proj2 Hv) El) as [Hf Hl].
    destruct (match strchr ":" offset with Some (o, base) => (o, Some base) | None => _ end)
      as [o [b|]]; cbn beta iota; (destruct ((strlen o =? 0) || _) eqn:Eo; [easy|]);
      destruct (parse_u64 (Some o)) as [irq|] eqn:Ei; cbn; try easy;
      [destruct (parse_u64 (Some b)) as [base|] eqn:Eb; cbn; [|easy]|];
      intros [= <-]; split; cbn; eauto using parse_u64_range; now split.
  - destruct (Hpath v Hv El) as [Hf Hl]. intros [= <-]. split; cbn; easy || assumption || now split.
Qed.

(** The UIO endpoint syntax carries exactly the usable configurations. A path of
    1 to 255 characters without a colon, with arbitrary 64-bit interrupt-control
    offset and DMA base, is recovered from its printed endpoint; and whatever the
    endpoint string, an accepted configuration is of that form, so the copies into
    the fixed-size buffers stay inside them. *)
Theorem uio_endpoint_roundtrip c :
  (uio_config_ok c -> uio_parse_endpoint (Some (print_uio_endpoint c)) = Some c) /\
  (forall e, uio_parse_endpoint e = Some c -> uio_config_ok c).
Proof.
  split; [|intros e; apply uio_parse_endpoint_ok].
  intros [Hp Hl Hi Hb]. unfold uio_parse_endpoint, print_uio_endpoint.
  rewrite bool_decide_false by easy. rewrite after_prefix_app.
  change (":" +:+ hex64 (uc_irq_control_offset c) +:+ ":" +:+ hex64 (uc_dma_base c))
    with (String ":" (hex64 (uc_irq_control_offset c) +:+ ":" +:+ hex64 (uc_dma_base c))).
  rewrite strchr_found by assumption.
  rewrite (proj2 (Z.eqb_neq _ 0)), (proj2 (Z.leb_gt 256 _)) by lia. cbn [orb].
  change (":" +:+ hex64 (uc_dma_base c)) with (String ":" (hex64 (uc_dma_base c))).
  rewrite strchr_found by apply hex64_char_free. rewrite strlen_hex64. cbn [orb Z.eqb Z.leb].
  rewrite !parse_hex64 by assumption. now destruct c.
Qed.

Example uio_endpoint_short :
  uio_parse_endpoint (Some "uio:/dev/uio3") =
    Some {| uc_path := "/dev/uio3"; uc_irq_control_offset := 0x200; uc_dma_base := 0 |} /\
  uio_parse_endpoint (Some "/dev/uio3:512") =
    Some {| uc_path := "/dev/uio3"; uc_irq_control_offset := 512; uc_dma_base := 0 |} /\
  uio_parse_endpoint (Some "uio:/dev/uio3:") = None /\
  uio_parse_endpoint (Some "uio::1") = None /\
  uio_parse_endpoint (Some "uio:/dev/uio3:0x200:12z") = None.
Proof. vm_compute. auto. Qed.

Lemma uio_endpoint_roundtrip_witness :
  uio_parse_endpoint (Some (print_uio_endpoint
    {| uc_path := "/dev/uio1"; uc_irq_control_offset := 0x200;
       uc_dma_base := 0x1000000000 |}))
  = Some {| uc_path := "/dev/uio1"; uc_irq_control_offset := 0x200;
            uc_dma_base := 0x1000000000 |}.
Proof.
  apply (uio_endpoint_roundtrip {| uc_path := "/dev/uio1"; uc_irq_control_offset := 0x200;
    uc_dma_base := 0x1000000000 |}).
  split; [reflexivity | split; reflexivity | |]; split; (vm_compute; discriminate) || reflexivity.
Defined.

(** ** The devmem configuration *)

Lemma devmem_endpoint_fields base size poll config :
  in_width 64 base -> in_width 64 size -> in_width 32 poll ->
  devmem_parse_endpoint (Some (print_devmem_endpoint base size poll)) config
  = Some (set_poll_us poll (set_mmio_size size (set_mmio_base base config))).
Proof.
  intros Hb Hs Hp. unfold devmem_parse_endpoint, print_devmem_endpoint.
  rewrite after_prefix_app.
  assert (strlen (join ":" [hex64 base; hex64 size; hex64 poll]) = 56) as -> by reflexivity.
  cbn [Z.leb Z.compare Pos.compare Pos.compare_cont].
  rewrite tokens_join by (repeat constructor; apply token_hex64).
  cbn [endpoint_fields Z.eqb Z.add Pos.add Pos.eqb Pos.succ].
  rewrite (parse_hex64 base), (parse_hex64 size), (parse_hex32 poll) by assumption.
  reflexivity.
Qed.

(** What a loaded configuration guarantees. *)
Record devmem_config_ok (size : Z) (c : devmem_config) : Prop := {
  dk_base : 0 < dc_mmio_base c < 2 ^ 64;
  dk_size : size <= dc_mmio_size c < 2 ^ 64;
  dk_poll : in_width 32 (dc_poll_us c);
  dk_addr : in_width 64 (dc_irq_addr c);
  dk_assert : in_width 32 (dc_irq_assert c);
  dk_deassert : in_width 32 (dc_irq_deassert c);
}.

(** The same without the final test. *)
Record devmem_config_typed (c : devmem_config) : Prop := {
  dt_base : in_width 64 (dc_mmio_base c);
  dt_size : in_width 64 (dc_mmio_size c);
  dt_poll : in_width 32 (dc_poll_us c);
  dt_addr : in_width 64 (dc_irq_addr c);
  dt_assert : in_width 32 (dc_irq_assert c);
  dt_deassert : in_width 32 (dc_irq_deassert c);
}.

Section typed.
Context {F D : Type} (env : environment).

Lemma env_u64_typed name out v : in_width 64 out -> env_u64 env name out = Some v ->
  in_width 64 v.
Proof.
  unfold env_u64. destruct (env name); [intros _; apply parse_u64_range|].
  now intros ? [= <-].
Qed.

Lemma env_u32_typed name out v : in_width 32 out -> env_u32 env name out = Some v ->
  in_width 32 v.
Proof.
  unfold env_u32. destruct (env name); [intros _; apply parse_u32_range|].
  now intros ? [= <-].
Qed.

Lemma endpoint_fields_typed parts : forall index c r, devmem_config_typed c ->
  endpoint_fields index parts c = Some r -> devmem_config_typed (snd r).
Proof.
  induction parts as [|part parts IH]; intros index c r Hc; cbn [endpoint_fields].
  { now intros [= <-]. }
  intros (c' & E & Hr)%bind_Some. apply (IH _ _ _) in Hr; [assumption|]. clear -Hc E.
  destruct Hc.
  destruct (index =? 0); [|destruct (index =? 1); [|destruct (index =? 2); [|easy]]];
    apply bind_Some in E as (v & Ev & [= <-]);
    (apply parse_u64_range in Ev || apply parse_u32_range in Ev); split; assumption.
Qed.

Lemma parse_endpoint_typed e c c' : devmem_config_typed c ->
  devmem_parse_endpoint e c = Some c' -> devmem_config_typed c'.
Proof.
  intros Hc. unfold devmem_parse_endpoint. destruct e as [e|]; [|now intros [= <-]].
  destruct (after_prefix "devmem:" e) as [rest|]; [|now intros [= <-]].
  destruct (_ <=? _); [easy|]. intros ([i cf] & E & Hr)%bind_Some. cbn in Hr.
  destruct (1 <=? i); [|easy]. injection Hr as <-.
  now apply (endpoint_fields_typed _ _ _ _ Hc E).
Qed.

Lemma load_config_ok (device : fabric_device F D) c :
  in_width 64 (fd_size device) -> load_config env device = Some c ->
  devmem_config_ok (fd_size device) c.
Proof.
  intros Hsz. unfold load_config.
  assert (devmem_config_typed (default_config env (fd_size device))) as H0
    by (split; cbn; assumption || now split).
  generalize dependent (default_config env (fd_size device)). intros c0 H0.
  intros (c1 & E1 & H)%bind_Some. assert (devmem_config_typed c1) as [].
  { destruct (env "CHIPLETS_DEVMEM_MMIO_BASE"); [|injection E1 as <-; assumption].
    apply bind_Some in E1 as (v & Ev & [= <-]). apply parse_u64_range in Ev.
    destruct H0. now split. }
  apply bind_Some in H as (size & E2 & H). apply env_u64_typed in E2; [|assumption].
  apply bind_Some in H as (poll & E3 & H). apply env_u32_typed in E3; [|assumption].
  apply bind_Some in H as (high & E4 & H). apply env_u32_typed in E4; [|assumption].
  apply bind_Some in H as (low & E5 & H). apply env_u32_typed in E5; [|assumption].
  apply bind_Some in H as (c2 & E6 & H). apply parse_endpoint_typed in E6; [|now split].
  apply bind_Some in H as (c3 & E7 & H). assert (devmem_config_typed c3) as [].
  { destruct (env "CHIPLETS_DEVMEM_IRQ_ADDR"); [|injection E7 as <-; assumption].
    apply bind_Some in E7 as (v & Ev & [= <-]). apply parse_u64_range in Ev.
    destruct E6. now split. }
  destruct (_ || _) eqn:Et; [easy|]. injection H as <-.
  unfold in_width in *. split; try assumption; lia.
Qed.
End typed.

(** ** Resource windows *)

(** One line of [/sys/class/uio/uioX/device/resource], without its newline. *)
Definition resource_line (start end_ flags : Z) : string :=
  hex64 start +:+ " " +:+ hex64 end_ +:+ " " +:+ hex64 flags.

Section resource_list.

Lemma digit_not_space d : 0 <= d < 16 -> Ascii.is_space (digit_char d) = false.
Proof.
  intros H. assert (forallb (fun d => negb (Ascii.is_space (digit_char d)))
    (map Z.of_nat (seq 0 16)) = true) as Hall by reflexivity.
  rewrite forallb_forall in Hall. apply negb_true_iff, Hall, in_map_iff.
  exists (Z.to_nat d). split; [lia | apply in_seq; lia].
Qed.

(** A field is read back; the reader stops at the first other character. *)
Lemma scan_field_hex64 n rest :
  in_width 64 n -> starts_with_digit 16 rest = false ->
  scan_field (hex64 n +:+ rest) = Some (n, rest).
Proof.
  intros Hn Hr. unfold scan_field, hex64. rewrite append_assoc, after_prefix_app.
  cbn [mbind option_bind]. pose proof (hex_digits_range 16 n) as Hd.
  pose proof (value_hex_digits 16 n) as Hv. pose proof (length_hex_digits 16 n) as Hl.
  destruct (hex_digits 16 n) as [|d1 [|d2 ds]]; [easy..|]. clear Hl.
  pose proof (scan_digits_render 16 0 (d1 :: d2 :: ds) rest ltac:(lia) Hd Hr) as E.
  fold (value_of 16 (d1 :: d2 :: ds)) in E.
  pose proof Hd as [H1 [H2 _]%Forall_cons_iff]%Forall_cons_iff.
  change (render (d1 :: d2 :: ds) +:+ rest)
    with (String (digit_char d1) (String (digit_char d2) (render ds +:+ rest))) in *.
  unfold scan_hex. cbn [skip_space]. rewrite digit_not_space by assumption.
  assert (forall c, 36 = digit_value c \/ 33 = digit_value c ->
    char_eqb (digit_char d1) c = false /\ char_eqb c (digit_char d2) = false) as Hne.
  { intros c Hc. split; apply char_eqb_neq; intros Ec; apply (f_equal digit_value) in Ec;
      rewrite digit_value_char in Ec; lia. }
  cbn [scan_sign]. rewrite (proj1 (Hne "-"%char (or_introl eq_refl))).
  rewrite (proj1 (Hne "+"%char (or_introl eq_refl))). cbn [after_prefix].
  rewrite (proj2 (Hne "x"%char (or_intror eq_refl))).
  destruct (char_eqb "0" (digit_char d1)); cbn beta iota; cbn [starts_with_digit];
    rewrite digit_value_char, (proj2 (Z.ltb_lt _ 16)) by lia; cbn [negb]; rewrite E, Hv;
    change (16 ^ Z.of_nat 16) with (2 ^ 64); rewrite Z.mod_small by exact Hn;
    unfold in_width, ULLONG_MAX in *; now rewrite (proj2 (Z.ltb_ge _ n)) by lia.
Qed.

Lemma fscanf_line vars start end_ flags rest :
  in_width 64 start -> in_width 64 end_ -> in_width 64 flags ->
  starts_with_digit 16 rest = false ->
  fscanf_resource vars (resource_line start end_ flags +:+ rest)
  = (3, (start, end_, flags), rest).
Proof.
  intros Hs He Hf Hr. destruct vars as [[a b] c].
  unfold fscanf_resource, resource_line. rewrite !append_assoc.
  rewrite scan_field_hex64 by easy.
  change (skip_space (" " +:+ hex64 end_ +:+ " " +:+ hex64 flags +:+ rest))
    with (hex64 end_ +:+ " " +:+ hex64 flags +:+ rest).
  rewrite scan_field_hex64 by easy.
  change (skip_space (" " +:+ hex64 flags +:+ rest)) with (hex64 flags +:+ rest).
  now rewrite scan_field_hex64.
Qed.

(** The list for resource 0 is read correctly. *)
Lemma resource_loop_first start end_ flags rest :
  in_width 64 start -> in_width 64 end_ -> in_width 64 flags ->
  starts_with_digit 16 rest = false ->
  resource_loop 1 0 0 (0, 0, 0) (resource_line start end_ flags +:+ rest)
  = (0, (start, end_, flags)).
Proof.
  intros. cbn [resource_loop]. change (negb (0 <=? 0)) with false. cbn beta iota.
  now rewrite fscanf_line.
Qed.

(** For resource 1 the second call starts at the newline, which the literal ["0x"]
    of the format does not match: the loop ends with [current = 1] and the values
    of resource 0. *)
Lemma resource_loop_stale start end_ flags rest :
  in_width 64 start -> in_width 64 end_ -> in_width 64 flags ->
  resource_loop 2 1 0 (0, 0, 0) (resource_line start end_ flags +:+ String "010" rest)
  = (1, (start, end_, flags)).
Proof.
  intros. cbn [resource_loop]. change (negb (0 <=? 1)) with false. cbn beta iota.
  rewrite fscanf_line by easy. reflexivity.
Qed.
End resource_list.

(** Without the UIO [maps] directory both windows get the size of resource 0.
    When the size of resource 1 has to come from the PCI resource list, the second
    [fscanf] fails on the newline in front of the second line, the loop leaves the
    values of resource 0 behind and its result is accepted: whatever the list says
    about resource 1, the DMA window is mapped with the size of resource 0. *)
Theorem resource_size_stale h config index start end_ flags rest window :
  0 < uh_page_size h -> uio_index_from_path (uc_path config) = Some index ->
  let dir := "/sys/class/uio/uio" +:+ decimal index in
  uh_file h (dir +:+ "/maps/map" +:+ "1" +:+ "/size") = None ->
  uh_file h (dir +:+ "/device/resource")
    = Some (resource_line start end_ flags +:+ String "010" rest) ->
  in_width 64 start -> in_width 64 end_ -> in_width 64 flags -> start <= end_ ->
  0 <= uh_open h (dir +:+ "/device/resource" +:+ "1") ->
  uh_mmap h (dir +:+ "/device/resource" +:+ "1") 0 (u64 (end_ - start + 1)) = Some window ->
  map_resource h config 1
    = Some {| um_addr := Some window; um_size := u64 (end_ - start + 1) |}.
Proof.
  intros Hp Hi dir Hm Hf Hs He Hfl Hse Ho Hw. unfold map_resource.
  rewrite (proj2 (Z.leb_gt _ 0)) by lia. rewrite Hi. cbn [mbind option_bind].
  change (decimal 1) with "1". fold dir. rewrite Hm. cbn [read_sysfs_u64].
  rewrite Hf. cbn [mbind option_bind]. change (Z.to_nat 1 + 1)%nat with 2%nat.
  rewrite resource_loop_stale by assumption. cbn [Z.eqb negb orb Pos.eqb].
  rewrite (proj2 (Z.ltb_ge end_ start)) by lia.
  rewrite (proj2 (Z.ltb_ge _ 0)) by lia. now rewrite Hw.
Qed.

(** A host with a 4 KiB register window and a 512 MiB DMA window, listed only in
    the PCI resource file; mappings of the requested length succeed. *)
Definition pci_host : uio_host :=
  {| uh_page_size := 4096;
     uh_file := fun path =>
       if bool_decide (path = "/sys/class/uio/uio0/device/resource") then
         Some (resource_line 0x10feb00000 0x10feb00fff 0x40200 +:+ String "010"
               (resource_line 0x1000000000 0x101fffffff 0x40200 +:+ String "010" ""))
       else None;
     uh_open := fun _ => 7;
     uh_mmap := fun _ _ size => Some (replicate (Z.to_nat size) 0) |}.

Lemma resource_size_stale_witness :
  map_resource pci_host {| uc_path := "/dev/uio0"; uc_irq_control_offset := 0x200;
                           uc_dma_base := 0 |} 1
  = Some {| um_addr := Some (replicate 4096 0); um_size := 0x1000 |}.
Proof.
  apply (resource_size_stale pci_host {| uc_path := "/dev/uio0";
    uc_irq_control_offset := 0x200; uc_dma_base := 0 |} 0 0x10feb00000 0x10feb00fff
    0x40200 (resource_line 0x1000000000 0x101fffffff 0x40200 +:+ String "010" "")
    (replicate 4096 0)); try reflexivity; try (vm_compute; discriminate);
    split; reflexivity || (vm_compute; discriminate).
Defined.

(** ** Windows of a prepared host *)

(** [mmap] returns a window of the requested length. *)
Definition host_ok (h : uio_host) : Prop :=
  forall path resource size window,
    uh_mmap h path resource size = Some window -> zlen window = size /\ bytes window.

(** A mapped resource is a window of its recorded size. *)
Lemma map_resource_ok h config resource m : host_ok h ->
  map_resource h config resource = Some m ->
  in_width 64 (um_size m) /\ exists l, mapping_ok m l.
Proof.
  intros Hh. unfold map_resource. destruct (uh_page_size h <=? 0); [easy|].
  intros (index & _ & H)%bind_Some. cbn beta zeta in H.
  set (dir := "/sys/class/uio/uio" +:+ decimal index) in *.
  assert (forall path r size, in_width 64 size -> forall m',
    (window ← uh_mmap h path r size; Some {| um_addr := Some window; um_size := size |})
      = Some m' -> in_width 64 (um_size m') /\ exists l, mapping_ok m' l) as Hmm.
  { intros path r size Hs m' (w & Ew & [= <-])%bind_Some.
    destruct (Hh _ _ _ _ Ew) as [Hz Hb]. split; [assumption|].
    exists w. split; cbn; congruence || assumption. }
  destruct (read_sysfs_u64 _) as [size|] eqn:Er.
  - destruct (size =? 0) eqn:E0.
    + apply bind_Some in H as (text & _ & H).
      destruct (resource_loop _ _ _ _ _) as [cur [[st en] fl]].
      destruct (_ || _); [easy|]. destruct (_ <? 0); [easy|].
      apply Hmm in H; [assumption | apply u64_range].
    + apply Hmm in H; [assumption|]. unfold read_sysfs_u64 in Er.
      destruct (uh_file h _); [|easy]. case_bool_decide; [easy|].
      now apply parse_u64_range in Er.
  - apply bind_Some in H as (text & _ & H).
    destruct (resource_loop _ _ _ _ _) as [cur [[st en] fl]].
    destruct (_ || _); [easy|]. destruct (_ <? 0); [easy|].
    apply Hmm in H; [assumption | apply u64_range].
Qed.
