(* ===== verification/UioScan.v ===== *)
(** * The register scan of the UIO fabric as direct register access

    The guest side of the mirror ([axi_uio_write] of the QEMU patch) stores a
    register write into the shared page and wakes the daemon, which finds the write
    by comparing the page with its shadow. The reference semantics of this file has
    no shadow and no scan: a write is handed to the device at once. *)

From S2P Require Import Prelude Endian Fabric Virtio VirtioMmio QueueService.
From S2P Require Import LinuxUio UioMirror.

#[local] Open Scope Z_scope.
#[local] Open Scope c_scope.

(** ** The guest side *)

(** What a 32-bit register write of the guest stores in the page: the value, and on
    a queue selection zeros in the queue registers. *)
Definition axi_uio_stores (off value : Z) : list guest_store :=
  GuestMmio off (virtio_store_le32 value) ::
  if off =? VIRTIO_MMIO_QUEUE_SEL
  then map (fun o => GuestMmio o [0; 0; 0; 0]) queue_state_offsets else [].

Definition axi_uio_write (off value : Z) (s : uio_state) : uio_state :=
  fold_left guest_apply (axi_uio_stores off value) s.

(** A register of the page. *)
Definition page (s : uio_state) : list Z :=
  match um_addr (us_mmio s) with Some pg => pg | None => [] end.

Definition reg (off : Z) (s : uio_state) : Z := virtio_load_le32 (slice off 4 (page s)).

(** The shadow that agrees with the page. *)
Definition shadow_of (s : uio_state) : list Z := map (fun off => reg off s) write_offsets.

Section programs.
Context {D : Type} (dev : fabric_device uio_state D).

(** Guest register writes, each followed by a round of the daemon. *)
Fixpoint mirror_program (prog : list (Z * Z)) (shadow : list Z)
  : M (uio_state * D) bool :=
  match prog with
  | [] => ret true
  | (off, value) :: prog =>
      (modify (fun s => (axi_uio_write off value (fst s), snd s)));;
      r ← uio_round dev shadow;
      if negb (fst r) then ret false else mirror_program prog (snd r)
  end.

(** The reference: every write is a call of the device; the notify and acknowledge
    registers return to their idle values. *)
Definition direct_write (off value : Z) : M (uio_state * D) bool :=
  (if off =? VIRTIO_MMIO_QUEUE_NOTIFY
   then liftF (mmio_store32 off UIO_NOTIFY_IDLE) else ret tt);;
  check dev_write dev off value;
  (if off =? VIRTIO_MMIO_INTERRUPT_ACK then liftF (mmio_store32 off 0) else ret tt);;
  ret true.

Definition direct_round (off value : Z) : M (uio_state * D) bool :=
  (modify (fun s => (axi_uio_write off value (fst s), snd s)));;
  check direct_write off value;
  refresh_read_registers dev;;
  liftF flush_pending_irq_level.

Fixpoint direct_program (prog : list (Z * Z)) : M (uio_state * D) bool :=
  match prog with
  | [] => ret true
  | (off, value) :: prog => check direct_round off value; direct_program prog
  end.

(** A round of the scan for one write: the device is called if the register changed. *)
Definition scan_round (off value : Z) : M (uio_state * D) bool :=
  old ← gets (fun s => reg off (fst s));
  (modify (fun s => (axi_uio_write off value (fst s), snd s)));;
  check (if value =? old then ret true else direct_write off value);
  refresh_read_registers dev;;
  liftF flush_pending_irq_level.
End programs.

(** ** Registers of the page *)

(** The registers the scan visits are aligned, distinct and below the
    configuration space. *)
Definition in_page (off : Z) : Prop := 0 <= off /\ off mod 4 = 0 /\ off + 4 <= 0x100.

Lemma write_offsets_in_page : Forall in_page write_offsets.
Proof. repeat constructor; vm_compute; (reflexivity || discriminate). Qed.

Lemma queue_offsets_written off : In off queue_state_offsets -> In off write_offsets.
Proof. vm_compute. tauto. Qed.

Lemma write_offsets_nodup : List.NoDup write_offsets.
Proof.
  repeat constructor; vm_compute; intros H;
    repeat (destruct H as [H|H]; [discriminate|]); exact H.
Qed.

(** The window is as large as the device, as [fabric_run] has checked. *)
Record window_ok {D} (dev : fabric_device uio_state D) (s : uio_state) : Prop := {
  wo_inv : uio_inv true s;
  wo_dev : 0x100 <= fd_size dev < 2 ^ 62;
  wo_mmio : fd_size dev <= um_size (us_mmio s);
}.

Section registers.
Implicit Types (s : uio_state) (off v : Z).

Lemma page_of s pg : mapping_ok (us_mmio s) pg -> page s = pg.
Proof. intros [E _ _]. unfold page. now rewrite E. Qed.

Lemma page_ok s : uio_ok s -> mapping_ok (us_mmio s) (page s).
Proof. intros [[pg Hm] _ _ _]. now rewrite (page_of s pg Hm). Qed.

Lemma map_u8_store v : map u8 (virtio_store_le32 v) = virtio_store_le32 v.
Proof.
  pose proof (bytes_store_le32 v) as Hb. induction Hb as [|x l Hx _ IH]; cbn; [easy|].
  f_equal; [|exact IH]. apply Z.mod_small, Hx.
Qed.

Lemma load_store_id v : in_width 32 v -> virtio_load_le32 (virtio_store_le32 v) = v.
Proof.
  intros Hv. rewrite <- (app_nil_r (virtio_store_le32 v)), load_store_le32.
  now apply u32_small.
Qed.

(** Two aligned registers: the same one or disjoint words. *)
Lemma slice_register off off' data pg :
  in_page off -> in_page off' -> length data = 4%nat -> 0x100 <= zlen pg ->
  slice off' 4 (splice off data pg) = if off' =? off then data else slice off' 4 pg.
Proof.
  intros (H0 & Ha & H1) (H0' & Ha' & H1') Hd Hl.
  assert (zlen data = 4) as Hz by (unfold zlen; lia).
  destruct (Z.eqb_spec off' off) as [->|Hne].
  - rewrite <- Hz. apply slice_splice_same; lia.
  - apply slice_splice_disjoint; try lia. Z.div_mod_to_equations. lia.
Qed.

(** A store of one word into the page. *)
Definition store_word (off : Z) (data : list Z) (s : uio_state) : uio_state :=
  set_mmio {| um_addr := Some (splice off data (page s));
              um_size := um_size (us_mmio s) |} s.

Lemma store_word_ok off data s :
  uio_ok s -> in_page off -> length data = 4%nat -> bytes data ->
  0x100 <= um_size (us_mmio s) ->
  map_store (us_mmio s) off data
    = Some {| um_addr := Some (splice off data (page s)); um_size := um_size (us_mmio s) |} /\
  uio_ok (store_word off data s) /\ page (store_word off data s) = splice off data (page s).
Proof.
  intros Hok (H0 & _ & H1) Hd Hb Hs. pose proof (page_ok s Hok) as Hm.
  assert (zlen data = 4) as Hz by (unfold zlen; lia).
  destruct (map_store_ok _ (page s) off data Hm) as [E Hm']; try assumption.
  { rewrite (mo_size _ _ Hm) in Hs. lia. }
  split; [exact E|]. split; [|reflexivity]. destruct Hok. split; cbn; eauto.
Qed.

Lemma store_word_reg off off' data s :
  uio_ok s -> in_page off -> in_page off' -> length data = 4%nat ->
  0x100 <= um_size (us_mmio s) ->
  reg off' (store_word off data s)
  = if off' =? off then virtio_load_le32 data else reg off' s.
Proof.
  intros Hok Ho Ho' Hd Hs. unfold reg. cbn [page store_word set_mmio us_mmio um_addr].
  rewrite slice_register; try assumption.
  - now destruct (off' =? off).
  - rewrite <- (mo_size _ _ (page_ok s Hok)). assumption.
Qed.

Lemma reg_width off s : uio_ok s -> in_page off -> 0x100 <= um_size (us_mmio s) ->
  in_width 32 (reg off s).
Proof.
  intros Hok (H0 & _ & H1) Hs. pose proof (page_ok s Hok) as [_ Esz Hb].
  apply load_le32_range; [now apply bytes_slice|].
  assert (zlen (slice off 4 (page s)) = 4) by (apply zlen_slice; lia).
  unfold zlen in *. lia.
Qed.
End registers.

(** From [s] to [s'] only words of the page changed. *)
Record paged (s s' : uio_state) : Prop := {
  pd_inv : uio_inv true s';
  pd_rest : s' = set_mmio (us_mmio s') s;
  pd_size : um_size (us_mmio s') = um_size (us_mmio s);
}.

Section guest_side.
Implicit Types (s : uio_state) (off v : Z).

Lemma paged_refl s : uio_inv true s -> paged s s.
Proof. intros H. split; [assumption | now destruct s | reflexivity]. Qed.

Lemma paged_trans s1 s2 s3 : paged s1 s2 -> paged s2 s3 -> paged s1 s3.
Proof.
  intros [_ R12 S12] [I R23 S23]. split; [assumption | | congruence].
  rewrite R23. rewrite R12 at 1. reflexivity.
Qed.

Lemma store_word_paged off data s :
  uio_inv true s -> in_page off -> length data = 4%nat -> bytes data ->
  0x100 <= um_size (us_mmio s) -> paged s (store_word off data s).
Proof.
  intros [Hok Hq] Ho Hd Hb Hs. split; [|reflexivity..].
  split; [now apply store_word_ok | exact Hq].
Qed.

Lemma guest_word off data s :
  uio_ok s -> in_page off -> length data = 4%nat -> bytes data ->
  0x100 <= um_size (us_mmio s) ->
  guest_apply s (GuestMmio off data) = store_word off data s.
Proof.
  intros Hok Ho Hd Hb Hs. cbn [guest_apply].
  assert (map u8 data = data) as ->.
  { clear Hd. induction Hb as [|x l Hx _ IH]; cbn; [easy|].
    f_equal; [apply Z.mod_small, Hx | exact IH]. }
  now rewrite (proj1 (store_word_ok off data s Hok Ho Hd Hb Hs)).
Qed.

(** Clearing a list of registers. *)
Lemma clear_words qs s :
  uio_inv true s -> Forall in_page qs -> 0x100 <= um_size (us_mmio s) ->
  let s' := fold_left guest_apply (map (fun o => GuestMmio o [0; 0; 0; 0]) qs) s in
  paged s s' /\ forall off, in_page off ->
    reg off s' = if existsb (Z.eqb off) qs then 0 else reg off s.
Proof.
  intros Hi Hqs Hs. revert s Hi Hs. induction Hqs as [|q qs Hq _ IH]; intros s Hi Hs.
  { split; [now apply paged_refl | reflexivity]. }
  assert (bytes [0; 0; 0; 0]) as Hb by (repeat constructor; unfold is_byte; lia).
  cbn [map fold_left]. rewrite guest_word by (assumption || reflexivity || apply Hi).
  pose proof (store_word_paged q [0; 0; 0; 0] s Hi Hq eq_refl Hb Hs) as Hp.
  destruct (IH (store_word q [0; 0; 0; 0] s) (pd_inv _ _ Hp) Hs) as [Hp' Hr].
  split; [now apply (paged_trans _ _ _ Hp)|]. intros off Ho. rewrite Hr by assumption.
  rewrite store_word_reg by (assumption || reflexivity || apply Hi).
  cbn [existsb]. destruct (off =? q), (existsb (Z.eqb off) qs); reflexivity.
Qed.

(** The registers after a guest write. *)
Definition reg_written (off v off' old : Z) : Z :=
  if off' =? off then v
  else if (off =? VIRTIO_MMIO_QUEUE_SEL) && existsb (Z.eqb off') queue_state_offsets then 0
  else old.

Lemma axi_uio_write_spec off v s :
  uio_inv true s -> In off write_offsets -> in_width 32 v -> 0x100 <= um_size (us_mmio s) ->
  paged s (axi_uio_write off v s) /\ forall off', in_page off' ->
    reg off' (axi_uio_write off v s) = reg_written off v off' (reg off' s).
Proof.
  intros Hi Hin Hv Hs. pose proof write_offsets_in_page as Hall.
  rewrite List.Forall_forall in Hall. pose proof (Hall off Hin) as Ho.
  unfold axi_uio_write, axi_uio_stores. cbn [fold_left].
  rewrite guest_word by (assumption || reflexivity || apply Hi || apply bytes_store_le32).
  pose proof (store_word_paged off (virtio_store_le32 v) s Hi Ho eq_refl
    (bytes_store_le32 v) Hs) as Hp.
  assert (forall off', in_page off' -> reg off' (store_word off (virtio_store_le32 v) s)
    = if off' =? off then v else reg off' s) as Hr.
  { intros off' Ho'. rewrite store_word_reg by (assumption || reflexivity || apply Hi).
    now rewrite load_store_id. }
  unfold reg_written. destruct (Z.eqb_spec off VIRTIO_MMIO_QUEUE_SEL) as [->|Hne].
  - destruct (clear_words queue_state_offsets _ (pd_inv _ _ Hp)) as [Hp' Hr'].
    { apply List.Forall_forall. intros q Hq. now apply Hall, queue_offsets_written. }
    { exact Hs. }
    split; [now apply (paged_trans _ _ _ Hp)|]. intros off' Ho'.
    rewrite Hr', Hr by assumption.
    destruct (Z.eqb_spec off' VIRTIO_MMIO_QUEUE_SEL) as [->|]; [reflexivity|].
    now destruct (existsb _ _).
  - split; [assumption|]. exact Hr.
Qed.
End guest_side.

(** ** The scan *)

Section scan.
Context {D : Type} (dev : fabric_device uio_state D).
Implicit Types (s : uio_state * D) (off v : Z) (shadow : list Z).

Lemma window_ok_paged u u' : window_ok dev u -> paged u u' -> window_ok dev u'.
Proof. intros [_ Hd Hm] [Hi _ Hs]. split; [assumption..|]. now rewrite Hs. Qed.

Lemma window_size u : window_ok dev u -> 0x100 <= um_size (us_mmio u).
Proof. intros [_ ? ?]. lia. Qed.

Lemma in_window_page off s : window_ok dev (fst s) -> in_page off ->
  in_window dev off s = true.
Proof.
  intros [_ Hd Hm] (H0 & _ & H1). unfold in_window, uio_size.
  rewrite u64_small by (unfold in_width; lia). lia.
Qed.

Lemma scan32_reg off s : window_ok dev (fst s) -> in_page off ->
  scan32 off s = Done (reg off (fst s), s).
Proof.
  destruct s as [u d]. cbn [fst]. intros Hw (H0 & _ & H1).
  pose proof (wo_inv _ _ Hw) as [Hok Hq].
  destruct (Hq eq_refl) as [Hg _]. pose proof (page_ok u Hok) as Hm.
  pose proof (window_size u Hw) as Hs. rewrite (mo_size _ _ Hm) in Hs.
  unfold scan32, liftF, zoom, guest_turn, modify, bind. cbn [fst snd]. rewrite Hg.
  unfold mmio_load32. rewrite (map_load_ok _ (page u)) by (assumption || lia).
  reflexivity.
Qed.

Lemma mmio_store32_word off v s : window_ok dev (fst s) -> in_page off ->
  liftF (mmio_store32 off v) s = Done (tt, (store_word off (virtio_store_le32 v) (fst s), snd s)).
Proof.
  destruct s as [u d]. cbn [fst snd]. intros Hw Ho.
  unfold liftF, zoom, mmio_store32. cbn [fst snd].
  destruct (store_word_ok off (virtio_store_le32 v) u) as [E _];
    try (assumption || reflexivity || apply bytes_store_le32).
  { apply Hw. }
  { now apply window_size. }
  now rewrite E.
Qed.

(** Registers that agree with the shadow are passed over. *)
Lemma poll_skip all pre post i shadow s :
  window_ok dev (fst s) -> Forall in_page pre ->
  (forall j off, pre !! j = Some off -> shadow !!! (i + j)%nat = reg off (fst s)) ->
  poll_from dev all i (pre ++ post) shadow s
  = poll_from dev all (i + length pre) post shadow s.
Proof.
  intros Hw Hpre. revert i. induction Hpre as [|off pre Ho _ IH]; intros i Hsh.
  { cbn. now rewrite Nat.add_0_r. }
  cbn [app poll_from length].
  rewrite (bind_done _ _ _ true s) by (unfold gets; now rewrite in_window_page).
  cbn [negb]. rewrite (bind_done _ _ _ _ _ (scan32_reg off s Hw Ho)).
  pose proof (Hsh 0%nat off eq_refl) as E0. rewrite Nat.add_0_r in E0.
  rewrite E0, Z.eqb_refl. rewrite IH.
  - f_equal. lia.
  - intros j o Hj. rewrite <- (Hsh (S j) o Hj). f_equal. lia.
Qed.

Lemma poll_skip_all all pre i shadow s :
  window_ok dev (fst s) -> Forall in_page pre ->
  (forall j off, pre !! j = Some off -> shadow !!! (i + j)%nat = reg off (fst s)) ->
  poll_from dev all i pre shadow s = Done ((true, shadow), s).
Proof.
  intros Hw Hpre Hsh. rewrite <- (app_nil_r pre) at 1. now rewrite poll_skip.
Qed.

(** Re-reading one register into the shadow. *)
Lemma resync_one_spec target offs j shadow s :
  window_ok dev (fst s) -> Forall in_page offs ->
  (j + length offs <= length shadow)%nat ->
  exists shadow', resync_one dev target j offs shadow s = Done (shadow', s) /\
    length shadow' = length shadow /\
    forall k, shadow' !! k = if decide ((j <= k)%nat /\ offs !! (k - j)%nat = Some target)
                             then Some (reg target (fst s)) else shadow !! k.
Proof.
  intros Hw Hoffs. revert j shadow. induction Hoffs as [|off offs Ho _ IH]; intros j shadow Hl.
  { exists shadow. split; [reflexivity|]. split; [reflexivity|]. intros k.
    rewrite decide_False; [reflexivity|]. rewrite lookup_nil. easy. }
  cbn [resync_one length] in *.
  rewrite (bind_done _ _ _ true s) by (unfold gets; now rewrite in_window_page).
  assert (forall shadow1, length shadow1 = length shadow ->
    (forall k, k <> j -> shadow1 !! k = shadow !! k) ->
    shadow1 !! j = (if off =? target then Some (reg target (fst s)) else shadow !! j) ->
    exists shadow', resync_one dev target (S j) offs shadow1 s = Done (shadow', s) /\
      length shadow' = length shadow /\
      forall k, shadow' !! k =
        if decide ((j <= k)%nat /\ (off :: offs) !! (k - j)%nat = Some target)
        then Some (reg target (fst s)) else shadow !! k) as Hnext.
  { intros shadow1 Hl1 Hk Hj. destruct (IH (S j) shadow1) as (sh & E & Hls & Hs); [lia|].
    exists sh. split; [exact E|]. split; [lia|]. intros k. rewrite Hs.
    destruct (decide (k = j)) as [->|Hne].
    - rewrite decide_False by lia. rewrite Hj, Nat.sub_diag. cbn [lookup list_lookup].
      destruct (Z.eqb_spec off target) as [->|Hn].
      + now rewrite decide_True.
      + rewrite decide_False; [reflexivity|]. intros [_ [= E']]. easy.
    - rewrite Hk by assumption. destruct (decide (S j <= k)%nat) as [Hle|Hgt].
      + replace (k - j)%nat with (S (k - S j)) by lia. cbn [lookup list_lookup].
        apply decide_ext. split; intros [_ E']; (split; [lia | exact E']).
      + rewrite !decide_False; [reflexivity | lia | lia]. }
  rewrite andb_true_r. destruct (off =? target) eqn:Et.
  - rewrite (bind_done _ _ _ _ _ (scan32_reg off s Hw Ho)).
    apply Z.eqb_eq in Et. subst target. apply Hnext.
    + apply length_insert.
    + intros k Hk. apply list_lookup_insert_ne. lia.
    + apply list_lookup_insert_eq. lia.
  - now apply Hnext.
Qed.

Lemma resync_spec targets offs shadow s :
  window_ok dev (fst s) -> Forall in_page offs -> length shadow = length offs ->
  exists shadow', resync dev targets offs shadow s = Done (shadow', s) /\
    length shadow' = length shadow /\
    forall k off, offs !! k = Some off ->
      shadow' !! k = if existsb (Z.eqb off) targets then Some (reg off (fst s))
                     else shadow !! k.
Proof.
  intros Hw Hoffs. revert shadow. induction targets as [|t targets IH]; intros shadow Hl.
  { exists shadow. easy. }
  cbn [resync]. destruct (resync_one_spec t offs 0 shadow s Hw Hoffs) as (s1 & E1 & L1 & H1);
    [lia|]. rewrite (bind_done _ _ _ _ _ E1).
  destruct (IH s1) as (s2 & E2 & L2 & H2); [lia|]. exists s2. split; [exact E2|].
  split; [lia|]. intros k off Hk. rewrite (H2 k off Hk), H1, Nat.sub_0_r, Hk.
  cbn [existsb]. destruct (Z.eqb_spec off t) as [->|Hne]; cbn [orb].
  - rewrite decide_True by (split; [lia | reflexivity]). now destruct (existsb _ _).
  - rewrite decide_False; [reflexivity|]. intros [_ [= E]]. easy.
Qed.
End scan.

(** ** Devices behind the mirror *)

(** What the mirror relies on: on admissible accesses [P] from states in [I] the
    callback performs nothing undefined, leaves the register page alone, keeps [I],
    and the status register reads back what was last written to it, since the
    mirror both publishes and scans that register. *)
Class MirrorDevice {D} (dev : fabric_device uio_state D) (I : D -> Prop)
    (P : Z -> Z -> Prop) : Type := {
  md_read : D -> Z -> Z -> Z;
  md_write : Z -> Z -> Z -> M (uio_state * D) bool;
  md_ops : exists ops, fd_ops dev = Some ops /\ op_read ops = Some md_read /\
                       op_write ops = Some md_write;
  md_keeps off v u d :
    In off write_offsets -> in_width 32 v -> P off v -> uio_inv true u -> I d ->
    wlp (md_write off v 4) (u, d) (fun ok s' =>
      uio_inv true (fst s') /\ us_mmio (fst s') = us_mmio u /\
      us_config (fst s') = us_config u /\ I (snd s') /\
      (ok = true -> u32 (md_read (snd s') VIRTIO_MMIO_STATUS 4)
                    = if off =? VIRTIO_MMIO_STATUS then v
                      else u32 (md_read d VIRTIO_MMIO_STATUS 4)));
}.

Section step.
Context {D : Type} (dev : fabric_device uio_state D) (I : D -> Prop) (P : Z -> Z -> Prop).
Context `{!MirrorDevice dev I P}.
Implicit Types (u : uio_state) (d : D) (off v : Z).

Lemma dev_write_md off v s : dev_write dev off v s = md_write off v 4 s.
Proof. unfold dev_write. destruct md_ops as (ops & -> & _ & ->). reflexivity. Qed.

Lemma in_page_written off : In off write_offsets -> in_page off.
Proof. pose proof write_offsets_in_page as H. rewrite List.Forall_forall in H. apply H. Qed.

Lemma shadow_lookup u k off : write_offsets !! k = Some off ->
  shadow_of u !! k = Some (reg off u).
Proof. intros Hk. unfold shadow_of. rewrite list_lookup_fmap, Hk. reflexivity. Qed.

(** A shadow that agrees everywhere. *)
Lemma shadow_agrees u shadow : length shadow = length write_offsets ->
  (forall k off, write_offsets !! k = Some off -> shadow !! k = Some (reg off u)) ->
  shadow = shadow_of u.
Proof.
  intros Hl H. apply list_eq. intros k.
  destruct (write_offsets !! k) as [off|] eqn:Ek.
  - now rewrite (H k off Ek), (shadow_lookup u k off Ek).
  - apply lookup_ge_None in Ek. rewrite !(proj2 (lookup_ge_None _ _)); [reflexivity | |].
    + unfold shadow_of. rewrite length_map. exact Ek.
    + lia.
Qed.

Lemma poll_rest k s : window_ok dev (fst s) ->
  poll_from dev write_offsets k (drop k write_offsets) (shadow_of (fst s)) s
  = Done ((true, shadow_of (fst s)), s).
Proof.
  intros Hw. apply poll_skip_all; [assumption | |].
  - apply Forall_drop, write_offsets_in_page.
  - intros j off Hj. rewrite lookup_drop in Hj.
    apply list_lookup_total_correct, shadow_lookup, Hj.
Qed.

(** Another register at another position. *)
Lemma other_offset i k off off' : write_offsets !! i = Some off ->
  write_offsets !! k = Some off' -> (off' = off <-> k = i).
Proof.
  intros Hi Hk. split; [intros -> | intros ->; congruence].
  pose proof write_offsets_nodup as Hn. rewrite <- NoDup_ListNoDup in Hn.
  now apply (NoDup_lookup _ _ _ off Hn).
Qed.

(** The registers in front of the selection are not cleared by it. *)
Lemma before_select i k off' : write_offsets !! i = Some VIRTIO_MMIO_QUEUE_SEL ->
  (k < i)%nat -> write_offsets !! k = Some off' ->
  existsb (Z.eqb off') queue_state_offsets = false.
Proof.
  intros Hi Hk Ek. assert (i = 3%nat) as ->.
  { symmetry. apply (other_offset i 3%nat VIRTIO_MMIO_QUEUE_SEL VIRTIO_MMIO_QUEUE_SEL Hi);
      reflexivity. }
  do 3 (destruct k as [|k]; [injection Ek as <-; reflexivity|]). lia.
Qed.

(** [u1] is [u] after the guest wrote [v] to [off]. *)
Definition written (off v : Z) (u u1 : uio_state) : Prop :=
  forall off', In off' write_offsets -> reg off' u1 = reg_written off v off' (reg off' u).

(** The scan up to a changed register. *)
Lemma poll_reaches i off v u u1 d :
  window_ok dev u1 -> write_offsets !! i = Some off -> written off v u u1 ->
  poll_write_registers dev (shadow_of u) (u1, d)
  = poll_from dev write_offsets i (off :: drop (S i) write_offsets) (shadow_of u) (u1, d).
Proof.
  intros Hw1 Hi Hr. pose proof (lookup_lt_Some _ _ _ Hi) as Hlt.
  unfold poll_write_registers.
  transitivity (poll_from dev write_offsets 0
    (take i write_offsets ++ off :: drop (S i) write_offsets) (shadow_of u) (u1, d)).
  { now rewrite (take_drop_middle _ _ _ Hi). }
  rewrite poll_skip.
  - rewrite length_take. f_equal. lia.
  - assumption.
  - apply Forall_take, write_offsets_in_page.
  - intros j o Hj. assert (j < i)%nat as Hji.
    { apply lookup_lt_Some in Hj. rewrite length_take in Hj. lia. }
    rewrite lookup_take_lt in Hj by assumption. cbn [fst Nat.add].
    rewrite Hr by (apply list_elem_of_In, (list_elem_of_lookup_2 _ _ _ Hj)).
    rewrite (list_lookup_total_correct _ _ _ (shadow_lookup u j o Hj)).
    unfold reg_written. destruct (Z.eqb_spec o off) as [->|].
    { pose proof (proj1 (other_offset i j off off Hi Hj) eq_refl). lia. }
    destruct (Z.eqb_spec off VIRTIO_MMIO_QUEUE_SEL) as [->|]; [|reflexivity].
    now rewrite (before_select i j o Hi Hji Hj).
Qed.

(** What a scan returns when direct access gives [o]. *)
Definition scan_result (o : outcome (bool * (uio_state * D)))
    (r : outcome (bool * list Z * (uio_state * D))) : Prop :=
  match o with
  | Done (true, s) => r = Done ((true, shadow_of (fst s)), s)
  | Done (false, s) => exists shadow, r = Done ((false, shadow), s)
  | UB => r = UB
  | NoFuel => r = NoFuel
  end.

(** The callback from a state with a given page. *)
Lemma md_call off v u d :
  window_ok dev u -> I d -> In off write_offsets -> in_width 32 v -> P off v ->
  match md_write off v 4 (u, d) with
  | Done (_, (u', d')) => window_ok dev u' /\ us_mmio u' = us_mmio u /\
                          us_config u' = us_config u /\ I d'
  | UB => False
  | NoFuel => True
  end.
Proof.
  intros [Hi Hd Hm] HI Hin Hv HP. pose proof (md_keeps off v u d Hin Hv HP Hi HI) as H.
  unfold wpx in H. destruct (md_write off v 4 (u, d)) as [[ok [u' d']]| |]; try easy.
  cbn [fst snd] in H. destruct H as (Hi' & Em & Ec & HI' & _).
  split; [|easy]. split; [assumption..|]. now rewrite Em.
Qed.

Lemma reg_same u u' off : us_mmio u' = us_mmio u -> reg off u' = reg off u.
Proof. intros E. unfold reg, page. now rewrite E. Qed.

(** The shadow of [u] with position [i] replaced agrees with [u'] when the page of
    [u'] differs from that of [u] in that register only. *)
Lemma shadow_insert i off x u u' :
  write_offsets !! i = Some off -> reg off u' = x ->
  (forall off', In off' write_offsets -> off' <> off -> reg off' u' = reg off' u) ->
  <[i := x]> (shadow_of u) = shadow_of u'.
Proof.
  intros Hi Hx Hne. pose proof (lookup_lt_Some _ _ _ Hi) as Hlt.
  apply shadow_agrees.
  { rewrite length_insert. apply length_map. }
  intros k off' Hk. destruct (decide (k = i)) as [->|Hki].
  - assert (off' = off) as -> by congruence. rewrite list_lookup_insert_eq; [congruence|].
    unfold shadow_of. now rewrite length_map.
  - rewrite list_lookup_insert_ne, (shadow_lookup u k off' Hk) by lia.
    rewrite Hne; [reflexivity | now apply list_elem_of_In, (list_elem_of_lookup_2 _ k)|].
    intros E. now apply (other_offset i k off off' Hi Hk) in E.
Qed.

(** A callback followed by the rest of the scan. *)
Lemma scan_call off v u d shadow k k' :
  window_ok dev u -> I d -> In off write_offsets -> in_width 32 v -> P off v ->
  (forall u' d', window_ok dev u' -> us_mmio u' = us_mmio u ->
     scan_result (k' (u', d')) (k (u', d'))) ->
  scan_result (check_then (dev_write dev off v) k' (u, d))
    ((w ← dev_write dev off v; if negb w then ret (false, shadow) else k) (u, d)).
Proof.
  intros Hw HI Hin Hv HP Hk. unfold check_then, bind. rewrite dev_write_md.
  pose proof (md_call off v u d Hw HI Hin Hv HP) as H.
  destruct (md_write off v 4 (u, d)) as [[[] [u' d']]| |]; try easy.
  - apply Hk; apply H.
  - cbn. now exists shadow.
Qed.

(** The rest of the scan from a page that agrees with the shadow. *)
Lemma scan_rest i shadow u d : window_ok dev u -> shadow = shadow_of u ->
  scan_result (Done (true, (u, d)))
    (poll_from dev write_offsets (S i) (drop (S i) write_offsets) shadow (u, d)).
Proof. intros Hw ->. exact (poll_rest (S i) (u, d) Hw). Qed.

Section dispatch.
Context (i : nat) (off v : Z) (u u1 : uio_state) (d : D).
Hypotheses (Hw : window_ok dev u) (Hw1 : window_ok dev u1) (HI : I d)
  (Hi : write_offsets !! i = Some off) (Hin : In off write_offsets)
  (Hv : in_width 32 v) (HP : P off v)
  (Hr : written off v u u1).

Let rest := poll_from dev write_offsets (S i) (drop (S i) write_offsets).

(** Other registers after a write that is not a selection. *)
Lemma reg_other off' : off <> VIRTIO_MMIO_QUEUE_SEL -> In off' write_offsets ->
  off' <> off -> reg off' u1 = reg off' u.
Proof.
  intros Hs Hin' Hne. rewrite Hr by assumption. unfold reg_written.
  now rewrite (proj2 (Z.eqb_neq _ _) Hne), (proj2 (Z.eqb_neq _ _) Hs).
Qed.

Lemma reg_stored off' data u2 :
  us_mmio u2 = us_mmio (store_word off data u1) -> length data = 4%nat ->
  In off' write_offsets ->
  reg off' u2 = if off' =? off then virtio_load_le32 data else reg off' u1.
Proof.
  intros E Hd Hin'. rewrite (reg_same _ _ _ E). apply store_word_reg; try assumption.
  - apply Hw1.
  - now apply in_page_written.
  - now apply in_page_written.
  - now apply (window_size dev).
Qed.

Lemma dispatch_notify : off = VIRTIO_MMIO_QUEUE_NOTIFY ->
  scan_result ((liftF (mmio_store32 off UIO_NOTIFY_IDLE);;
      check dev_write dev off v; (ret tt);; ret true) (u1, d))
    ((liftF (mmio_store32 off UIO_NOTIFY_IDLE);;
      w ← dev_write dev off v;
      if negb w then ret (false, <[i := UIO_NOTIFY_IDLE]> (shadow_of u))
      else rest (<[i := UIO_NOTIFY_IDLE]> (shadow_of u))) (u1, d)).
Proof.
  intros E. pose proof (in_page_written off Hin) as Ho.
  rewrite !(bind_done _ _ _ _ _ (mmio_store32_word dev off UIO_NOTIFY_IDLE (u1, d) Hw1 Ho)).
  cbn [fst snd]. apply scan_call; try assumption.
  { apply (window_ok_paged dev u1); [assumption|]. apply store_word_paged;
      try (assumption || reflexivity || apply bytes_store_le32); [apply Hw1|].
    now apply (window_size dev). }
  intros u2 d2 Hw2 Em. apply scan_rest; [assumption|].
  apply (shadow_insert i off _ u u2 Hi).
  - rewrite (reg_stored off _ u2 Em), Z.eqb_refl by easy. now apply load_store_id.
  - intros off' Hin' Hne. rewrite (reg_stored off' _ u2 Em) by easy.
    rewrite (proj2 (Z.eqb_neq _ _) Hne). apply reg_other; [now subst off|easy..].
Qed.

Lemma dispatch_select : off = VIRTIO_MMIO_QUEUE_SEL ->
  scan_result ((check dev_write dev off v; (ret tt);; ret true) (u1, d))
    ((w ← dev_write dev off v;
      if negb w then ret (false, <[i := v]> (shadow_of u))
      else shadow ← resync dev queue_state_offsets write_offsets (<[i := v]> (shadow_of u));
           rest shadow) (u1, d)).
Proof.
  intros E. apply scan_call; try assumption. intros u2 d2 Hw2 Em.
  pose proof (lookup_lt_Some _ _ _ Hi) as Hlt.
  assert (length (<[i := v]> (shadow_of u)) = length write_offsets) as Hl
    by (rewrite length_insert; apply length_map).
  destruct (resync_spec dev queue_state_offsets write_offsets (<[i := v]> (shadow_of u))
    (u2, d2) Hw2 write_offsets_in_page Hl) as (sh & Es & Hls & Hsh).
  rewrite (bind_done _ _ _ _ _ Es). apply scan_rest; [assumption|].
  apply shadow_agrees; [lia|]. intros k off' Hk. rewrite (Hsh k off' Hk).
  cbn [fst]. destruct (existsb (Z.eqb off') queue_state_offsets) eqn:Eq; [reflexivity|].
  pose proof (list_elem_of_lookup_2 _ _ _ Hk) as Hin'%list_elem_of_In.
  rewrite (reg_same _ _ off' Em), Hr by assumption.
  unfold reg_written. rewrite Eq, andb_false_r.
  destruct (Z.eqb_spec off' off) as [->|Hne].
  - assert (k = i) as -> by now apply (other_offset i k off off).
    apply list_lookup_insert_eq. unfold shadow_of. now rewrite length_map.
  - rewrite list_lookup_insert_ne; [now apply shadow_lookup|].
    intros <-. congruence.
Qed.

Lemma dispatch_ack : off = VIRTIO_MMIO_INTERRUPT_ACK ->
  scan_result ((check dev_write dev off v;
      liftF (mmio_store32 off 0);; ret true) (u1, d))
    ((w ← dev_write dev off v;
      if negb w then ret (false, <[i := v]> (shadow_of u))
      else liftF (mmio_store32 off 0);;
           rest (<[i := 0]> (shadow_of u))) (u1, d)).
Proof.
  intros E. pose proof (in_page_written off Hin) as Ho. apply scan_call; try assumption.
  intros u2 d2 Hw2 Em.
  rewrite !(bind_done _ _ _ _ _ (mmio_store32_word dev off 0 (u2, d2) Hw2 Ho)).
  cbn [fst snd].
  assert (0x100 <= um_size (us_mmio u2)) as Hsz by now apply (window_size dev).
  apply scan_rest.
  { apply (window_ok_paged dev u2); [assumption|]. apply store_word_paged;
      try (assumption || reflexivity || apply bytes_store_le32). apply Hw2. }
  apply (shadow_insert i off _ u); [assumption | |].
  - rewrite store_word_reg, Z.eqb_refl by (assumption || reflexivity || apply Hw2).
    reflexivity.
  - intros off' Hin' Hne.
    rewrite store_word_reg by
      (assumption || reflexivity || apply Hw2 || now apply in_page_written).
    rewrite (proj2 (Z.eqb_neq _ _) Hne), (reg_same _ _ off' Em).
    apply reg_other; [now subst off | easy..].
Qed.

Lemma dispatch_plain : off <> VIRTIO_MMIO_QUEUE_SEL ->
  scan_result ((check dev_write dev off v; (ret tt);; ret true) (u1, d))
    ((w ← dev_write dev off v;
      if negb w then ret (false, <[i := v]> (shadow_of u))
      else rest (<[i := v]> (shadow_of u))) (u1, d)).
Proof.
  intros Hs. apply scan_call; try assumption. intros u2 d2 Hw2 Em.
  apply scan_rest; [assumption|]. apply (shadow_insert i off _ u); [assumption | |].
  - rewrite (reg_same _ _ off Em), Hr by assumption.
    unfold reg_written. now rewrite Z.eqb_refl.
  - intros off' Hin' Hne. rewrite (reg_same _ _ off' Em). now apply reg_other.
Qed.
End dispatch.

(** The scan at a changed register does what direct access does. *)
Lemma poll_dispatch i off v u u1 d :
  window_ok dev u -> window_ok dev u1 -> I d -> write_offsets !! i = Some off ->
  in_width 32 v -> P off v -> written off v u u1 -> v <> reg off u ->
  scan_result (direct_write dev off v (u1, d))
    (poll_write_registers dev (shadow_of u) (u1, d)).
Proof.
  intros Hw Hw1 HI Hi Hv HP Hr Hne. rewrite (poll_reaches i off v) by assumption.
  pose proof (list_elem_of_lookup_2 _ _ _ Hi) as Hin%list_elem_of_In.
  pose proof (in_page_written off Hin) as Ho.
  cbn [poll_from].
  rewrite (bind_done _ _ _ true (u1, d))
    by (unfold gets; now rewrite in_window_page).
  cbn [negb]. rewrite (bind_done _ _ _ _ _ (scan32_reg dev off (u1, d) Hw1 Ho)).
  cbn [fst]. rewrite Hr by assumption.
  assert (reg_written off v off (reg off u) = v) as ->
    by (unfold reg_written; now rewrite Z.eqb_refl).
  rewrite (list_lookup_total_correct _ _ _ (shadow_lookup u i off Hi)).
  rewrite (proj2 (Z.eqb_neq _ _) Hne).
  unfold direct_write.
  destruct (Z.eqb_spec off VIRTIO_MMIO_QUEUE_NOTIFY) as [->|Hnn].
  { now apply dispatch_notify. }
  rewrite (bind_done (ret tt)) with (a := tt) (s' := (u1, d)) by reflexivity.
  destruct (Z.eqb_spec off VIRTIO_MMIO_QUEUE_SEL) as [->|Hns].
  { now apply dispatch_select. }
  destruct (Z.eqb_spec off VIRTIO_MMIO_INTERRUPT_ACK) as [->|Hna].
  { now apply dispatch_ack. }
  now apply dispatch_plain.
Qed.

(** A write of the value the register already has changes nothing, unless it is a
    selection. *)
Lemma poll_unchanged off u d :
  window_ok dev u -> In off write_offsets -> off <> VIRTIO_MMIO_QUEUE_SEL ->
  let u1 := axi_uio_write off (reg off u) u in
  poll_write_registers dev (shadow_of u) (u1, d) = Done ((true, shadow_of u1), (u1, d)).
Proof.
  intros Hw Hin Hns u1. pose proof (in_page_written off Hin) as Ho.
  assert (in_width 32 (reg off u)) as Hv
    by (apply reg_width; [apply Hw | assumption | now apply (window_size dev)]).
  destruct (axi_uio_write_spec off (reg off u) u (wo_inv _ _ Hw) Hin Hv (window_size _ _ Hw))
    as [Hp Hr]. fold u1 in Hp, Hr.
  assert (shadow_of u = shadow_of u1) as ->.
  { apply shadow_agrees; [apply length_map|]. intros k off' Hk.
    rewrite (shadow_lookup u k off' Hk).
    pose proof (list_elem_of_lookup_2 _ _ _ Hk) as Hin'%list_elem_of_In.
    rewrite Hr by now apply in_page_written. unfold reg_written.
    rewrite (proj2 (Z.eqb_neq off _) Hns). now destruct (Z.eqb_spec off' off) as [->|]. }
  apply (poll_rest 0 (u1, d)). now apply (window_ok_paged dev u).
Qed.

(** The call a guest write amounts to. *)
Definition delivered (off v : Z) (u : uio_state) : M (uio_state * D) bool :=
  if v =? reg off u then ret true else direct_write dev off v.

Lemma scan_delivers off v u d :
  window_ok dev u -> I d -> In off write_offsets -> in_width 32 v -> P off v ->
  (off = VIRTIO_MMIO_QUEUE_SEL -> v <> reg off u) ->
  scan_result (delivered off v u (axi_uio_write off v u, d))
    (poll_write_registers dev (shadow_of u) (axi_uio_write off v u, d)).
Proof.
  intros Hw HI Hin Hv HP Hs. unfold delivered. destruct (Z.eqb_spec v (reg off u)) as [E|Hne].
  - subst v. unfold ret, scan_result. apply poll_unchanged; [assumption..|].
    intros E. now apply Hs.
  - destruct (axi_uio_write_spec off v u (wo_inv _ _ Hw) Hin Hv (window_size _ _ Hw))
      as [Hp Hr].
    apply list_elem_of_In, list_elem_of_lookup in Hin as [i Hi].
    apply (poll_dispatch i); try assumption; [now apply (window_ok_paged dev u)|].
    intros off' Hin'. apply Hr. now apply in_page_written.
Qed.

(** The state the mirror keeps between guest writes. *)
Record mirror_inv (sel : Z) (s : uio_state * D) : Prop := {
  mn_window : window_ok dev (fst s);
  mn_dev : I (snd s);
  mn_status : reg VIRTIO_MMIO_STATUS (fst s)
              = u32 (md_read (snd s) VIRTIO_MMIO_STATUS 4);
  mn_sel : reg VIRTIO_MMIO_QUEUE_SEL (fst s) = sel;
  mn_irq : 0x100 <= uc_irq_control_offset (us_config (fst s)) < 2 ^ 64 - 4;
}.

Definition selected (sel off v : Z) : Z := if off =? VIRTIO_MMIO_QUEUE_SEL then v else sel.

Lemma status_in_page : in_page VIRTIO_MMIO_STATUS.
Proof. apply in_page_written. vm_compute. tauto. Qed.

Lemma sel_in_page : in_page VIRTIO_MMIO_QUEUE_SEL.
Proof. apply in_page_written. vm_compute. tauto. Qed.

(** Registers after a word of the page was stored. *)
Lemma mirror_store off data sel u d :
  mirror_inv sel (u, d) -> In off write_offsets -> length data = 4%nat -> bytes data ->
  off <> VIRTIO_MMIO_STATUS -> off <> VIRTIO_MMIO_QUEUE_SEL ->
  mirror_inv sel (store_word off data u, d).
Proof.
  intros [Hw HI Hst Hse Hirq] Hin Hd Hb Hn1 Hn2. cbn [fst snd] in *.
  pose proof (in_page_written off Hin) as Ho. pose proof (window_size _ _ Hw) as Hsz.
  split; cbn [fst snd]; try assumption.
  - apply (window_ok_paged dev u _ Hw). apply store_word_paged; try assumption. apply Hw.
  - rewrite store_word_reg by (assumption || apply status_in_page || apply Hw).
    destruct (Z.eqb_spec VIRTIO_MMIO_STATUS off); congruence.
  - rewrite store_word_reg by (assumption || apply sel_in_page || apply Hw).
    destruct (Z.eqb_spec VIRTIO_MMIO_QUEUE_SEL off); congruence.
Qed.

(** The callback on a page that already holds the written value. *)
Lemma call_mirror off v sel sel' u u1 d :
  mirror_inv sel (u, d) -> In off write_offsets -> in_width 32 v -> P off v ->
  window_ok dev u1 -> us_config u1 = us_config u ->
  reg VIRTIO_MMIO_STATUS u1
    = (if off =? VIRTIO_MMIO_STATUS then v else reg VIRTIO_MMIO_STATUS u) ->
  reg VIRTIO_MMIO_QUEUE_SEL u1 = sel' ->
  wlp (dev_write dev off v) (u1, d) (fun ok s => ok = true -> mirror_inv sel' s).
Proof.
  intros [Hw HI Hst Hse Hirq] Hin Hv HP Hw1 Ec Hs1 Hs2. cbn [fst snd] in *.
  unfold wpx. rewrite dev_write_md.
  pose proof (md_keeps off v u1 d Hin Hv HP (wo_inv _ _ Hw1) HI) as H. unfold wpx in H.
  destruct (md_write off v 4 (u1, d)) as [[ok [u2 d2]]| |]; try easy.
  cbn [fst snd] in H. destruct H as (Hi' & Em & Ec' & HI' & Hstat). intros Hok.
  destruct Hw1 as [_ Hd1 Hm1]. split; cbn [fst snd]; try assumption.
  - split; [assumption..|]. now rewrite Em.
  - rewrite (reg_same _ _ _ Em), Hs1, (Hstat Hok), Hst. reflexivity.
  - now rewrite (reg_same _ _ _ Em).
  - now rewrite Ec', Ec.
Qed.

(** A delivered guest write keeps the invariant. *)
Lemma delivered_mirror sel off v u d :
  mirror_inv sel (u, d) -> In off write_offsets -> in_width 32 v -> P off v ->
  wlp (delivered off v u) (axi_uio_write off v u, d) (fun ok s =>
    ok = true -> mirror_inv (selected sel off v) s).
Proof.
  intros Hm Hin Hv HP. pose proof Hm as [Hw HI Hst Hse Hirq]. cbn [fst snd] in *.
  destruct (axi_uio_write_spec off v u (wo_inv _ _ Hw) Hin Hv (window_size _ _ Hw))
    as [Hp Hr].
  pose proof (window_ok_paged dev _ _ Hw Hp) as Hw1.
  assert (us_config (axi_uio_write off v u) = us_config u) as Ec by now rewrite (pd_rest _ _ Hp).
  pose proof (Hr _ status_in_page) as Hs1. pose proof (Hr _ sel_in_page) as Hs2.
  unfold reg_written in Hs1, Hs2. rewrite andb_false_r in Hs1, Hs2.
  rewrite (Z.eqb_sym VIRTIO_MMIO_STATUS off) in Hs1.
  rewrite (Z.eqb_sym VIRTIO_MMIO_QUEUE_SEL off), Hse in Hs2.
  fold (selected sel off v) in Hs2.
  set (u1 := axi_uio_write off v u) in *. clearbody u1.
  unfold delivered. destruct (Z.eqb_spec v (reg off u)) as [->|Hne].
  { rewrite wpx_ret. intros _. split; cbn [fst snd]; try assumption; [|congruence].
    rewrite Hs1, <- Hst. now destruct (Z.eqb_spec off VIRTIO_MMIO_STATUS) as [->|]. }
  unfold direct_write. rewrite wpx_bind.
  assert (forall u1', window_ok dev u1' -> us_config u1' = us_config u1 ->
    reg VIRTIO_MMIO_STATUS u1' = reg VIRTIO_MMIO_STATUS u1 ->
    reg VIRTIO_MMIO_QUEUE_SEL u1' = reg VIRTIO_MMIO_QUEUE_SEL u1 ->
    wlp (check dev_write dev off v;
         (if off =? VIRTIO_MMIO_INTERRUPT_ACK then liftF (mmio_store32 off 0) else ret tt);;
         ret true) (u1', d) (fun ok s => ok = true -> mirror_inv (selected sel off v) s))
    as Hcall.
  { intros u1' Hw1' Ec' E1 E2. rewrite wpx_check.
    wpuse (call_mirror off v sel (selected sel off v) u u1' d); try assumption; try congruence.
    intros [] [u2 d2] Hm2; [|easy]. specialize (Hm2 eq_refl). rewrite wpx_bind.
    destruct (Z.eqb_spec off VIRTIO_MMIO_INTERRUPT_ACK) as [->|]; [|easy].
    unfold wpx at 1. rewrite (mmio_store32_word dev) by
      (apply Hm2 || now apply in_page_written).
    rewrite wpx_ret. intros _. apply mirror_store; try easy. apply bytes_store_le32. }
  destruct (Z.eqb_spec off VIRTIO_MMIO_QUEUE_NOTIFY) as [->|].
  - unfold wpx at 1. rewrite (mmio_store32_word dev) by
      (assumption || now apply in_page_written).
    pose proof (in_page_written _ Hin) as Ho. cbn [fst snd].
    pose proof (window_size _ _ Hw1) as Hsz.
    apply Hcall; [| reflexivity | |].
    + apply (window_ok_paged dev u1 _ Hw1). apply store_word_paged;
        try (assumption || reflexivity || apply bytes_store_le32). apply Hw1.
    + apply store_word_reg; try (assumption || reflexivity || apply status_in_page). apply Hw1.
    + apply store_word_reg; try (assumption || reflexivity || apply sel_in_page). apply Hw1.
  - now apply Hcall.
Qed.

(** Of the scanned registers only the status is published. *)
Lemma published_written w off : In off write_offsets -> published w off = true ->
  off = VIRTIO_MMIO_STATUS.
Proof.
  intros Hin Hp. unfold published, listed, config_words in Hp.
  destruct (in_page_written off Hin) as (_ & _ & H1).
  apply orb_true_iff in Hp as [[Hp _]%andb_prop|Hp].
  - repeat (destruct Hin as [<-|Hin]; [reflexivity || discriminate Hp|]). destruct Hin.
  - unfold VIRTIO_MMIO_CONFIG in Hp. lia.
Qed.

Lemma published_aligned w off : published w off = true -> 0 <= off /\ off mod 4 = 0.
Proof.
  unfold published, listed, config_words. intros [[Hp _]%andb_prop|Hp]%orb_true_iff.
  - apply existsb_exists in Hp as (o & Hin & E). apply Z.eqb_eq in E. subst o.
    repeat (destruct Hin as [<-|Hin]; [split; [discriminate | reflexivity]|]). destruct Hin.
  - unfold VIRTIO_MMIO_CONFIG in Hp. lia.
Qed.

(** Publication keeps the scanned registers. *)
Lemma refresh_mirror sel u d : mirror_inv sel (u, d) ->
  wp (refresh_read_registers dev) (u, d) (fun _ s =>
    mirror_inv sel s /\ shadow_of (fst s) = shadow_of u).
Proof.
  intros [Hw HI Hst Hse Hirq]. cbn [fst snd] in *. pose proof Hw as [[Hok Hq] Hd Hm].
  destruct md_ops as (ops & Eo & Er & _). pose proof (page_ok u Hok) as Hpg.
  wpuse (refresh_ok dev md_read (ex_intro _ ops (conj Eo Er)) (u, d) (page u) Hpg); [lia|].
  intros _ [u' d'] [Ed Erest (pg & pg' & Hpg1 & Hpg' & Hl & Hs & Ho)]. cbn [fst snd] in *.
  subst d'. pose proof (mapping_ok_inj _ _ _ Hpg1 Hpg). subst pg.
  assert (forall off, In off write_offsets -> reg off u' = reg off u) as Hr.
  { intros off Hin. unfold reg. rewrite (page_of u' pg' Hpg').
    destruct (published (window dev (u, d)) off) eqn:Ep.
    - pose proof (published_written _ off Hin Ep). subst off. rewrite Hs by assumption.
      rewrite load_store_id by apply u32_range. symmetry. exact Hst.
    - f_equal. destruct (in_page_written off Hin) as (H0 & Ha & _).
      apply slice4_ext; [assumption|]. intros k Hk. apply Ho. intros off' Hp' Hin'.
      destruct (published_aligned _ _ Hp') as [H0' Ha'].
      assert (off' = off) as -> by (Z.div_mod_to_equations; lia). congruence. }
  assert (uio_inv true u') as Hi'.
  { destruct Hok. rewrite Erest. split; [split; cbn; eauto | exact Hq]. }
  split.
  - split; cbn [fst snd]; try assumption.
    + split; [assumption..|].
      now rewrite (mo_size _ _ Hpg'), Hl, <- (mo_size _ _ Hpg).
    + rewrite Hr; [assumption | vm_compute; tauto].
    + rewrite Hr; [assumption | vm_compute; tauto].
    + now rewrite Erest.
  - unfold shadow_of. apply map_ext_in. exact Hr.
Qed.

(** So does the interrupt level, whose register is behind them. *)
Lemma flush_mirror sel u d : mirror_inv sel (u, d) ->
  wp (liftF flush_pending_irq_level) (u, d) (fun _ s =>
    mirror_inv sel s /\ shadow_of (fst s) = shadow_of u).
Proof.
  intros [Hw HI Hst Hse Hirq]. cbn [fst snd] in *. pose proof Hw as [[Hok Hq] Hd Hm].
  rewrite wpx_liftF. cbn [fst snd]. unfold flush_pending_irq_level.
  rewrite wpx_bind. unfold wpx at 1, get.
  destruct (us_pending_irq_level u <? 0); [now split|].
  rewrite u64_small by (unfold in_width; lia). unfold uio_size.
  destruct (um_size (us_mmio u) <? _) eqn:El; [now split|].
  pose proof (page_ok u Hok) as Hpg. set (io := uc_irq_control_offset (us_config u)) in *.
  set (lv := if us_pending_irq_level u =? 0 then 0 else 1).
  destruct (map_store_ok _ (page u) io (virtio_store_le32 lv) Hpg) as [E Hpg'];
    [lia | rewrite <- (mo_size _ _ Hpg); change (zlen _) with 4; lia | apply bytes_store_le32|].
  rewrite wpx_bind. unfold wpx at 1, mmio_store32. rewrite E. wpsimpl.
  set (m' := {| um_addr := _; um_size := _ |}) in *.
  assert (forall off, In off write_offsets ->
    reg off (set_pending (-1) (set_mmio m' u)) = reg off u) as Hr.
  { intros off Hin. destruct (in_page_written off Hin) as (H0 & Ha & H1).
    unfold reg. cbn. f_equal. apply slice_splice_disjoint; try lia.
    - rewrite <- (mo_size _ _ Hpg). change (zlen _) with 4. lia. }
  split; [|unfold shadow_of; apply map_ext_in; exact Hr].
  split; cbn [fst snd]; try assumption.
  - split; [|assumption..]. destruct Hok. split; [split; cbn; eauto | exact Hq].
  - rewrite Hr; [assumption | vm_compute; tauto].
  - rewrite Hr; [assumption | vm_compute; tauto].
Qed.

(** One guest write and one round, against one direct access. *)
Lemma round_direct sel off v u d :
  mirror_inv sel (u, d) -> In off write_offsets -> in_width 32 v -> P off v ->
  (off = VIRTIO_MMIO_QUEUE_SEL -> v <> sel) ->
  match scan_round dev off v (u, d) with
  | Done (true, s) => uio_round dev (shadow_of u) (axi_uio_write off v u, d)
                      = Done ((true, shadow_of (fst s)), s) /\
                      mirror_inv (selected sel off v) s
  | Done (false, s) => exists shadow,
      uio_round dev (shadow_of u) (axi_uio_write off v u, d) = Done ((false, shadow), s)
  | UB => uio_round dev (shadow_of u) (axi_uio_write off v u, d) = UB
  | NoFuel => uio_round dev (shadow_of u) (axi_uio_write off v u, d) = NoFuel
  end.
Proof.
  intros Hm Hin Hv HP Hs. pose proof Hm as [Hw HI Hst Hse Hirq]. cbn [fst snd] in *.
  pose proof (scan_delivers off v u d Hw HI Hin Hv HP ltac:(now rewrite <- Hse in Hs; intros ->; apply Hs)) as Hscan.
  pose proof (delivered_mirror sel off v u d Hm Hin Hv HP) as Hpost.
  unfold scan_round.
  rewrite (bind_done _ _ _ (reg off u) (u, d)) by reflexivity.
  rewrite (bind_done _ _ _ tt (axi_uio_write off v u, d)) by reflexivity.
  fold (delivered off v u). unfold check_then, bind at 1. unfold wpx in Hpost.
  assert (forall A (o : outcome (bool * list Z * (uio_state * D))) (k : bool * list Z -> M _ A),
    poll_write_registers dev (shadow_of u) (axi_uio_write off v u, d) = o ->
    bind (poll_write_registers dev (shadow_of u)) k (axi_uio_write off v u, d)
    = match o with Done (r, s) => k r s | UB => UB | NoFuel => NoFuel end) as Hb
    by (intros A o k <-; reflexivity).
  unfold uio_round.
  destruct (delivered off v u (axi_uio_write off v u, d)) as [[[] s]| |];
    cbn [scan_result] in Hscan; [| |now rewrite (Hb _ _ _ Hscan)..].
  - rewrite (Hb _ _ _ Hscan). cbn [fst snd negb].
    destruct s as [u1 d1]. specialize (Hpost eq_refl).
    destruct (wp_elim _ _ _ (refresh_mirror _ u1 d1 Hpost)) as ([] & [u2 d2] & E2 & Hm2 & Es2).
    destruct (wp_elim _ _ _ (flush_mirror _ u2 d2 Hm2)) as (ok & s3 & E3 & Hm3 & Es3).
    cbn [fst] in *. rewrite !(bind_done _ _ _ _ _ E2). rewrite E3.
    rewrite (bind_done _ _ _ _ _ E3).
    destruct ok; [|now eexists]. split; [|assumption]. unfold ret. congruence.
  - destruct Hscan as [shadow Hscan]. rewrite (Hb _ _ _ Hscan). now exists shadow.
Qed.

(** The registers of the page after a write was served: the device has published the
    status it was given. *)
Definition regs_after (off v : Z) (regs : Z -> Z) (off' : Z) : Z :=
  if off' =? off then
    if off =? VIRTIO_MMIO_QUEUE_NOTIFY then UIO_NOTIFY_IDLE
    else if off =? VIRTIO_MMIO_INTERRUPT_ACK then 0 else v
  else reg_written off v off' (regs off').

(** Every write changes its register. *)
Fixpoint changing (regs : Z -> Z) (prog : list (Z * Z)) : Prop :=
  match prog with
  | [] => True
  | (off, v) :: prog => v <> regs off /\ changing (regs_after off v regs) prog
  end.

Definition regs_agree (regs : Z -> Z) (u : uio_state) : Prop :=
  forall off, In off write_offsets -> reg off u = regs off.

Lemma direct_regs regs sel off v u d :
  mirror_inv sel (u, d) -> regs_agree regs u -> In off write_offsets -> in_width 32 v -> P off v ->
  wlp (direct_write dev off v) (axi_uio_write off v u, d) (fun ok s =>
    ok = true -> regs_agree (regs_after off v regs) (fst s)).
Proof.
  intros [Hw HI _ _ _] Hreg Hin Hv HP. cbn [fst snd] in *.
  destruct (axi_uio_write_spec off v u (wo_inv _ _ Hw) Hin Hv (window_size _ _ Hw)) as [Hp Hr].
  pose proof (window_ok_paged dev _ _ Hw Hp) as Hw1. pose proof (in_page_written off Hin) as Ho.
  set (u1 := axi_uio_write off v u) in *. clearbody u1.
  assert (forall off', In off' write_offsets -> reg off' u1 = reg_written off v off' (regs off')) as Hr1.
  { intros off' Hin'. rewrite Hr by now apply in_page_written. now rewrite Hreg. }
  assert (forall x u2 off', window_ok dev u2 -> In off' write_offsets ->
    reg off' (store_word off (virtio_store_le32 x) u2)
    = if off' =? off then virtio_load_le32 (virtio_store_le32 x) else reg off' u2) as Hst.
  { intros x u2 off' Hw2 Hin'. apply store_word_reg; try reflexivity; try assumption;
      [apply Hw2 | now apply in_page_written | now apply (window_size dev)]. }
  assert (forall u2, window_ok dev u2 -> (forall off', In off' write_offsets -> off' <> off ->
      reg off' u2 = regs_after off v regs off') ->
    (off <> VIRTIO_MMIO_INTERRUPT_ACK -> reg off u2 = regs_after off v regs off) ->
    wlp (check dev_write dev off v;
      (if off =? VIRTIO_MMIO_INTERRUPT_ACK then liftF (mmio_store32 off 0) else ret tt);;
      ret true) (u2, d) (fun ok s => ok = true -> regs_agree (regs_after off v regs) (fst s)))
    as Hcall.
  { intros u2 Hw2 Hr2 Hr2'. rewrite wpx_check. unfold wpx at 1. rewrite dev_write_md.
    pose proof (md_keeps off v u2 d Hin Hv HP (wo_inv _ _ Hw2) HI) as H. unfold wpx in H.
    destruct (md_write off v 4 (u2, d)) as [[ok [u3 d3]]| |]; try easy.
    cbn [fst snd] in H. destruct H as (Hi3 & Em & _). destruct ok; [|easy].
    assert (window_ok dev u3) as Hw3 by (destruct Hw2; split; [assumption.. | now rewrite Em]).
    rewrite wpx_bind. destruct (Z.eqb_spec off VIRTIO_MMIO_INTERRUPT_ACK) as [Ea|Hna].
    - unfold wpx at 1. rewrite (mmio_store32_word dev) by assumption. rewrite wpx_ret.
      intros _ off' Hin'. cbn [fst snd]. rewrite Hst by assumption.
      destruct (Z.eqb_spec off' off) as [->|Hne].
      + unfold regs_after. rewrite Z.eqb_refl, Ea. reflexivity.
      + rewrite (reg_same _ _ _ Em). now apply Hr2.
    - rewrite !wpx_ret. intros _ off' Hin'. cbn [fst]. rewrite (reg_same _ _ _ Em).
      destruct (decide (off' = off)) as [->|]; auto. }
  unfold direct_write. rewrite wpx_bind.
  destruct (Z.eqb_spec off VIRTIO_MMIO_QUEUE_NOTIFY) as [En|Hnn].
  - unfold wpx at 1. rewrite (mmio_store32_word dev) by assumption. cbn [fst snd]. apply Hcall.
    + apply (window_ok_paged dev u1 _ Hw1). apply store_word_paged;
        try (assumption || reflexivity || apply bytes_store_le32); [apply Hw1 | now apply (window_size dev)].
    + intros off' Hin' Hne. rewrite Hst, (proj2 (Z.eqb_neq _ _) Hne), Hr1 by assumption.
      unfold regs_after. now rewrite (proj2 (Z.eqb_neq _ _) Hne).
    + intros _. rewrite Hst by assumption. unfold regs_after. now rewrite !Z.eqb_refl, En.
  - rewrite wpx_ret. apply Hcall; [exact Hw1 | |].
    + intros off' Hin' Hne. rewrite Hr1 by assumption. unfold regs_after.
      now rewrite (proj2 (Z.eqb_neq _ _) Hne).
    + intros Hna. rewrite Hr1 by assumption. unfold regs_after, reg_written.
      now rewrite Z.eqb_refl, (proj2 (Z.eqb_neq _ _) Hnn), (proj2 (Z.eqb_neq _ _) Hna).
Qed.

Lemma shadow_regs regs u u' : shadow_of u' = shadow_of u -> regs_agree regs u -> regs_agree regs u'.
Proof.
  unfold shadow_of, regs_agree. intros E H off Hin. rewrite <- H by assumption.
  clear H. revert E Hin. induction write_offsets as [|o l IH]; cbn; [easy|].
  intros [= E1 E2] [->|Hin]; auto.
Qed.

Lemma direct_round_regs regs sel off v u d :
  mirror_inv sel (u, d) -> regs_agree regs u -> In off write_offsets -> in_width 32 v -> P off v ->
  v <> reg off u ->
  wlp (direct_round dev off v) (u, d) (fun ok s =>
    ok = true -> regs_agree (regs_after off v regs) (fst s)).
Proof.
  intros Hm Hreg Hin Hv HP Hne. unfold direct_round. rewrite wpx_bind, wpx_modify, wpx_check.
  cbn [fst snd]. pose proof (delivered_mirror sel off v u d Hm Hin Hv HP) as Hpost.
  unfold delivered in Hpost. rewrite (proj2 (Z.eqb_neq _ _) Hne) in Hpost.
  pose proof (direct_regs regs sel off v u d Hm Hreg Hin Hv HP) as Hr. unfold wpx in Hpost, Hr |- *.
  destruct (direct_write dev off v _) as [[[] [u1 d1]]| |]; try easy.
  specialize (Hpost eq_refl). specialize (Hr eq_refl). cbn [fst] in Hr.
  destruct (wp_elim _ _ _ (refresh_mirror _ u1 d1 Hpost)) as ([] & [u2 d2] & E2 & Hm2 & Es2).
  destruct (wp_elim _ _ _ (flush_mirror _ u2 d2 Hm2)) as (ok & [u3 d3] & E3 & Hm3 & Es3).
  rewrite (bind_done _ _ _ _ _ E2), E3. intros _. cbn [fst] in *.
  apply (shadow_regs _ u1); [congruence | exact Hr].
Qed.
End step.

(** A guest program through the page and the scan, against direct access. *)
Lemma mirror_direct {D} (dev : fabric_device uio_state D) I P
    `{!MirrorDevice dev I P} prog regs sel u d :
  mirror_inv dev I P sel (u, d) -> regs_agree regs u -> changing regs prog ->
  Forall (fun w => In w.1 write_offsets /\ in_width 32 w.2 /\ P w.1 w.2) prog ->
  mirror_program dev prog (shadow_of u) (u, d) = direct_program dev prog (u, d).
Proof.
  revert regs sel u d. induction prog as [|[off v] prog IH]; intros regs sel u d Hm Hreg Hs Hp.
  { reflexivity. }
  apply Forall_cons_iff in Hp as [(Hin & Hv & HP) Hp]. destruct Hs as [Hne Hs].
  cbn [mirror_program direct_program fst snd] in *. rewrite <- (Hreg off Hin) in Hne.
  rewrite (bind_done _ _ _ tt (axi_uio_write off v u, d)) by reflexivity.
  assert (off = VIRTIO_MMIO_QUEUE_SEL -> v <> sel) as Hsel
    by (intros ->; now rewrite <- (mn_sel _ _ _ _ _ Hm)).
  pose proof (round_direct dev I P sel off v u d Hm Hin Hv HP Hsel) as Hr.
  assert (scan_round dev off v (u, d) = direct_round dev off v (u, d)) as Er.
  { unfold scan_round. rewrite (bind_done _ _ _ (reg off u) (u, d)) by reflexivity.
    now rewrite (proj2 (Z.eqb_neq _ _) Hne). }
  rewrite Er in Hr.
  pose proof (direct_round_regs dev I P regs sel off v u d Hm Hreg Hin Hv HP Hne) as Hrr.
  unfold check_then, bind. unfold wpx in Hrr.
  destruct (direct_round dev off v (u, d)) as [[[] [u' d']]| |]; cbn [fst] in Hr.
  - destruct Hr as [-> Hm']. cbn [fst snd negb].
    now apply (IH (regs_after off v regs) (selected sel off v)); [|apply Hrr|..].
  - destruct Hr as [shadow ->]. reflexivity.
  - now rewrite Hr.
  - now rewrite Hr.
Qed.
