(* ===== verification/BlkMirror.v ===== *)
(** * The block device behind the UIO mirror

    The block driver discharges the contract of the register scan: on the UIO
    fabric its callbacks leave the register page alone and its status register
    reads back. *)

From S2P Require Import Prelude Endian Fabric Virtio VirtioMmio QueueService.
From S2P Require Import Posix BlockBackend VirtioBlk LinuxUio UioMirror UioScan BlkSafety.

#[local] Open Scope Z_scope.
#[local] Open Scope c_scope.

(** ** The DMA path leaves the register page alone *)

Section pinned.
Context (page0 : uio_mapping) (config0 : uio_config).
Implicit Types s : uio_state.

(** A quiescent fabric with the given page and configuration. *)
Definition pinned (s : uio_state) : Prop :=
  uio_inv true s /\ us_mmio s = page0 /\ us_config s = config0.

Lemma guest_turn_quiet s : uio_inv true s -> guest_turn s = Done (tt, s).
Proof.
  intros [_ Hq]. destruct (Hq eq_refl) as [Hg _]. unfold guest_turn, modify.
  now rewrite Hg.
Qed.

Lemma uio_malloc_quiet s : uio_inv true s -> uio_malloc s = Done (true, s).
Proof.
  intros [_ Hq]. destruct (Hq eq_refl) as [_ Ha]. unfold uio_malloc. now rewrite Ha.
Qed.

(** Reads leave the state as it is; stores replace the DMA window only. *)
Lemma read_into_kept s gpa len : uio_inv true s ->
  match uio_dma_read_into gpa len s with Done (_, s') => s' = s | _ => True end.
Proof.
  intros Hi. unfold uio_dma_read_into. destruct (len =? 0); [reflexivity|].
  unfold try_bind, bind. rewrite guest_turn_quiet by assumption. cbn [gets].
  destruct (dma_offset s gpa len) as [off|]; [|reflexivity].
  unfold dma_load. destruct (map_load _ _ _); reflexivity || exact I.
Qed.

Lemma dma_store_kept s off data :
  match dma_store off data s with
  | Done (_, s') => us_mmio s' = us_mmio s /\ us_config s' = us_config s
  | _ => True
  end.
Proof. unfold dma_store. destruct (map_store _ _ _); easy. Qed.

(** A specification that keeps the quiescent invariant, for a computation that does
    not touch the page. *)
Lemma pin {A} (m : M uio_state A) s (Q : A -> uio_state -> Prop) :
  pinned s -> wp m s (fun r s' => uio_inv true s' /\ Q r s') ->
  (match m s with
   | Done (_, s') => us_mmio s' = us_mmio s /\ us_config s' = us_config s
   | _ => True
   end) ->
  wp m s (fun r s' => pinned s' /\ Q r s').
Proof.
  intros (Hi & Hm & Hc) H Hk. unfold wpx, pinned in *. destruct (m s) as [[r s']| |]; try easy.
  destruct H as [Hi' HQ], Hk as [E1 E2]. split; [|assumption].
  split; [assumption|]. split; congruence.
Qed.

#[local] Existing Instance uio_fabric.

#[program] Definition uio_pinned : FabricSafe uio_state := {|
  fab_ok := pinned;
  ptr_ok := @ptr_ok _ _ (uio_fabric_safe true);
|}.
Next Obligation.
  intros s gpa len Hp Hg Hl. apply pin; [assumption | |].
  { apply (@fs_read _ _ (uio_fabric_safe true)); [apply Hp | assumption..]. }
  cbn. unfold uio_dma_read. destruct (len =? 0); [easy|].
  unfold bind. rewrite uio_malloc_quiet by apply Hp. cbn [negb].
  pose proof (read_into_kept s gpa len (proj1 Hp)) as H.
  destruct (uio_dma_read_into gpa len s) as [[? ?]| |]; try easy. now subst.
Qed.
Next Obligation.
  intros s gpa len Hp Hg Hl. apply pin; [assumption | |].
  { apply (@fs_read_into _ _ (uio_fabric_safe true)); [apply Hp | assumption..]. }
  cbn. pose proof (read_into_kept s gpa len (proj1 Hp)) as H.
  destruct (uio_dma_read_into gpa len s) as [[? ?]| |]; try easy. now subst.
Qed.
Next Obligation.
  intros s gpa Hp Hg. apply pin; [assumption | |].
  { apply (@fs_read_u16 _ _ (uio_fabric_safe true)); [apply Hp | assumption..]. }
  cbn. unfold uio_dma_read_u16, try_bind, bind.
  pose proof (read_into_kept s gpa 2 (proj1 Hp)) as H.
  destruct (uio_dma_read_into gpa 2 s) as [[[] ?]| |]; try easy; now subst.
Qed.
Next Obligation.
  intros s gpa len Hp Hg Hl. apply pin; [assumption | |].
  { apply (@fs_map _ _ (uio_fabric_safe true)); [apply Hp | assumption..]. }
  cbn. unfold uio_dma_map, try_bind, bind. destruct (len =? 0); [easy|].
  cbn [gets]. destruct (dma_offset s gpa len); easy.
Qed.
Next Obligation.
  intros s p len data Hp Hptr Hl Hb.
  eapply wpx_mono; [apply (pin _ s (fun _ _ => True)); [assumption | |] | now intros ? ? [? _]].
  - eapply wpx_mono; [apply (@fs_store _ _ (uio_fabric_safe true) s p len data);
      [apply Hp | assumption..]|]. easy.
  - cbn. unfold uio_ptr_store. destruct data as [|x data]; [easy|].
    destruct p as [|off]; [easy|]. unfold bind. rewrite guest_turn_quiet by apply Hp.
    apply dma_store_kept.
Qed.
Next Obligation.
  intros s gpa data Hp Hg Hl Hb.
  eapply wpx_mono; [apply (pin _ s (fun _ _ => True)); [assumption | |] | now intros ? ? [? _]].
  - eapply wpx_mono; [apply (@fs_write _ _ (uio_fabric_safe true) s gpa data);
      [apply Hp | assumption..]|]. easy.
  - cbn. unfold uio_dma_write. destruct (zlen data =? 0); [easy|].
    unfold bind. rewrite guest_turn_quiet by apply Hp. cbn [gets].
    destruct (dma_offset s gpa (zlen data)) as [off|]; [|easy].
    pose proof (dma_store_kept s off data) as H.
    destruct (dma_store off data s) as [[? ?]| |]; easy.
Qed.
Next Obligation. intros s (Hi & Hm & Hc). split; [now apply set_pending_ok | easy]. Qed.
Next Obligation. intros s (Hi & Hm & Hc). split; [now apply set_pending_ok | easy]. Qed.
Next Obligation.
  intros s us Hp. change (wp guest_turn s (fun _ s' => pinned s')).
  unfold wpx. rewrite guest_turn_quiet by apply Hp. exact Hp.
Qed.
End pinned.

(** ** The status register reads back *)

Definition blk_status (b : blkd) : Z := v_status (m_vdev (bk_mmio b)).

Section status.
Context {F : Type} `{FabricSafe F}.
Context (direct_read : bool) (be : blkd_block_backend) (image : list Z).
Implicit Types (f : F) (b : blkd).

(** Serving a notification does not change it. *)
Definition served (st : Z) (b : blkd) : Prop :=
  serving be image divisible b /\ blk_status b = st.

Lemma ack_notify_status st f b : fab_ok f -> served st b ->
  wlp blkd_ack_notify (f, b) (fun _ s => fab_ok (fst s) /\ served st (snd s)).
Proof.
  intros Hf Hb. unfold blkd_ack_notify. wpsimpl. cbn [fst snd].
  destruct (has_bit _ _); wpsimpl; [wptotal fs_raise | wptotal fs_lower]; easy.
Qed.

Lemma notify_queue_status requests fuel queue st f b :
  fab_ok f -> served st b ->
  wlp (blkd_virtio_notify_queue direct_read requests fuel queue) (f, b)
    (fun _ s => fab_ok (fst s) /\ served st (snd s)).
Proof.
  intros Hf Hb. unfold blkd_virtio_notify_queue. wpsimpl. cbn [fst snd].
  destruct (_ || _); [now apply ack_notify_status|]. rewrite wpx_try.
  wpuse (service_loop_safe blkd_queue bump_queue _ (served st)); try assumption.
  - intros d [Hd _]. apply (serving_queue _ _ _ _ Hd).
  - intros d [Hd Hs]. split; [now apply serving_bump | exact Hs].
  - intros f1 b1 head Hf1 [Hb1 Hs1] _.
    wpuse process_chain_safe; [assumption | apply Hb1 | easy |].
    intros _ [f2 b2] [? Hst]. split; [assumption|]. split; [eapply serving_step; eassumption|].
    destruct Hst as (_ & (p & n & h & E) & _). cbn [snd] in *. now subst b2.
  - intros [used_any|] [f1 b1] [Hf1 [Hb1 Hs1]]; cbn [fst snd] in *; [|easy].
    destruct used_any; wpsimpl; [|now apply ack_notify_status].
    cbn [fst snd]. wptotal fs_raise; [assumption|]. intros _ f2 Hf2.
    split; [assumption|]. split; [now apply serving_raise | exact Hs1].
Qed.

Lemma mmio_write_served requests fuel off v len st f b :
  fab_ok f ->
  served st {| bk_mmio := virtio_mmio_write (bk_mmio b) off v; bk_host := bk_host b |} ->
  wlp (blkd_mmio_write direct_read requests fuel off v len) (f, b)
    (fun _ s => fab_ok (fst s) /\ served st (snd s)).
Proof.
  intros Hf Hb. unfold blkd_mmio_write. rewrite wpx_bind, wpx_modify. cbn [fst snd].
  set (b' := {| bk_mmio := _; bk_host := _ |}) in *. clearbody b'.
  assert (forall (c : bool) f1, fab_ok f1 ->
    wlp (if c then liftF fabric_lower_irq else ret true) (f1, b')
      (fun _ s => fab_ok (fst s) /\ snd s = b')) as Hl.
  { intros [] f1 Hf1; wpsimpl; [|easy]. wptotal fs_lower; easy. }
  rewrite wpx_check. wpuse Hl; [assumption|].
  intros [] [f1 b1] [Hf1 E]; cbn [fst snd] in *; subst b1; [|easy].
  rewrite wpx_check. wpuse Hl; [assumption|].
  intros [] [f2 b2] [Hf2 E]; cbn [fst snd] in *; subst b2; [|easy].
  rewrite wpx_check. destruct (off =? VIRTIO_MMIO_QUEUE_NOTIFY); [|wpsimpl; easy].
  wpuse notify_queue_status; [assumption | eassumption|].
  intros [] s Hs; wpsimpl; exact Hs.
Qed.

(** A register write sets it, or leaves it. *)
Lemma mmio_write_status {D} (mmio : virtio_mmio D) off v : in_width 32 v ->
  v_status (m_vdev (virtio_mmio_write mmio off v))
  = if off =? VIRTIO_MMIO_STATUS then v else v_status (m_vdev mmio).
Proof.
  intros Hv. unfold virtio_mmio_write. rewrite u32_small by assumption.
  unfold update_selected.
  destruct (Z.eqb_spec off VIRTIO_MMIO_STATUS) as [->|].
  - now destruct (Z.eqb_spec v 0) as [->|].
  - repeat match goal with
    | |- context [if ?c then _ else _] => destruct c; [reflexivity|]
    | |- context [if ?c then _ else _] => destruct c
    end; reflexivity.
Qed.
End status.

(** ** The contract of the scan *)

Section mirror_device.
Context (direct_read : bool) (requests fuel : nat) (path : string).
Context (be : blkd_block_backend) (image : list Z).

(** Queue sizes the driver can divide by. *)
Definition blk_access (off v : Z) : Prop :=
  off = VIRTIO_MMIO_QUEUE_NUM -> divisible (u32 v).

Lemma blk_status_read b : mmio_wf (bk_mmio b) ->
  u32 (blkd_mmio_read b VIRTIO_MMIO_STATUS 4) = blk_status b.
Proof.
  intros [[] _ _ _]. unfold blkd_mmio_read, virtio_mmio_read, mask_read.
  change (register_value (bk_mmio b) VIRTIO_MMIO_STATUS 4) with (blk_status b).
  change (4 =? 1) with false. change (4 =? 2) with false. change (4 =? 4) with true.
  cbn beta iota. change 0xffffffff with (Z.ones 32). rewrite Z.land_ones by lia.
  unfold blk_status. rewrite Z.mod_small by assumption. now apply u32_small.
Qed.

#[global, program] Instance blk_mirror_device :
  MirrorDevice (blkd_fabric_init_device (F := uio_state) direct_read requests fuel path)
    (serving be image divisible) blk_access := {
  md_read := blkd_mmio_read;
  md_write := blkd_mmio_write direct_read requests fuel;
}.
Next Obligation. eexists. repeat split; reflexivity. Qed.
Next Obligation.
  intros off v u b Hin Hv HP Hi Hb.
  set (b' := {| bk_mmio := virtio_mmio_write (bk_mmio b) off v; bk_host := bk_host b |}).
  assert (serving be image divisible b') as Hb'
    by (apply serving_mmio_write; [discriminate | exact HP | assumption]).
  assert (blk_status b' = if off =? VIRTIO_MMIO_STATUS then v else blk_status b) as Est
    by now apply mmio_write_status.
  set (st := if off =? VIRTIO_MMIO_STATUS then v else blk_status b) in *.
  set (K := @fab_ok _ _ (uio_pinned (us_mmio u) (us_config u))).
  assert (wlp (blkd_mmio_write direct_read requests fuel off v 4) (u, b) (fun _ s =>
    K (fst s) /\ served be image st (snd s))) as H.
  { apply (@mmio_write_served _ _ (uio_pinned (us_mmio u) (us_config u))).
    - now split.
    - now split. }
  eapply wpx_mono; [exact H|]. intros ok [u2 b2] [(Hi2 & Em & Ec) [Hs2 Est2]].
  cbn [fst snd] in *. split; [assumption|]. split; [assumption|]. split; [assumption|].
  split; [assumption|]. intros _. rewrite !blk_status_read by (apply Hs2 || apply Hb).
  exact Est2.
Qed.
End mirror_device.

(** ** Claims *)

(** C12: the scan is direct register access, for writes it can see. For every device that
    leaves the page alone and whose status register reads back, and every guest program
    of 32-bit register writes each of which changes the register it is made to (after a
    selection the queue registers are 0, a notification and an acknowledgement change
    their idle registers): performing each write through the shared page, with one round
    of the daemon, has exactly the outcome of handing each write to the device at once,
    in the same order, with the same final device, page and memory. *)
Theorem scan_is_direct_access {D} (dev : fabric_device uio_state D) I P
    `{!MirrorDevice dev I P} prog sel u d :
  mirror_inv dev I P sel (u, d) -> changing (fun off => reg off u) prog ->
  Forall (fun w => In w.1 write_offsets /\ in_width 32 w.2 /\ P w.1 w.2) prog ->
  mirror_program dev prog (shadow_of u) (u, d) = direct_program dev prog (u, d).
Proof. intros Hm. apply (mirror_direct dev I P prog _ sel u d Hm). now intros off _. Qed.

(** A guest that sets up queue 0 of a daemon with a 1 KiB image and notifies it. *)
Definition setup_program : list (Z * Z) :=
  [(VIRTIO_MMIO_STATUS, 1); (VIRTIO_MMIO_STATUS, 3);
   (VIRTIO_MMIO_DRIVER_FEATURES_SEL, 1); (VIRTIO_MMIO_DRIVER_FEATURES, 3);
   (VIRTIO_MMIO_STATUS, 11); (VIRTIO_MMIO_QUEUE_NUM, 8);
   (VIRTIO_MMIO_QUEUE_DESC_LOW, 0x1000); (VIRTIO_MMIO_QUEUE_AVAIL_LOW, 0x1100);
   (VIRTIO_MMIO_QUEUE_USED_LOW, 0x1200); (VIRTIO_MMIO_QUEUE_READY, 1);
   (VIRTIO_MMIO_STATUS, 15); (VIRTIO_MMIO_QUEUE_NOTIFY, 0);
   (VIRTIO_MMIO_INTERRUPT_ACK, 1)].

(** The page after the set-up of the daemon: no notification. *)
Definition started_page : list Z :=
  splice VIRTIO_MMIO_QUEUE_NOTIFY (virtio_store_le32 UIO_NOTIFY_IDLE) (replicate 1024 0).

Lemma scan_is_direct_access_witness :
  let dev := blkd_fabric_init_device (F := uio_state) true 4 300 "uio:/dev/uio0" in
  let u := uio_over 0x1000 started_page (replicate 1024 0) in
  let b := blkd_connect (sample_blkd false PNull 0 []) in
  mirror_program dev setup_program (shadow_of u) (u, b)
  = direct_program dev setup_program (u, b).
Proof.
  cbv zeta.
  apply (scan_is_direct_access (blkd_fabric_init_device (F := uio_state) true 4 300
    "uio:/dev/uio0") (serving {| be_fd := 3; be_image_len := 1024; be_readonly := false |}
      (replicate 1024 7) divisible) blk_access _ 0).
  - split; cbn [fst snd].
    + split; [apply uio_over_inv; decided | |]; (split; discriminate || reflexivity)
        || discriminate.
    + apply (connect_serving _ (sample_startable false [])).
    + reflexivity.
    + reflexivity.
    + split; [discriminate | reflexivity].
  - repeat (split; [vm_compute; discriminate|]). exact I.
  - repeat (apply Forall_cons_2;
      [split; [vm_compute; tauto | split; [split; [discriminate | reflexivity]|]];
       intros E; (discriminate E || (vm_compute; discriminate))|]).
    apply Forall_nil_2.
Defined.

(** A write that does not change its register is not delivered, or worse. QEMU clears the
    queue registers of the page on every selection, and a scan that sees no change of the
    selection hands the zeros to the queue. *)
Definition queue_size_after (o : outcome (bool * (uio_state * blkd))) : option Z :=
  match o with
  | Done (_, (_, b)) => Some (q_num (blkd_queue b))
  | _ => None
  end.

Example reselect_clears_queue :
  let dev := blkd_fabric_init_device (F := uio_state) true 4 300 "uio:/dev/uio0" in
  let u := uio_over 0x1000 (replicate 1024 0) (replicate 1024 0) in
  let b := blkd_connect (sample_blkd false PNull 0 []) in
  let prog := [(VIRTIO_MMIO_QUEUE_NUM, 8); (VIRTIO_MMIO_QUEUE_SEL, 0)] in
  queue_size_after (direct_program dev prog (u, b)) = Some 8 /\
  queue_size_after (mirror_program dev prog (shadow_of u) (u, b)) = Some 0.
Proof. split; vm_compute; reflexivity. Qed.

(** The two banks of the driver features share one register: a bank that is given the
    value of the other one is not delivered. *)
Definition features_after (o : outcome (bool * (uio_state * blkd))) : option Z :=
  match o with
  | Done (_, (_, b)) => Some (v_driver_features (m_vdev (bk_mmio b)))
  | _ => None
  end.

Example repeated_features_lost :
  let dev := blkd_fabric_init_device (F := uio_state) true 4 300 "uio:/dev/uio0" in
  let u := uio_over 0x1000 (replicate 1024 0) (replicate 1024 0) in
  let b := blkd_connect (sample_blkd false PNull 0 []) in
  let prog := [(VIRTIO_MMIO_DRIVER_FEATURES_SEL, 1); (VIRTIO_MMIO_DRIVER_FEATURES, 3);
               (VIRTIO_MMIO_DRIVER_FEATURES_SEL, 0); (VIRTIO_MMIO_DRIVER_FEATURES, 3)] in
  features_after (direct_program dev prog (u, b)) = Some (3 * 2 ^ 32 + 3) /\
  features_after (mirror_program dev prog (shadow_of u) (u, b)) = Some (3 * 2 ^ 32).
Proof. split; vm_compute; reflexivity. Qed.
