(* ===== verification/UioNotify.v ===== *)
(** * Notifications that arrive while the UIO daemon is serving

    The guest may store to the register page at any time. [lull n s] says that it
    does not do so during the next [n] loads of the scan, which leaves it free to
    store while a callback runs. *)

From S2P Require Import Prelude Endian Fabric Virtio VirtioMmio QueueService.
From S2P Require Import LinuxUio UioMirror UioScan.

#[local] Open Scope Z_scope.
#[local] Open Scope c_scope.

Definition lull (n : nat) (u : uio_state) : Prop :=
  forall k, (k < n)%nat -> us_guest u !! k = Some [] \/ us_guest u = [].

(** The state after [n] silent turns of the guest. *)
Definition pop (n : nat) (u : uio_state) : uio_state :=
  set_env (us_alloc u) (drop n (us_guest u)) u.

(** The register page of a device is mapped; the guest is arbitrary. *)
Record page_window {D} (dev : fabric_device uio_state D) (u : uio_state) : Prop := {
  pw_ok : uio_ok u;
  pw_dev : 0x100 <= fd_size dev < 2 ^ 62;
  pw_mmio : fd_size dev <= um_size (us_mmio u);
}.

Section scan.
Context {D : Type} (dev : fabric_device uio_state D).
Implicit Types (u : uio_state) (d : D) (off : Z).

Lemma pop_0 u : pop 0 u = u.
Proof. now destruct u. Qed.

Lemma pop_pop n m u : pop m (pop n u) = pop (n + m) u.
Proof. unfold pop, set_env. cbn. now rewrite drop_drop. Qed.

Lemma pop_window n u : page_window dev u -> page_window dev (pop n u).
Proof. intros [[] ? ?]. now split. Qed.

Lemma lull_pop n m u : lull (n + m) u -> lull m (pop n u).
Proof.
  intros H k Hk. cbn. destruct (H (n + k)%nat ltac:(lia)) as [E|E].
  - left. now rewrite lookup_drop.
  - right. rewrite E. apply drop_nil.
Qed.

Lemma lull_le n m u : (m <= n)%nat -> lull n u -> lull m u.
Proof. intros Hle H k Hk. apply H. lia. Qed.

Lemma in_window_mapped off u d : page_window dev u -> in_page off ->
  in_window dev off (u, d) = true.
Proof.
  intros [_ Hd Hm] (H0 & _ & H1). unfold in_window, uio_size. cbn [fst].
  rewrite u64_small by (unfold in_width; lia). lia.
Qed.

(** A load during a lull. *)
Lemma scan32_lull off u d : page_window dev u -> lull 1 u -> in_page off ->
  scan32 off (u, d) = Done (reg off u, (pop 1 u, d)).
Proof.
  intros [Hok Hd Hsz] Hl (H0 & _ & H1). pose proof (page_ok u Hok) as Hm.
  rewrite (mo_size _ _ Hm) in Hsz.
  unfold scan32, liftF, zoom, guest_turn, modify, bind. cbn [fst snd].
  assert (forall u', us_mmio u' = us_mmio u ->
    mmio_load32 off u' = Done (reg off u, u')) as Hload.
  { intros u' E. unfold mmio_load32. rewrite E.
    now rewrite (map_load_ok _ (page u)) by (assumption || lia). }
  destruct (Hl 0%nat ltac:(lia)) as [E|E].
  - destruct (us_guest u) as [|b rest] eqn:Eg; [easy|]. injection E as ->. cbn [fold_left].
    rewrite Hload by reflexivity. unfold pop. now rewrite Eg.
  - rewrite E, Hload by reflexivity. unfold pop. rewrite E, drop_nil.
    destruct u. cbn in *. now subst.
Qed.

Lemma store_idle off v u d : page_window dev u -> in_page off ->
  liftF (mmio_store32 off v) (u, d)
  = Done (tt, (store_word off (virtio_store_le32 v) u, d)).
Proof.
  intros [Hok Hd Hm] Ho. unfold liftF, zoom, mmio_store32. cbn [fst snd].
  destruct (store_word_ok off (virtio_store_le32 v) u) as [E _];
    try (assumption || reflexivity || apply bytes_store_le32); [lia|].
  now rewrite E.
Qed.

(** Registers that agree with the shadow are passed over. *)
Lemma poll_skip_lull all pre post i shadow u d :
  page_window dev u -> lull (length pre) u -> Forall in_page pre ->
  (forall j off, pre !! j = Some off -> shadow !!! (i + j)%nat = reg off u) ->
  poll_from dev all i (pre ++ post) shadow (u, d)
  = poll_from dev all (i + length pre) post shadow (pop (length pre) u, d).
Proof.
  intros Hw Hl Hpre. revert i u Hw Hl.
  induction Hpre as [|off pre Ho _ IH]; intros i u Hw Hl Hsh.
  { cbn [app length]. now rewrite Nat.add_0_r, pop_0. }
  cbn [app poll_from length] in *.
  rewrite (bind_done _ _ _ true (u, d)) by (unfold gets; now rewrite in_window_mapped).
  assert (lull 1 u) as Hl1 by (apply (lull_le (S (length pre))); [lia | assumption]).
  cbn [negb]. rewrite (bind_done _ _ _ _ _ (scan32_lull off u d Hw Hl1 Ho)).
  pose proof (Hsh 0%nat off eq_refl) as E0. rewrite Nat.add_0_r in E0.
  rewrite E0, Z.eqb_refl. rewrite IH.
  - rewrite pop_pop. f_equal. lia.
  - now apply pop_window.
  - now apply (lull_pop 1).
  - intros j o Hj. change (reg o (pop 1 u)) with (reg o u).
    rewrite <- (Hsh (S j) o Hj). f_equal. lia.
Qed.

(** Position of the notify register: the loads before it, and the one after. *)
Definition notify_at : nat := 13.

Lemma notify_split : write_offsets
  = take notify_at write_offsets ++ [VIRTIO_MMIO_QUEUE_NOTIFY; VIRTIO_MMIO_STATUS].
Proof. reflexivity. Qed.

(** The shadow agrees with the page except possibly for the notify register, which
    is idle in the shadow. *)
Definition idle_shadow (shadow : list Z) (u : uio_state) : Prop :=
  shadow !! notify_at = Some UIO_NOTIFY_IDLE /\
  forall k off, write_offsets !! k = Some off -> off <> VIRTIO_MMIO_QUEUE_NOTIFY ->
    shadow !! k = Some (reg off u).

(** A scan that finds [v] in the notify register: it marks the register idle and
    calls the device, then looks at the status register. *)
Lemma poll_notify shadow u d v :
  page_window dev u -> lull (S notify_at) u -> idle_shadow shadow u ->
  reg VIRTIO_MMIO_QUEUE_NOTIFY u = v -> v <> UIO_NOTIFY_IDLE ->
  poll_write_registers dev shadow (u, d)
  = (w ← dev_write dev VIRTIO_MMIO_QUEUE_NOTIFY v;
     if negb w then ret (false, shadow)
     else poll_from dev write_offsets (S notify_at) [VIRTIO_MMIO_STATUS] shadow)
    (store_word VIRTIO_MMIO_QUEUE_NOTIFY (virtio_store_le32 UIO_NOTIFY_IDLE)
       (pop (S notify_at) u), d).
Proof.
  intros Hw Hl [Hs Hother] Hv Hne. unfold poll_write_registers.
  rewrite notify_split at 2.
  assert (in_page VIRTIO_MMIO_QUEUE_NOTIFY) as Ho by (vm_compute; now repeat split).
  assert (lull notify_at u) as Hl0 by (apply (lull_le (S notify_at)); [lia | assumption]).
  rewrite poll_skip_lull; [|assumption | exact Hl0 | apply Forall_take, write_offsets_in_page|].
  2:{ intros j off Hj. apply list_lookup_total_correct.
      assert (j < notify_at)%nat as Hjlt by (apply lookup_lt_Some in Hj; exact Hj).
      rewrite lookup_take_lt in Hj by assumption. apply Hother; [exact Hj|].
      intros ->. do 13 (destruct j as [|j]; [discriminate Hj|]).
      unfold notify_at in Hjlt. lia. }
  change (0 + length (take notify_at write_offsets))%nat with notify_at.
  change (length (take notify_at write_offsets)) with notify_at.
  pose proof (pop_window notify_at u Hw) as Hw1. cbn [poll_from].
  rewrite (bind_done _ _ _ true (pop notify_at u, d))
    by (unfold gets; now rewrite in_window_mapped).
  cbn [negb]. rewrite (bind_done _ _ _ _ _ (scan32_lull _ _ d Hw1 (lull_pop notify_at 1 u Hl) Ho)).
  change (reg VIRTIO_MMIO_QUEUE_NOTIFY (pop notify_at u))
    with (reg VIRTIO_MMIO_QUEUE_NOTIFY u).
  rewrite Hv, (list_lookup_total_correct _ _ _ Hs), (proj2 (Z.eqb_neq _ _) Hne).
  change (VIRTIO_MMIO_QUEUE_NOTIFY =? VIRTIO_MMIO_QUEUE_NOTIFY) with true. cbn beta iota.
  rewrite pop_pop, (list_insert_id shadow) by assumption.
  rewrite (bind_done _ _ _ _ _ (store_idle _ _ _ d (pop_window (notify_at + 1) u Hw) Ho)).
  reflexivity.
Qed.
End scan.

(** ** Claims *)

(** C14: a notification that arrives while the previous one is served is not lost.
    Let a scan find queue [v] in the notify register and call the device. If the
    guest stores [w] there while the callback runs, the register still holds [w]
    when the scan is over, and the next scan calls the device with it. *)
Theorem notify_during_callback {D} (dev : fabric_device uio_state D) shadow u d u2 d2 v w :
  page_window dev u -> lull 14 u -> idle_shadow shadow u ->
  reg VIRTIO_MMIO_QUEUE_NOTIFY u = v -> v <> UIO_NOTIFY_IDLE ->
  dev_write dev VIRTIO_MMIO_QUEUE_NOTIFY v
    (store_word VIRTIO_MMIO_QUEUE_NOTIFY (virtio_store_le32 UIO_NOTIFY_IDLE) (pop 14 u), d)
    = Done (true, (u2, d2)) ->
  page_window dev u2 -> lull 15 u2 ->
  (forall off, In off write_offsets -> off <> VIRTIO_MMIO_QUEUE_NOTIFY ->
     reg off u2 = reg off u) ->
  reg VIRTIO_MMIO_QUEUE_NOTIFY u2 = w -> w <> UIO_NOTIFY_IDLE ->
  poll_write_registers dev shadow (u, d) = Done ((true, shadow), (pop 1 u2, d2)) /\
  poll_write_registers dev shadow (pop 1 u2, d2)
  = (ok ← dev_write dev VIRTIO_MMIO_QUEUE_NOTIFY w;
     if negb ok then ret (false, shadow)
     else poll_from dev write_offsets 14 [VIRTIO_MMIO_STATUS] shadow)
    (store_word VIRTIO_MMIO_QUEUE_NOTIFY (virtio_store_le32 UIO_NOTIFY_IDLE) (pop 15 u2), d2).
Proof.
  intros Hw Hl Hs Hv Hne Hcall Hw2 Hl2 Hr Hw' Hnw. split.
  - rewrite (poll_notify dev shadow u d v) by assumption.
    rewrite (bind_done _ _ _ _ _ Hcall). cbn [negb].
    rewrite <- (app_nil_r [VIRTIO_MMIO_STATUS]).
    rewrite poll_skip_lull; [reflexivity | assumption | exact (lull_le 15 1 u2 ltac:(lia) Hl2)
      | constructor; [apply in_page_written; vm_compute; tauto | constructor]|].
    intros [|j] off Hj; [|easy]. injection Hj as <-. apply list_lookup_total_correct.
    rewrite Hr by (vm_compute; (tauto || discriminate)). now apply Hs.
  - rewrite (poll_notify dev shadow (pop 1 u2) d2 w); try assumption.
    + now rewrite pop_pop.
    + now apply pop_window.
    + now apply (lull_pop 1).
    + destruct Hs as [Hs1 Hs2]. split; [assumption|]. intros k off Hk Hn.
      rewrite (Hs2 k off Hk Hn). f_equal. symmetry. apply Hr; [|assumption].
      apply list_elem_of_In, (list_elem_of_lookup_2 _ _ _ Hk).
Qed.

(** A device that sleeps in its callback and counts its calls. *)
Definition sleepy_device : fabric_device uio_state Z :=
  {| fd_name := "sleepy"; fd_socket_path := "uio:/dev/uio0"; fd_addr := 0;
     fd_size := 0x200;
     fd_ops := Some {| op_connect := None; op_read := Some (fun _ _ _ => 0);
       op_write := Some (fun off _ _ =>
         (liftF guest_turn;; (modify (fun s => (fst s, snd s + 1)));; ret true)) |} |}.

(** The notify register holds 0; during the callback the guest stores 1. *)
Definition notified_page : list Z := replicate 1024 0.

Definition busy_guest : uio_state :=
  set_env [] (replicate 14 [] ++ [[GuestMmio VIRTIO_MMIO_QUEUE_NOTIFY [1; 0; 0; 0]]])
    (uio_over 0 notified_page []).

Lemma notify_during_callback_witness :
  exists s s' shadow, poll_write_registers sleepy_device shadow (busy_guest, 0)
      = Done ((true, shadow), s) /\
    snd s = 1 /\ reg VIRTIO_MMIO_QUEUE_NOTIFY (fst s) = 1 /\
    poll_write_registers sleepy_device shadow s = Done ((true, shadow), s') /\ snd s' = 2.
Proof.
  pose (shadow := <[13%nat := UIO_NOTIFY_IDLE]> (replicate 15 0)).
  pose (u2 := set_env [] [] (uio_over 0 (splice VIRTIO_MMIO_QUEUE_NOTIFY [1; 0; 0; 0]
    notified_page) [])).
  assert (page_window sleepy_device busy_guest) as Hw1.
  { split; [|split; [discriminate | reflexivity] | discriminate].
    destruct (uio_over_inv false 0 notified_page []) as [[] _]; [decided..|]. now split. }
  assert (page_window sleepy_device u2) as Hw2.
  { split; [|split; [discriminate | reflexivity] | discriminate].
    destruct (uio_over_inv false 0 (splice VIRTIO_MMIO_QUEUE_NOTIFY [1; 0; 0; 0]
      notified_page) []) as [[] _]; [decided..|]. now split. }
  assert (forall k off, write_offsets !! k = Some off -> reg off u2
    = if off =? VIRTIO_MMIO_QUEUE_NOTIFY then 1 else 0) as Hr.
  { intros k off Hk. do 15 (destruct k as [|k]; [injection Hk as <-; reflexivity|]).
    discriminate Hk. }
  destruct (notify_during_callback sleepy_device shadow busy_guest 0 u2 1 0 1)
    as [E1 E2].
  - exact Hw1.
  - intros k Hk. left. do 14 (destruct k as [|k]; [reflexivity|]). lia.
  - split; [reflexivity|]. intros k off Hk Hn.
    do 15 (destruct k as [|k]; [injection Hk as <-; reflexivity || now destruct Hn|]).
    discriminate Hk.
  - reflexivity.
  - discriminate.
  - vm_compute. reflexivity.
  - exact Hw2.
  - intros k Hk. now right.
  - intros off Hin Hn. apply list_elem_of_In, list_elem_of_lookup in Hin as [k Hk].
    rewrite (Hr k off Hk), (proj2 (Z.eqb_neq _ _) Hn).
    do 15 (destruct k as [|k]; [injection Hk as <-; reflexivity|]). discriminate Hk.
  - reflexivity.
  - discriminate.
  - eexists _, _, shadow. split; [exact E1|]. split; [reflexivity|]. split; [reflexivity|].
    split; [rewrite E2; vm_compute; reflexivity | reflexivity].
Defined.
