(* ===== verification/DevMem.v ===== *)
(** * The Linux /dev/mem fabric: DMA and interrupts

    [src/fabrics/linux_devmem.c]: the daemon maps physical memory, one range per
    DMA access. A pointer into a mapping is the physical address it stands for.
    This file is the data path, which implements the fabric interface; the polled
    register mirror is in [DevMemMirror.v]. *)

From S2P Require Import Prelude Endian Fabric CStrings LinuxUio Endpoints.

#[local] Open Scope Z_scope.
#[local] Open Scope c_scope.

Definition DEVMEM_NOTIFY_IDLE : Z := 0xffffffff.

(** A mapping: the physical address of its first byte and its length, a multiple
    of the page size. *)
Record phys_map : Type := {
  pm_base : Z;
  pm_extent : Z;
}.

(** The machine around the daemon: physical memory, which pages [/dev/mem] lets a
    process map, the outcomes of the next [mmap] and [malloc] calls (success when
    the list is exhausted), what the guest stores each time the daemon looks at
    shared memory or sleeps, and the register stores made so far, newest first. *)
Record machine : Type := {
  mc_page_shift : Z;
  mc_ram : Z -> Z;
  mc_backed : Z -> bool;
  mc_mmap : list bool;
  mc_alloc : list bool;
  mc_guest : list (list (Z * list Z));
  mc_bus : list (Z * Z);
}.

(** [struct devmem_state] and the machine. *)
Record devmem_state : Type := {
  dm_fd : Z;
  dm_mmio_map : option phys_map;
  dm_mmio : option Z;
  dm_mmio_map_len : Z;      (* size_t *)
  dm_mmio_page_delta : Z;   (* size_t *)
  dm_config : devmem_config;
  dm_mc : machine;
}.

Definition set_mc (f : machine -> machine) (s : devmem_state) : devmem_state :=
  {| dm_fd := dm_fd s; dm_mmio_map := dm_mmio_map s; dm_mmio := dm_mmio s;
     dm_mmio_map_len := dm_mmio_map_len s; dm_mmio_page_delta := dm_mmio_page_delta s;
     dm_config := dm_config s; dm_mc := f (dm_mc s) |}.

Definition mc_env (mm al : list bool) (g : list (list (Z * list Z))) (m : machine)
  : machine :=
  {| mc_page_shift := mc_page_shift m; mc_ram := mc_ram m; mc_backed := mc_backed m;
     mc_mmap := mm; mc_alloc := al; mc_guest := g; mc_bus := mc_bus m |}.

Definition ram_store (addr : Z) (data : list Z) (ram : Z -> Z) : Z -> Z := fun a =>
  if (addr <=? a) && (a <? addr + zlen data)
  then nth (Z.to_nat (a - addr)) data 0 else ram a.

Definition mc_store (addr : Z) (data : list Z) (m : machine) : machine :=
  {| mc_page_shift := mc_page_shift m; mc_ram := ram_store addr data (mc_ram m);
     mc_backed := mc_backed m; mc_mmap := mc_mmap m; mc_alloc := mc_alloc m;
     mc_guest := mc_guest m; mc_bus := mc_bus m |}.

Definition mc_log (addr value : Z) (m : machine) : machine :=
  {| mc_page_shift := mc_page_shift m; mc_ram := mc_ram m; mc_backed := mc_backed m;
     mc_mmap := mc_mmap m; mc_alloc := mc_alloc m; mc_guest := mc_guest m;
     mc_bus := (addr, value) :: mc_bus m |}.

(** A turn of the guest. *)
Definition dm_guest_turn : M devmem_state unit :=
  modify (set_mc (fun m =>
    match mc_guest m with
    | [] => m
    | batch :: rest =>
        mc_env (mc_mmap m) (mc_alloc m) rest
          (fold_left (fun m st => mc_store (fst st) (map u8 (snd st)) m) batch m)
    end)).

(** ** Mappings *)

(** [mmap] of [len] bytes of [/dev/mem] at [base]: whole pages, all of which must be
    mappable and inside the 64-bit address space. *)
Definition round_up (shift len : Z) : Z := Z.shiftl (Z.shiftr (len + 2 ^ shift - 1) shift) shift.

Definition pages_backed (m : machine) (base extent : Z) : bool :=
  forallb (fun k => mc_backed m (Z.shiftr base (mc_page_shift m) + Z.of_nat k))
    (seq 0 (Z.to_nat (Z.shiftr extent (mc_page_shift m)))).

Definition dm_mmap (base len : Z) : M devmem_state (option phys_map) := fun s =>
  let m := dm_mc s in
  let extent := round_up (mc_page_shift m) len in
  let fits := negb (len =? 0) && (base + extent <=? 2 ^ 64)
              && pages_backed m base extent in
  let ok := match mc_mmap m with b :: _ => b | [] => true end in
  Done (if ok && fits then Some {| pm_base := base; pm_extent := extent |} else None,
        set_mc (fun m => mc_env (tl (mc_mmap m)) (mc_alloc m) (mc_guest m) m) s).

(** [map_phys]: the mapping, its requested length and the offset of [paddr] in its
    first page. *)
Definition map_phys (paddr len : Z) : M devmem_state (option phys_map * Z * Z) :=
  shift ← gets (fun s => mc_page_shift (dm_mc s));
  let page_mask := u64 (2 ^ shift - 1) in
  let base := Z.land paddr (u64 (Z.lnot page_mask)) in
  let page_delta := u64 (paddr - base) in
  let map_len := u64 (page_delta + len) in
  map ← dm_mmap base map_len;
  ret (map, map_len, page_delta).

(** Access to [len] bytes at [map + off]; outside the mapping it is undefined. *)
Definition phys_load (map : phys_map) (off len : Z) : M devmem_state (list Z) := fun s =>
  if (0 <=? off) && (off + len <=? pm_extent map) then
    Done (List.map (fun k => mc_ram (dm_mc s) (pm_base map + off + Z.of_nat k))
            (seq 0 (Z.to_nat len)), s)
  else UB.

Definition phys_store (map : phys_map) (off : Z) (data : list Z) : M devmem_state unit :=
  fun s =>
  if (0 <=? off) && (off + zlen data <=? pm_extent map) then
    Done (tt, set_mc (mc_store (pm_base map + off) data) s)
  else UB.

(** [store_le32] through a volatile pointer. *)
Definition dm_store_le32 (map : phys_map) (off value : Z) : M devmem_state unit :=
  phys_store map off (virtio_store_le32 value);;
  modify (set_mc (mc_log (pm_base map + off) value)).

(** ** DMA entry points *)

Definition dm_malloc : M devmem_state bool := fun s =>
  match mc_alloc (dm_mc s) with
  | [] => Done (true, s)
  | ok :: al => Done (ok, set_mc (fun m => mc_env (mc_mmap m) al (mc_guest m) m) s)
  end.

Definition devmem_dma_read_into (gpa len : Z) : M devmem_state (option (list Z)) :=
  if len =? 0 then ret (Some []) else
  dm_guest_turn;;
  r ← map_phys gpa len;
  let '(map, map_len, page_delta) := r in
  match map with
  | None => ret None
  | Some map => data ← phys_load map page_delta len; ret (Some data)
  end.

Definition devmem_dma_read (gpa len : Z) : M devmem_state (option (list Z)) :=
  if len =? 0 then ret (Some []) else
  ok ← dm_malloc;
  if negb ok then ret None else devmem_dma_read_into gpa len.

Definition devmem_dma_map (gpa len : Z) : M devmem_state (option dma_ptr) := ret None.

Definition devmem_dma_read_u16 (gpa : Z) : M devmem_state (option Z) :=
  data ←? devmem_dma_read_into gpa 2;
  ret (Some (Z.lor (nth 0 data 0) (Z.shiftl (nth 1 data 0) 8))).

Definition devmem_dma_write (gpa : Z) (data : list Z) : M devmem_state bool :=
  if zlen data =? 0 then ret true else
  dm_guest_turn;;
  r ← map_phys gpa (zlen data);
  let '(map, map_len, page_delta) := r in
  match map with
  | None => ret false
  | Some map => phys_store map page_delta data;; ret true
  end.

(** The interrupt control register. *)
Definition irq_store (value : Z) : M devmem_state bool :=
  addr ← gets (fun s => dc_irq_addr (dm_config s));
  r ← map_phys addr 4;
  let '(map, map_len, page_delta) := r in
  match map with
  | None => ret false
  | Some map => dm_store_le32 map page_delta value;; ret true
  end.

Definition devmem_lower_irq : M devmem_state bool :=
  config ← gets dm_config;
  if negb (dc_have_irq config) then ret true else irq_store (dc_irq_deassert config).

Definition devmem_raise_irq : M devmem_state bool :=
  config ← gets dm_config;
  if negb (dc_have_irq config) then ret true else
  check devmem_lower_irq;
  irq_store (dc_irq_assert config).

(** No pointer is ever handed out. *)
Definition devmem_ptr_store (p : dma_ptr) (data : list Z) : M devmem_state unit :=
  match data with [] => ret tt | _ :: _ => undefined end.

#[global] Instance devmem_fabric : Fabric devmem_state := {
  fabric_dma_read := devmem_dma_read;
  fabric_dma_read_into := devmem_dma_read_into;
  fabric_dma_map := devmem_dma_map;
  fabric_ptr_store := devmem_ptr_store;
  fabric_dma_read_u16 := devmem_dma_read_u16;
  fabric_dma_write := devmem_dma_write;
  fabric_raise_irq := devmem_raise_irq;
  fabric_lower_irq := devmem_lower_irq;
  fabric_usleep := fun _ => dm_guest_turn;
}.

(** ** Page arithmetic *)

Section pages.
Context (k : Z) (Hk : 0 <= k <= 30).
Implicit Types a len : Z.

Lemma page_pos : 0 < 2 ^ k <= 2 ^ 30.
Proof. split; [apply Z.pow_pos_nonneg; lia | apply Z.pow_le_mono_r; lia]. Qed.

(** [paddr & ~page_mask] *)
Lemma page_base a : in_width 64 a ->
  Z.land a (u64 (Z.lnot (u64 (2 ^ k - 1)))) = a - a mod 2 ^ k.
Proof.
  intros Ha. pose proof page_pos as Hp.
  rewrite (u64_small (2 ^ k - 1)) by (unfold in_width; lia).
  replace (2 ^ k - 1) with (Z.ones k) by (rewrite Z.ones_equiv; lia).
  unfold u64. rewrite <- Z.land_ones by lia.
  rewrite Z.land_assoc, (Z.land_ones _ 64) by lia. rewrite <- Z.ldiff_land.
  rewrite Z.ldiff_ones_r, Z.shiftr_div_pow2, Z.shiftl_mul_pow2 by lia.
  rewrite Z.mod_small; [pose proof (Z.div_mod a (2 ^ k)); lia|].
  unfold in_width in Ha. pose proof (Z.mul_div_le a (2 ^ k) ltac:(lia)).
  assert (0 <= a / 2 ^ k) by (apply Z.div_pos; lia). nia.
Qed.

Lemma page_delta_range a : 0 <= a mod 2 ^ k < 2 ^ k.
Proof. apply Z.mod_pos_bound, page_pos. Qed.

Lemma round_up_spec len : 0 <= len ->
  len <= round_up k len < len + 2 ^ k /\ (2 ^ k | round_up k len).
Proof.
  intros Hl. pose proof page_pos as Hp. unfold round_up.
  rewrite Z.shiftr_div_pow2, Z.shiftl_mul_pow2 by lia.
  pose proof (Z.div_mod (len + 2 ^ k - 1) (2 ^ k) ltac:(lia)) as E.
  pose proof (Z.mod_pos_bound (len + 2 ^ k - 1) (2 ^ k) ltac:(lia)).
  split; [lia | apply Z.divide_factor_r].
Qed.

(** A range inside the address space rounds up inside it. *)
Lemma round_up_inside a len : 0 <= a -> 0 < len -> a + len <= 2 ^ 64 ->
  a - a mod 2 ^ k + round_up k (a mod 2 ^ k + len) <= 2 ^ 64.
Proof.
  intros Ha Hl Hle. pose proof page_pos as Hp. pose proof (page_delta_range a) as Hd.
  destruct (round_up_spec (a mod 2 ^ k + len) ltac:(lia)) as [Hr [q Hq]].
  assert (exists z, 2 ^ 64 = z * 2 ^ k) as [z Hz].
  { exists (2 ^ (64 - k)). rewrite <- Z.pow_add_r by lia. f_equal. lia. }
  pose proof (Z.div_mod a (2 ^ k) ltac:(lia)) as Ea.
  assert (a - a mod 2 ^ k = (a / 2 ^ k) * 2 ^ k) as Eb by lia.
  rewrite Eb in *. rewrite Hq in *. rewrite Hz in *.
  assert ((a / 2 ^ k + q - 1) * 2 ^ k < z * 2 ^ k) by lia.
  assert (a / 2 ^ k + q - 1 < z) by nia. nia.
Qed.

(** Every page of the rounded range contains a byte of the range. *)
Lemma page_meets a len j : 0 <= a -> 0 < len ->
  0 <= j < Z.shiftr (round_up k (a mod 2 ^ k + len)) k ->
  exists x, a <= x < a + len /\ x / 2 ^ k = Z.shiftr (a - a mod 2 ^ k) k + j.
Proof.
  intros Ha Hl [Hj0 Hj]. pose proof page_pos as Hp. pose proof (page_delta_range a) as Hd.
  destruct (round_up_spec (a mod 2 ^ k + len) ltac:(lia)) as [Hr [q Hq]].
  rewrite Z.shiftr_div_pow2 in * by lia. rewrite Hq, Z.div_mul in Hj by lia.
  pose proof (Z.div_mod a (2 ^ k) ltac:(lia)) as Ea.
  replace (a - a mod 2 ^ k) with ((a / 2 ^ k) * 2 ^ k) by lia. rewrite Z.div_mul by lia.
  set (p := a / 2 ^ k) in *.
  exists (Z.max a ((p + j) * 2 ^ k)). split.
  - split; [lia|]. apply Z.max_lub_lt; [lia|]. nia.
  - destruct (Z.max_spec a ((p + j) * 2 ^ k)) as [[_ ->]|[Hm ->]].
    + now rewrite Z.div_mul by lia.
    + fold p. assert (j = 0) by nia. lia.
Qed.
End pages.

(** ** The fabric contracts *)

Record devmem_ok (s : devmem_state) : Prop := {
  do_shift : 0 <= mc_page_shift (dm_mc s) <= 30;
  do_ram : forall a, is_byte (mc_ram (dm_mc s) a);
  do_irq : in_width 64 (dc_irq_addr (dm_config s));
}.

(** With [quiet], the guest is quiescent and no host call fails by choice of the
    environment. *)
Definition devmem_inv (quiet : bool) (s : devmem_state) : Prop :=
  devmem_ok s /\
  (quiet = true -> mc_guest (dm_mc s) = [] /\ mc_mmap (dm_mc s) = [] /\
                   mc_alloc (dm_mc s) = []).

Section contracts.
Context (quiet : bool).
Implicit Types s : devmem_state.

Lemma ram_store_byte addr data ram : (forall a, is_byte (ram a)) -> bytes data ->
  forall a, is_byte (ram_store addr data ram a).
Proof.
  intros Hr Hd a. unfold ram_store. destruct (_ && _) eqn:E; [|apply Hr].
  apply (proj1 (List.Forall_forall _ _) Hd), nth_In. unfold zlen in E. lia.
Qed.

Lemma mc_store_inv s addr data : devmem_inv quiet s -> bytes data ->
  devmem_inv quiet (set_mc (mc_store addr data) s).
Proof.
  intros [[Hs Hr Hi] Hq] Hd. split; [|exact Hq]. split; [assumption | | assumption].
  cbn. now apply ram_store_byte.
Qed.

Lemma dm_guest_turn_ok s : devmem_inv quiet s ->
  wp dm_guest_turn s (fun _ s' =>
    devmem_inv quiet s' /\ mc_page_shift (dm_mc s') = mc_page_shift (dm_mc s) /\
    (quiet = true -> s' = s)).
Proof.
  intros [[Hs Hr Hi] Hq]. unfold dm_guest_turn. rewrite wpx_modify.
  unfold set_mc. cbn [dm_mc dm_config]. destruct (mc_guest (dm_mc s)) as [|b rest] eqn:Eg.
  { destruct s; cbn in *. split; [split; [now split|]|]; [|easy].
    intros Ht. cbn. rewrite Eg. now apply Hq. }
  split; [|split].
  - split; [|intros Ht; destruct (Hq Ht); discriminate].
    assert (forall b m, (forall a, is_byte (mc_ram m a)) ->
      (forall a, is_byte (mc_ram (fold_left (fun m st =>
         mc_store (fst st) (map u8 (snd st)) m) b m) a)) /\
      mc_page_shift (fold_left (fun m st => mc_store (fst st) (map u8 (snd st)) m) b m)
        = mc_page_shift m) as Hfold.
    { clear. induction b as [|st b IH]; intros m Hm; [easy|]. cbn [fold_left].
      apply (IH (mc_store (fst st) (map u8 (snd st)) m)). cbn.
      apply ram_store_byte; [assumption | apply bytes_u8]. }
    destruct (Hfold b (dm_mc s) Hr) as [H1 H2].
    split; cbn; [now rewrite H2 | exact H1 | assumption].
  - cbn. clear. generalize (dm_mc s) as m. induction b as [|st b IH]; intros m; [easy|].
    cbn [fold_left]. now rewrite IH.
  - intros Ht. destruct (Hq Ht). discriminate.
Qed.

(** A mapping covers the requested range; what fails leaves memory alone. *)
Lemma map_phys_ok s paddr len :
  devmem_inv quiet s -> in_width 64 paddr -> 0 < len < 2 ^ 32 ->
  wp (map_phys paddr len) s (fun r s' =>
    let '(map, map_len, delta) := r in
    devmem_inv quiet s' /\ (quiet = true -> s' = s) /\
    (forall m, map = Some m ->
       0 <= delta /\ pm_base m + delta = paddr /\ delta + len <= pm_extent m) /\
    (quiet = true -> paddr + len <= 2 ^ 64 ->
       (forall x, paddr <= x < paddr + len ->
          mc_backed (dm_mc s) (x / 2 ^ mc_page_shift (dm_mc s)) = true) ->
       is_Some map)).
Proof.
  intros [[Hs Hr Hi] Hq] Hp Hl. unfold map_phys. rewrite wpx_bind, wpx_gets, wpx_bind.
  set (k := mc_page_shift (dm_mc s)) in *. rewrite (page_base k Hs paddr Hp).
  pose proof (page_delta_range k Hs paddr) as Hd. pose proof (page_pos k Hs) as Hpos.
  replace (paddr - (paddr - paddr mod 2 ^ k)) with (paddr mod 2 ^ k) by lia.
  rewrite (u64_small (paddr mod 2 ^ k)), (u64_small (_ + len)) by (unfold in_width; lia).
  unfold dm_mmap. unfold wpx at 1. rewrite wpx_ret. fold k.
  destruct (round_up_spec k Hs (paddr mod 2 ^ k + len) ltac:(lia)) as [Hru _].
  split; [|split; [|split]].
  - split; [now split|]. intros Ht. cbn. now destruct (Hq Ht) as (-> & -> & ->).
  - intros Ht. destruct (Hq Ht) as (_ & E & _). destruct s as [? ? ? ? ? ? []]. cbn in *.
    now subst.
  - intros m. destruct (_ && _); [|easy]. intros [= <-]. cbn. lia.
  - intros Ht Hle Hb. destruct (Hq Ht) as (_ & -> & _). cbn [andb].
    rewrite (proj2 (Z.eqb_neq _ 0)) by lia. cbn [negb andb].
    unfold in_width in Hp.
    rewrite (proj2 (Z.leb_le _ _) (round_up_inside k Hs paddr len ltac:(lia) ltac:(lia) Hle)).
    cbn [andb]. assert (pages_backed (dm_mc s) (paddr - paddr mod 2 ^ k)
      (round_up k (paddr mod 2 ^ k + len)) = true) as ->; [|easy].
    unfold pages_backed. apply forallb_forall. intros j Hj%in_seq. fold k in Hj |- *.
    destruct (page_meets k Hs paddr len (Z.of_nat j)) as (x & Hx & <-); [lia | lia | lia |].
    now apply Hb.
Qed.

Lemma phys_load_ok s m off len :
  devmem_ok s -> 0 <= off -> 0 <= len -> off + len <= pm_extent m ->
  wp (phys_load m off len) s (fun data s' => s' = s /\ bytes data /\ zlen data = len /\
    forall i x, data !! i = Some x ->
      x = mc_ram (dm_mc s) (pm_base m + off + Z.of_nat i)).
Proof.
  intros [_ Hr _] Ho Hl Hle. unfold wpx, phys_load.
  rewrite (proj2 (Z.leb_le _ _) Ho), (proj2 (Z.leb_le _ _) Hle). cbn [andb].
  split; [reflexivity|]. split; [|split].
  - apply List.Forall_forall. intros x (j & <- & _)%in_map_iff. apply Hr.
  - unfold zlen. rewrite length_map, length_seq. lia.
  - intros i x Hi. apply list_lookup_fmap_Some in Hi as (j & -> & Hj).
    apply lookup_seq in Hj as [-> _]. reflexivity.
Qed.

Lemma phys_store_ok s m off data :
  0 <= off -> off + zlen data <= pm_extent m ->
  phys_store m off data s = Done (tt, set_mc (mc_store (pm_base m + off) data) s).
Proof.
  intros Ho Hle. unfold phys_store.
  now rewrite (proj2 (Z.leb_le _ _) Ho), (proj2 (Z.leb_le _ _) Hle).
Qed.

Lemma dm_read_into_ok s gpa len :
  devmem_inv quiet s -> in_width 64 gpa -> in_width 32 len ->
  wp (devmem_dma_read_into gpa len) s (fun r s' =>
    devmem_inv quiet s' /\ forall d, r = Some d -> bytes d /\ zlen d = len).
Proof.
  intros Hi Hg Hl. unfold devmem_dma_read_into. unfold in_width in Hl.
  destruct (len =? 0) eqn:E0.
  { rewrite wpx_ret. split; [assumption|]. intros ? [= <-].
    split; [constructor | unfold zlen; cbn; lia]. }
  rewrite wpx_bind. wpuse dm_guest_turn_ok; [assumption|]. intros _ s1 (Hi1 & _).
  rewrite wpx_bind. wpuse (map_phys_ok s1 gpa len); [assumption | assumption | lia|].
  intros [[[m|] ml] delta] s2 (Hi2 & _ & Hm & _); [|now rewrite wpx_ret].
  destruct (Hm m eq_refl) as (H0 & _ & Hle). rewrite wpx_bind.
  wpuse (phys_load_ok s2 m delta len); [apply Hi2 | assumption | lia | assumption|].
  intros data s3 (-> & Hb & Hz & _). rewrite wpx_ret. split; [assumption|].
  now intros ? [= <-].
Qed.

Lemma dm_malloc_ok s : devmem_inv quiet s ->
  wp dm_malloc s (fun ok s' => devmem_inv quiet s' /\ (quiet = true -> ok = true /\ s' = s)).
Proof.
  intros [[Hs Hr Hi] Hq]. unfold wpx, dm_malloc.
  destruct (mc_alloc (dm_mc s)) as [|ok al] eqn:E.
  - split; [split; [now split|] | easy]. intros Ht. rewrite E. now apply Hq.
  - split; [split; [now split|]|]; intros Ht; destruct (Hq Ht) as (_ & _ & ?); discriminate.
Qed.

Lemma dm_store_le32_ok s m off v :
  devmem_inv quiet s -> 0 <= off -> off + 4 <= pm_extent m ->
  wp (dm_store_le32 m off v) s (fun _ s' => devmem_inv quiet s' /\
    s' = set_mc (fun mc => mc_log (pm_base m + off) v
                  (mc_store (pm_base m + off) (virtio_store_le32 v) mc)) s).
Proof.
  intros Hi Ho Hle. unfold dm_store_le32. rewrite wpx_bind. unfold wpx at 1.
  rewrite phys_store_ok by (assumption || exact Hle). rewrite wpx_modify.
  split; [|reflexivity].
  pose proof (mc_store_inv s (pm_base m + off) (virtio_store_le32 v) Hi
    (bytes_store_le32 v)) as [[] ?]. split; [now split | assumption].
Qed.

Lemma irq_store_ok s v : devmem_inv quiet s ->
  wp (irq_store v) s (fun ok s' => devmem_inv quiet s' /\
    (ok = true -> quiet = true ->
      s' = set_mc (fun mc => mc_log (dc_irq_addr (dm_config s)) v
             (mc_store (dc_irq_addr (dm_config s)) (virtio_store_le32 v) mc)) s)).
Proof.
  intros Hi. unfold irq_store. rewrite wpx_bind, wpx_gets, wpx_bind.
  wpuse (map_phys_ok s (dc_irq_addr (dm_config s)) 4); [assumption | apply Hi | lia |].
  intros [[[m|] ml] delta] s2 (Hi2 & E2 & Hm & _); [|now rewrite wpx_ret].
  destruct (Hm m eq_refl) as (H0 & Hb & Hle). rewrite wpx_bind.
  wpuse (dm_store_le32_ok s2 m delta v); [assumption | assumption | assumption|].
  intros _ s3 [Hi3 ->]. rewrite wpx_ret. split; [assumption|].
  intros _ Ht. now rewrite Hb, (E2 Ht).
Qed.

(** The fabric is safe whatever the guest stores and whichever mappings fail. *)
#[program] Definition devmem_fabric_safe : FabricSafe devmem_state := {|
  fab_ok := devmem_inv quiet;
  ptr_ok := fun _ _ len => len = 0;
|}.
Next Obligation.
  intros s gpa len Hi Hg Hl. cbn. unfold devmem_dma_read. destruct (len =? 0) eqn:E0.
  { rewrite wpx_ret. split; [assumption|]. intros ? [= <-].
    split; [constructor | unfold zlen; cbn; lia]. }
  rewrite wpx_bind. wpuse dm_malloc_ok; [assumption|].
  intros [] s1 [Hi1 _]; cbn [negb]; [now apply dm_read_into_ok | now rewrite wpx_ret].
Qed.
Next Obligation. intros. now apply dm_read_into_ok. Qed.
Next Obligation.
  intros s gpa Hi Hg. cbn. unfold devmem_dma_read_u16. rewrite wpx_try.
  wpuse dm_read_into_ok; [assumption | assumption | width |].
  intros [data|] s1 [Hi1 Hr]; [|easy]. rewrite wpx_ret. split; [assumption|].
  intros ? [= <-]. destruct (Hr data eq_refl) as [Hb Hz].
  unfold zlen in Hz. destruct data as [|b0 [|b1 [|]]]; cbn [length] in Hz; try lia.
  apply (load_le16_range [b0; b1]); [assumption | cbn; lia].
Qed.
Next Obligation. intros s gpa len Hi Hg Hl. now split. Qed.
Next Obligation.
  intros s p len data Hi -> Hl Hb. cbn. destruct data as [|x data]; [exact Hi|].
  unfold zlen in Hl. cbn [length] in Hl. lia.
Qed.
Next Obligation.
  intros s gpa data Hi Hg Hl Hb. cbn. unfold devmem_dma_write. unfold in_width in Hl.
  destruct (zlen data =? 0) eqn:E0; [now rewrite wpx_ret|].
  rewrite wpx_bind. wpuse dm_guest_turn_ok; [assumption|]. intros _ s1 (Hi1 & _).
  rewrite wpx_bind. wpuse (map_phys_ok s1 gpa (zlen data)); [assumption | assumption | lia|].
  intros [[[m|] ml] delta] s2 (Hi2 & _ & Hm & _); [|now rewrite wpx_ret].
  destruct (Hm m eq_refl) as (H0 & _ & Hle). rewrite wpx_bind. unfold wpx at 1.
  rewrite phys_store_ok by assumption. rewrite wpx_ret. now apply mc_store_inv.
Qed.
Next Obligation.
  intros s Hi. cbn. unfold devmem_raise_irq. rewrite wpx_bind, wpx_gets.
  destruct (dc_have_irq (dm_config s)) eqn:Eh; cbn [negb]; [|now rewrite wpx_ret].
  rewrite wpx_check. unfold devmem_lower_irq. rewrite wpx_bind, wpx_gets, Eh. cbn [negb].
  wpuse irq_store_ok; [assumption|]. intros [] s1 [Hi1 _]; [|exact Hi1].
  wpuse irq_store_ok; [assumption|]. tauto.
Qed.
Next Obligation.
  intros s Hi. cbn. unfold devmem_lower_irq. rewrite wpx_bind, wpx_gets.
  destruct (dc_have_irq (dm_config s)); cbn [negb]; [|now rewrite wpx_ret].
  wpuse irq_store_ok; [assumption|]. tauto.
Qed.
Next Obligation.
  intros s us Hi.
  change (wp dm_guest_turn s (fun _ s' => devmem_inv quiet s')).
  wpuse dm_guest_turn_ok; [assumption|]. tauto.
Qed.
End contracts.

(** Any guest. *)
#[global] Instance devmem_safe : FabricSafe devmem_state := devmem_fabric_safe false.

(** ** Quiescent physical memory *)

Definition irq_register (s : devmem_state) (a : Z) : bool :=
  dc_have_irq (dm_config s) && (dc_irq_addr (dm_config s) <=? a)
  && (a <? dc_irq_addr (dm_config s) + 4).

(** Guest memory: the mappable bytes other than the interrupt control register. *)
Definition memory_at (s : devmem_state) (a : Z) : bool :=
  (0 <=? a) && (a <? 2 ^ 64) && mc_backed (dm_mc s) (a / 2 ^ mc_page_shift (dm_mc s))
  && negb (irq_register s a).

Definition devmem_peek (s : devmem_state) : mem := fun a =>
  if memory_at s a then Some (mc_ram (dm_mc s) a) else None.

(** Quiescent, and the interrupt register can be mapped. *)
Definition devmem_ram_ok (s : devmem_state) : Prop :=
  devmem_inv true s /\
  (dc_have_irq (dm_config s) = true ->
     dc_irq_addr (dm_config s) + 4 <= 2 ^ 64 /\
     forall x, dc_irq_addr (dm_config s) <= x < dc_irq_addr (dm_config s) + 4 ->
       mc_backed (dm_mc s) (x / 2 ^ mc_page_shift (dm_mc s)) = true).

Section ram.
Implicit Types s : devmem_state.

Lemma ram_store_in addr data ram a :
  addr <= a < addr + zlen data -> Some (ram_store addr data ram a) = data !! Z.to_nat (a - addr).
Proof.
  intros H. unfold ram_store, zlen in *.
  rewrite (proj2 (Z.leb_le _ _)), (proj2 (Z.ltb_lt _ _)) by lia. cbn [andb].
  destruct (lookup_lt_is_Some_2 data (Z.to_nat (a - addr))) as [x E]; [lia|].
  rewrite E. f_equal. now apply nth_lookup_Some.
Qed.

Lemma ram_store_out addr data ram a :
  a < addr \/ addr + zlen data <= a -> ram_store addr data ram a = ram a.
Proof.
  intros H. unfold ram_store. destruct (_ && _) eqn:E; [lia | reflexivity].
Qed.

(** Mapped ranges are backed, page by page, and off the interrupt register. *)
Lemma peek_mapped s gpa len x : mapped (devmem_peek s) gpa len -> gpa <= x < gpa + len ->
  memory_at s x = true.
Proof.
  intros Hm Hx. destruct (Hm x Hx) as [b Hb]. unfold devmem_peek in Hb.
  now destruct (memory_at s x).
Qed.

Lemma memory_backed s x : memory_at s x = true ->
  mc_backed (dm_mc s) (x / 2 ^ mc_page_shift (dm_mc s)) = true.
Proof. unfold memory_at. intros [[_ ?]%andb_prop _]%andb_prop. assumption. Qed.

Lemma dm_read_into_ram s gpa data :
  devmem_ram_ok s -> in_width 64 gpa -> addr_range gpa (zlen data) ->
  in_width 32 (zlen data) -> mem_at (devmem_peek s) gpa data ->
  wp (devmem_dma_read_into gpa (zlen data)) s (fun r s' => r = Some data /\ s' = s).
Proof.
  intros [Hi _] Hg (_ & _ & Ha) Hl Hd. unfold devmem_dma_read_into.
  destruct (zlen data =? 0) eqn:E0.
  { rewrite wpx_ret. now rewrite (zlen_nil_inv data) by lia. }
  unfold in_width in Hl. rewrite wpx_bind.
  wpuse dm_guest_turn_ok; [exact Hi|]. intros _ s1 (_ & _ & E). rewrite E by reflexivity.
  rewrite wpx_bind. wpuse (map_phys_ok true s gpa (zlen data)); [assumption | assumption | lia|].
  intros [[map ml] delta] s2 (Hi2 & E2 & Hm & Hex). rewrite (E2 eq_refl) in *.
  destruct Hex as [m ->]; [reflexivity | assumption | |].
  { intros x Hx. apply memory_backed.
    apply (peek_mapped s gpa (zlen data)); [now apply mem_at_mapped | assumption]. }
  destruct (Hm m eq_refl) as (H0 & Hb & Hle). rewrite wpx_bind.
  wpuse (phys_load_ok s m delta (zlen data)); [apply Hi | assumption | lia | assumption|].
  intros d s3 (-> & _ & Hz & Hv). rewrite wpx_ret. split; [|reflexivity]. f_equal.
  apply list_eq_same_length with (length data); [reflexivity | unfold zlen in Hz; lia |].
  intros i x y _ Ex Ey. apply Hv in Ex. specialize (Hd i y Ey). unfold devmem_peek in Hd.
  destruct (memory_at s _); [|easy]. injection Hd as <-. rewrite Ex. f_equal. lia.
Qed.

(** A store to the interrupt register is invisible in guest memory. *)
Lemma irq_store_ram s v : devmem_ram_ok s -> dc_have_irq (dm_config s) = true ->
  wp (irq_store v) s (fun ok s' => ok = true /\ devmem_peek s' ≡m devmem_peek s /\
    devmem_ram_ok s' /\ dm_config s' = dm_config s).
Proof.
  intros [Hi Hirq] Hh. destruct (Hirq Hh) as [H64 Hb].
  eapply wpx_mono with (Q := fun ok s' => (devmem_inv true s' /\ (ok = true -> true = true ->
      s' = set_mc (fun mc => mc_log (dc_irq_addr (dm_config s)) v
             (mc_store (dc_irq_addr (dm_config s)) (virtio_store_le32 v) mc)) s))
      /\ ok = true).
  - apply wpx_conj; [now apply (irq_store_ok true)|].
    unfold irq_store. rewrite wpx_bind, wpx_gets, wpx_bind.
    wpuse (map_phys_ok true s (dc_irq_addr (dm_config s)) 4); [assumption | apply Hi | lia |].
    intros [[map ml] delta] s2 (Hi2 & E2 & Hm & Hex).
    destruct Hex as [m ->]; [reflexivity | assumption | assumption |].
    destruct (Hm m eq_refl) as (H0 & _ & Hle). rewrite wpx_bind.
    wpuse (dm_store_le32_ok true s2 m delta v); try assumption. now intros.
  - intros ok s' [[Hi' E] ->]. rewrite (E eq_refl eq_refl) in *. clear E.
    split; [reflexivity|]. split; [|split; [|reflexivity]].
    + intros a. unfold devmem_peek, memory_at, irq_register. cbn. rewrite Hh. cbn [andb].
      destruct (_ && _) eqn:E; [|reflexivity]. f_equal. apply ram_store_out.
      change (zlen _) with 4. lia.
    + split; [exact Hi'|]. intros _. now split.
Qed.

Lemma dm_write_ram s gpa data :
  devmem_ram_ok s -> in_width 64 gpa -> addr_range gpa (zlen data) ->
  in_width 32 (zlen data) -> bytes data -> mapped (devmem_peek s) gpa (zlen data) ->
  wp (devmem_dma_write gpa data) s (fun b s' =>
    b = true /\ devmem_peek s' ≡m mem_write (devmem_peek s) gpa data /\ devmem_ram_ok s').
Proof.
  intros [Hi Hirq] Hg (_ & _ & Ha) Hl Hb Hma. unfold devmem_dma_write.
  destruct (zlen data =? 0) eqn:E0.
  { rewrite wpx_ret. rewrite (zlen_nil_inv data) by lia.
    split; [reflexivity|]. split; [apply write_nil_id | now split]. }
  unfold in_width in Hl. rewrite wpx_bind.
  wpuse dm_guest_turn_ok; [exact Hi|]. intros _ s1 (_ & _ & E). rewrite E by reflexivity.
  rewrite wpx_bind. wpuse (map_phys_ok true s gpa (zlen data)); [assumption | assumption | lia|].
  intros [[map ml] delta] s2 (Hi2 & E2 & Hm & Hex). rewrite (E2 eq_refl) in *.
  destruct Hex as [m ->]; [reflexivity | assumption | |].
  { intros x Hx. now apply memory_backed, (peek_mapped s gpa (zlen data)). }
  destruct (Hm m eq_refl) as (H0 & Ebase & Hle). rewrite wpx_bind. unfold wpx at 1.
  rewrite phys_store_ok by assumption. rewrite wpx_ret, Ebase. split; [reflexivity|].
  split; [|split; [now apply mc_store_inv | exact Hirq]].
  intros a. unfold devmem_peek at 1. change (memory_at (set_mc _ s) a) with (memory_at s a).
  cbn [dm_mc set_mc mc_store mc_ram].
  destruct (decide (gpa <= a < gpa + zlen data)) as [Hin|Hout].
  - rewrite (peek_mapped s gpa (zlen data) a Hma Hin).
    rewrite mem_write_in by assumption. now apply ram_store_in.
  - rewrite mem_write_out by lia. unfold devmem_peek. destruct (memory_at s a); [|reflexivity].
    f_equal. apply ram_store_out. lia.
Qed.
End ram.

#[global, program] Instance devmem_ram : RamFabric devmem_state := {
  ram_ok := devmem_ram_ok;
  peek := devmem_peek;
}.
Next Obligation.
  intros s gpa data Hok Hg Ha Hl Hd. cbn in *. unfold devmem_dma_read.
  destruct (zlen data =? 0) eqn:E0.
  { rewrite wpx_ret. now rewrite (zlen_nil_inv data) by lia. }
  rewrite wpx_bind. wpuse (dm_malloc_ok true); [apply Hok|].
  intros ok s1 [_ E]. destruct (E eq_refl) as [-> ->]. cbn [negb].
  wpuse dm_read_into_ram; try assumption. now intros ? ? [-> ->].
Qed.
Next Obligation.
  intros s gpa data Hok Hg Ha Hl Hd. cbn in *.
  wpuse dm_read_into_ram; try assumption. now intros ? ? [-> ->].
Qed.
Next Obligation.
  intros s gpa b0 b1 Hok Hg Ha Hd. cbn in *. unfold devmem_dma_read_u16. rewrite wpx_try.
  wpuse (dm_read_into_ram s gpa [b0; b1]); try assumption;
    [now split|]. now intros ? ? [-> ->].
Qed.
Next Obligation. intros s gpa len Hok Hg Ha Hl. cbn. split; [easy|]. now split. Qed.
Next Obligation. intros. now apply dm_write_ram. Qed.
Next Obligation.
  intros s Hok. cbn. unfold devmem_raise_irq. rewrite wpx_bind, wpx_gets.
  destruct (dc_have_irq (dm_config s)) eqn:Eh; cbn [negb]; [|rewrite wpx_ret; easy].
  rewrite wpx_check. unfold devmem_lower_irq. rewrite wpx_bind, wpx_gets, Eh. cbn [negb].
  wpuse irq_store_ram; [assumption | assumption|]. intros ok s1 (-> & Hp1 & Hok1 & Ec).
  wpuse irq_store_ram; [assumption | now rewrite Ec|]. intros ok s2 (-> & Hp2 & Hok2 & _).
  split; [reflexivity|]. split; [now rewrite Hp2 | assumption].
Qed.
Next Obligation.
  intros s Hok. cbn. unfold devmem_lower_irq. rewrite wpx_bind, wpx_gets.
  destruct (dc_have_irq (dm_config s)) eqn:Eh; cbn [negb]; [|rewrite wpx_ret; easy].
  wpuse irq_store_ram; [assumption | assumption|]. tauto.
Qed.
Next Obligation.
  intros s us Hok.
  change (wp dm_guest_turn s (fun _ s' => devmem_peek s' ≡m devmem_peek s /\ devmem_ram_ok s')).
  wpuse (dm_guest_turn_ok true); [apply Hok|]. intros _ s' (_ & _ & E).
  rewrite E by reflexivity. now split.
Qed.

(** ** Claims *)

(** What one store of the fabric leaves of physical memory. *)
Definition ram_after (ok : bool) (gpa : Z) (data : list Z) (s s' : devmem_state) : Prop :=
  forall a, mc_ram (dm_mc s') a
    = if ok then ram_store gpa data (mc_ram (dm_mc s)) a else mc_ram (dm_mc s) a.

Lemma map_phys_ram s paddr len :
  wp (map_phys paddr len) s (fun _ s' =>
    mc_ram (dm_mc s') = mc_ram (dm_mc s) /\ mc_guest (dm_mc s') = mc_guest (dm_mc s)).
Proof. unfold map_phys. wpsimpl. now split. Qed.

Lemma dm_turn_silent s : mc_guest (dm_mc s) = [] -> dm_guest_turn s = Done (tt, s).
Proof.
  intros Hg. unfold dm_guest_turn, modify, set_mc. rewrite Hg. now destruct s.
Qed.

Lemma dm_read_after s gpa len :
  devmem_inv false s -> mc_guest (dm_mc s) = [] -> in_width 64 gpa -> in_width 32 len ->
  wp (devmem_dma_read_into gpa len) s (fun r _ => forall d, r = Some d -> zlen d = len /\
    forall i x, d !! i = Some x -> x = mc_ram (dm_mc s) (gpa + Z.of_nat i)).
Proof.
  intros Hi Hg Hgpa Hl. unfold devmem_dma_read_into. unfold in_width in Hl.
  destruct (len =? 0) eqn:E0.
  { rewrite wpx_ret. intros d [= <-]. split; [unfold zlen; cbn; lia | easy]. }
  rewrite wpx_bind. unfold wpx at 1. rewrite dm_turn_silent by assumption. rewrite wpx_bind.
  eapply wpx_mono; [apply wpx_conj; [apply (map_phys_ok false s gpa len);
    [assumption | assumption | lia] | apply map_phys_ram]|].
  intros [[[m|] ml] delta] s2 [(Hi2 & _ & Hm & _) [Er _]]; [|now rewrite wpx_ret].
  destruct (Hm m eq_refl) as (H0 & Eb & Hle). rewrite wpx_bind.
  wpuse (phys_load_ok s2 m delta len); [apply Hi2 | assumption | lia | assumption|].
  intros data s3 (_ & _ & Hz & Hv). rewrite wpx_ret. intros d [= <-].
  split; [assumption|]. intros i x Hx. now rewrite (Hv i x Hx), Er, Eb.
Qed.

Lemma dm_write_after s gpa data :
  devmem_inv false s -> mc_guest (dm_mc s) = [] -> in_width 64 gpa ->
  in_width 32 (zlen data) ->
  wp (devmem_dma_write gpa data) s (fun ok s' =>
    ram_after ok gpa data s s' /\ mc_guest (dm_mc s') = []).
Proof.
  intros Hi Hg Hgpa Hl. unfold devmem_dma_write. unfold in_width in Hl.
  destruct (zlen data =? 0) eqn:E0.
  { rewrite wpx_ret, (zlen_nil_inv data) by lia. split; [|assumption]. intros a. symmetry.
    apply ram_store_out. unfold zlen. cbn. lia. }
  rewrite wpx_bind. unfold wpx at 1. rewrite dm_turn_silent by assumption. rewrite wpx_bind.
  eapply wpx_mono; [apply wpx_conj; [apply (map_phys_ok false s gpa (zlen data));
    [assumption | assumption | lia] | apply map_phys_ram]|].
  intros [[[m|] ml] delta] s2 [(Hi2 & _ & Hm & _) [Er Eg]].
  - destruct (Hm m eq_refl) as (H0 & Eb & Hle). rewrite wpx_bind. unfold wpx at 1.
    rewrite phys_store_ok by assumption. rewrite wpx_ret. split; [|now cbn; rewrite Eg].
    intros a. cbn. now rewrite Eb, Er.
  - rewrite wpx_ret. split; [intros a; now rewrite Er | now rewrite Eg].
Qed.

(** C24: a DMA write touches exactly its range. Whatever mappings the kernel grants
    and whatever the alignment of the address, a devmem write to any 64-bit address
    either fails and leaves all of physical memory alone, or succeeds and changes
    exactly the bytes of the range to the data, although whole pages are mapped;
    after a success a read of the range, when it is granted, returns the data. *)
Theorem devmem_write_confined s gpa data :
  devmem_ok s -> mc_guest (dm_mc s) = [] -> in_width 64 gpa -> in_width 32 (zlen data) ->
  bytes data ->
  exists ok s', devmem_dma_write gpa data s = Done (ok, s') /\
    (ok = false -> forall a, mc_ram (dm_mc s') a = mc_ram (dm_mc s) a) /\
    (ok = true ->
       (forall a, a < gpa \/ gpa + zlen data <= a ->
          mc_ram (dm_mc s') a = mc_ram (dm_mc s) a) /\
       (forall i x, data !! i = Some x -> mc_ram (dm_mc s') (gpa + Z.of_nat i) = x) /\
       exists r s2, devmem_dma_read_into gpa (zlen data) s' = Done (r, s2) /\
         (r = None \/ r = Some data)).
Proof.
  intros Hok Hg Hgpa Hl Hb. assert (devmem_inv false s) as Hi by now split.
  destruct (wp_elim _ _ _ (wpx_conj _ _ _ _ _ (dm_write_after s gpa data Hi Hg Hgpa Hl)
    (@fs_write _ _ (devmem_fabric_safe false) s gpa data Hi Hgpa Hl Hb)))
    as (ok & s' & E & [Hr Hg'] & Hi').
  exists ok, s'. split; [exact E|]. split; intros ->; [exact Hr|].
  assert (forall i x, data !! i = Some x -> mc_ram (dm_mc s') (gpa + Z.of_nat i) = x) as Hd.
  { intros i x Hx. pose proof (lookup_lt_Some _ _ _ Hx).
    pose proof (ram_store_in gpa data (mc_ram (dm_mc s)) (gpa + Z.of_nat i)) as Hin.
    rewrite Hr. replace (Z.to_nat (gpa + Z.of_nat i - gpa)) with i in Hin by lia.
    rewrite Hx in Hin. unfold zlen in Hin. specialize (Hin ltac:(lia)). congruence. }
  split; [intros a Ha; rewrite Hr; now apply ram_store_out|]. split; [exact Hd|].
  destruct (wp_elim _ _ _ (dm_read_after s' gpa (zlen data) Hi' Hg' Hgpa Hl))
    as (r & s2 & E2 & Hr2).
  exists r, s2. split; [exact E2|]. destruct r as [d|]; [right; f_equal | now left].
  destruct (Hr2 d eq_refl) as [Hz Hv]. unfold zlen in Hz.
  apply list_eq_same_length with (length data); [reflexivity | lia |].
  intros i x y _ Ex Ey. now rewrite (Hv i x Ex), (Hd i y Ey).
Qed.

(** A machine with 4 KiB pages, of which the first 16 can be mapped. *)
Definition sample_machine : machine :=
  {| mc_page_shift := 12; mc_ram := fun _ => 0; mc_backed := fun p => (0 <=? p) && (p <? 16);
     mc_mmap := []; mc_alloc := []; mc_guest := []; mc_bus := [] |}.

Definition sample_config : devmem_config :=
  {| dc_path := "/dev/mem"; dc_mmio_base := 0x2000; dc_mmio_size := 0x200;
     dc_poll_us := 1000; dc_have_irq := true; dc_irq_addr := 0x5008; dc_irq_assert := 1;
     dc_irq_deassert := 0 |}.

Definition sample_devmem : devmem_state :=
  {| dm_fd := 4; dm_mmio_map := Some {| pm_base := 0x2000; pm_extent := 0x1000 |};
     dm_mmio := Some 0x2000; dm_mmio_map_len := 0x200; dm_mmio_page_delta := 0;
     dm_config := sample_config; dm_mc := sample_machine |}.

Lemma sample_devmem_ok : devmem_ok sample_devmem.
Proof.
  split; [split; discriminate | now split | split; [discriminate | reflexivity]].
Qed.

(** A write across a page boundary. *)
Lemma devmem_write_confined_witness :
  exists s', devmem_dma_write 0x2ffe [1; 2; 3] sample_devmem = Done (true, s') /\
    mc_ram (dm_mc s') 0x3000 = 3 /\ mc_ram (dm_mc s') 0x3001 = 0.
Proof.
  destruct (devmem_write_confined sample_devmem 0x2ffe [1; 2; 3]) as (ok & s' & E & _ & H).
  - exact sample_devmem_ok.
  - reflexivity.
  - split; [discriminate | reflexivity].
  - split; [discriminate | reflexivity].
  - decided.
  - assert (ok = true) as -> by (vm_compute in E; congruence).
    destruct (H eq_refl) as (Hout & Hin & _). exists s'. split; [exact E|].
    split; [exact (Hin 2%nat 3 eq_refl)|].
    rewrite Hout; [reflexivity | right; discriminate].
Defined.

(** An interrupt is an edge: the line is lowered before it is raised. *)
Lemma irq_store_bus s v : devmem_ram_ok s -> dc_have_irq (dm_config s) = true ->
  wp (irq_store v) s (fun ok s' => ok = true /\ devmem_ram_ok s' /\
    dm_config s' = dm_config s /\
    mc_bus (dm_mc s') = (dc_irq_addr (dm_config s), v) :: mc_bus (dm_mc s)).
Proof.
  intros Hok Hh.
  eapply wpx_mono; [apply wpx_conj; [apply (irq_store_ram s v Hok Hh)
    | apply (irq_store_ok true s v (proj1 Hok))]|].
  intros ok s' [(-> & _ & Hok' & Ec') [_ E]]. split; [reflexivity|].
  split; [assumption|]. split; [assumption|]. now rewrite (E eq_refl eq_refl).
Qed.

Theorem devmem_irq_edge s : devmem_ram_ok s -> dc_have_irq (dm_config s) = true ->
  exists s', devmem_raise_irq s = Done (true, s') /\
    mc_bus (dm_mc s') = (dc_irq_addr (dm_config s), dc_irq_assert (dm_config s))
      :: (dc_irq_addr (dm_config s), dc_irq_deassert (dm_config s)) :: mc_bus (dm_mc s).
Proof.
  intros Hok Hh. assert (wp devmem_raise_irq s (fun ok s' => ok = true /\
    mc_bus (dm_mc s') = (dc_irq_addr (dm_config s), dc_irq_assert (dm_config s))
      :: (dc_irq_addr (dm_config s), dc_irq_deassert (dm_config s)) :: mc_bus (dm_mc s))) as H.
  { unfold devmem_raise_irq. rewrite wpx_bind, wpx_gets, Hh. cbn [negb].
    rewrite wpx_check. unfold devmem_lower_irq. rewrite wpx_bind, wpx_gets, Hh. cbn [negb].
    wpuse irq_store_bus; [assumption | assumption|]. intros ok s1 (-> & Hok1 & Ec & Eb).
    wpuse irq_store_bus; [assumption | now rewrite Ec|]. intros ok s2 (-> & _ & _ & ->).
    now rewrite Eb, Ec. }
  destruct (wp_elim _ _ _ H) as (ok & s' & E & -> & Hbus). now exists s'.
Qed.
