(* ===== verification/DevMemMirror.v ===== *)
(** * The polled register mirror of the devmem fabric

    The second half of [src/fabrics/linux_devmem.c]: the daemon publishes the
    readable registers in the mapped aperture and polls the writable ones. *)

From S2P Require Import Prelude Endian Fabric Virtio VirtioMmio QueueService CStrings.
From S2P Require Import LinuxUio Endpoints DevMem UioScan.

#[local] Open Scope Z_scope.
#[local] Open Scope c_scope.

(** ** Registers of the aperture *)

(** [load_le32] and [store_le32] at [g_devmem.mmio + off]. *)
Definition devmem_load32 (off : Z) : M devmem_state Z := fun s =>
  match dm_mmio_map s, dm_mmio s with
  | Some map, Some mmio =>
      (data ← phys_load map (mmio + off - pm_base map) 4;
       ret (virtio_load_le32 data)) s
  | _, _ => UB
  end.

Definition devmem_store32 (off value : Z) : M devmem_state unit := fun s =>
  match dm_mmio_map s, dm_mmio s with
  | Some map, Some mmio => dm_store_le32 map (mmio + off - pm_base map) value s
  | _, _ => UB
  end.

Definition devmem_registers : list Z :=
  [VIRTIO_MMIO_MAGIC_VALUE; VIRTIO_MMIO_VERSION; VIRTIO_MMIO_DEVICE_ID;
   VIRTIO_MMIO_VENDOR_ID; VIRTIO_MMIO_DEVICE_FEATURES; VIRTIO_MMIO_QUEUE_NUM_MAX;
   VIRTIO_MMIO_INTERRUPT_STATUS; VIRTIO_MMIO_STATUS; VIRTIO_MMIO_CONFIG_GENERATION].

Definition devmem_write_offsets : list Z :=
  [VIRTIO_MMIO_DEVICE_FEATURES_SEL; VIRTIO_MMIO_DRIVER_FEATURES;
   VIRTIO_MMIO_DRIVER_FEATURES_SEL; VIRTIO_MMIO_QUEUE_SEL; VIRTIO_MMIO_QUEUE_NUM;
   VIRTIO_MMIO_QUEUE_READY; VIRTIO_MMIO_QUEUE_DESC_LOW; VIRTIO_MMIO_QUEUE_DESC_HIGH;
   VIRTIO_MMIO_QUEUE_AVAIL_LOW; VIRTIO_MMIO_QUEUE_AVAIL_HIGH;
   VIRTIO_MMIO_QUEUE_USED_LOW; VIRTIO_MMIO_QUEUE_USED_HIGH;
   VIRTIO_MMIO_QUEUE_NOTIFY; VIRTIO_MMIO_INTERRUPT_ACK; VIRTIO_MMIO_STATUS].

Definition cleanup_devmem (s : devmem_state) : devmem_state :=
  let mapped := match dm_mmio_map s with Some _ => true | None => false end in
  {| dm_fd := if 0 <=? dm_fd s then -1 else dm_fd s;
     dm_mmio_map := None;
     dm_mmio := if mapped then None else dm_mmio s;
     dm_mmio_map_len := if mapped then 0 else dm_mmio_map_len s;
     dm_mmio_page_delta := if mapped then 0 else dm_mmio_page_delta s;
     dm_config := dm_config s; dm_mc := dm_mc s |}.

Section mirror.
Context {D : Type} (dev : fabric_device devmem_state D).

(** Calls through the operation table; a null pointer cannot be called. *)
Definition devmem_dev_read (off : Z) : M (devmem_state * D) Z := fun s =>
  match fd_ops dev with
  | Some ops => match op_read ops with
                | Some read => Done (read (snd s) off 4, s)
                | None => UB
                end
  | None => UB
  end.

Definition devmem_dev_write (off value : Z) : M (devmem_state * D) bool := fun s =>
  match fd_ops dev with
  | Some ops => match op_write ops with
                | Some write => write off value 4 s
                | None => UB
                end
  | None => UB
  end.

(** [off + 4 <= dev->size] *)
Definition in_device (off : Z) : bool := u64 (off + 4) <=? fd_size dev.

Definition devmem_publish (off : Z) : M (devmem_state * D) unit :=
  value ← devmem_dev_read off;
  liftF (devmem_store32 off (u32 value)).

Fixpoint devmem_refresh_list (offs : list Z) : M (devmem_state * D) unit :=
  match offs with
  | [] => ret tt
  | off :: offs =>
      (if in_device off then devmem_publish off else ret tt);;
      devmem_refresh_list offs
  end.

Fixpoint devmem_refresh_config (fuel : nat) (off : Z) : M (devmem_state * D) unit :=
  match fuel with
  | O => out_of_fuel
  | S fuel =>
      if in_device off
      then devmem_publish off;; devmem_refresh_config fuel (u64 (off + 4)) else ret tt
  end.

(** The configuration loop runs once per word of the device. *)
Definition devmem_refresh_read_registers : M (devmem_state * D) unit :=
  devmem_refresh_list devmem_registers;;
  devmem_refresh_config (S (Z.to_nat (fd_size dev / 4))) VIRTIO_MMIO_CONFIG.

(** A register load: the guest may have stored to the aperture before it. *)
Definition devmem_scan32 (off : Z) : M (devmem_state * D) Z :=
  liftF (dm_guest_turn;; devmem_load32 off).

(** The scan from position [i]: the returned flag and the shadow array. *)
Fixpoint devmem_poll_from (i : nat) (offsets shadow : list Z)
  : M (devmem_state * D) (bool * list Z) :=
  match offsets with
  | [] => ret (true, shadow)
  | off :: offsets =>
      if negb (in_device off) then devmem_poll_from (S i) offsets shadow else
      value ← devmem_scan32 off;
      if value =? shadow !!! i then devmem_poll_from (S i) offsets shadow else
      w ← devmem_dev_write off value;
      if negb w then ret (false, <[i := value]> shadow) else
      if off =? VIRTIO_MMIO_QUEUE_NOTIFY then
        liftF (devmem_store32 off DEVMEM_NOTIFY_IDLE);;
        devmem_poll_from (S i) offsets (<[i := DEVMEM_NOTIFY_IDLE]> shadow)
      else if off =? VIRTIO_MMIO_INTERRUPT_ACK then
        liftF (devmem_store32 off 0);;
        devmem_poll_from (S i) offsets (<[i := 0]> shadow)
      else devmem_poll_from (S i) offsets (<[i := value]> shadow)
  end.

Definition devmem_poll_write_registers (shadow : list Z)
  : M (devmem_state * D) (bool * list Z) :=
  devmem_poll_from 0 devmem_write_offsets shadow.

Fixpoint devmem_initial_shadow (offsets : list Z) : M (devmem_state * D) (list Z) :=
  match offsets with
  | [] => ret []
  | off :: offsets =>
      value ← (if in_device off then devmem_scan32 off else ret 0);
      rest ← devmem_initial_shadow offsets;
      ret ((if off =? VIRTIO_MMIO_QUEUE_NOTIFY then DEVMEM_NOTIFY_IDLE else value) :: rest)
  end.

(** The polling loop: it ends only by failing, and then everything is released. *)
Fixpoint devmem_loop (rounds : nat) (shadow : list Z) : M (devmem_state * D) bool :=
  match rounds with
  | O => out_of_fuel
  | S rounds =>
      r ← devmem_poll_write_registers shadow;
      if negb (fst r) then
        (modify (fun s => (cleanup_devmem (fst s), snd s)));; ret false
      else
        devmem_refresh_read_registers;;
        poll_us ← gets (fun s => dc_poll_us (dm_config (fst s)));
        liftF (fabric_usleep poll_us);;
        devmem_loop rounds (snd r)
  end.

(** Connecting the device and the first publication. *)
Definition devmem_start : M (devmem_state * D) (list Z) :=
  (modify (fun s => (fst s,
    match fd_ops dev with
    | Some ops => match op_connect ops with
                  | Some connect => connect (snd s)
                  | None => snd s
                  end
    | None => snd s
    end)));;
  shadow ← devmem_initial_shadow devmem_write_offsets;
  liftF (devmem_store32 VIRTIO_MMIO_QUEUE_NOTIFY DEVMEM_NOTIFY_IDLE);;
  devmem_refresh_read_registers;;
  ret shadow.
End mirror.

(** [open] and mapping the aperture. *)
Definition set_opened (fd : Z) (config : devmem_config) (s : devmem_state) : devmem_state :=
  {| dm_fd := fd; dm_mmio_map := dm_mmio_map s; dm_mmio := dm_mmio s;
     dm_mmio_map_len := dm_mmio_map_len s; dm_mmio_page_delta := dm_mmio_page_delta s;
     dm_config := config; dm_mc := dm_mc s |}.

Definition set_aperture (map : option phys_map) (mmio : option Z) (len delta : Z)
    (s : devmem_state) : devmem_state :=
  {| dm_fd := dm_fd s; dm_mmio_map := map; dm_mmio := mmio; dm_mmio_map_len := len;
     dm_mmio_page_delta := delta; dm_config := dm_config s; dm_mc := dm_mc s |}.

Definition open_aperture (config : devmem_config) (open_ret : Z) : M devmem_state bool :=
  (modify (set_opened open_ret config));;
  if open_ret <? 0 then ret false else
  r ← map_phys (dc_mmio_base config) (dc_mmio_size config);
  let '(map, map_len, page_delta) := r in
  match map with
  | None =>
      (modify (fun s => cleanup_devmem (set_aperture None (dm_mmio s) map_len page_delta s)));;
      ret false
  | Some m =>
      (modify (set_aperture (Some m) (Some (pm_base m + page_delta)) map_len page_delta));;
      ret true
  end.

(** [fabric_run]; [opens] gives the result of [open] for a path, [rounds] bounds
    the polling loop. *)
Definition devmem_run {D} (env : environment) (opens : string -> Z) (rounds : nat)
    (bus : fabric devmem_state D) : M (devmem_state * D) bool :=
  if negb (fb_device_count bus =? 1) then ret false else
  match fb_devices bus with
  | [] => undefined
  | dev :: _ =>
      match load_config env dev with
      | None => ret false
      | Some config =>
          check liftF (open_aperture config (opens (dc_path config)));
          shadow ← devmem_start dev;
          devmem_loop dev rounds shadow
      end
  end.

(** ** The scan when the guest is silent *)

Definition dlull (n : nat) (s : devmem_state) : Prop :=
  forall k, (k < n)%nat -> mc_guest (dm_mc s) !! k = Some [] \/ mc_guest (dm_mc s) = [].

(** The state after [n] silent turns of the guest. *)
Definition dpop (n : nat) (s : devmem_state) : devmem_state :=
  set_mc (fun m => mc_env (mc_mmap m) (mc_alloc m) (drop n (mc_guest m)) m) s.

(** A register of the aperture at physical address [p]. *)
Definition dreg (p off : Z) (s : devmem_state) : Z :=
  virtio_load_le32 (map (fun k => mc_ram (dm_mc s) (p + off + Z.of_nat k)) (seq 0 4)).

(** The aperture is mapped at [p] and as large as the device. *)
Record devmem_window {D} (dev : fabric_device devmem_state D) (p : Z) (s : devmem_state)
    : Prop := {
  dw_size : 0x100 <= fd_size dev < 2 ^ 62;
  dw_mmio : dm_mmio s = Some p;
  dw_map : exists m, dm_mmio_map s = Some m /\ pm_base m <= p /\
                     p + fd_size dev <= pm_base m + pm_extent m;
}.

Section scan.
Context {D : Type} (dev : fabric_device devmem_state D) (p : Z).
Implicit Types (s : devmem_state) (d : D) (off : Z).

Lemma dpop_0 s : dpop 0 s = s.
Proof. now destruct s as [? ? ? ? ? ? []]. Qed.

Lemma dpop_dpop n m s : dpop m (dpop n s) = dpop (n + m) s.
Proof. unfold dpop, set_mc, mc_env. cbn. now rewrite drop_drop. Qed.

Lemma dpop_window n s : devmem_window dev p s -> devmem_window dev p (dpop n s).
Proof. now intros []. Qed.

Lemma dlull_pop n m s : dlull (n + m) s -> dlull m (dpop n s).
Proof.
  intros H k Hk. cbn. destruct (H (n + k)%nat ltac:(lia)) as [E|E].
  - left. now rewrite lookup_drop.
  - right. rewrite E. apply drop_nil.
Qed.

Lemma dlull_le n m s : (m <= n)%nat -> dlull n s -> dlull m s.
Proof. intros Hle H k Hk. apply H. lia. Qed.

Lemma in_device_page off : 0x100 <= fd_size dev < 2 ^ 62 -> in_page off ->
  in_device dev off = true.
Proof.
  intros Hd (H0 & _ & H1). unfold in_device. rewrite u64_small by (unfold in_width; lia). lia.
Qed.

Lemma devmem_load_reg off s : devmem_window dev p s -> in_page off ->
  devmem_load32 off s = Done (dreg p off s, s).
Proof.
  intros [Hs Hp (m & Em & Hb & Hle)] (H0 & _ & H1). unfold devmem_load32. rewrite Em, Hp.
  unfold bind, phys_load.
  rewrite (proj2 (Z.leb_le 0 _)), (proj2 (Z.leb_le _ (pm_extent m))) by lia. cbn [andb].
  unfold ret, dreg. do 3 f_equal. apply map_ext. intros k. f_equal. lia.
Qed.

Lemma devmem_scan_reg off s d : devmem_window dev p s -> dlull 1 s -> in_page off ->
  devmem_scan32 off (s, d) = Done (dreg p off s, (dpop 1 s, d)).
Proof.
  intros Hw Hl Ho. unfold devmem_scan32, liftF, zoom. cbn [fst snd].
  assert (dm_guest_turn s = Done (tt, dpop 1 s)) as E.
  { unfold dm_guest_turn, modify, dpop, set_mc. f_equal. f_equal.
    destruct (Hl 0%nat ltac:(lia)) as [E|E].
    - destruct (mc_guest (dm_mc s)) as [|b rest]; [easy|]. injection E as ->. reflexivity.
    - rewrite E. cbn [drop]. destruct s as [? ? ? ? ? ? []]. cbn in *. now subst. }
  rewrite (bind_done _ _ _ _ _ E).
  now rewrite (devmem_load_reg off (dpop 1 s)) by (assumption || now apply dpop_window).
Qed.

(** A register store. *)
Definition reg_stored (off v : Z) (s : devmem_state) : devmem_state :=
  set_mc (fun mc => mc_log (p + off) v (mc_store (p + off) (virtio_store_le32 v) mc)) s.

Lemma devmem_store_reg off v s d : devmem_window dev p s -> in_page off ->
  liftF (devmem_store32 off v) (s, d) = Done (tt, (reg_stored off v s, d)).
Proof.
  intros [Hs Hp (m & Em & Hb & Hle)] (H0 & _ & H1). unfold liftF, zoom. cbn [fst snd].
  unfold devmem_store32. rewrite Em, Hp. unfold dm_store_le32, bind, phys_store.
  change (zlen (virtio_store_le32 v)) with 4.
  rewrite (proj2 (Z.leb_le 0 _)), (proj2 (Z.leb_le _ (pm_extent m))) by lia. cbn [andb].
  unfold reg_stored, modify, set_mc. cbn.
  now replace (pm_base m + (p + off - pm_base m)) with (p + off) by lia.
Qed.

Lemma reg_stored_window off v s : devmem_window dev p s ->
  devmem_window dev p (reg_stored off v s).
Proof. now intros []. Qed.

Lemma reg_stored_same off v s : in_width 32 v -> dreg p off (reg_stored off v s) = v.
Proof.
  intros Hv. unfold dreg. cbn [dm_mc reg_stored set_mc mc_log mc_store mc_ram].
  assert (map (fun k => ram_store (p + off) (virtio_store_le32 v) (mc_ram (dm_mc s))
    (p + off + Z.of_nat k)) (seq 0 4) = virtio_store_le32 v) as ->.
  { apply list_eq. intros i. rewrite list_lookup_fmap.
    destruct (decide (i < 4)%nat) as [Hi|Hi].
    - rewrite lookup_seq_lt by assumption. cbn [fmap option_fmap option_map Nat.add].
      rewrite ram_store_in by (change (zlen _) with 4; lia). f_equal. lia.
    - rewrite !(proj2 (lookup_ge_None _ _)); [reflexivity | |].
      + change (length (virtio_store_le32 v)) with 4%nat. lia.
      + rewrite length_seq. lia. }
  rewrite <- (app_nil_r (virtio_store_le32 v)), load_store_le32. now apply u32_small.
Qed.

Lemma reg_stored_other off off' v s : in_page off -> in_page off' -> off' <> off ->
  dreg p off' (reg_stored off v s) = dreg p off' s.
Proof.
  intros (H0 & Ha & _) (H0' & Ha' & _) Hne. unfold dreg. f_equal. apply map_ext_in.
  intros k Hk%in_seq. cbn. apply ram_store_out. change (zlen _) with 4.
  Z.div_mod_to_equations. lia.
Qed.

(** Registers that agree with the shadow are passed over. *)
Lemma devmem_poll_skip pre post i shadow s d :
  devmem_window dev p s -> dlull (length pre) s -> Forall in_page pre ->
  (forall j off, pre !! j = Some off -> shadow !!! (i + j)%nat = dreg p off s) ->
  devmem_poll_from dev i (pre ++ post) shadow (s, d)
  = devmem_poll_from dev (i + length pre) post shadow (dpop (length pre) s, d).
Proof.
  intros Hw Hl Hpre. revert i s Hw Hl.
  induction Hpre as [|off pre Ho _ IH]; intros i s Hw Hl Hsh.
  { cbn [app length]. now rewrite Nat.add_0_r, dpop_0. }
  cbn [app devmem_poll_from length] in *. rewrite in_device_page by (assumption || apply Hw).
  assert (dlull 1 s) as Hl1 by (apply (dlull_le (S (length pre))); [lia | assumption]).
  cbn [negb]. rewrite (bind_done _ _ _ _ _ (devmem_scan_reg off s d Hw Hl1 Ho)).
  pose proof (Hsh 0%nat off eq_refl) as E0. rewrite Nat.add_0_r in E0.
  rewrite E0, Z.eqb_refl. rewrite IH.
  - rewrite dpop_dpop. f_equal. lia.
  - now apply dpop_window.
  - now apply (dlull_pop 1).
  - intros j o Hj. change (dreg p o (dpop 1 s)) with (dreg p o s).
    rewrite <- (Hsh (S j) o Hj). f_equal. lia.
Qed.
End scan.

(** Position of the notify register in the scan. *)
Definition devmem_notify_at : nat := 12.

Lemma devmem_offsets_in_page : Forall in_page devmem_write_offsets.
Proof. repeat constructor; vm_compute; (reflexivity || discriminate). Qed.

Lemma devmem_notify_split : devmem_write_offsets
  = take devmem_notify_at devmem_write_offsets
    ++ VIRTIO_MMIO_QUEUE_NOTIFY :: [VIRTIO_MMIO_INTERRUPT_ACK; VIRTIO_MMIO_STATUS].
Proof. reflexivity. Qed.

(** The shadow is idle for the notify register and agrees with the aperture on the
    others. *)
Definition devmem_shadow (p : Z) (shadow : list Z) (s : devmem_state) : Prop :=
  shadow !! devmem_notify_at = Some DEVMEM_NOTIFY_IDLE /\
  forall k off, devmem_write_offsets !! k = Some off -> off <> VIRTIO_MMIO_QUEUE_NOTIFY ->
    shadow !! k = Some (dreg p off s).

Section lost.
Context {D : Type} (dev : fabric_device devmem_state D) (p : Z).
Implicit Types (s : devmem_state) (d : D).

Lemma notify_in_page : in_page VIRTIO_MMIO_QUEUE_NOTIFY.
Proof. vm_compute. now repeat split. Qed.

(** The part of the scan in front of the notify register. *)
Lemma devmem_poll_front shadow s d :
  devmem_window dev p s -> dlull devmem_notify_at s -> devmem_shadow p shadow s ->
  devmem_poll_write_registers dev shadow (s, d)
  = devmem_poll_from dev devmem_notify_at
      (VIRTIO_MMIO_QUEUE_NOTIFY :: [VIRTIO_MMIO_INTERRUPT_ACK; VIRTIO_MMIO_STATUS]) shadow
      (dpop devmem_notify_at s, d).
Proof.
  intros Hw Hl [_ Hsh]. unfold devmem_poll_write_registers.
  rewrite devmem_notify_split at 1.
  apply (devmem_poll_skip dev p (take devmem_notify_at devmem_write_offsets));
    [assumption | exact Hl | apply Forall_take, devmem_offsets_in_page|].
  intros j off Hj. apply list_lookup_total_correct.
  assert (j < devmem_notify_at)%nat as Hlt by (apply lookup_lt_Some in Hj; exact Hj).
  rewrite lookup_take_lt in Hj by assumption. apply Hsh; [exact Hj|].
  intros ->. do 12 (destruct j as [|j]; [discriminate Hj|]).
  unfold devmem_notify_at in Hlt. lia.
Qed.

(** The part behind it. *)
Lemma devmem_poll_back shadow s d :
  devmem_window dev p s -> dlull 2 s -> devmem_shadow p shadow s ->
  devmem_poll_from dev (S devmem_notify_at) [VIRTIO_MMIO_INTERRUPT_ACK; VIRTIO_MMIO_STATUS]
    shadow (s, d) = Done ((true, shadow), (dpop 2 s, d)).
Proof.
  intros Hw Hl [_ Hsh].
  rewrite <- (app_nil_r [VIRTIO_MMIO_INTERRUPT_ACK; VIRTIO_MMIO_STATUS]).
  rewrite (devmem_poll_skip dev p); [reflexivity | assumption | exact Hl | |].
  - exact (Forall_drop _ 13 _ devmem_offsets_in_page).
  - intros j off Hj. apply list_lookup_total_correct.
    destruct j as [|[|j]]; [| |easy]; injection Hj as <-; now apply Hsh.
Qed.

(** A scan that finds nothing makes no call. *)
Lemma devmem_poll_nothing shadow s d :
  devmem_window dev p s -> dlull 15 s -> devmem_shadow p shadow s ->
  dreg p VIRTIO_MMIO_QUEUE_NOTIFY s = DEVMEM_NOTIFY_IDLE ->
  devmem_poll_write_registers dev shadow (s, d) = Done ((true, shadow), (dpop 15 s, d)).
Proof.
  intros Hw Hl Hs Hn. rewrite devmem_poll_front; try assumption.
  2:{ apply (dlull_le 15); [unfold devmem_notify_at; lia | assumption]. }
  pose proof (dpop_window dev p devmem_notify_at s Hw) as Hw1.
  cbn [devmem_poll_from]. rewrite in_device_page by (apply Hw || exact notify_in_page).
  cbn [negb]. rewrite (bind_done _ _ _ _ _ (devmem_scan_reg dev p _ _ d Hw1
    (dlull_le 3 1 _ ltac:(lia) (dlull_pop devmem_notify_at 3 s Hl)) notify_in_page)).
  change (dreg p VIRTIO_MMIO_QUEUE_NOTIFY (dpop devmem_notify_at s))
    with (dreg p VIRTIO_MMIO_QUEUE_NOTIFY s).
  rewrite Hn, (list_lookup_total_correct _ _ _ (proj1 Hs)), Z.eqb_refl, dpop_dpop.
  change (devmem_notify_at + 1)%nat with 13%nat.
  pose proof (devmem_poll_back shadow (dpop 13 s) d (dpop_window dev p 13 s Hw)
    (dlull_pop 13 2 s Hl) Hs) as E.
  cbn [devmem_poll_from] in E. rewrite E. now rewrite dpop_dpop.
Qed.
End lost.

(** ** Claims *)

(** C36: the polled mirror loses notifications. Let the poll find queue [v] in the
    notify register and call the device. Whatever the guest stores in the register
    while the callback runs, the register is idle when the poll is over, and the
    next poll returns without calling the device. *)
Theorem devmem_notify_lost {D} (dev : fabric_device devmem_state D) p shadow s d s2 d2 v :
  devmem_window dev p s -> dlull 13 s -> devmem_shadow p shadow s ->
  dreg p VIRTIO_MMIO_QUEUE_NOTIFY s = v -> v <> DEVMEM_NOTIFY_IDLE ->
  devmem_dev_write dev VIRTIO_MMIO_QUEUE_NOTIFY v (dpop 13 s, d) = Done (true, (s2, d2)) ->
  devmem_window dev p s2 -> dlull 17 s2 ->
  (forall off, In off devmem_write_offsets -> off <> VIRTIO_MMIO_QUEUE_NOTIFY ->
     dreg p off s2 = dreg p off s) ->
  exists s3, devmem_poll_write_registers dev shadow (s, d) = Done ((true, shadow), (s3, d2)) /\
    dreg p VIRTIO_MMIO_QUEUE_NOTIFY s3 = DEVMEM_NOTIFY_IDLE /\
    devmem_poll_write_registers dev shadow (s3, d2) = Done ((true, shadow), (dpop 15 s3, d2)).
Proof.
  intros Hw Hl [Hs1 Hs2] Hv Hne Hcall Hw2 Hl2 Hr.
  assert (in_page VIRTIO_MMIO_QUEUE_NOTIFY) as Ho by exact notify_in_page.
  set (s3 := reg_stored p VIRTIO_MMIO_QUEUE_NOTIFY DEVMEM_NOTIFY_IDLE s2).
  assert (devmem_window dev p s3) as Hw3 by now apply reg_stored_window.
  assert (devmem_shadow p shadow s3) as Hsh3.
  { split; [assumption|]. intros k off Hk Hn.
    pose proof (list_elem_of_lookup_2 _ _ _ Hk) as Hin%list_elem_of_In.
    rewrite (Hs2 k off Hk Hn). f_equal. symmetry. unfold s3.
    pose proof devmem_offsets_in_page as Hall. rewrite List.Forall_forall in Hall.
    rewrite reg_stored_other by (assumption || now apply Hall). now apply Hr. }
  exists (dpop 2 s3). split; [|split].
  - rewrite devmem_poll_front with (p := p); try assumption; [|
      apply (dlull_le 13); [unfold devmem_notify_at; lia | assumption] | now split].
    pose proof (dpop_window dev p devmem_notify_at s Hw) as Hw1.
    cbn [devmem_poll_from]. rewrite in_device_page by (apply Hw || assumption).
    cbn [negb]. rewrite (bind_done _ _ _ _ _ (devmem_scan_reg dev p _ _ d Hw1
      (dlull_pop devmem_notify_at 1 s Hl) Ho)).
    change (dreg p VIRTIO_MMIO_QUEUE_NOTIFY (dpop devmem_notify_at s))
      with (dreg p VIRTIO_MMIO_QUEUE_NOTIFY s).
    rewrite Hv, (list_lookup_total_correct _ _ _ Hs1), (proj2 (Z.eqb_neq _ _) Hne), dpop_dpop.
    rewrite (bind_done _ _ _ _ _ Hcall). cbn [negb].
    change (VIRTIO_MMIO_QUEUE_NOTIFY =? VIRTIO_MMIO_QUEUE_NOTIFY) with true. cbn beta iota.
    rewrite (bind_done _ _ _ _ _ (devmem_store_reg dev p _ DEVMEM_NOTIFY_IDLE s2 d2 Hw2 Ho)).
    rewrite (list_insert_id shadow) by assumption.
    exact (devmem_poll_back dev p shadow s3 d2 Hw3 (dlull_le 17 2 s2 ltac:(lia) Hl2) Hsh3).
  - apply (reg_stored_same p VIRTIO_MMIO_QUEUE_NOTIFY DEVMEM_NOTIFY_IDLE s2). now split.
  - apply (devmem_poll_nothing dev p); try assumption.
    + now apply dpop_window.
    + exact (dlull_pop 2 15 s2 Hl2).
    + apply (reg_stored_same p VIRTIO_MMIO_QUEUE_NOTIFY DEVMEM_NOTIFY_IDLE s2). now split.
Qed.

(** A device that sleeps in its callback and counts its calls. *)
Definition devmem_sleepy : fabric_device devmem_state Z :=
  {| fd_name := "sleepy"; fd_socket_path := "devmem:0x2000"; fd_addr := 0;
     fd_size := 0x200;
     fd_ops := Some {| op_connect := None; op_read := Some (fun _ _ _ => 0);
       op_write := Some (fun off _ _ =>
         (liftF (fabric_usleep 1);; (modify (fun s => (fst s, snd s + 1)));; ret true)) |} |}.

(** The notify register holds 0; while the device sleeps the guest stores 1. *)
Definition notifying : devmem_state :=
  set_mc (mc_env [] [] (replicate 13 [] ++ [[(0x2050, [1; 0; 0; 0])]])) sample_devmem.

Lemma devmem_notify_lost_witness :
  exists s3 s4 shadow,
    devmem_poll_write_registers devmem_sleepy shadow (notifying, 0) = Done ((true, shadow), (s3, 1)) /\
    devmem_poll_write_registers devmem_sleepy shadow (s3, 1) = Done ((true, shadow), (s4, 1)).
Proof.
  pose (shadow := <[12%nat := DEVMEM_NOTIFY_IDLE]> (replicate 15 0)).
  pose (s2 := set_mc (fun m => mc_env [] [] [] (mc_store 0x2050 [1; 0; 0; 0] m)) sample_devmem).
  assert (forall s, dm_mmio s = Some 0x2000 ->
    dm_mmio_map s = Some {| pm_base := 0x2000; pm_extent := 0x1000 |} ->
    devmem_window devmem_sleepy 0x2000 s) as Hwin.
  { intros s E1 E2. split; [split; discriminate || reflexivity | assumption|].
    eexists. split; [exact E2|]. split; discriminate. }
  destruct (devmem_notify_lost devmem_sleepy 0x2000 shadow notifying 0 s2 1 0)
    as (s3 & E1 & _ & E2).
  - now apply Hwin.
  - intros k Hk. left. do 13 (destruct k as [|k]; [reflexivity|]). lia.
  - split; [reflexivity|]. intros k off Hk Hn.
    do 15 (destruct k as [|k]; [injection Hk as <-; reflexivity || now destruct Hn|]).
    discriminate Hk.
  - reflexivity.
  - discriminate.
  - reflexivity.
  - now apply Hwin.
  - intros k Hk. now right.
  - intros off Hin Hn.
    repeat (destruct Hin as [<-|Hin]; [reflexivity || now destruct Hn|]). destruct Hin.
  - exists s3, (dpop 15 s3), shadow. now split.
Defined.

(** ** Setting up the aperture *)

(** A configured window that ends inside the address space is mapped as a whole,
    whatever the alignment of its base; a failure releases everything. *)
Theorem open_aperture_ok {D} (dev : fabric_device devmem_state D) config fd s :
  devmem_ok s -> devmem_config_ok (fd_size dev) config ->
  0x100 <= fd_size dev < 2 ^ 62 ->
  dc_mmio_base config + dc_mmio_size config <= 2 ^ 63 ->
  dm_mmio_map s = None ->
  exists ok s', open_aperture config fd s = Done (ok, s') /\
    if ok then devmem_window dev (dc_mmio_base config) s' /\ 0 <= dm_fd s'
    else dm_fd s' < 0 /\ dm_mmio_map s' = None.
Proof.
  intros Hok [Hb Hs _ _ _ _] Hd Hle Hn. unfold open_aperture.
  set (s1 := set_opened fd config s).
  rewrite (bind_done _ _ _ tt s1) by reflexivity.
  destruct (fd <? 0) eqn:Ef; [exists false, s1; split; [reflexivity|]; cbn; split; [lia | assumption]|].
  unfold map_phys, bind at 1, bind at 1, gets.
  set (k := mc_page_shift (dm_mc s1)).
  assert (0 <= k <= 30) as Hk by apply Hok.
  rewrite (page_base k Hk) by (unfold in_width; lia).
  pose proof (page_delta_range k Hk (dc_mmio_base config)) as Hdelta.
  pose proof (page_pos k Hk) as Hpos.
  set (b := dc_mmio_base config) in *.
  replace (b - (b - b mod 2 ^ k)) with (b mod 2 ^ k) by lia.
  rewrite (u64_small (b mod 2 ^ k)), (u64_small (_ + _)) by (unfold in_width; lia).
  destruct (round_up_spec k Hk (b mod 2 ^ k + dc_mmio_size config) ltac:(lia)) as [Hru _].
  unfold bind, dm_mmap. fold k. destruct (_ && _) eqn:Eok; unfold ret, modify.
  - eexists true, _. split; [reflexivity|]. cbn -[round_up]. split; [|lia].
    split; [lia | cbn; f_equal; lia|]. eexists. split; [reflexivity|]. cbn -[round_up]. lia.
  - eexists false, _. split; [reflexivity|]. cbn. split; [|reflexivity].
    destruct (0 <=? fd) eqn:E0; lia.
Qed.

(** The length of the aperture is added to its page offset without an overflow
    check: a configured size close to [2^64] maps a single page, and publishing the
    registers behind it leaves the mapping. *)
Example aperture_size_wraps :
  let env name :=
    if bool_decide (name = "CHIPLETS_DEVMEM_MMIO_BASE") then Some "0x2f00"
    else if bool_decide (name = "CHIPLETS_DEVMEM_MMIO_SIZE") then Some "0xfffffffffffff101"
    else None in
  let dev := {| fd_name := "mem"; fd_socket_path := ""; fd_addr := 0; fd_size := 0x200;
                fd_ops := fd_ops devmem_sleepy |} in
  let bus := {| fb_devices := [dev]; fb_device_count := 1 |} in
  let idle := cleanup_devmem sample_devmem in
  load_config env dev <> None /\ devmem_run env (fun _ => 4) 1 bus (idle, 0) = UB.
Proof. vm_compute. split; [discriminate | reflexivity]. Qed.
