(* ===== verification/ChipletsUio.v ===== *)
(** * The chiplets UIO kernel module

    [src/kernel/chiplets_uio.c]: the platform driver behind [/dev/uioX] in the
    backend machine. Its interrupt handler and its interrupt control run under a
    spin lock, so each is one atomic step. The line's disable depth is kept by the
    kernel ([disable_irq_nosync], [enable_irq]); the module's [irq_enabled] flag is
    meant to mirror it. *)

From S2P Require Import Prelude CStrings.
From stdpp Require Import pretty.

#[local] Open Scope Z_scope.

Definition CHIPLET_UIO_MMIO_BASE : Z := 0x10feb00000.
Definition CHIPLET_UIO_MMIO_SIZE : Z := 0x1000.
Definition CHIPLET_UIO_DMA_BASE : Z := 0x1000000000.
Definition CHIPLET_UIO_DMA_SIZE : Z := 0x20000000.
Definition CHIPLET_UIO_IRQ_BASE : Z := 16.
Definition MAX_UIO_MAPS : Z := 5.
Definition PAGE_SHIFT : Z := 12.
Definition ENOMEM : Z := 12.
Definition EINVAL : Z := 22.

(** [struct uio_mem], and the fields of [struct uio_info] the module sets. *)
Record uio_mem : Type := {
  um_phys : Z;    (* phys_addr_t *)
  um_bytes : Z;   (* resource_size_t *)
}.

Record chiplets_uio_dev : Type := {
  cu_name : string;
  cu_irq : Z;
  cu_mem : list uio_mem;
  cu_irq_enabled : bool;
  cu_index : Z;   (* unsigned *)
}.

(** The interrupt line as the kernel keeps it: its disable depth, and whether it
    was ever enabled more often than disabled. *)
Record irq_line : Type := {
  il_depth : Z;
  il_unbalanced : bool;
}.

Definition disable_irq_nosync (l : irq_line) : irq_line :=
  {| il_depth := il_depth l + 1; il_unbalanced := il_unbalanced l |}.

Definition enable_irq (l : irq_line) : irq_line :=
  if il_depth l =? 0 then {| il_depth := 0; il_unbalanced := true |}
  else {| il_depth := il_depth l - 1; il_unbalanced := il_unbalanced l |}.

Definition set_enabled (e : bool) (dev : chiplets_uio_dev) : chiplets_uio_dev :=
  {| cu_name := cu_name dev; cu_irq := cu_irq dev; cu_mem := cu_mem dev;
     cu_irq_enabled := e; cu_index := cu_index dev |}.

(** ** Interrupts *)

Definition chiplets_uio_irq (s : chiplets_uio_dev * irq_line) : chiplets_uio_dev * irq_line :=
  let '(dev, line) := s in
  if cu_irq_enabled dev then (set_enabled false dev, disable_irq_nosync line)
  else (dev, line).

Definition chiplets_uio_irqcontrol (irq_on : Z) (s : chiplets_uio_dev * irq_line)
  : chiplets_uio_dev * irq_line :=
  let '(dev, line) := s in
  if negb (irq_on =? 0) && negb (cu_irq_enabled dev) then
    (set_enabled true dev, enable_irq line)
  else if (irq_on =? 0) && cu_irq_enabled dev then
    (set_enabled false dev, disable_irq_nosync line)
  else (dev, line).

(** ** Mapping *)

Record vm_area : Type := {
  vm_start : Z;
  vm_end : Z;
  vm_pgoff : Z;
}.

(** What is asked of [remap_pfn_range]: the first frame, the length, and whether
    the mapping is uncached. *)
Record remap : Type := {
  rm_pfn : Z;
  rm_size : Z;
  rm_noncached : bool;
}.

Definition chiplets_uio_mmap (dev : chiplets_uio_dev) (vma : vm_area) : Z + remap :=
  let map_index := vm_pgoff vma in
  let requested := u64 (vm_end vma - vm_start vma) in
  if MAX_UIO_MAPS <=? map_index then inl (- EINVAL) else
  let mem := nth (Z.to_nat map_index) (cu_mem dev) {| um_phys := 0; um_bytes := 0 |} in
  if (um_bytes mem =? 0) || (um_bytes mem <? requested) then inl (- EINVAL) else
  inr {| rm_pfn := Z.shiftr (um_phys mem) PAGE_SHIFT; rm_size := requested;
         rm_noncached := map_index =? 0 |}.

(** ** Probing *)

(** A memory resource: first and last address. *)
Record resource : Type := {
  rs_start : Z;
  rs_end : Z;
}.

Definition resource_size (r : resource) : Z := u64 (rs_end r - rs_start r + 1).

Record platform_device : Type := {
  pl_name : string;
  pl_mem : list resource;
  pl_irq : Z;   (* result of platform_get_irq_optional *)
}.

Fixpoint strstr (needle s : string) : bool :=
  match after_prefix needle s with
  | Some _ => true
  | None => match s with EmptyString => false | String _ r => strstr needle r end
  end.

Definition chiplets_uio_index (pdev : platform_device) : Z :=
  match pl_mem pdev !! 0%nat with
  | Some res =>
      if 0 <? resource_size res
      then u32 (u64 (rs_start res - CHIPLET_UIO_MMIO_BASE) / CHIPLET_UIO_MMIO_SIZE)
      else if strstr ":01" (pl_name pdev) then 1 else 0
  | None => if strstr ":01" (pl_name pdev) then 1 else 0
  end.

(** [allocs]: whether the allocation of the device and of its name succeed;
    [register]: the result of [devm_uio_register_device]. *)
Definition chiplets_uio_probe (pdev : platform_device) (allocs : bool * bool)
    (register : Z) : Z * option chiplets_uio_dev :=
  if negb (fst allocs) then (- ENOMEM, None) else
  let index := chiplets_uio_index pdev in
  if negb (snd allocs) then (- ENOMEM, None) else
  let region (i : nat) (base size : Z) :=
    match pl_mem pdev !! i with
    | Some r => {| um_phys := rs_start r; um_bytes := resource_size r |}
    | None => {| um_phys := base; um_bytes := size |}
    end in
  (register,
   Some {| cu_name := "chiplets-uio" +:+ pretty (Z.to_N index);
           cu_irq := if 0 <=? pl_irq pdev then pl_irq pdev
                     else u32 (CHIPLET_UIO_IRQ_BASE + index);
           cu_mem := [region 0%nat (CHIPLET_UIO_MMIO_BASE + index * CHIPLET_UIO_MMIO_SIZE)
                             CHIPLET_UIO_MMIO_SIZE;
                      region 1%nat CHIPLET_UIO_DMA_BASE CHIPLET_UIO_DMA_SIZE];
           cu_irq_enabled := true;
           cu_index := index |}).

(** ** The interrupt state machine *)

(** The critical sections run in any order: an interrupt that was taken before the
    line was disabled may reach the lock after that, so the handler is not
    restricted to an enabled line. *)
Inductive uio_step : chiplets_uio_dev * irq_line -> chiplets_uio_dev * irq_line -> Prop :=
| step_irq s : uio_step s (chiplets_uio_irq s)
| step_control irq_on s : uio_step s (chiplets_uio_irqcontrol irq_on s).

Inductive uio_reachable (dev : chiplets_uio_dev) : chiplets_uio_dev * irq_line -> Prop :=
| reach_start : uio_reachable dev (dev, {| il_depth := 0; il_unbalanced := false |})
| reach_step s s' : uio_reachable dev s -> uio_step s s' -> uio_reachable dev s'.

(** The flag mirrors the depth. *)
Definition irq_mirrored (s : chiplets_uio_dev * irq_line) : Prop :=
  snd s = {| il_depth := if cu_irq_enabled (fst s) then 0 else 1; il_unbalanced := false |}.

Section machine.
Implicit Types s : chiplets_uio_dev * irq_line.

Lemma step_mirrored s s' : uio_step s s' -> irq_mirrored s -> irq_mirrored s'.
Proof.
  destruct 1 as [[dev line]|on [dev line]]; unfold irq_mirrored; cbn [fst snd]; intros ->;
    unfold chiplets_uio_irq, chiplets_uio_irqcontrol;
    destruct (cu_irq_enabled dev) eqn:E; try destruct (on =? 0); cbn; rewrite ?E; reflexivity.
Qed.

Lemma reachable_mirrored dev s :
  cu_irq_enabled dev = true -> uio_reachable dev s -> irq_mirrored s.
Proof.
  intros He. induction 1 as [|s s' _ IH Hs]; [|now apply (step_mirrored s)].
  unfold irq_mirrored. cbn. now rewrite He.
Qed.
End machine.

(** ** Claims *)

(** C25: interrupt masking stays balanced. In every interleaving of interrupts and
    interrupt-control writes the disable depth is 0 or 1 and equals what the
    module's flag says, and no enable is unbalanced. An interrupt leaves the line
    masked, so it cannot storm; a write of a non-zero value leaves it unmasked, so
    the next interrupt can arrive; a write of zero masks it. *)
Theorem uio_irq_balanced dev s on :
  cu_irq_enabled dev = true -> uio_reachable dev s -> on <> 0 ->
  il_depth (snd s) = (if cu_irq_enabled (fst s) then 0 else 1) /\
  il_unbalanced (snd s) = false /\
  il_depth (snd (chiplets_uio_irq s)) = 1 /\
  il_depth (snd (chiplets_uio_irqcontrol on s)) = 0 /\
  il_depth (snd (chiplets_uio_irqcontrol 0 s)) = 1.
Proof.
  intros He Hr Hon. pose proof (reachable_mirrored dev s He Hr) as Hs.
  destruct s as [d line]. unfold irq_mirrored in Hs. cbn [fst snd] in *. subst line.
  unfold chiplets_uio_irq, chiplets_uio_irqcontrol.
  rewrite (proj2 (Z.eqb_neq on 0) Hon). destruct (cu_irq_enabled d) eqn:E; cbn; easy.
Qed.

(** A device probed on a machine that describes neither memory nor interrupt. *)
Definition bare_dev : chiplets_uio_dev :=
  match snd (chiplets_uio_probe {| pl_name := "chiplets-uio:01"; pl_mem := []; pl_irq := -6 |}
               (true, true) 0) with
  | Some dev => dev
  | None => {| cu_name := ""; cu_irq := 0; cu_mem := []; cu_irq_enabled := true;
               cu_index := 0 |}
  end.

Lemma uio_irq_balanced_witness :
  let s := chiplets_uio_irq (chiplets_uio_irqcontrol 0
    (chiplets_uio_irq (bare_dev, {| il_depth := 0; il_unbalanced := false |}))) in
  il_depth (snd s) = 1 /\ il_depth (snd (chiplets_uio_irqcontrol 1 s)) = 0.
Proof.
  intros s. destruct (uio_irq_balanced bare_dev s 1) as (H1 & _ & _ & H2 & _).
  - reflexivity.
  - apply (reach_step _ _ _ (reach_step _ _ _ (reach_step _ _ _ (reach_start bare_dev)
      (step_irq _)) (step_control 0 _)) (step_irq _)).
  - discriminate.
  - split; [exact H1 | exact H2].
Defined.

(** User space maps nothing but the two resources. On a probed device with
    page-aligned resources, a mapping request succeeds only for resource 0 or 1 and
    a length up to its size, and the frames it is given lie inside that resource;
    the register window is mapped uncached. *)
Theorem uio_mmap_confined pdev allocs ret dev vma r :
  chiplets_uio_probe pdev allocs ret = (ret, Some dev) ->
  0 <= vm_pgoff vma -> Forall (fun m => um_phys m mod 2 ^ PAGE_SHIFT = 0) (cu_mem dev) ->
  chiplets_uio_mmap dev vma = inr r ->
  exists m, cu_mem dev !! Z.to_nat (vm_pgoff vma) = Some m /\
    (vm_pgoff vma = 0 \/ vm_pgoff vma = 1) /\
    rm_size r = u64 (vm_end vma - vm_start vma) /\
    rm_pfn r * 2 ^ PAGE_SHIFT = um_phys m /\ 0 <= rm_size r <= um_bytes m /\
    (rm_noncached r = true <-> vm_pgoff vma = 0).
Proof.
  intros Hp H0 Hal Hm.
  assert (length (cu_mem dev) = 2%nat) as Hlen.
  { unfold chiplets_uio_probe in Hp. destruct (negb _); [easy|].
    destruct (negb _); [easy|]. injection Hp as <-. reflexivity. }
  unfold chiplets_uio_mmap in Hm. destruct (MAX_UIO_MAPS <=? _) eqn:E5; [easy|].
  set (i := Z.to_nat (vm_pgoff vma)) in *.
  destruct (decide (i < 2)%nat) as [Hi|Hi].
  - destruct (lookup_lt_is_Some_2 (cu_mem dev) i) as [m Em]; [lia|].
    rewrite (nth_lookup_Some _ _ _ _ Em) in Hm.
    destruct (_ || _) eqn:Eb; [easy|]. injection Hm as <-. exists m. cbn.
    pose proof (u64_range (vm_end vma - vm_start vma)) as Hu. unfold in_width in Hu.
    pose proof (proj1 (List.Forall_forall _ _) Hal m) as Ha.
    rewrite <- list_elem_of_In in Ha. specialize (Ha (list_elem_of_lookup_2 _ _ _ Em)).
    cbn beta in Ha. rewrite Z.shiftr_div_pow2 by (unfold PAGE_SHIFT; lia).
    assert (2 ^ PAGE_SHIFT <> 0) as Hne by discriminate.
    pose proof (Z.div_mod (um_phys m) (2 ^ PAGE_SHIFT) Hne).
    split; [exact Em|]. split; [unfold i in Hi; lia|]. split; [reflexivity|].
    split; [lia|]. split; [lia|]. rewrite Z.eqb_eq. reflexivity.
  - rewrite nth_overflow in Hm by lia. easy.
Qed.

Lemma uio_mmap_confined_witness :
  exists m, cu_mem bare_dev !! 0%nat = Some m /\ um_phys m = 0x10feb01000.
Proof.
  destruct (uio_mmap_confined
    {| pl_name := "chiplets-uio:01"; pl_mem := []; pl_irq := -6 |} (true, true) 0 bare_dev
    {| vm_start := 0x7f0000000000; vm_end := 0x7f0000001000; vm_pgoff := 0 |}
    {| rm_pfn := 0x10feb01; rm_size := 0x1000; rm_noncached := true |})
    as (m & Em & _ & _ & Ep & _).
  - reflexivity.
  - discriminate.
  - decided.
  - reflexivity.
  - exists m. split; [exact Em | now rewrite <- Ep].
Defined.
