(* ===== verification/DaemonConfig.v ===== *)
(** * Command lines and entry points of the daemons

    [parse_config_arg] and [main] of [virtio-blkd.c] and [virtio-consoled.c]. The
    daemons take one comma-separated list of [key=value] fields. [fabric_run] of the
    fabric a daemon is linked with is an argument of the entry points. *)

From S2P Require Import Prelude Fabric CStrings Virtio VirtioMmio Posix.
From S2P Require Import BlockBackend VirtioBlk VirtioConsole.

#[local] Open Scope Z_scope.
#[local] Open Scope c_scope.

(** ** virtio-blkd *)

Record blkd_config : Type := {
  bc_image : string;        (* char [4096] *)
  bc_socket : string;       (* char [4096] *)
  bc_ram_access : string;   (* char [128] *)
  bc_readonly : bool;
}.

Definition set_bc_image (v : string) (c : blkd_config) : blkd_config :=
  {| bc_image := v; bc_socket := bc_socket c; bc_ram_access := bc_ram_access c;
     bc_readonly := bc_readonly c |}.
Definition set_bc_socket (v : string) (c : blkd_config) : blkd_config :=
  {| bc_image := bc_image c; bc_socket := v; bc_ram_access := bc_ram_access c;
     bc_readonly := bc_readonly c |}.
Definition set_bc_ram_access (v : string) (c : blkd_config) : blkd_config :=
  {| bc_image := bc_image c; bc_socket := bc_socket c; bc_ram_access := v;
     bc_readonly := bc_readonly c |}.
Definition set_bc_readonly (v : bool) (c : blkd_config) : blkd_config :=
  {| bc_image := bc_image c; bc_socket := bc_socket c;
     bc_ram_access := bc_ram_access c; bc_readonly := v |}.

(** A value that does not fit the buffer with its terminator is refused. *)
Definition copy_value (value : string) (out_len : Z) : option string :=
  if out_len <=? strlen value then None else Some value.

Definition parse_bool_value (value : string) : option bool :=
  if bool_decide (value = "true") || bool_decide (value = "1") then Some true
  else if bool_decide (value = "false") || bool_decide (value = "0") then Some false
  else None.

(** One [key=value] field. *)
Definition blkd_field (cfg : blkd_config) (part : string) : option blkd_config :=
  match strchr "=" part with
  | None => None
  | Some (key, value) =>
      if bool_decide (key = "image") then
        (fun v => set_bc_image v cfg) <$> copy_value value 4096
      else if bool_decide (key = "socket") then
        (fun v => set_bc_socket v cfg) <$> copy_value value 4096
      else if bool_decide (key = "ram_access") then
        (fun v => set_bc_ram_access v cfg) <$> copy_value value 128
      else if bool_decide (key = "readonly") then
        (fun v => set_bc_readonly v cfg) <$> parse_bool_value value
      else if bool_decide (key = "name") then Some cfg
      else None
  end.

(** The loop over the fields, left at the first malformed one. *)
Fixpoint each_field {C} (field : C -> string -> option C) (parts : list string) (cfg : C)
  : option C :=
  match parts with
  | [] => Some cfg
  | part :: parts => match field cfg part with
                     | None => None
                     | Some cfg => each_field field parts cfg
                     end
  end.

Definition blkd_defaults : blkd_config :=
  {| bc_image := ""; bc_socket := ""; bc_ram_access := "shared-mem";
     bc_readonly := false |}.

(** [copied]: whether [strdup] succeeded. *)
Definition parse_config_arg (copied : bool) (arg : string) : option blkd_config :=
  if negb copied then None else
  match each_field blkd_field (tokens "," arg) blkd_defaults with
  | None => None
  | Some cfg =>
      if bool_decide (bc_image cfg = "") || bool_decide (bc_socket cfg = "")
      then None else Some cfg
  end.

(** ** virtio-consoled *)

Record cond_config : Type := {
  cc_socket : string;       (* char [4096] *)
  cc_ram_access : string;   (* char [128] *)
  cc_output : string;       (* char [4096] *)
}.

Definition cond_copy_value (value : string) (out_len : Z) : option string :=
  if out_len <=? strlen value then None else Some value.

Definition cond_field (cfg : cond_config) (part : string) : option cond_config :=
  match strchr "=" part with
  | None => None
  | Some (key, value) =>
      if bool_decide (key = "socket") then
        (fun v => {| cc_socket := v; cc_ram_access := cc_ram_access cfg;
                     cc_output := cc_output cfg |}) <$> cond_copy_value value 4096
      else if bool_decide (key = "output") then
        (fun v => {| cc_socket := cc_socket cfg; cc_ram_access := cc_ram_access cfg;
                     cc_output := v |}) <$> cond_copy_value value 4096
      else if bool_decide (key = "ram_access") then
        (fun v => {| cc_socket := cc_socket cfg; cc_ram_access := v;
                     cc_output := cc_output cfg |}) <$> cond_copy_value value 128
      else if bool_decide (key = "name") then Some cfg
      else None
  end.

Definition cond_defaults : cond_config :=
  {| cc_socket := ""; cc_ram_access := "shared-mem"; cc_output := "-" |}.

Definition cond_parse_config_arg (copied : bool) (arg : string) : option cond_config :=
  if negb copied then None else
  match each_field cond_field (tokens "," arg) cond_defaults with
  | None => None
  | Some cfg => if bool_decide (cc_socket cfg = "") then None else Some cfg
  end.

(** ** Entry points *)

(** [blkd_direct_read_enabled]: the switch of the device operations. [enabled] is the
    function's static variable, [-1] until the first call; the result is the answer and
    the variable's new value. *)
Definition blkd_direct_read_enabled (enabled : Z) (getenv : string -> option string)
  : bool * Z :=
  let enabled :=
    if enabled <? 0
    then match getenv "CHIPLETS_BLKD_DIRECT_READ"%string with
         | Some value => if bool_decide (value = "0"%string) then 0 else 1
         | None => 0
         end
    else enabled in
  (negb (enabled =? 0), enabled).

(** The environment is read once: every call of a run gives the first answer, so that
    [direct_read] is one parameter of the device. *)
Lemma direct_read_once env env' :
  let '(b, enabled) := blkd_direct_read_enabled (-1) env in
  blkd_direct_read_enabled enabled env' = (b, enabled).
Proof.
  unfold blkd_direct_read_enabled. cbn.
  destruct (env _) as [v|]; [destruct (bool_decide _)|]; reflexivity.
Qed.

(** The other two switches: profiling is on unless the variable is "0", logging is off
    unless it is set to something else. *)
Definition cached_switch (enabled : Z) (fresh : bool) : bool * Z :=
  let enabled := if enabled <? 0 then (if fresh then 1 else 0) else enabled in
  (negb (enabled =? 0), enabled).

Definition blkd_profile_enabled (enabled : Z) (getenv : string -> option string) : bool * Z :=
  cached_switch enabled
    (match getenv "CHIPLETS_BLKD_PROFILE"%string with
     | Some value => negb (bool_decide (value = "0"%string))
     | None => true
     end).

Definition blkd_debug_enabled (enabled : Z) (getenv : string -> option string) : bool * Z :=
  cached_switch enabled
    (match getenv "CHIPLETS_BLKD_DEBUG"%string with
     | Some value => negb (bool_decide (value = "0"%string))
     | None => false
     end).

(** *** Profiling counters *)

(** [clock]: the answer of [clock_gettime], seconds and nanoseconds. *)
Definition monotonic_ns (clock : option (Z * Z)) : Z :=
  match clock with
  | None => 0
  | Some (sec, nsec) => u64 (u64 (u64 sec * 1000000000) + u64 nsec)
  end.

(** [counter] is the pointed-to value, [None] the null pointer. *)
Definition profile_add (counter : option Z) (start_ns : Z) (clock : option (Z * Z)) : option Z :=
  match counter with
  | None => None
  | Some c =>
      if start_ns =? 0 then Some c else
      let end_ns := monotonic_ns clock in
      if start_ns <=? end_ns then Some (u64 (c + (end_ns - start_ns))) else Some c
  end.

(** Measured intervals: the start time and the clock at the end. *)
Fixpoint profile_all (counter : option Z) (spans : list (Z * option (Z * Z))) : option Z :=
  match spans with
  | [] => counter
  | (start_ns, clock) :: spans => profile_all (profile_add counter start_ns clock) spans
  end.

(** The spans follow each other: none starts before time [t]. A span whose clock failed at
    the start (time 0) or at the end is allowed. *)
Fixpoint spans_from (t : Z) (spans : list (Z * option (Z * Z))) : Prop :=
  match spans with
  | [] => True
  | (start_ns, clock) :: spans =>
      (start_ns = 0 \/ t <= start_ns) /\
      spans_from (if start_ns =? 0 then t else Z.max t (monotonic_ns clock)) spans
  end.

Lemma monotonic_ns_range clock : in_width 64 (monotonic_ns clock).
Proof. destruct clock as [[sec nsec]|]; [apply u64_range | unfold in_width; cbn; lia]. Qed.

(** A counter never wraps and never exceeds the time that has passed: starting from [c] at
    time [t] it stays within [c + (now - t)]. *)
Lemma profile_bounded spans : forall c t,
  0 <= c <= t -> t < 2 ^ 64 -> spans_from t spans ->
  exists c' t', profile_all (Some c) spans = Some c' /\ c <= c' /\ c' - c <= t' - t /\
    t <= t' < 2 ^ 64.
Proof.
  induction spans as [|[start clock] spans IH]; intros c t Hc Ht Hs.
  { exists c, t. split; [reflexivity | lia]. }
  cbn in Hs. destruct Hs as [H1 Hs]. pose proof (monotonic_ns_range clock) as Hr.
  unfold in_width in Hr. cbn [profile_all profile_add].
  destruct (Z.eqb_spec start 0) as [->|Hne].
  { exact (IH c t Hc Ht Hs). }
  destruct H1 as [H1|H1]; [contradiction|].
  destruct (Z.leb_spec start (monotonic_ns clock)) as [Hle|Hlt].
  - rewrite u64_small by (unfold in_width; lia).
    destruct (IH (c + (monotonic_ns clock - start)) (Z.max t (monotonic_ns clock)))
      as (c' & t' & E & ? & ? & ?); [lia | lia | exact Hs|].
    exists c', t'. split; [exact E|]. lia.
  - destruct (IH c (Z.max t (monotonic_ns clock))) as (c' & t' & E & ? & ? & ?);
      [lia | lia | exact Hs|].
    exists c', t'. split; [exact E|]. lia.
Qed.

(** What the host answers while a daemon starts: [strdup], [open] of a path and
    [fstat] of the opened file. *)
Record startup : Type := {
  st_copied : bool;
  st_open : string -> Z;
  st_fstat : option Z;
}.

Section mains.
Context {F : Type} `{Fabric F}.

(** [main]: the exit status and the descriptors closed on the way. [direct_read],
    [requests] and [fuel] are the parameters of the device operations. *)
Definition blkd_main (direct_read : bool) (requests fuel : nat) (h : startup)
    (run : fabric F blkd -> M (F * blkd) bool) (argv : list string)
  : M (F * blkd) (Z * list Z) :=
  match argv with
  | [_; arg] =>
      match parse_config_arg (st_copied h) arg with
      | None => ret (1, [])
      | Some cfg =>
          let '(opened, backend, closed) :=
            blkd_block_open {| be_fd := 0; be_image_len := 0; be_readonly := false |}
              (st_open h (bc_image cfg)) (st_fstat h) (bc_readonly cfg) in
          if negb opened then ret (1, closed) else
          let bus := fabric_init {| fb_devices := []; fb_device_count := 0 |} in
          (modify (fun s => (fst s, on_vdev (fun v => set_opaque
             {| bd_backend := backend;
                bd_capacity_sectors := bd_capacity_sectors (v_opaque v);
                bd_io_buf := bd_io_buf (v_opaque v);
                bd_io_buf_size := bd_io_buf_size (v_opaque v) |} v) (snd s))));;
          let '(registered, bus) :=
            fabric_register bus
              (blkd_fabric_init_device direct_read requests fuel (bc_socket cfg)) in
          ok ← (if registered then run bus else ret false);
          ret (if ok then 0 else 1, snd (blkd_block_close backend))
      end
  | _ => ret (2, [])
  end.

Definition cond_main (requests fuel : nat) (h : startup)
    (run : fabric F cond -> M (F * cond) bool) (argv : list string)
  : M (F * cond) (Z * list Z) :=
  match argv with
  | [_; arg] =>
      match cond_parse_config_arg (st_copied h) arg with
      | None => ret (1, [])
      | Some cfg =>
          let '(opened, backend) :=
            cond_console_open (Some (cc_output cfg)) (st_open h (cc_output cfg)) in
          if negb opened then ret (1, []) else
          let bus := fabric_init {| fb_devices := []; fb_device_count := 0 |} in
          (modify (fun s => (fst s,
             on_cond_vdev (set_opaque {| cd_backend := backend |}) (snd s))));;
          let '(registered, bus) :=
            fabric_register bus (cond_fabric_init_device requests fuel (cc_socket cfg)) in
          ok ← (if registered then run bus else ret false);
          ret (if ok then 0 else 1, snd (cond_console_close backend))
      end
  | _ => ret (2, [])
  end.
End mains.

(** ** Fields and their text *)

Definition assign (key value : string) : string := key +:+ "=" +:+ value.

Lemma strchr_assign key value : char_free "=" key = true ->
  strchr "=" (assign key value) = Some (key, value).
Proof. apply (strchr_found "=" key value). Qed.

Lemma token_assign key value : token_ok "," key = true -> char_free "," value = true ->
  token_ok "," (assign key value) = true.
Proof.
  unfold token_ok, assign. intros [Hk Hn]%andb_prop Hv. rewrite !char_free_app, Hk, Hv.
  destruct key; [now rewrite bool_decide_true in Hn | reflexivity].
Qed.

(** The value of a field is part of its text. *)
Lemma field_value part key value : char_free "," part = true ->
  strchr "=" part = Some (key, value) -> char_free "," value = true.
Proof.
  intros Hp E. pose proof (strchr_spec "=" part) as Hs. rewrite E in Hs.
  destruct Hs as [-> _]. change (String "=" value) with ("=" +:+ value) in Hp.
  rewrite !char_free_app in Hp. now apply andb_prop in Hp as [_ [_ Hv]%andb_prop].
Qed.

Lemma copy_value_fits value n v : copy_value value n = Some v -> v = value /\ strlen v < n.
Proof.
  unfold copy_value. destruct (n <=? strlen value) eqn:E; [easy|]. intros [= <-].
  split; [reflexivity | lia].
Qed.

(** An invariant of the configuration kept by every field. *)
Lemma each_field_keeps {C} (field : C -> string -> option C) (Inv : C -> Prop) parts cfg cfg' :
  (forall c part c', token_ok "," part = true -> Inv c -> field c part = Some c' -> Inv c') ->
  Forall (fun t => token_ok "," t = true) parts -> Inv cfg ->
  each_field field parts cfg = Some cfg' -> Inv cfg'.
Proof.
  intros Hf Hp. revert cfg. induction Hp as [|part parts Ht _ IH]; intros cfg Hc; cbn.
  { now intros [= <-]. }
  destruct (field cfg part) as [c|] eqn:E; [|easy]. apply IH. eauto.
Qed.

(** ** What the launcher passes

    [key_value_arg] and [build_backend_commands] of [scripts/chiplets-launcher.py]: the
    values in the order of the dictionary. [readonly] is [None] when the device's table
    does not set it; a raised [ValueError] is [None]. *)

Inductive py_value : Type := PyStr (s : string) | PyBool (b : bool).

Definition py_str (value : py_value) : string :=
  match value with
  | PyBool b => if b then "true" else "false"
  | PyStr s => s
  end.

Definition key_value_part (kv : string * py_value) : option string :=
  let '(key, value) := kv in
  if negb (char_free "," (py_str value)) || negb (char_free "=" (py_str value)) then None
  else Some (assign key (py_str value)).

Definition key_value_arg (values : list (string * py_value)) : option string :=
  join "," <$> mapM key_value_part values.

(** [resolve] has already made the paths absolute. *)
Record backend_common : Type := {
  co_name : string;
  co_socket : string;
  co_ram_access : string;
}.

Definition common (c : backend_common) : list (string * py_value) :=
  [("name", PyStr (co_name c)); ("socket", PyStr (co_socket c));
   ("ram_access", PyStr (co_ram_access c))].

Definition virtio_blk_arg (c : backend_common) (image : string) (readonly : option bool)
  : option string :=
  key_value_arg (common c ++ [("image", PyStr image)] ++
    match readonly with Some b => [("readonly", PyBool b)] | None => [] end).

Definition virtio_console_arg (c : backend_common) (output : option string) : option string :=
  key_value_arg (common c ++
    match output with Some path => [("output", PyStr path)] | None => [] end).

(** A value the launcher accepts. *)
Definition plain (value : string) : bool := char_free "," value && char_free "=" value.

Lemma key_value_part_plain key value :
  key_value_part (key, value) =
  if plain (py_str value) then Some (assign key (py_str value)) else None.
Proof. cbn. unfold plain. now destruct (char_free "," _), (char_free "=" _). Qed.

(** An argument is produced when every value is plain, and the daemon splits it into the
    fields it was joined from. *)
Lemma key_value_arg_tokens values arg :
  Forall (fun kv => token_ok "," (fst kv) = true) values -> key_value_arg values = Some arg ->
  tokens "," arg = map (fun kv => assign (fst kv) (py_str (snd kv))) values.
Proof.
  intros Hk (parts & Ep & ->)%fmap_Some.
  assert (Forall (fun t => token_ok "," t = true) parts /\
    parts = map (fun kv => assign (fst kv) (py_str (snd kv))) values) as [Ht <-].
  { revert parts Ep. induction Hk as [|[key value] values Hkey _ IH]; intros parts Ep.
    { now injection Ep as <-. }
    apply mapM_Some in Ep. apply Forall2_cons_inv_l in Ep as (part & rest & E1 & E2 & ->).
    rewrite key_value_part_plain in E1. unfold plain in E1.
    destruct (char_free "," _) eqn:Ec; [|easy]. destruct (char_free "=" _); [|easy].
    injection E1 as <-. apply mapM_Some in E2. destruct (IH rest E2) as [Ht ->].
    split; [constructor; [now apply token_assign | exact Ht] | reflexivity]. }
  now apply tokens_join.
Qed.

Lemma key_value_arg_refused values :
  key_value_arg values = None <-> Exists (fun kv => plain (py_str (snd kv)) = false) values.
Proof.
  unfold key_value_arg. rewrite fmap_None, mapM_None.
  split; intros H; apply (Exists_impl _ _ _ H); intros [key value];
    rewrite key_value_part_plain; cbn [snd]; now destruct (plain _).
Qed.

(** ** The block daemon's argument *)

(** What the fixed-size buffers can hold. *)
Record blkd_config_fits (c : blkd_config) : Prop := {
  bf_image : char_free "," (bc_image c) = true /\ strlen (bc_image c) < 4096;
  bf_socket : char_free "," (bc_socket c) = true /\ strlen (bc_socket c) < 4096;
  bf_ram : char_free "," (bc_ram_access c) = true /\ strlen (bc_ram_access c) < 128;
}.

Definition blkd_config_ok (c : blkd_config) : Prop :=
  blkd_config_fits c /\ bc_image c <> "" /\ bc_socket c <> "".

Lemma blkd_field_fits c part c' : token_ok "," part = true -> blkd_config_fits c ->
  blkd_field c part = Some c' -> blkd_config_fits c'.
Proof.
  intros [Hp _]%andb_prop [] E. unfold blkd_field in E.
  destruct (strchr "=" part) as [[key value]|] eqn:Es; [|easy].
  pose proof (field_value part key value Hp Es) as Hv.
  repeat case_bool_decide; try (injection E as <-; now split); try discriminate E;
    apply fmap_Some in E as (v & Ev & ->);
    try (apply copy_value_fits in Ev as [-> Hl]); now split.
Qed.

(** A key compared with the known ones. *)
Ltac known_keys :=
  repeat first [rewrite bool_decide_true by reflexivity | rewrite bool_decide_false by discriminate].

(** What each well-formed field does. *)
Lemma blkd_field_cases c v :
  blkd_field c (assign "name" v) = Some c /\
  blkd_field c (assign "socket" v) =
    (if strlen v <? 4096 then Some (set_bc_socket v c) else None) /\
  blkd_field c (assign "image" v) =
    (if strlen v <? 4096 then Some (set_bc_image v c) else None) /\
  blkd_field c (assign "ram_access" v) =
    (if strlen v <? 128 then Some (set_bc_ram_access v c) else None) /\
  (forall b : bool, blkd_field c (assign "readonly" (if b then "true" else "false"))
     = Some (set_bc_readonly b c)).
Proof.
  unfold blkd_field, copy_value. split; [|split; [|split; [|split; [|intros b]]]];
    rewrite strchr_assign by reflexivity; known_keys; try rewrite Z.ltb_antisym;
    [reflexivity | now destruct (_ <=? _) .. | now destruct b].
Qed.

(** The configuration the launcher describes, and whether the daemon has room for it. *)
Definition described (c : backend_common) (image : string) (readonly : option bool)
  : blkd_config :=
  {| bc_image := image; bc_socket := co_socket c; bc_ram_access := co_ram_access c;
     bc_readonly := default false readonly |}.

Definition has_room (c : blkd_config) : bool :=
  (strlen (bc_socket c) <? 4096) && (strlen (bc_ram_access c) <? 128) &&
  (strlen (bc_image c) <? 4096).

(** The daemon's reading of the fields of the launcher. *)
Lemma blkd_fields_parsed c image readonly :
  match each_field blkd_field
    (map (fun kv => assign (fst kv) (py_str (snd kv)))
       (common c ++ [("image", PyStr image)] ++
        match readonly with Some b => [("readonly", PyBool b)] | None => [] end))
    blkd_defaults with
  | None => None
  | Some cfg => if bool_decide (bc_image cfg = "") || bool_decide (bc_socket cfg = "")
                then None else Some cfg
  end =
  if has_room (described c image readonly) && bool_decide (image <> "" /\ co_socket c <> "")
  then Some (described c image readonly) else None.
Proof.
  unfold has_room, described, common. cbn [bc_socket bc_ram_access bc_image].
  cbn [app map fst snd py_str each_field].
  rewrite (proj1 (blkd_field_cases _ _)), (proj1 (proj2 (blkd_field_cases _ _))).
  destruct (strlen (co_socket c) <? 4096); [|reflexivity].
  rewrite (proj1 (proj2 (proj2 (proj2 (blkd_field_cases _ _))))).
  destruct (strlen (co_ram_access c) <? 128); [|reflexivity].
  rewrite (proj1 (proj2 (proj2 (blkd_field_cases _ _)))).
  destruct (strlen image <? 4096); [|reflexivity].
  destruct readonly as [b|]; cbn [map fst snd py_str each_field];
    [rewrite (proj2 (proj2 (proj2 (proj2 (blkd_field_cases _ "")))) b)|];
    cbn; repeat case_bool_decide; (reflexivity || tauto).
Qed.

(** C30: the block daemon's command line. The launcher refuses a block device exactly
    when its name, its socket or image path or the RAM access mode contains a comma or
    an equals sign; otherwise the daemon recovers from the string the launcher passes
    exactly the configured socket, image and RAM access mode, and the read-only flag,
    false when it is not configured, and rejects it exactly when the image or socket path
    is empty or a string does not fit its buffer. And whatever the argument, an accepted
    configuration has a non-empty image and socket path, and strings that fit
    their buffers with a terminating null. *)
Theorem blkd_config_roundtrip c image readonly :
  (virtio_blk_arg c image readonly = None <->
     plain (co_name c) && plain (co_socket c) && plain (co_ram_access c) && plain image
     = false) /\
  (forall arg, virtio_blk_arg c image readonly = Some arg ->
     parse_config_arg true arg =
       if has_room (described c image readonly) &&
          bool_decide (image <> "" /\ co_socket c <> "")
       then Some (described c image readonly) else None) /\
  (forall copied arg c', parse_config_arg copied arg = Some c' -> blkd_config_ok c').
Proof.
  split; [|split].
  - unfold virtio_blk_arg. rewrite key_value_arg_refused. unfold common.
    destruct readonly as [[]|]; cbn [app]; rewrite !Exists_cons, Exists_nil; cbn [snd py_str];
      rewrite !andb_false_iff; cbn; intuition easy.
  - intros arg E. apply key_value_arg_tokens in E; [|now destruct readonly; repeat constructor].
    unfold parse_config_arg. rewrite E. apply blkd_fields_parsed.
  - intros copied arg c'. unfold parse_config_arg. destruct copied; [|easy]. cbn [negb].
    destruct (each_field _ _ _) as [c''|] eqn:E; [|easy].
    destruct (_ || _) eqn:Eb; [easy|]. intros [= <-].
    apply orb_false_iff in Eb as [H1%bool_decide_eq_false H2%bool_decide_eq_false].
    split; [|now split].
    refine (each_field_keeps blkd_field blkd_config_fits _ _ _ blkd_field_fits
      (tokens_free "," arg) _ E). now repeat split.
Qed.

Lemma blkd_config_roundtrip_witness :
  virtio_blk_arg {| co_name := "blk0"; co_socket := "/run/axi.sock";
    co_ram_access := "qemu-mediated" |} "/run/blk0.img" None
  = Some "name=blk0,socket=/run/axi.sock,ram_access=qemu-mediated,image=/run/blk0.img" /\
  parse_config_arg true
    "name=blk0,socket=/run/axi.sock,ram_access=qemu-mediated,image=/run/blk0.img"
  = Some {| bc_image := "/run/blk0.img"; bc_socket := "/run/axi.sock";
            bc_ram_access := "qemu-mediated"; bc_readonly := false |}.
Proof.
  split; [reflexivity|].
  apply (proj1 (proj2 (blkd_config_roundtrip
    {| co_name := "blk0"; co_socket := "/run/axi.sock"; co_ram_access := "qemu-mediated" |}
    "/run/blk0.img" None))). reflexivity.
Defined.

(** Refused arguments. *)
Example blkd_arg_refused :
  parse_config_arg true "image=a" = None /\ parse_config_arg true "image=a,socket=" = None /\
  parse_config_arg true "image=a,socket=b,readonly=yes" = None /\
  parse_config_arg true "image=a,socket=b,flag" = None /\
  parse_config_arg true "image=a,socket=b,size=3" = None /\
  parse_config_arg true ",image=a,,socket=b," =
    Some {| bc_image := "a"; bc_socket := "b"; bc_ram_access := "shared-mem";
            bc_readonly := false |}.
Proof. vm_compute. auto 6. Qed.

(** ** The console daemon's argument *)

Record cond_config_ok (c : cond_config) : Prop := {
  cf_socket : char_free "," (cc_socket c) = true /\ strlen (cc_socket c) < 4096;
  cf_output : char_free "," (cc_output c) = true /\ strlen (cc_output c) < 4096;
  cf_ram : char_free "," (cc_ram_access c) = true /\ strlen (cc_ram_access c) < 128;
}.

Lemma cond_copy_value_fits value n v :
  cond_copy_value value n = Some v -> v = value /\ strlen v < n.
Proof. exact (copy_value_fits value n v). Qed.

Lemma cond_field_ok c part c' : token_ok "," part = true -> cond_config_ok c ->
  cond_field c part = Some c' -> cond_config_ok c'.
Proof.
  intros [Hp _]%andb_prop [] E. unfold cond_field in E.
  destruct (strchr "=" part) as [[key value]|] eqn:Es; [|easy].
  pose proof (field_value part key value Hp Es) as Hv.
  repeat case_bool_decide; try (injection E as <-; now split); try discriminate E;
    apply fmap_Some in E as (v & Ev & ->);
    apply cond_copy_value_fits in Ev as [-> Hl]; now split.
Qed.

(** An accepted console configuration has a socket path and fits its buffers. *)
Theorem cond_config_accepted copied arg c : cond_parse_config_arg copied arg = Some c ->
  cond_config_ok c /\ cc_socket c <> "".
Proof.
  unfold cond_parse_config_arg. destruct copied; [|easy]. cbn [negb].
  destruct (each_field _ _ _) as [c'|] eqn:E; [|easy].
  case_bool_decide as Hs; [easy|]. intros [= <-]. split; [|assumption].
  refine (each_field_keeps cond_field cond_config_ok _ _ _ cond_field_ok
    (tokens_free "," arg) _ E). now repeat split.
Qed.

Lemma cond_field_cases c v :
  cond_field c (assign "name" v) = Some c /\
  cond_field c (assign "socket" v) = (if strlen v <? 4096 then
    Some {| cc_socket := v; cc_ram_access := cc_ram_access c; cc_output := cc_output c |}
    else None) /\
  cond_field c (assign "output" v) = (if strlen v <? 4096 then
    Some {| cc_socket := cc_socket c; cc_ram_access := cc_ram_access c; cc_output := v |}
    else None) /\
  cond_field c (assign "ram_access" v) = (if strlen v <? 128 then
    Some {| cc_socket := cc_socket c; cc_ram_access := v; cc_output := cc_output c |}
    else None).
Proof.
  unfold cond_field, cond_copy_value. split; [|split; [|split]];
    rewrite strchr_assign by reflexivity; known_keys; try rewrite Z.ltb_antisym;
    [reflexivity | now destruct (_ <=? _) ..].
Qed.

(** The console daemon recovers what the launcher describes, with standard output as the
    default, when it fits. *)
Theorem cond_config_roundtrip c output arg :
  virtio_console_arg c output = Some arg ->
  cond_parse_config_arg true arg =
    if (strlen (co_socket c) <? 4096) && (strlen (co_ram_access c) <? 128) &&
       (strlen (default "-" output) <? 4096) && bool_decide (co_socket c <> "")
    then Some {| cc_socket := co_socket c; cc_ram_access := co_ram_access c;
                 cc_output := default "-" output |}
    else None.
Proof.
  intros E. apply key_value_arg_tokens in E; [|now destruct output; repeat constructor].
  unfold cond_parse_config_arg. rewrite E. unfold common.
  cbn [negb app map fst snd py_str each_field].
  rewrite (proj1 (cond_field_cases _ _)), (proj1 (proj2 (cond_field_cases _ _))).
  destruct (strlen (co_socket c) <? 4096); [|reflexivity].
  rewrite (proj2 (proj2 (proj2 (cond_field_cases _ _)))).
  destruct (strlen (co_ram_access c) <? 128); [|reflexivity].
  destruct output as [v|]; cbn [map fst snd py_str each_field default].
  - rewrite (proj1 (proj2 (proj2 (cond_field_cases _ _)))). unfold id.
    destruct (strlen v <? 4096); [|reflexivity].
    cbn. repeat case_bool_decide; (reflexivity || tauto).
  - cbn. repeat case_bool_decide; (reflexivity || tauto).
Qed.

Example cond_arg_cases :
  cond_parse_config_arg true "name=c0,socket=/tmp/c.sock" =
    Some {| cc_socket := "/tmp/c.sock"; cc_ram_access := "shared-mem"; cc_output := "-" |} /\
  cond_parse_config_arg true "socket=s,output=/tmp/o=1" =
    Some {| cc_socket := "s"; cc_ram_access := "shared-mem"; cc_output := "/tmp/o=1" |} /\
  cond_parse_config_arg true "output=x" = None /\
  cond_parse_config_arg true "socket=s,image=x" = None.
Proof. vm_compute. auto. Qed.

(** ** Exit status *)

(** The bus [main] hands to [fabric_run]. *)
Definition single_bus {F D} (device : fabric_device F D) : fabric F D :=
  {| fb_devices := [device]; fb_device_count := 1 |}.

(** The daemon's state once its image is open. *)
Definition with_backend (backend : blkd_block_backend) (b : blkd) : blkd :=
  on_vdev (fun v => set_opaque
    {| bd_backend := backend; bd_capacity_sectors := bd_capacity_sectors (v_opaque v);
       bd_io_buf := bd_io_buf (v_opaque v); bd_io_buf_size := bd_io_buf_size (v_opaque v) |} v) b.

(** Exit status and descriptors of the block daemon. A wrong argument count
    exits with 2 and a malformed argument with 1 before anything is opened; an image
    that cannot be opened or examined exits with 1 and leaves nothing open;
    otherwise the fabric runs with exactly this device registered under the
    configured socket, the exit status is 0 exactly when it reports success, and
    the image is closed exactly once in either case. *)
Theorem blkd_main_outcome {F} `{Fabric F} direct_read requests fuel h run argv s :
  let main := blkd_main (F := F) direct_read requests fuel h run argv s in
  (length argv <> 2%nat -> main = Done ((2, []), s)) /\
  (forall prog arg, argv = [prog; arg] ->
     match parse_config_arg (st_copied h) arg with
     | None => main = Done ((1, []), s)
     | Some cfg =>
         let fd := st_open h (bc_image cfg) in
         (fd < 0 -> main = Done ((1, []), s)) /\
         (0 <= fd -> st_fstat h = None -> main = Done ((1, [fd]), s)) /\
         (forall size, 0 <= fd -> st_fstat h = Some size ->
            let backend := {| be_fd := fd; be_image_len := u64 size;
                              be_readonly := bc_readonly cfg |} in
            let device := blkd_fabric_init_device direct_read requests fuel (bc_socket cfg) in
            main = match run (single_bus device) (fst s, with_backend backend (snd s)) with
                   | Done (ok, s') => Done ((if ok then 0 else 1, [fd]), s')
                   | UB => UB
                   | NoFuel => NoFuel
                   end)
     end).
Proof.
  intros main. subst main. split.
  { intros Hl. destruct argv as [|p [|a [|x argv]]]; easy. }
  intros prog arg ->. unfold blkd_main.
  destruct (parse_config_arg (st_copied h) arg) as [cfg|]; [|reflexivity].
  cbv zeta. unfold blkd_block_open. set (fd := st_open h (bc_image cfg)).
  split; [|split].
  - intros Hfd. now rewrite (proj2 (Z.ltb_lt fd 0)).
  - intros Hfd ->. now rewrite (proj2 (Z.ltb_ge fd 0)).
  - intros size Hfd ->. rewrite (proj2 (Z.ltb_ge fd 0)) by assumption. cbn [negb].
    unfold bind at 1, modify. cbv zeta. unfold fabric_register, single_bus.
    cbn -[blkd_block_close on_vdev with_backend].
    unfold blkd_block_close. cbn [be_fd]. rewrite (proj2 (Z.leb_le 0 fd)) by assumption.
    change (u32 (0 + 1)) with 1. unfold bind. fold (with_backend {| be_fd := fd;
      be_image_len := u64 size; be_readonly := bc_readonly cfg |} (snd s)).
    now destruct (run _ _) as [[[] s']| |].
Qed.
