(* ===== verification/UioRun.v ===== *)
(** * Running the UIO fabric

    [fabric_run] of [src/fabrics/linux_uio.c] from the endpoint string to the event
    loop: the set-up establishes what the data path and the mirror rely on, and
    every failure releases what was acquired. *)

From S2P Require Import Prelude Endian Fabric Virtio VirtioMmio QueueService CStrings.
From S2P Require Import LinuxUio UioMirror Endpoints.

#[local] Open Scope Z_scope.
#[local] Open Scope c_scope.

Definition set_uio_open (fd : Z) (config : uio_config) (s : uio_state) : uio_state :=
  {| us_fd := fd; us_config := config; us_mmio := us_mmio s; us_dma := us_dma s;
     us_pending_irq_level := us_pending_irq_level s; us_alloc := us_alloc s;
     us_guest := us_guest s |}.

(** Opening the device and mapping both resources. *)
Definition uio_open (h : uio_host) (size : Z) (config : uio_config) : M uio_state bool :=
  let fd := uh_open h (uc_path config) in
  (modify (set_uio_open fd config));;
  if fd <? 0 then ret false else
  match map_resource h config 0 with
  | None => (modify cleanup_uio);; ret false
  | Some mmio =>
      (modify (set_mmio mmio));;
      match map_resource h config 1 with
      | None => (modify cleanup_uio);; ret false
      | Some dma =>
          (modify (set_dma dma));;
          if um_size mmio <? size then (modify cleanup_uio);; ret false else ret true
      end
  end.

(** [rounds] bounds the event loop, [ev] are the results of its waits. *)
Definition uio_run {D} (h : uio_host) (rounds : nat) (ev : list wait_event)
    (bus : fabric uio_state D) : M (uio_state * D) bool :=
  if negb (fb_device_count bus =? 1) then ret false else
  match fb_devices bus with
  | [] => undefined
  | dev :: _ =>
      match uio_parse_endpoint (Some (fd_socket_path dev)) with
      | None => ret false
      | Some config =>
          check liftF (uio_open h (fd_size dev) config);
          shadow ← uio_start dev;
          uio_loop dev rounds ev shadow
      end
  end.

(** Nothing is open or mapped. *)
Definition released (s : uio_state) : Prop :=
  us_fd s < 0 /\ um_addr (us_mmio s) = None /\ um_addr (us_dma s) = None.

Lemma cleanup_released s : released (cleanup_uio s).
Proof.
  unfold released, cleanup_uio, cleanup_mapping. cbn.
  split; [destruct (0 <=? us_fd s) eqn:E; lia|].
  split; [now destruct (um_addr (us_mmio s)) eqn:E | now destruct (um_addr (us_dma s)) eqn:E].
Qed.

(** ** Claims *)

(** C29: the set-up of the UIO fabric. On a host whose [mmap] returns windows of the
    requested length, opening the endpoint either fails, with the device closed and
    nothing mapped, or succeeds with both windows mapped at their recorded 64-bit
    sizes, the register window at least as large as the device, and the parsed
    configuration in place: exactly what the safety of the data path and of the
    mirror assumes. *)
Theorem uio_open_sound h endpoint size config s :
  host_ok h -> uio_parse_endpoint endpoint = Some config -> released s ->
  exists ok s', uio_open h size config s = Done (ok, s') /\
    if ok then uio_ok s' /\ size <= um_size (us_mmio s') /\ 0 <= us_fd s' /\
               us_config s' = config
    else released s'.
Proof.
  intros Hh Hc (Hfd & Hm & Hd). pose proof (uio_parse_endpoint_ok _ _ Hc) as [_ _ _ Hb].
  unfold uio_open. set (fd := uh_open h (uc_path config)).
  rewrite (bind_done _ _ _ tt (set_uio_open fd config s)) by reflexivity.
  destruct (fd <? 0) eqn:Ef.
  { eexists false, _. split; [reflexivity|]. split; [cbn; lia | now split]. }
  destruct (map_resource h config 0) as [mmio|] eqn:E0.
  2:{ eexists false, _. split; [reflexivity | apply cleanup_released]. }
  rewrite (bind_done _ _ _ tt (set_mmio mmio (set_uio_open fd config s))) by reflexivity.
  destruct (map_resource h config 1) as [dma|] eqn:E1.
  2:{ eexists false, _. split; [reflexivity | apply cleanup_released]. }
  rewrite (bind_done _ _ _ tt (set_dma dma (set_mmio mmio (set_uio_open fd config s))))
    by reflexivity.
  destruct (um_size mmio <? size) eqn:Es.
  { eexists false, _. split; [reflexivity | apply cleanup_released]. }
  eexists true, _. split; [reflexivity|]. cbn.
  destruct (map_resource_ok h config 0 mmio Hh E0) as [_ Hmm].
  destruct (map_resource_ok h config 1 dma Hh E1) as [Hs1 Hdm].
  split; [now split | split; [lia | split; [lia | reflexivity]]].
Qed.

(** A host whose UIO device lists its two maps. *)
Definition uio_sysfs : uio_host :=
  {| uh_page_size := 4096;
     uh_file := fun path =>
       if bool_decide (path = "/sys/class/uio/uio3/maps/map0/size") then
         Some ("0x400" +:+ String "010" "")
       else if bool_decide (path = "/sys/class/uio/uio3/maps/map1/size") then
         Some ("0x800" +:+ String "010" "")
       else None;
     uh_open := fun _ => 5;
     uh_mmap := fun _ _ size =>
       if (0 <=? size) && (size <=? 4096) then Some (replicate (Z.to_nat size) 0) else None |}.

Lemma uio_open_sound_witness :
  let config := {| uc_path := "/dev/uio3"; uc_irq_control_offset := 0x200;
                   uc_dma_base := 0x1000 |} in
  exists s', uio_open uio_sysfs 0x200 config (cleanup_uio (uio_over 0 [] [])) = Done (true, s') /\
    uio_ok s' /\ um_size (us_dma s') = 0x800.
Proof.
  intros config.
  destruct (uio_open_sound uio_sysfs (Some "uio:/dev/uio3:0x200:0x1000") 0x200 config
    (cleanup_uio (uio_over 0 [] []))) as (ok & s' & E & H).
  - intros path r size w. cbn. destruct (_ && _) eqn:Es; [|easy]. intros [= <-].
    unfold zlen. rewrite length_replicate. split; [lia|].
    apply Forall_replicate. unfold is_byte. lia.
  - vm_compute. reflexivity.
  - apply cleanup_released.
  - assert (ok = true) as -> by (vm_compute in E; congruence).
    exists s'. split; [exact E|]. split; [apply H|]. vm_compute in E.
    injection E as <-. reflexivity.
Defined.
