(* ===== verification/AxiProbe.v ===== *)
(** * Binding the kernel driver to a device

    [axi_mmio_probe] and [axi_mmio_copy_resources] of [src/kernel/axi_mmio.c] with the
    managed resources of the driver core: releases are recorded while the probe runs
    and executed in reverse order when it fails or the device is unbound. The probe
    publishes a child [virtio-mmio] device whose DMA goes through the pool of its
    parent, so the child may only live while the pool is held. *)

From Stdlib Require Import String.
From S2P Require Import Prelude CStrings ChipletsUio AxiPool AxiRegistry.

#[local] Open Scope Z_scope.
#[local] Open Scope c_scope.

(** ** State *)

Inductive child_resource : Type :=
| ResMem (r : resource)
| ResIrq (irq : Z).

(** The [virtio-mmio] platform device; [ch_added]: it is registered, so that a driver
    may be bound to it and use its DMA operations. *)
Record child : Type := {
  ch_resources : list child_resource;
  ch_dma_mask : Z;
  ch_dma_ops : bool;  (* set to axi_mmio_dma_ops *)
  ch_added : bool;
}.

(** A managed release: [axi_mmio_pool_release] or [axi_mmio_unregister_child]. *)
Inductive devres : Type :=
| PoolRelease (pool : nat)
| UnregisterChild.

(** The registry of pools, the address of the next pool, and of the device: the pool
    in its driver data, its child and its managed releases, the latest first. *)
Record axi_kernel : Type := {
  ak_pools : list pool_ref;
  ak_next : nat;
  ak_drvdata : option nat;
  ak_child : option child;
  ak_devres : list devres;
}.

(** Results of the calls into the kernel, one per call site of the probe. *)
Record probe_calls : Type := {
  pc_alloc_axi : bool;
  pc_build_pool : bool;
  pc_action_pool : Z;
  pc_irq : Z;
  pc_alloc_resources : bool;
  pc_alloc_child : bool;
  pc_add_resources : Z;
  pc_add_child : Z;
  pc_action_child : Z;
}.

Definition set_pools (l : list pool_ref) (s : axi_kernel) : axi_kernel :=
  {| ak_pools := l; ak_next := ak_next s; ak_drvdata := ak_drvdata s;
     ak_child := ak_child s; ak_devres := ak_devres s |}.
Definition set_drvdata (d : option nat) (s : axi_kernel) : axi_kernel :=
  {| ak_pools := ak_pools s; ak_next := ak_next s; ak_drvdata := d;
     ak_child := ak_child s; ak_devres := ak_devres s |}.
Definition set_child (c : option child) (s : axi_kernel) : axi_kernel :=
  {| ak_pools := ak_pools s; ak_next := ak_next s; ak_drvdata := ak_drvdata s;
     ak_child := c; ak_devres := ak_devres s |}.
Definition set_devres (l : list devres) (s : axi_kernel) : axi_kernel :=
  {| ak_pools := ak_pools s; ak_next := ak_next s; ak_drvdata := ak_drvdata s;
     ak_child := ak_child s; ak_devres := l |}.

(** ** Managed releases *)

Definition run_release (r : devres) (s : axi_kernel) : axi_kernel :=
  match r with
  | PoolRelease id => set_pools (axi_mmio_pool_put id (ak_pools s)) s
  | UnregisterChild => set_child None s
  end.

(** [devm_add_action_or_reset]: when the release cannot be recorded it runs at once. *)
Definition devm_add_action_or_reset (r : devres) (result : Z) : M axi_kernel Z :=
  if result =? 0
  then (modify (fun s => set_devres (r :: ak_devres s) s));; ret 0
  else (modify (run_release r));; ret result.

(** One step of the driver core releasing the device: the latest release runs, and
    after the last one the driver data is forgotten. *)
Definition release_next (s : axi_kernel) : axi_kernel :=
  match ak_devres s with
  | r :: l => set_devres l (run_release r s)
  | [] => set_drvdata None s
  end.

(** [devres_release_all] and the clearing of the driver data. *)
Definition release_all (s : axi_kernel) : axi_kernel :=
  Nat.iter (S (length (ak_devres s))) release_next s.

(** ** The probe *)

(** A pool for the aperture, at a fresh address when it has to be built. *)
Definition probe_pool_get (built : bool) (base size : Z) : M axi_kernel (option nat) := fun s =>
  let '(pool, pools) := axi_mmio_pool_get (ak_next s) built base size (ak_pools s) in
  Done (pool, {| ak_pools := pools; ak_next := S (ak_next s); ak_drvdata := ak_drvdata s;
                 ak_child := ak_child s; ak_devres := ak_devres s |}).

(** The number of resources and the resources, or a negative error. *)
Definition axi_mmio_copy_resources (calls : probe_calls) (pdev : platform_device)
  : Z * list child_resource :=
  match pl_mem pdev !! 0%nat with
  | None => (- EINVAL, [])
  | Some mmio =>
      if pc_irq calls <? 0 then (pc_irq calls, []) else
      if negb (pc_alloc_resources calls) then (- ENOMEM, [])
      else (2, [ResMem mmio; ResIrq (pc_irq calls)])
  end.

(** The child between [platform_device_alloc] and [platform_device_add_resources]. *)
Definition new_child : child :=
  {| ch_resources := []; ch_dma_mask := 2 ^ 64 - 1; ch_dma_ops := true; ch_added := false |}.

Definition with_resources (l : list child_resource) (c : child) : child :=
  {| ch_resources := l; ch_dma_mask := ch_dma_mask c; ch_dma_ops := ch_dma_ops c;
     ch_added := ch_added c |}.

Definition added (c : child) : child :=
  {| ch_resources := ch_resources c; ch_dma_mask := ch_dma_mask c;
     ch_dma_ops := ch_dma_ops c; ch_added := true |}.

(** The creation of the child, from its allocation on. *)
Definition publish_child (calls : probe_calls) (resources : list child_resource)
  : M axi_kernel Z :=
  if negb (pc_alloc_child calls) then ret (- ENOMEM) else
  (modify (set_child (Some new_child)));;
  if negb (pc_add_resources calls =? 0)
  then (modify (set_child None));; ret (pc_add_resources calls) else
  (modify (set_child (Some (with_resources resources new_child))));;
  if negb (pc_add_child calls =? 0)
  then (modify (set_child None));; ret (pc_add_child calls) else
  (modify (set_child (Some (added (with_resources resources new_child)))));;
  devm_add_action_or_reset UnregisterChild (pc_action_child calls).

Definition axi_mmio_probe (calls : probe_calls) (pdev : platform_device) : M axi_kernel Z :=
  match pl_mem pdev !! 1%nat with
  | None => ret (- EINVAL)
  | Some dma =>
      if negb (pc_alloc_axi calls) then ret (- ENOMEM) else
      let dma_base := rs_start dma in
      let dma_size := resource_size dma in
      if negb (aperture_valid dma_base dma_size) then ret (- EINVAL) else
      pool ← probe_pool_get (pc_build_pool calls) dma_base dma_size;
      match pool with
      | None => ret (- ENOMEM)
      | Some id =>
          r ← devm_add_action_or_reset (PoolRelease id) (pc_action_pool calls);
          if negb (r =? 0) then ret r else
          (modify (set_drvdata (Some id)));;
          let '(num, resources) := axi_mmio_copy_resources calls pdev in
          if num <? 0 then ret num else publish_child calls resources
      end
  end.

(** The driver core around the probe: a failed probe is followed by the releases. *)
Definition axi_bind (calls : probe_calls) (pdev : platform_device) : M axi_kernel Z :=
  r ← axi_mmio_probe calls pdev;
  if r =? 0 then ret r else (modify release_all);; ret r.

(** ** Specification *)

(** Nothing of the device is left. *)
Definition unbound (s : axi_kernel) : Prop :=
  ak_drvdata s = None /\ ak_child s = None /\ ak_devres s = [].

(** The device is bound: its child shows the registers and the interrupt of the device,
    and its pool is held with the aperture of the device. *)
Record bound (calls : probe_calls) (pdev : platform_device) (id : nat)
    (held : list (nat * (Z * Z))) (s : axi_kernel) : Prop := {
  bd_drvdata : ak_drvdata s = Some id;
  bd_devres : ak_devres s = [UnregisterChild; PoolRelease id];
  bd_child : exists mmio, pl_mem pdev !! 0%nat = Some mmio /\ 0 <= pc_irq calls /\
    ak_child s = Some {| ch_resources := [ResMem mmio; ResIrq (pc_irq calls)];
                         ch_dma_mask := 2 ^ 64 - 1; ch_dma_ops := true; ch_added := true |};
  bd_held : exists dma, pl_mem pdev !! 1%nat = Some dma /\
    aperture_valid (rs_start dma) (resource_size dma) = true /\
    (id, (rs_start dma, resource_size dma)) ∈ held;
  bd_pools : pools_ok held (ak_pools s);
}.

(** A registered child finds its pool: the driver data of its parent names a listed
    pool. *)
Definition child_safe (s : axi_kernel) : Prop :=
  match ak_child s with
  | Some c => ch_added c = true ->
      exists id p, ak_drvdata s = Some id /\ p ∈ ak_pools s /\ pr_id p = id
  | None => True
  end.

(** Kernel calls return 0 or a negative error code. *)
Definition calls_ok (calls : probe_calls) : Prop :=
  pc_action_pool calls <= 0 /\ pc_add_resources calls <= 0 /\ pc_add_child calls <= 0 /\
  pc_action_child calls <= 0.

(** ** The probe on every branch *)

Section probe.
Context (calls : probe_calls) (pdev : platform_device) (Hcalls : calls_ok calls).
Implicit Types s : axi_kernel.

Lemma add_action_spec r result s : result <= 0 ->
  (result = 0 /\ devm_add_action_or_reset r result s =
     Done (0, set_devres (r :: ak_devres s) s)) \/
  (result < 0 /\ devm_add_action_or_reset r result s = Done (result, run_release r s)).
Proof.
  intros Hr. unfold devm_add_action_or_reset. destruct (Z.eqb_spec result 0) as [->|Hn].
  - now left.
  - right. now split; [lia|].
Qed.

(** The child is published completely, with its release, or not at all. *)
Lemma publish_child_spec resources s : ak_child s = None ->
  (publish_child calls resources s =
     Done (0, set_devres (UnregisterChild :: ak_devres s)
                (set_child (Some (added (with_resources resources new_child))) s))) \/
  (exists r, r < 0 /\ publish_child calls resources s = Done (r, s)).
Proof.
  intros Hc. destruct Hcalls as (_ & Ha & Hd & Hu). unfold publish_child.
  assert (set_child None s = s) as Es by (destruct s; cbn in *; now subst).
  destruct (pc_alloc_child calls); cbn [negb]; [|right; exists (- ENOMEM); now split].
  destruct (Z.eqb_spec (pc_add_resources calls) 0); cbn [negb];
    [|right; exists (pc_add_resources calls); split; [lia|];
      change (Done (pc_add_resources calls, set_child None s)
              = Done (pc_add_resources calls, s)); now rewrite Es].
  destruct (Z.eqb_spec (pc_add_child calls) 0); cbn [negb];
    [|right; exists (pc_add_child calls); split; [lia|];
      change (Done (pc_add_child calls, set_child None s)
              = Done (pc_add_child calls, s)); now rewrite Es].
  set (s1 := set_child (Some (added (with_resources resources new_child))) s).
  destruct (add_action_spec UnregisterChild _ s1 Hu) as [[_ E]|[Hr E]].
  - left. exact E.
  - right. exists (pc_action_child calls). split; [assumption|].
    transitivity (devm_add_action_or_reset UnregisterChild (pc_action_child calls) s1);
      [reflexivity|]. rewrite E. cbn [run_release].
    change (set_child None s1) with (set_child None s). now rewrite Es.
Qed.

Lemma pool_get_ok id built base size held pools id' pools' :
  pools_ok held pools -> ~ id ∈ map pr_id pools ->
  axi_mmio_pool_get id built base size pools = (Some id', pools') ->
  pools_ok ((id', (base, size)) :: held) pools' /\ axi_mmio_pool_put id' pools' = pools.
Proof.
  intros Hok Hni E. pose proof (pool_get_put_roundtrip id built base size held pools Hok Hni) as Hrt.
  rewrite E in Hrt. split; [|assumption]. unfold axi_mmio_pool_get in E.
  destruct (pool_find_get base size pools) as [[i l]|] eqn:Ef.
  - injection E as <- <-. eapply find_get_ok; eassumption.
  - destruct built; [|discriminate E]. cbn [negb] in E.
    destruct (pool_publish id base size pools) as [i l] eqn:Ep. injection E as <- <-.
    exact (proj1 (pool_publish_ok _ _ _ _ _ _ _ Hok Hni Ep)).
Qed.

Lemma copy_resources_spec :
  match axi_mmio_copy_resources calls pdev with
  | (num, resources) => num < 0 \/
      exists mmio, num = 2 /\ pl_mem pdev !! 0%nat = Some mmio /\ 0 <= pc_irq calls /\
        resources = [ResMem mmio; ResIrq (pc_irq calls)]
  end.
Proof.
  unfold axi_mmio_copy_resources. destruct (pl_mem pdev !! 0%nat) as [mmio|]; [|now left].
  destruct (Z.ltb_spec (pc_irq calls) 0); [now left|].
  destruct (pc_alloc_resources calls); [|now left]. right. now exists mmio.
Qed.

(** A failed probe leaves only releases that undo it. *)
Definition undone (s s' : axi_kernel) : Prop :=
  unbound (release_all s') /\ ak_pools (release_all s') = ak_pools s.

Ltac solve_undone Hr :=
  unfold undone, release_all; cbn; rewrite Hr; cbn; unfold release_next, unbound; cbn;
  rewrite ?Hr; cbn; repeat match goal with |- _ /\ _ => split end.

Lemma unbound_undone s s' : unbound s -> s' = s -> undone s s'.
Proof.
  intros (Hd & Hc & Hr) ->. now solve_undone Hr.
Qed.

Lemma probe_spec s held :
  unbound s -> pools_ok held (ak_pools s) -> ~ ak_next s ∈ map pr_id (ak_pools s) ->
  exists r s', axi_mmio_probe calls pdev s = Done (r, s') /\
    ((r < 0 /\ undone s s') \/
     (r = 0 /\ exists id dma, pl_mem pdev !! 1%nat = Some dma /\
        bound calls pdev id ((id, (rs_start dma, resource_size dma)) :: held) s')).
Proof.
  intros Hu Hok Hni. pose proof Hu as (Hd & Hc & Hr). unfold axi_mmio_probe.
  destruct (pl_mem pdev !! 1%nat) as [dma|] eqn:Edma;
    [|exists (- EINVAL), s; split; [reflexivity|]; left; split; [easy | now apply unbound_undone]].
  destruct (pc_alloc_axi calls); cbn [negb];
    [|exists (- ENOMEM), s; split; [reflexivity|]; left; split; [easy | now apply unbound_undone]].
  destruct (aperture_valid (rs_start dma) (resource_size dma)) eqn:Hv; cbn [negb];
    [|exists (- EINVAL), s; split; [reflexivity|]; left; split; [easy | now apply unbound_undone]].
  unfold bind at 1, probe_pool_get at 1.
  destruct (axi_mmio_pool_get (ak_next s) (pc_build_pool calls) (rs_start dma)
              (resource_size dma) (ak_pools s)) as [[id|] pools] eqn:Eg.
  2: { pose proof (pool_get_put_roundtrip (ak_next s) (pc_build_pool calls) (rs_start dma)
         (resource_size dma) held (ak_pools s) Hok Hni) as Hrt. rewrite Eg in Hrt.
       destruct Hrt as (-> & _). eexists _, _. split; [reflexivity|]. left.
       split; [easy|]. now solve_undone Hr. }
  destruct (pool_get_ok _ _ _ _ _ _ _ _ Hok Hni Eg) as [Hok' Hput].
  match goal with |- context [bind _ _ ?s0] => set (s1 := s0) end.
  destruct Hcalls as (Hap & _).
  unfold bind at 1.
  destruct (add_action_spec (PoolRelease id) _ s1 Hap) as [[_ ->]|[Hneg ->]].
  2: { rewrite (proj2 (Z.eqb_neq _ _)) by lia. cbn [negb]. eexists _, _.
       split; [reflexivity|]. left. split; [assumption|].
       now solve_undone Hr. }
  cbn [Z.eqb negb]. unfold bind at 1, modify at 1.
  pose proof copy_resources_spec as Hcopy.
  destruct (axi_mmio_copy_resources calls pdev) as [num resources].
  set (s2 := set_drvdata (Some id) (set_devres (PoolRelease id :: ak_devres s1) s1)).
  assert (undone s s2) as Hundo.
  { unfold s2, s1. now solve_undone Hr. }
  destruct Hcopy as [Hneg|(mmio & -> & Hm & Hi & ->)].
  { rewrite (proj2 (Z.ltb_lt _ _)) by assumption. eexists _, _. split; [reflexivity|]. now left. }
  cbn [Z.ltb Z.compare].
  destruct (publish_child_spec [ResMem mmio; ResIrq (pc_irq calls)] s2 Hc) as [->|(r & Hneg & ->)].
  - eexists _, _. split; [reflexivity|]. right. split; [reflexivity|].
    exists id, dma. split; [exact eq_refl|]. unfold s2, s1. split; cbn.
    + reflexivity.
    + now rewrite Hr.
    + now exists mmio.
    + exists dma. split; [exact Edma|]. split; [assumption | constructor].
    + exact Hok'.
  - eexists _, _. split; [reflexivity|]. now left.
Qed.
End probe.

(** C20: binding the driver is all or nothing. Whatever the results of the kernel calls,
    the probe with the driver core around it returns; on error nothing of the device
    remains and the shared registry of pools is exactly as before; on success the child
    has the registers and interrupt of the device and its DMA operations, the pool of
    the aperture is held, and its releases are recorded. *)
Theorem axi_bind_all_or_nothing calls pdev s held :
  calls_ok calls -> unbound s -> pools_ok held (ak_pools s) ->
  ~ ak_next s ∈ map pr_id (ak_pools s) ->
  exists r s', axi_bind calls pdev s = Done (r, s') /\
    ((r < 0 /\ unbound s' /\ ak_pools s' = ak_pools s) \/
     (r = 0 /\ exists id dma, pl_mem pdev !! 1%nat = Some dma /\
        bound calls pdev id ((id, (rs_start dma, resource_size dma)) :: held) s')).
Proof.
  intros Hc Hu Hok Hni.
  destruct (probe_spec calls pdev Hc s held Hu Hok Hni) as (r & s' & E & Hpost).
  unfold axi_bind, bind at 1. rewrite E. destruct Hpost as [[Hr [Hu' Hp]]|[-> Hb]].
  - rewrite (proj2 (Z.eqb_neq _ _)) by lia. eexists _, _. split; [reflexivity|]. now left.
  - eexists _, _. split; [reflexivity|]. now right.
Qed.

(** A device with two memory resources, and kernel calls that succeed. *)
Definition axi_pdev : platform_device :=
  {| pl_name := "axi-mmio"; pl_irq := 40;
     pl_mem := [{| rs_start := 0xa000000; rs_end := 0xa0001ff |};
                {| rs_start := 0x8000; rs_end := 0xbfff |}] |}.
Definition good_calls : probe_calls :=
  {| pc_alloc_axi := true; pc_build_pool := true; pc_action_pool := 0; pc_irq := 40;
     pc_alloc_resources := true; pc_alloc_child := true; pc_add_resources := 0;
     pc_add_child := 0; pc_action_child := 0 |}.
Definition fresh_kernel : axi_kernel :=
  {| ak_pools := []; ak_next := 0; ak_drvdata := None; ak_child := None; ak_devres := [] |}.

Lemma fresh_pools_ok : pools_ok [] [].
Proof. split; constructor. Defined.

Lemma axi_bind_all_or_nothing_witness :
  exists r s', axi_bind good_calls axi_pdev fresh_kernel = Done (r, s') /\ r = 0 /\
    exists id dma, pl_mem axi_pdev !! 1%nat = Some dma /\
      bound good_calls axi_pdev id [(id, (rs_start dma, resource_size dma))] s'.
Proof.
  destruct (axi_bind_all_or_nothing good_calls axi_pdev fresh_kernel []) as (r & s' & E & Hp).
  - repeat split; discriminate.
  - now repeat split.
  - apply fresh_pools_ok.
  - cbn. apply not_elem_of_nil.
  - exists r, s'. split; [exact E|]. vm_compute in E. injection E as <- <-.
    destruct Hp as [[H _]|H]; [now vm_compute in H | exact H].
Defined.

(** An error after the pool was obtained releases it. *)
Example axi_bind_child_refused :
  axi_bind {| pc_alloc_axi := true; pc_build_pool := true; pc_action_pool := 0; pc_irq := 40;
     pc_alloc_resources := true; pc_alloc_child := true; pc_add_resources := 0;
     pc_add_child := -17; pc_action_child := 0 |} axi_pdev fresh_kernel =
  Done (-17, {| ak_pools := []; ak_next := 1; ak_drvdata := None; ak_child := None;
                ak_devres := [] |}).
Proof. reflexivity. Qed.

(** ** Unbinding *)

Lemma release_next_childless s : ak_child s = None -> ak_child (release_next s) = None.
Proof.
  intros Hc. unfold release_next. now destruct (ak_devres s) as [|[] l].
Qed.

(** C21: the child goes before its pool. While the driver core releases a bound device,
    whatever the other devices did to the registry since, after any number of releases a
    registered child still finds its pool on the list; at the end nothing of the device
    remains and the registry accounts for exactly the other holders. *)
Theorem axi_unbind_order calls pdev id ap l1 l2 s :
  bound calls pdev id (l1 ++ (id, ap) :: l2) s ->
  (forall n, child_safe (Nat.iter n release_next s)) /\
  unbound (release_all s) /\ pools_ok (l1 ++ l2) (ak_pools (release_all s)).
Proof.
  intros [Hd Hr (mmio & _ & _ & Hc) _ Hok]. split; [|split].
  - assert (child_safe s) as H0.
    { unfold child_safe. rewrite Hc. intros _. pose proof (po_holds _ _ Hok) as Hh.
      apply Forall_app in Hh as [_ Hh]. apply Forall_cons_iff in Hh as [(p & Hp & E & _) _].
      now exists id, p. }
    assert (forall n, ak_child (Nat.iter (S n) release_next s) = None) as Hn.
    { intros n. induction n as [|n IH].
      - cbn. unfold release_next. now rewrite Hr.
      - cbn in IH |- *. now apply release_next_childless. }
    intros [|n]; [exact H0|]. unfold child_safe. now rewrite Hn.
  - unfold release_all. rewrite Hr. cbn. unfold release_next. now rewrite Hr.
  - unfold release_all. rewrite Hr. cbn. unfold release_next. rewrite Hr. cbn.
    eapply put_ok; [reflexivity | exact Hok].
Qed.

(** The device after a successful probe, when another device shares its pool. *)
Definition shared_kernel : axi_kernel :=
  {| ak_pools := racing 2; ak_next := 2; ak_drvdata := Some 1%nat;
     ak_child := Some {| ch_resources := [ResMem {| rs_start := 0xa000000; rs_end := 0xa0001ff |};
                                          ResIrq 40];
                         ch_dma_mask := 2 ^ 64 - 1; ch_dma_ops := true; ch_added := true |};
     ak_devres := [UnregisterChild; PoolRelease 1] |}.

Lemma axi_unbind_order_witness :
  (forall n, child_safe (Nat.iter n release_next shared_kernel)) /\
  ak_pools (release_all shared_kernel) = racing 1 /\
  pools_ok [(1%nat, ap0)] (ak_pools (release_all shared_kernel)).
Proof.
  destruct (axi_unbind_order good_calls axi_pdev 1 ap0 [] [(1%nat, ap0)] shared_kernel)
    as (H1 & _ & H2).
  - split; [reflexivity | reflexivity | | |].
    + eexists. split; [reflexivity|]. split; [discriminate | reflexivity].
    + eexists. split; [reflexivity|]. split; [reflexivity | constructor].
    + exact (so_pools _ (reachable_ok _ raced_reachable)).
  - split; [exact H1|]. split; [reflexivity | exact H2].
Defined.
