(* ===== verification/QemuRun.v ===== *)
(** * Running the QEMU socket fabric

    [ensure_parent_dir], [run_device] and [fabric_run] of [src/fabrics/qemu_socket.c]:
    the directories of the socket path, the listening socket, and one connection after
    the other. The file system keeps the names of directories and of other files;
    [mkdir] needs the directory it creates an entry in, [bind] needs a name that is not
    in use. *)

From S2P Require Import Prelude Endian Fabric QueueService Posix CStrings.
From S2P Require Import QemuSocket QemuPeer QemuService.

#[local] Open Scope Z_scope.
#[local] Open Scope c_scope.

Definition SUN_PATH_LEN : Z := 108.
Definition PATH_BUF_LEN : Z := 4096.
Definition SLASH : ascii := "/"%char.

(** ** The file system *)

(** Directories, other files, and whether the next [mkdir] calls are permitted (they
    are when exhausted). *)
Record files : Type := {
  fs_dirs : list string;
  fs_files : list string;
  fs_mkdir : list bool;
}.

(** [*strrchr(s, c) = 0]: the text before the last [c]. *)
Fixpoint before_last (c : ascii) (s : string) : option string :=
  match s with
  | EmptyString => None
  | String a r =>
      match before_last c r with
      | Some b => Some (String a b)
      | None => if char_eqb a c then Some EmptyString else None
      end
  end.

(** The directory a path names an entry of. *)
Definition parent_dir (path : string) : string :=
  match before_last SLASH path with
  | None => "."
  | Some EmptyString => "/"
  | Some d => d
  end.

Inductive mkdir_result : Type :=
| MkdirOk
| MkdirExists
| MkdirFailed.

Definition mkdir (path : string) : M files mkdir_result := fun s =>
  if bool_decide (path ∈ fs_dirs s) || bool_decide (path ∈ fs_files s)
  then Done (MkdirExists, s)
  else if bool_decide (parent_dir path ∈ fs_dirs s) && default true (head (fs_mkdir s))
  then Done (MkdirOk, {| fs_dirs := path :: fs_dirs s; fs_files := fs_files s;
                         fs_mkdir := tail (fs_mkdir s) |})
  else Done (MkdirFailed, {| fs_dirs := fs_dirs s; fs_files := fs_files s;
                             fs_mkdir := tail (fs_mkdir s) |}).

(** ** The directories of the socket path *)

(** [strcat] into a buffer of [PATH_BUF_LEN] bytes. *)
Definition strcat (dst src : string) : M files string :=
  if strlen (dst +:+ src) <? PATH_BUF_LEN then ret (dst +:+ src) else undefined.

Fixpoint make_dirs (parts : list string) (partial : string) : M files bool :=
  match parts with
  | [] => ret true
  | part :: parts =>
      if PATH_BUF_LEN <=? strlen partial + strlen part + 2 then ret false else
      p1 ← (if negb (bool_decide (partial = ""%string)) && negb (bool_decide (partial = "/"%string))
            then strcat partial "/" else ret partial);
      p2 ← strcat p1 part;
      r ← mkdir p2;
      match r with
      | MkdirFailed => ret false
      | _ => make_dirs parts p2
      end
  end.

Definition ensure_parent_dir (path : string) : M files bool :=
  if PATH_BUF_LEN <=? strlen path then ret false else
  match before_last SLASH path with
  | None => ret true
  | Some EmptyString => ret true
  | Some (String a _ as dir) =>
      make_dirs (tokens SLASH dir) (if char_eqb a SLASH then "/" else "")
  end.

(** ** Accepting connections *)

(** Results of [accept]: a connection comes with the stream to its peer. *)
Inductive accept_event (P : Type) : Type :=
| AcceptIntr
| AcceptFailed
| Accepted (client : sock P).
Arguments AcceptIntr {P}.
Arguments AcceptFailed {P}.
Arguments Accepted {P} client.

(** The process: the file system, its open descriptors, and the connections it has
    closed, the latest first. *)
Record qemu_host (P : Type) : Type := {
  ho_files : files;
  ho_listening : bool;
  ho_clients : nat;
  ho_closed : list (sock P);
}.
Arguments ho_files {P} _.
Arguments ho_listening {P} _.
Arguments ho_clients {P} _.
Arguments ho_closed {P} _.

(** Results of the system calls of the set-up. *)
Record socket_calls : Type := {
  sc_socket : bool;
  sc_bind : bool;
  sc_listen : bool;
}.

Section run.
Context {P : Type} `{Peer P} {D : Type} (dev : fabric_device (sock P) D).

Definition set_files (f : files) (h : qemu_host P) : qemu_host P :=
  {| ho_files := f; ho_listening := ho_listening h; ho_clients := ho_clients h;
     ho_closed := ho_closed h |}.
Definition set_listening (b : bool) (h : qemu_host P) : qemu_host P :=
  {| ho_files := ho_files h; ho_listening := b; ho_clients := ho_clients h;
     ho_closed := ho_closed h |}.
Definition close_client (s : sock P) (h : qemu_host P) : qemu_host P :=
  {| ho_files := ho_files h; ho_listening := ho_listening h;
     ho_clients := pred (ho_clients h); ho_closed := s :: ho_closed h |}.
Definition open_client (h : qemu_host P) : qemu_host P :=
  {| ho_files := ho_files h; ho_listening := ho_listening h;
     ho_clients := S (ho_clients h); ho_closed := ho_closed h |}.

Definition unlink (path : string) : M (qemu_host P * D) unit :=
  modify (fun s => (set_files
    {| fs_dirs := fs_dirs (ho_files (fst s));
       fs_files := List.filter (fun f => negb (bool_decide (f = path))) (fs_files (ho_files (fst s)));
       fs_mkdir := fs_mkdir (ho_files (fst s)) |} (fst s), snd s)).

(** [bind]: a name in use is refused. *)
Definition bind_socket (allowed : bool) (path : string) : M (qemu_host P * D) bool := fun s =>
  let f := ho_files (fst s) in
  if negb allowed || bool_decide (path ∈ fs_dirs f) || bool_decide (path ∈ fs_files f)
  then Done (false, s)
  else Done (true, (set_files {| fs_dirs := fs_dirs f; fs_files := path :: fs_files f;
                                 fs_mkdir := fs_mkdir f |} (fst s), snd s)).

Definition close_listener : M (qemu_host P * D) unit :=
  modify (fun s => (set_listening false (fst s), snd s)).

(** Serving an accepted connection and closing it; [fuel] bounds its messages. *)
Definition serve_client (fuel : nat) (client : sock P) : M (qemu_host P * D) bool := fun s =>
  match serve_connection dev fuel (client, snd s) with
  | Done (ok, (client', d)) => Done (ok, (close_client client' (open_client (fst s)), d))
  | UB => UB
  | NoFuel => NoFuel
  end.

(** The accept loop; the list of results bounds it. *)
Fixpoint accept_loop (fuel : nat) (events : list (accept_event P)) : M (qemu_host P * D) bool :=
  match events with
  | [] => out_of_fuel
  | AcceptIntr :: events => accept_loop fuel events
  | AcceptFailed :: _ => close_listener;; ret false
  | Accepted client :: events =>
      _ ← serve_client fuel client; accept_loop fuel events
  end.

Definition run_device (calls : socket_calls) (fuel : nat) (events : list (accept_event P))
  : M (qemu_host P * D) bool :=
  let path := fd_socket_path dev in
  dirs ← liftF (zoom ho_files set_files (ensure_parent_dir path));
  if negb dirs then ret false else
  unlink path;;
  if negb (sc_socket calls) then ret false else
  (modify (fun s => (set_listening true (fst s), snd s)));;
  if SUN_PATH_LEN <=? strlen path then close_listener;; ret false else
  bound ← bind_socket (sc_bind calls) path;
  if negb (bound && sc_listen calls) then close_listener;; ret false else
  accept_loop fuel events.
End run.

Definition qemu_fabric_run {P} `{Peer P} {D} (calls : socket_calls) (fuel : nat)
    (events : list (accept_event P)) (bus : fabric (sock P) D) : M (qemu_host P * D) bool :=
  if negb (fb_device_count bus =? 1) then ret false else
  match fb_devices bus with
  | [] => undefined
  | dev :: _ => run_device dev calls fuel events
  end.

(** ** The directories are created from the root down *)

(** The directory path of the first components of a path. *)
Definition dir_prefix (absolute : bool) (ts : list string) : string :=
  (if absolute then "/" else "") +:+ join SLASH ts.

(** One more component; the directories a list of components adds below [partial]. *)
Definition extend (partial part : string) : string :=
  if bool_decide (partial = ""%string) || bool_decide (partial = "/"%string)
  then partial +:+ part else partial +:+ "/" +:+ part.

Fixpoint subdirs (partial : string) (parts : list string) : list string :=
  match parts with
  | [] => []
  | part :: parts => extend partial part :: subdirs (extend partial part) parts
  end.

(** The directory [partial] stands for. *)
Definition base_dir (partial : string) : string :=
  if bool_decide (partial = ""%string) then "." else partial.

Section paths.
Implicit Types (part partial : string) (parts ts : list string).

Lemma before_last_found c s t : char_free c t = true ->
  before_last c (s +:+ String c t) = Some s.
Proof.
  intros Ht. induction s as [|a s IH].
  - change (before_last c (String c t) = Some ""%string). cbn [before_last].
    assert (before_last c t = None) as ->; [|now rewrite char_eqb_refl].
    induction t as [|a t IHt]; [reflexivity|]. cbn in *. apply andb_prop in Ht as [Ha Ht].
    apply negb_true_iff in Ha. now rewrite (IHt Ht), Ha.
  - change (String a s +:+ String c t) with (String a (s +:+ String c t)).
    cbn [before_last]. now rewrite IH.
Qed.

Lemma before_last_none c t : char_free c t = true -> before_last c t = None.
Proof.
  induction t as [|a t IH]; [reflexivity|]. cbn. intros [Ha Ht]%andb_prop.
  apply negb_true_iff in Ha. now rewrite (IH Ht), Ha.
Qed.

Lemma before_last_shorter c s d : before_last c s = Some d -> strlen d < strlen s.
Proof.
  revert d. unfold strlen. induction s as [|a s IH]; intros d; cbn -[Z.of_nat]; [easy|].
  destruct (before_last c s) as [b|].
  - intros [= <-]. specialize (IH b eq_refl). cbn -[Z.of_nat]. lia.
  - destruct (char_eqb a c); [|easy]. intros [= <-]. cbn -[Z.of_nat]. lia.
Qed.

Lemma token_parts c t : token_ok c t = true -> char_free c t = true /\ t <> ""%string.
Proof.
  unfold token_ok. intros [? Hn]%andb_prop. apply negb_true_iff, bool_decide_eq_false in Hn.
  now split.
Qed.

Lemma append_nonempty s t : t <> ""%string -> s +:+ t <> ""%string.
Proof. now destruct s. Qed.

Lemma extend_nonempty partial part : token_ok SLASH part = true ->
  extend partial part <> ""%string.
Proof.
  intros [_ Hn]%token_parts. unfold extend.
  destruct (_ || _); [|apply append_nonempty]; now apply append_nonempty.
Qed.

Lemma extend_parent partial part : token_ok SLASH part = true ->
  parent_dir (extend partial part) = base_dir partial.
Proof.
  intros [Hf _]%token_parts. unfold extend, parent_dir, base_dir.
  destruct (bool_decide_reflect (partial = ""%string)) as [->|Hne]; cbn [orb].
  { change (EmptyString +:+ part) with part. now rewrite before_last_none. }
  destruct (bool_decide_reflect (partial = "/"%string)) as [->|Hns].
  { change ("/" +:+ part) with ("" +:+ String SLASH part). now rewrite before_last_found. }
  change ("/" +:+ part) with (String SLASH part). rewrite before_last_found by assumption.
  now destruct partial.
Qed.

Lemma extend_length partial part :
  strlen partial + strlen part <= strlen (extend partial part) <= strlen partial + strlen part + 1.
Proof.
  unfold extend. destruct (_ || _); rewrite !strlen_app; [lia|].
  change (strlen "/") with 1. lia.
Qed.

(** The buffer is built by two appends that stay within it. *)
Lemma partial_built partial part (k : string -> M files bool) s :
  strlen partial + strlen part + 2 < PATH_BUF_LEN ->
  (p1 ← (if negb (bool_decide (partial = ""%string)) && negb (bool_decide (partial = "/"%string))
         then strcat partial "/" else ret partial);
   p2 ← strcat p1 part; k p2) s = k (extend partial part) s.
Proof.
  intros Hl. unfold extend.
  assert (0 <= strlen part) as Hp by (unfold strlen; lia).
  destruct (bool_decide (partial = ""%string)), (bool_decide (partial = "/"%string));
    cbn [negb andb orb]; unfold bind, ret, strcat;
    rewrite ?(proj2 (Z.ltb_lt _ _)) by (rewrite ?strlen_app; change (strlen "/") with 1; lia);
    try reflexivity.
  unfold ret at 1. rewrite append_assoc.
  rewrite (proj2 (Z.ltb_lt _ _)) by (rewrite !strlen_app; change (strlen "/") with 1; lia).
  reflexivity.
Qed.

(** Whatever the file system does, the directories only grow, by directories of the
    path, and success means that every one of them exists. *)
Record made partial parts (b : bool) (s s' : files) : Prop := {
  md_files : fs_files s' = fs_files s;
  md_kept : forall d, d ∈ fs_dirs s -> d ∈ fs_dirs s';
  md_added : forall d, d ∈ fs_dirs s' -> d ∈ fs_dirs s \/ d ∈ subdirs partial parts;
  md_all : b = true -> forall d, d ∈ subdirs partial parts -> d ∈ fs_dirs s' \/ d ∈ fs_files s;
}.

Lemma mkdir_spec path s : exists r s', mkdir path s = Done (r, s') /\
  fs_files s' = fs_files s /\ (forall d, d ∈ fs_dirs s -> d ∈ fs_dirs s') /\
  (forall d, d ∈ fs_dirs s' -> d ∈ fs_dirs s \/ d = path) /\
  (r <> MkdirFailed -> path ∈ fs_dirs s' \/ path ∈ fs_files s) /\
  (fs_mkdir s = [] -> parent_dir path ∈ fs_dirs s -> r <> MkdirFailed /\ fs_mkdir s' = []).
Proof.
  unfold mkdir. destruct (bool_decide_reflect (path ∈ fs_dirs s)) as [Hd|Hd]; cbn [orb].
  { exists MkdirExists, s. repeat split; eauto; discriminate. }
  destruct (bool_decide_reflect (path ∈ fs_files s)) as [Hf|Hf].
  { exists MkdirExists, s. repeat split; eauto; discriminate. }
  destruct (bool_decide_reflect (parent_dir path ∈ fs_dirs s)) as [Hp|Hp]; cbn [andb].
  2: { exists MkdirFailed. eexists. split; [reflexivity|]. cbn. repeat split; eauto; easy. }
  destruct (default true (head (fs_mkdir s))) eqn:E; cbn.
  - exists MkdirOk. eexists. split; [reflexivity|]. cbn. split; [reflexivity|].
    split; [now right|]. split; [intros d [->|?]%elem_of_cons; auto|].
    split; [left; constructor|]. intros ->. now split.
  - exists MkdirFailed. eexists. split; [reflexivity|]. cbn. split; [reflexivity|].
    split; [easy|]. split; [auto|]. split; [easy|]. intros Hm. rewrite Hm in E. discriminate E.
Qed.

Lemma make_dirs_sound parts partial s :
  exists b s', make_dirs parts partial s = Done (b, s') /\ made partial parts b s s'.
Proof.
  revert partial s. induction parts as [|part parts IH]; intros partial s; cbn [make_dirs].
  { exists true, s. split; [reflexivity|]. split; auto. intros _ d Hd. inversion Hd. }
  destruct (Z.leb_spec PATH_BUF_LEN (strlen partial + strlen part + 2)) as [Hl|Hl].
  { exists false, s. split; [reflexivity|]. split; auto. discriminate. }
  rewrite partial_built by assumption. unfold bind.
  destruct (mkdir_spec (extend partial part) s) as (r & s1 & -> & Ef & Hk & Ha & Hr & _).
  assert (r = MkdirFailed \/ r <> MkdirFailed) as [->|Hn] by (destruct r; auto; now right).
  { exists false, s1. split; [reflexivity|]. split; [assumption | assumption | | discriminate].
    intros d Hd. destruct (Ha d Hd) as [?| ->]; [now left | right; constructor]. }
  destruct (IH (extend partial part) s1) as (b & s2 & E & [F1 F2 F3 F4]).
  exists b, s2. split; [destruct r; [exact E | exact E | easy]|]. split.
  - congruence.
  - auto.
  - intros d Hd. destruct (F3 d Hd) as [H|H]; [|right; now constructor].
    destruct (Ha d H) as [?| ->]; [now left | right; constructor].
  - intros Hb d Hd. cbn [subdirs] in Hd. apply elem_of_cons in Hd as [->|Hd].
    + destruct (Hr Hn) as [?|?]; auto.
    + rewrite <- Ef. auto.
Qed.

Lemma final_length parts partial :
  Forall (fun d => strlen d <= PATH_BUF_LEN - 3) (subdirs partial parts) ->
  match parts with
  | [] => True
  | part :: _ => strlen partial + strlen part + 2 < PATH_BUF_LEN
  end.
Proof.
  destruct parts as [|part parts]; [easy|]. cbn [subdirs].
  intros [Hl _]%Forall_cons_iff. pose proof (extend_length partial part).
  unfold PATH_BUF_LEN in *. lia.
Qed.

(** With nothing in the way every directory is created. *)
Lemma make_dirs_succeeds parts partial s :
  Forall (fun t => token_ok SLASH t = true) parts ->
  Forall (fun d => strlen d <= PATH_BUF_LEN - 3 /\ ~ d ∈ fs_files s) (subdirs partial parts) ->
  fs_mkdir s = [] -> base_dir partial ∈ fs_dirs s ->
  exists s', make_dirs parts partial s = Done (true, s').
Proof.
  revert partial s. induction parts as [|part parts IH]; intros partial s Ht Hd Hm Hb;
    cbn [make_dirs]; [now exists s|].
  apply Forall_cons_iff in Ht as [Ht Hts].
  assert (strlen partial + strlen part + 2 < PATH_BUF_LEN) as Hl.
  { apply (final_length (part :: parts) partial).
    eapply list.Forall_impl; [exact Hd|]. now intros ? []. }
  rewrite (proj2 (Z.leb_gt _ _)), partial_built by assumption.
  unfold bind. cbn [subdirs] in Hd. apply Forall_cons_iff in Hd as [[_ Hnf] Hd].
  destruct (mkdir_spec (extend partial part) s) as (r & s1 & -> & Ef & Hk & _ & Hr & Hok).
  destruct (Hok Hm) as [Hn Hm1]; [now rewrite extend_parent|].
  destruct (IH (extend partial part) s1 Hts) as [s2 E].
  - now rewrite Ef.
  - assumption.
  - unfold base_dir. rewrite bool_decide_false by now apply extend_nonempty.
    now destruct (Hr Hn).
  - exists s2. now destruct r.
Qed.

(** *** The directories in terms of the components *)

Lemma join_snoc c ts t : join c (ts ++ [t]) =
  match ts with [] => t | _ => join c ts +:+ String c t end.
Proof.
  induction ts as [|u ts IH]; [reflexivity|]. destruct ts as [|v ts]; [reflexivity|].
  change (join c ((u :: v :: ts) ++ [t])) with (u +:+ String c (join c ((v :: ts) ++ [t]))).
  rewrite IH. change (join c (u :: v :: ts)) with (u +:+ String c (join c (v :: ts))).
  rewrite append_assoc. reflexivity.
Qed.

Lemma join_nonempty ts : Forall (fun t => token_ok SLASH t = true) ts -> ts <> [] ->
  join SLASH ts <> ""%string /\ forall r, join SLASH ts <> String SLASH r.
Proof.
  destruct ts as [|[|a t] ts]; [easy| |]; intros [Ht _]%Forall_cons_iff _; [discriminate Ht|].
  apply token_parts in Ht as [Hf _]. cbn in Hf. apply andb_prop in Hf as [Ha _].
  assert (exists r, join SLASH (String a t :: ts) = String a r) as [r ->].
  { destruct ts as [|u ts]; [now exists t|]. eexists. reflexivity. }
  split; [easy|]. intros r' [= -> _]. now rewrite char_eqb_refl in Ha.
Qed.

Lemma extend_prefix absolute ts t : Forall (fun t => token_ok SLASH t = true) ts ->
  extend (dir_prefix absolute ts) t = dir_prefix absolute (ts ++ [t]).
Proof.
  intros Hts. unfold dir_prefix. rewrite join_snoc. destruct ts as [|u ts].
  { now destruct absolute. }
  destruct (join_nonempty (u :: ts) Hts) as [Hn Hs]; [easy|]. unfold extend.
  rewrite !bool_decide_false.
  - cbn [orb]. rewrite append_assoc. reflexivity.
  - destruct absolute; [|apply Hs].
    intros E. apply Hn. now injection E.
  - destruct absolute; [easy | assumption].
Qed.

Lemma subdirs_prefixes absolute done parts : Forall (fun t => token_ok SLASH t = true) (done ++ parts) ->
  forall d, d ∈ subdirs (dir_prefix absolute done) parts <->
    exists k, (0 < k <= length parts)%nat /\ d = dir_prefix absolute (done ++ take k parts).
Proof.
  revert done. induction parts as [|t parts IH]; intros done Hall d; cbn [subdirs].
  { split; [intros Hd; inversion Hd | intros (k & Hk & _); cbn in Hk; lia]. }
  pose proof Hall as Hd. apply Forall_app in Hd as [Hd _].
  rewrite extend_prefix, elem_of_cons, IH by (rewrite <- ?app_assoc; assumption).
  split.
  - intros [->|(k & Hk & ->)].
    + exists 1%nat. cbn. split; [lia | reflexivity].
    + exists (S k). cbn. split; [lia | now rewrite <- app_assoc].
  - intros (k & Hk & ->). destruct k as [|[|k]]; [lia|now left|].
    right. exists (S k). cbn in Hk |- *. split; [lia | now rewrite <- app_assoc].
Qed.
End paths.

(** *** Lengths *)

Section lengths.
Implicit Types (c : ascii) (s t : string).

Lemma tokens_unfold c s : tokens c s =
  match strtok_r c s with None => [] | Some (t, r) => t :: tokens c r end.
Proof.
  unfold tokens at 1. cbn [strtok_loop]. destruct (strtok_r c s) as [[t r]|] eqn:E; [|reflexivity].
  f_equal. apply strtok_r_shrinks in E. apply strtok_loop_fuel; lia.
Qed.

Lemma strtok_r_length c s t r : strtok_r c s = Some (t, r) ->
  strlen t + (if bool_decide (r = ""%string) then 0 else 1 + strlen r) <= strlen s.
Proof.
  unfold strtok_r. pose proof (skip_char_length c s) as Hl.
  destruct (skip_char c s) as [|a u] eqn:Es; [easy|].
  pose proof (strchr_spec c (String a u)) as Hc.
  destruct (strchr c (String a u)) as [[p q]|]; intros [= <- <-].
  - destruct Hc as [E _]. apply (f_equal strlen) in E. rewrite strlen_app in E.
    unfold strlen in *. case_bool_decide; subst; cbn -[Z.of_nat] in *; lia.
  - rewrite bool_decide_true by reflexivity. unfold strlen in *. lia.
Qed.

Lemma join_tokens_length c s : strlen (join c (tokens c s)) <= strlen s.
Proof.
  remember (String.length s) as n eqn:En. revert s En.
  induction n as [n IH] using lt_wf_ind. intros s ->. rewrite tokens_unfold.
  destruct (strtok_r c s) as [[t r]|] eqn:E; [|unfold strlen; cbn; lia].
  pose proof (IH _ (strtok_r_shrinks _ _ _ _ E) r eq_refl) as Hr.
  apply strtok_r_length in E. case_bool_decide as Hn.
  { rewrite Hn. change (tokens c "") with (@nil string). cbn [join]. lia. }
  destruct (tokens c r) as [|u ts]; [cbn [join]; unfold strlen in *; lia|].
  change (join c (t :: u :: ts)) with (t +:+ String c (join c (u :: ts))).
  rewrite strlen_app. change (strlen (String c ?x)) with (Z.of_nat (S (String.length x))).
  unfold strlen in *. cbn [String.length]. lia.
Qed.

Lemma tokens_leading c s : tokens c (String c s) = tokens c s.
Proof.
  rewrite !tokens_unfold. assert (strtok_r c (String c s) = strtok_r c s) as ->; [|reflexivity].
  unfold strtok_r. cbn [skip_char]. now rewrite char_eqb_refl.
Qed.

(** The components of a directory path are not longer than the path. *)
Lemma prefix_length a u :
  strlen (dir_prefix (char_eqb a SLASH) (tokens SLASH (String a u))) <= strlen (String a u).
Proof.
  unfold dir_prefix. rewrite strlen_app. destruct (char_eqb_spec a SLASH) as [->|].
  - rewrite tokens_leading. pose proof (join_tokens_length SLASH u).
    change (strlen "/") with 1. change (strlen (String SLASH u)) with (Z.of_nat (S (String.length u))).
    unfold strlen in *. lia.
  - pose proof (join_tokens_length SLASH (String a u)). change (strlen "") with 0. lia.
Qed.

Lemma join_take_length c k ts : strlen (join c (take k ts)) <= strlen (join c ts).
Proof.
  revert k. induction ts as [|t ts IH]; intros [|k]; [cbn; lia | cbn; lia | unfold strlen; cbn; lia|].
  cbn [take]. destruct ts as [|u ts]; [destruct k; cbn; lia|].
  specialize (IH k). change (join c (t :: u :: ts)) with (t +:+ String c (join c (u :: ts))).
  rewrite strlen_app. assert (strlen (String c (join c (u :: ts))) = 1 + strlen (join c (u :: ts))) as ->
    by (unfold strlen; cbn [String.length]; lia).
  destruct (take k (u :: ts)) as [|v l] eqn:E.
  - cbn [join]. pose proof (Zle_0_nat (String.length (join c (u :: ts)))). unfold strlen in *. lia.
  - change (join c (t :: v :: l)) with (t +:+ String c (join c (v :: l))). rewrite strlen_app.
    assert (strlen (String c (join c (v :: l))) = 1 + strlen (join c (v :: l))) as ->
      by (unfold strlen; cbn [String.length]; lia). lia.
Qed.
End lengths.

(** The components of the directory of a socket path: none when it is the root or the
    working directory. *)
Definition socket_dirs (path : string) : bool * list string :=
  match before_last SLASH path with
  | Some (String a _ as dir) => (char_eqb a SLASH, tokens SLASH dir)
  | _ => (false, [])
  end.

Definition socket_dir (path : string) (k : nat) : string :=
  dir_prefix (fst (socket_dirs path)) (take k (snd (socket_dirs path))).

Lemma socket_dirs_tokens path :
  Forall (fun t => token_ok SLASH t = true) (snd (socket_dirs path)).
Proof.
  unfold socket_dirs. destruct (before_last SLASH path) as [[|a u]|]; try constructor.
  apply tokens_free.
Qed.

Lemma socket_dir_length path k : socket_dirs path <> (false, []) ->
  strlen (socket_dir path k) < strlen path.
Proof.
  unfold socket_dir, socket_dirs. destruct (before_last SLASH path) as [[|a u]|] eqn:E;
    try easy. intros _. apply before_last_shorter in E. pose proof (prefix_length a u) as Hp.
  unfold dir_prefix in *. rewrite strlen_app in *. cbn [fst snd].
  pose proof (join_take_length SLASH k (tokens SLASH (String a u))). lia.
Qed.

Lemma socket_subdirs path d :
  let ps := socket_dirs path in
  d ∈ subdirs (if fst ps then "/" else "") (snd ps) <->
  exists k, (0 < k <= length (snd ps))%nat /\ d = socket_dir path k.
Proof.
  cbv zeta. pose proof (subdirs_prefixes (fst (socket_dirs path)) [] (snd (socket_dirs path))
    (socket_dirs_tokens path) d) as H.
  unfold dir_prefix at 1 in H. change (join SLASH []) with ""%string in H.
  rewrite append_nil_r in H. exact H.
Qed.

Lemma ensure_is_make path s : strlen path < PATH_BUF_LEN ->
  ensure_parent_dir path s =
  make_dirs (snd (socket_dirs path)) (if fst (socket_dirs path) then "/" else "") s.
Proof.
  intros Hl. unfold ensure_parent_dir, socket_dirs. rewrite (proj2 (Z.leb_gt _ _)) by assumption.
  now destruct (before_last SLASH path) as [[|a u]|].
Qed.

Lemma parent_dirs_succeed path s :
  strlen path < PATH_BUF_LEN - 1 -> fs_mkdir s = [] ->
  "."%string ∈ fs_dirs s -> "/"%string ∈ fs_dirs s ->
  (forall k, ~ socket_dir path k ∈ fs_files s) ->
  exists s', ensure_parent_dir path s = Done (true, s').
Proof.
  intros Hl Hm Hd Hr Hf. rewrite ensure_is_make by lia.
  apply make_dirs_succeeds; [apply socket_dirs_tokens | | assumption |].
  - apply list.Forall_forall. intros d Hin.
    pose proof (proj1 (socket_subdirs path d) Hin) as (k & Hk & ->).
    split; [|apply Hf]. pose proof (socket_dir_length path k) as Hs.
    unfold PATH_BUF_LEN in *. enough (strlen (socket_dir path k) < strlen path) by lia.
    apply Hs. intros E. rewrite E in Hk. cbn in Hk. lia.
  - now destruct (fst (socket_dirs path)).
Qed.

(** C31: the directories of the socket path. For every path and file system the function
    returns and its buffer never overflows; no directory or file disappears, only
    directories of the path are added, and success means every one of them exists. It
    succeeds, creating them from the top down, when the path is at most 4094
    characters long, calls of [mkdir] are permitted and no file is in the way. *)
Theorem qemu_parent_dirs path s :
  (exists b s', ensure_parent_dir path s = Done (b, s') /\
     fs_files s' = fs_files s /\ (forall d, d ∈ fs_dirs s -> d ∈ fs_dirs s') /\
     (forall d, d ∈ fs_dirs s' -> d ∈ fs_dirs s \/
        exists k, (0 < k <= length (snd (socket_dirs path)))%nat /\ d = socket_dir path k) /\
     (b = true -> forall k, (0 < k <= length (snd (socket_dirs path)))%nat ->
        socket_dir path k ∈ fs_dirs s' \/ socket_dir path k ∈ fs_files s)) /\
  (strlen path < PATH_BUF_LEN - 1 -> fs_mkdir s = [] ->
   "."%string ∈ fs_dirs s -> "/"%string ∈ fs_dirs s ->
   (forall k, ~ socket_dir path k ∈ fs_files s) ->
   exists s', ensure_parent_dir path s = Done (true, s')).
Proof.
  split; [|apply parent_dirs_succeed].
  destruct (Z.ltb_spec (strlen path) PATH_BUF_LEN) as [Hl|Hl].
  - rewrite ensure_is_make by assumption.
    destruct (make_dirs_sound (snd (socket_dirs path)) (if fst (socket_dirs path) then "/" else "") s)
      as (b & s' & -> & [H1 H2 H3 H4]).
    exists b, s'. split; [reflexivity|]. split; [assumption|]. split; [assumption|]. split.
    + intros d Hd. destruct (H3 d Hd) as [H|H]; [now left|]. right. now apply socket_subdirs.
    + intros Hb k Hk. apply (H4 Hb), socket_subdirs. now exists k.
  - exists false, s. unfold ensure_parent_dir. rewrite (proj2 (Z.leb_le _ _)) by assumption.
    split; [reflexivity|]. split; [reflexivity|]. split; [easy|]. split; [auto | discriminate].
Qed.

Definition root_files : files :=
  {| fs_dirs := [".";"/"; "/run"]%string; fs_files := ["/run/axi/blk.sock"]%string; fs_mkdir := [] |}.

Lemma qemu_parent_dirs_witness :
  (exists s', ensure_parent_dir "/run//axi/x/blk.sock" root_files = Done (true, s')) /\
  snd (socket_dirs "/run//axi/x/blk.sock") = ["run"; "axi"; "x"]%string.
Proof.
  split; [|reflexivity].
  apply (proj2 (qemu_parent_dirs "/run//axi/x/blk.sock" root_files)).
  - vm_compute. reflexivity.
  - reflexivity.
  - cbn. constructor.
  - cbn. constructor. constructor.
  - intros k Hk. apply list_elem_of_In in Hk as [Hk|[]]. unfold socket_dir in Hk.
    destruct k as [|[|[|[|k]]]]; vm_compute in Hk; discriminate Hk.
Defined.

(** Each prefix is an entry of the one before; a relative path starts in the working
    directory. *)
Example parent_dirs_order :
  ensure_parent_dir "a/b/sock" {| fs_dirs := ["."]; fs_files := []; fs_mkdir := [] |} =
    Done (true, {| fs_dirs := ["a/b"; "a"; "."]; fs_files := []; fs_mkdir := [] |})%string.
Proof. reflexivity. Qed.

(** ** Serving one connection after the other *)

Section sessions.
Context {D : Type} (dev : fabric_device (sock qemu) D) (ops : fabric_device_ops (sock qemu) D).
Context (rd : D -> Z -> Z -> Z) (effect : Z -> Z -> Z -> D -> mem -> D -> mem -> Prop).

Definition connected (d : D) : D :=
  match op_connect ops with Some connect => connect d | None => d end.

(** The reference: the guests' programs take effect one after the other, each from the
    device as its connection resets it. A program is given with the guest's memory, a
    result is what the reads returned and the memory at the end. *)
Inductive sessions : list (list access * mem) -> D -> list (list Z * mem) -> D -> Prop :=
| sessions_nil d : sessions [] d [] d
| sessions_cons script m rest d vs d1 m1 logs d2 :
    runs dev rd effect script (connected d) m vs d1 m1 ->
    sessions rest d1 logs d2 ->
    sessions ((script, m) :: rest) d ((vs, m1) :: logs) d2.

(** The results of [accept] for these guests, interrupted calls between them. *)
Inductive arrivals : list (list access * mem) -> list (accept_event qemu) -> Prop :=
| arrivals_end events : arrivals [] (AcceptFailed :: events)
| arrivals_intr guests events : arrivals guests events -> arrivals guests (AcceptIntr :: events)
| arrivals_guest script m client guests events :
    Forall (access_ok dev) script -> after script [] m client ->
    arrivals guests events -> arrivals ((script, m) :: guests) (Accepted client :: events).
End sessions.

Section serve_all.
Context {D : Type} (dev : fabric_device (sock qemu) D) (ops : fabric_device_ops (sock qemu) D).
Context (rd : D -> Z -> Z -> Z) (wr : Z -> Z -> Z -> M (sock qemu * D) bool).
Context (effect : Z -> Z -> Z -> D -> mem -> D -> mem -> Prop).

Lemma serve_loop_more n m (s : sock qemu * D) r :
  serve_loop dev n s = Done r -> (n <= m)%nat -> serve_loop dev m s = Done r.
Proof.
  revert m s. induction n as [|n IH]; intros m s; cbn [serve_loop]; [easy|].
  destruct m as [|m]; [lia|]. cbn [serve_loop]. unfold bind.
  destruct (serve_message dev s) as [[[] s1]| |]; cbn [negb]; try easy.
  intros E Hm. apply (IH m s1 E). lia.
Qed.

Lemma serve_connection_more n m (s : sock qemu * D) r :
  serve_connection dev n s = Done r -> (n <= m)%nat -> serve_connection dev m s = Done r.
Proof.
  unfold serve_connection, bind. destruct (connect_hook dev s) as [[u s1]| |]; try easy.
  apply serve_loop_more.
Qed.

(** The host with more closed connections, none of them open. *)
Definition host_after (h : qemu_host qemu) (closed : list (sock qemu)) : qemu_host qemu :=
  {| ho_files := ho_files h; ho_listening := false; ho_clients := ho_clients h;
     ho_closed := closed ++ ho_closed h |}.

(** The closed connections, the latest first, carry these results. *)
Definition results (logs : list (list Z * mem)) (closed : list (sock qemu)) : Prop :=
  Forall2 (fun log s => finished (fst log) (snd log) s) logs (rev closed).

(** What serving one guest's connection promises. *)
Definition serves_guest : Prop := forall script m s d,
  Forall (access_ok dev) script -> after script [] m s ->
  exists s' d' vs m',
    serve_connection dev (S (length script)) (s, d) = Done (false, (s', d')) /\
    runs dev rd effect script (connected ops d) m vs d' m' /\ finished vs m' s'.

Lemma accept_loop_serves fuel guests events h d :
  serves_guest -> arrivals dev guests events ->
  Forall (fun g => (length (fst g) < fuel)%nat) guests ->
  exists d' logs closed,
    accept_loop dev fuel events (h, d) = Done (false, (host_after h closed, d')) /\
    sessions dev ops rd effect guests d logs d' /\ results logs closed.
Proof.
  intros Hs Ha. revert h d.
  induction Ha as [events|guests events Ha IH|script m client guests events Hok Hst Ha IH];
    intros h d Hf; cbn [accept_loop].
  - exists d, [], []. split; [reflexivity|]. split; constructor.
  - now apply IH.
  - apply Forall_cons_iff in Hf as [Hf Hfs]. cbn [fst] in Hf.
    destruct (Hs script m client d Hok Hst) as (s' & d1 & vs & m1 & E & Hr & Hfin).
    apply (serve_connection_more _ fuel) in E; [|lia].
    destruct (IH (close_client s' (open_client h)) d1 Hfs) as (d2 & logs & closed & E2 & Hss & Hres).
    exists d2, ((vs, m1) :: logs), (closed ++ [s']). split; [|split].
    + unfold bind, serve_client. cbn [fst snd]. rewrite E, E2. unfold host_after. cbn.
      now rewrite <- app_assoc.
    + econstructor; eassumption.
    + unfold results. rewrite rev_app_distr. now constructor.
Qed.
End serve_all.

(** ** The whole run *)

(** The file system lets the socket be created: a stale socket of the same name may be
    left, but no directory, and no file stands where a directory is needed. *)
Record path_free (path : string) (s : files) : Prop := {
  pf_short : strlen path < SUN_PATH_LEN;
  pf_mkdir : fs_mkdir s = [];
  pf_cwd : "."%string ∈ fs_dirs s;
  pf_root : "/"%string ∈ fs_dirs s;
  pf_nodir : ~ path ∈ fs_dirs s;
  pf_clear : forall k, ~ socket_dir path k ∈ fs_files s;
}.

Lemma ensure_keeps_free path s : path_free path s ->
  exists s', ensure_parent_dir path s = Done (true, s') /\ ~ path ∈ fs_dirs s'.
Proof.
  intros [Hl Hm Hc Hr Hd Hf]. unfold SUN_PATH_LEN in *.
  destruct (parent_dirs_succeed path s) as [s' E]; try assumption;
    [unfold PATH_BUF_LEN; lia|].
  exists s'. split; [exact E|]. rewrite ensure_is_make in E by (unfold PATH_BUF_LEN; lia).
  destruct (make_dirs_sound (snd (socket_dirs path)) (if fst (socket_dirs path) then "/" else "") s)
    as (b & s1 & E1 & [_ _ Ha _]).
  rewrite E in E1. injection E1 as <- <-. intros Hin. destruct (Ha _ Hin) as [H|H]; [now apply Hd|].
  apply socket_subdirs in H as (k & Hk & H). pose proof (socket_dir_length path k) as Hs.
  enough (strlen (socket_dir path k) < strlen path) by (rewrite <- H in *; lia).
  apply Hs. intros E0. rewrite E0 in Hk. cbn in Hk. lia.
Qed.

Lemma filter_not_in (path : string) l :
  ~ path ∈ List.filter (fun f => negb (bool_decide (f = path))) l.
Proof.
  intros H. apply list_elem_of_In, filter_In in H as [_ H].
  now rewrite bool_decide_true in H.
Qed.

(** The set-up ends with a bound, listening socket. *)
Lemma run_device_starts {D} (dev : fabric_device (sock qemu) D) calls fuel events h d :
  path_free (fd_socket_path dev) (ho_files h) ->
  sc_socket calls = true -> sc_bind calls = true -> sc_listen calls = true ->
  exists f, fd_socket_path dev ∈ fs_files f /\
    run_device dev calls fuel events (h, d) =
    accept_loop dev fuel events (set_listening true (set_files f h), d).
Proof.
  intros Hp Hs Hb Hl. pose proof (ensure_keeps_free _ _ Hp) as (s' & E & Hnd).
  unfold run_device, bind at 1, liftF, zoom at 1 2. cbn [fst snd]. rewrite E. cbn [negb].
  unfold unlink. unfold bind at 1, modify at 1. cbn [fst snd]. rewrite Hs. cbn [negb].
  unfold bind at 1, modify at 1. cbn [fst snd].
  rewrite (proj2 (Z.leb_gt _ _)) by apply (pf_short _ _ Hp).
  unfold bind at 1, bind_socket. cbn [fst snd set_listening set_files ho_files fs_dirs fs_files].
  rewrite Hb, (bool_decide_false _ Hnd), (bool_decide_false _ (filter_not_in _ _)), Hl.
  cbn [negb orb andb]. eexists. split; [|reflexivity]. constructor.
Qed.

(** C16: the fabric serves every guest that connects. For a registered device, a free
    socket path, and guests that connect one after the other with any accesses inside
    the window, whatever calls are interrupted: the run creates the socket, replacing a
    stale one, and executes the guests' programs in order, each from the device its
    connection resets; a connection's end does not end the run. When [accept] fails the
    run ends with every descriptor closed. *)
Theorem qemu_run_serves {D : Type} (dev : fabric_device (sock qemu) D) rest ops rd wr effect
    calls fuel guests events h d :
  fd_ops dev = Some ops -> op_read ops = Some rd -> op_write ops = Some wr ->
  0 <= fd_addr dev -> 0 <= fd_size dev -> fd_addr dev + fd_size dev < 2 ^ 64 ->
  (forall script log off v size s d,
    qemu_quiet script log s -> in_width 64 v ->
    wp (wr off v size) (s, d) (fun ok s' => ok = true /\ qemu_quiet script log (fst s') /\
      effect off v size d (qm_mem (sk_peer s)) (snd s') (qm_mem (sk_peer (fst s'))))) ->
  path_free (fd_socket_path dev) (ho_files h) ->
  sc_socket calls = true -> sc_bind calls = true -> sc_listen calls = true ->
  arrivals dev guests events -> Forall (fun g => (length (fst g) < fuel)%nat) guests ->
  exists d' logs closed f,
    qemu_fabric_run calls fuel events {| fb_devices := dev :: rest; fb_device_count := 1 |} (h, d)
      = Done (false, (host_after (set_files f h) closed, d')) /\
    sessions dev ops rd effect guests d logs d' /\ results logs closed /\
    fd_socket_path dev ∈ fs_files f.
Proof.
  intros Hops Hrd Hwr Ha Hs Ht Hspec Hp H1 H2 H3 Harr Hf.
  destruct (run_device_starts dev calls fuel events h d Hp H1 H2 H3) as (f & Hin & E).
  assert (serves_guest dev ops rd effect) as Hg.
  { intros script m s d0 Hok Hst.
    exact (connection_serves dev ops rd wr effect script m s d0 Hops Hrd Hwr Ha Hs Ht Hspec Hok Hst). }
  destruct (accept_loop_serves dev ops rd effect fuel guests events
    (set_listening true (set_files f h)) d Hg Harr Hf) as (d' & logs & closed & E2 & Hss & Hr).
  exists d', logs, closed, f. split; [|now split].
  transitivity (run_device dev calls fuel events (h, d)); [reflexivity|].
  rewrite E, E2. reflexivity.
Qed.

(** The latch served to two guests, the first interrupted before it connects. *)
Definition latch_host : qemu_host qemu :=
  {| ho_files := {| fs_dirs := ["."; "/"]%string; fs_files := ["/run/latch"]%string; fs_mkdir := [] |};
     ho_listening := false; ho_clients := 0; ho_closed := [] |}.
Definition latch_calls : socket_calls :=
  {| sc_socket := true; sc_bind := true; sc_listen := true |}.
Definition latch_guests : list (list access * mem) :=
  [(latch_program, ram64); (latch_program, ram64)].
Definition latch_events : list (accept_event qemu) :=
  [AcceptIntr; Accepted latch_start; Accepted latch_start; AcceptFailed].

Lemma qemu_run_serves_witness :
  exists d' logs closed f,
    qemu_fabric_run latch_calls 3 latch_events
      {| fb_devices := [latch]; fb_device_count := 1 |} (latch_host, 99)
      = Done (false, (host_after (set_files f latch_host) closed, d')) /\
    results logs closed /\ map fst logs = [[0x7890]; [0x7890]].
Proof.
  assert (after latch_program [] ram64 latch_start) as Ha.
  { split; try reflexivity; [exact ram64_bytes | repeat constructor; discriminate]. }
  assert (Forall (access_ok latch) latch_program) as Hok by (repeat constructor; cbn; lia).
  destruct (qemu_run_serves latch [] latch_ops (fun d off len => d)
    (fun off v len s => Done (true, (fst s, v)))
    (fun off v len d m d' m' => d' = v /\ m' = m) latch_calls 3 latch_guests latch_events
    latch_host 99) as (d' & logs & closed & f & E & Hs & Hr & _); try reflexivity.
  - vm_compute. discriminate.
  - intros script log off v size s d Hq Hv. unfold wpx.
    split; [reflexivity|]. split; [exact Hq | now split].
  - split; try reflexivity.
    + constructor.
    + constructor. constructor.
    + intros H. apply list_elem_of_In in H as [H|[H|[]]]; discriminate H.
    + intros k Hk. apply list_elem_of_In in Hk as [Hk|[]].
      destruct k as [|[|k]]; vm_compute in Hk; discriminate Hk.
  - apply arrivals_intr, arrivals_guest; [assumption | assumption|].
    apply arrivals_guest; [assumption | assumption | constructor].
  - repeat constructor.
  - exists d', logs, closed, f. split; [exact E|]. split; [exact Hr|].
    assert (forall d vs d1 m m1, runs latch (fun d off len => d)
      (fun off v len d m d' m' => d' = v /\ m' = m) latch_program d m vs d1 m1 -> vs = [0x7890]) as Hv.
    { intros d vs d1 m m1 H. inversion H as [| |? ? ? ? ? ? ? ? ? ? ? [-> _] Hr1]; subst.
      inversion Hr1 as [|? ? ? ? ? vs1 ? ? Hr2|]; subst. now inversion Hr2. }
    inversion Hs as [|? ? ? ? ? ? ? ? ? H1 Hs1]; subst.
    inversion Hs1 as [|? ? ? ? ? ? ? ? ? H2 Hs2]; subst. inversion Hs2; subst.
    apply Hv in H1, H2. now subst.
Defined.
