(* ===== verification/Membench.v ===== *)
(** * The UIO memory benchmark

    [src/tools/uio-membench.c] times copies and fills of the end of the DMA window
    behind [/dev/uioX], which is live memory of the other machine: it saves the region
    first and puts it back at the end. Floating-point throughput is only printed; the
    report keeps the numbers it is computed from. *)

From S2P Require Import Prelude Fabric CStrings LinuxUio Endpoints.

#[local] Open Scope Z_scope.
#[local] Open Scope c_scope.

(** ** Numbers and sysfs *)

Definition mb_parse_u64 (text : string) : option Z :=
  let '(value, rest, erange) := strtoull 0 text in
  if erange || bool_decide (rest = text) || negb (bool_decide (rest = ""%string))
  then None else Some (u64 value).

(** The first [n] characters. *)
Definition prefix (n : nat) (s : string) : string := String.substring 0 n s.

(** [file] is what a [read] of the file returns without the length limit, [None] when
    it cannot be opened or read. *)
Definition mb_read_sysfs_u64 (file : option string) : option Z :=
  match file with
  | None => None
  | Some text =>
      if bool_decide (text = ""%string) then None
      else mb_parse_u64 (chomp (prefix 63 text))
  end.

(** ** State *)

Record mb_report : Type := {
  rp_label : string;
  rp_device : string;
  rp_offset : Z;
  rp_bytes : Z;
  rp_repeat : Z;
  rp_total : Z;
  rp_read_ns : Z;
  rp_write_ns : Z;
  rp_sink : Z;
}.

(** The window behind the mapping, the numbers of open descriptors, mappings and
    allocated buffers, the outcomes of the next calls of [malloc] (success when
    exhausted) and the next readings of the clock (0 when exhausted), and what was
    printed. *)
Record mb_state : Type := {
  mb_window : list Z;
  mb_fds : nat;
  mb_maps : nat;
  mb_bufs : nat;
  mb_alloc : list bool;
  mb_clock : list (Z * Z);
  mb_out : list mb_report;
}.

Definition mb_upd (window : list Z) (fds maps bufs : nat) (s : mb_state) : mb_state :=
  {| mb_window := window; mb_fds := fds; mb_maps := maps; mb_bufs := bufs;
     mb_alloc := mb_alloc s; mb_clock := mb_clock s; mb_out := mb_out s |}.

Definition mb_malloc : M mb_state bool := fun s =>
  let ok := match mb_alloc s with b :: _ => b | [] => true end in
  Done (ok, {| mb_window := mb_window s; mb_fds := mb_fds s; mb_maps := mb_maps s;
               mb_bufs := if ok then S (mb_bufs s) else mb_bufs s;
               mb_alloc := tl (mb_alloc s); mb_clock := mb_clock s; mb_out := mb_out s |}).

(** [free]; the null pointer is ignored. *)
Definition mb_free (allocated : bool) : M mb_state unit :=
  modify (fun s => mb_upd (mb_window s) (mb_fds s) (mb_maps s)
    (if allocated then pred (mb_bufs s) else mb_bufs s) s).

Definition mb_monotonic_ns : M mb_state Z := fun s =>
  let '(sec, nsec) := match mb_clock s with t :: _ => t | [] => (0, 0) end in
  Done (u64 (u64 sec * 1000000000 + u64 nsec),
        {| mb_window := mb_window s; mb_fds := mb_fds s; mb_maps := mb_maps s;
           mb_bufs := mb_bufs s; mb_alloc := mb_alloc s; mb_clock := tl (mb_clock s);
           mb_out := mb_out s |}).

(** Access to the mapping; outside it is undefined. *)
Definition win_load (off len : Z) : M mb_state (list Z) := fun s =>
  if (0 <=? off) && (0 <=? len) && (off + len <=? zlen (mb_window s))
  then Done (slice off len (mb_window s), s) else UB.

Definition win_store (off : Z) (data : list Z) : M mb_state unit := fun s =>
  if (0 <=? off) && (off + zlen data <=? zlen (mb_window s))
  then Done (tt, mb_upd (splice off data (mb_window s)) (mb_fds s) (mb_maps s) (mb_bufs s) s)
  else UB.

(** An element of a heap buffer. *)
Definition buf_at (buf : list Z) (i : Z) : M mb_state Z := fun s =>
  match buf !! Z.to_nat i with Some b => Done (b, s) | None => UB end.

(** ** The benchmark *)

Definition probe_index (i size : Z) : Z := u64 (i * 4099) mod size.

Definition fill_byte (i : Z) : Z := u8 (Z.lxor 0xa5 (u32 i)).

(** The loops, from iteration [i] with [n] to go: elapsed time and sink. *)
Fixpoint read_rounds (n : nat) (i offset size ns sink : Z) : M mb_state (Z * Z) :=
  match n with
  | O => ret (ns, sink)
  | S n =>
      start ← mb_monotonic_ns;
      copy_buf ← win_load offset size;
      stop ← mb_monotonic_ns;
      b ← buf_at copy_buf (probe_index i size);
      read_rounds n (i + 1) offset size (u64 (ns + u64 (stop - start))) (Z.lxor sink b)
  end.

Fixpoint write_rounds (n : nat) (i offset size ns sink : Z) : M mb_state (Z * Z) :=
  match n with
  | O => ret (ns, sink)
  | S n =>
      start ← mb_monotonic_ns;
      win_store offset (replicate (Z.to_nat size) (fill_byte i));;
      stop ← mb_monotonic_ns;
      b ← win_load (offset + probe_index i size) 1;
      write_rounds n (i + 1) offset size (u64 (ns + u64 (stop - start)))
        (Z.lxor sink (b !!! 0%nat))
  end.

Definition bench_region (label device : string) (offset size repeat : Z) : M mb_state unit :=
  copy_ok ← mb_malloc;
  saved_ok ← mb_malloc;
  if negb copy_ok || negb saved_ok then mb_free copy_ok;; mb_free saved_ok else
  saved ← win_load offset size;
  r ← read_rounds (Z.to_nat repeat) 0 offset size 0 0;
  w ← write_rounds (Z.to_nat repeat) 0 offset size 0 (snd r);
  win_store offset saved;;
  (modify (fun s =>
    {| mb_window := mb_window s; mb_fds := mb_fds s; mb_maps := mb_maps s;
       mb_bufs := mb_bufs s; mb_alloc := mb_alloc s; mb_clock := mb_clock s;
       mb_out := {| rp_label := label; rp_device := device; rp_offset := offset;
                    rp_bytes := size; rp_repeat := repeat; rp_total := u64 (size * repeat);
                    rp_read_ns := fst r; rp_write_ns := fst w; rp_sink := snd w |}
                 :: mb_out s |}));;
  mb_free true;; mb_free true.

(** A numeric argument, unchecked. *)
Definition arg_u64 (arg : option string) (dflt : Z) : Z :=
  match arg with Some text => fst (fst (strtoull 0 text)) | None => dflt end.

(** [main]: [uh_mmap] maps resource 1 of the device; the exit status. *)
Definition membench_main (h : uio_host) (argv : list string) : M mb_state Z :=
  let uio := default "/dev/uio0"%string (argv !! 1%nat) in
  let size := arg_u64 (argv !! 2%nat) (64 * 1024 * 1024) in
  let repeat := arg_u64 (argv !! 3%nat) 3 in
  match strrchr "/" uio with
  | None => ret 2
  | Some name =>
      if bool_decide (name = ""%string) then ret 2 else
      let path := prefix 127 ("/sys/class/uio/" +:+ name +:+ "/maps/map1/size") in
      match mb_read_sysfs_u64 (uh_file h path) with
      | None => ret 1
      | Some map_size =>
          if (size =? 0) || (repeat =? 0) || (map_size <? size) then ret 2 else
          if uh_open h uio <? 0 then ret 1 else
          (modify (fun s => mb_upd (mb_window s) (S (mb_fds s)) (mb_maps s) (mb_bufs s) s));;
          let map := uh_mmap h uio 1 map_size in
          (modify (fun s => mb_upd (mb_window s) (pred (mb_fds s)) (mb_maps s) (mb_bufs s) s));;
          match map with
          | None => ret 1
          | Some window =>
              (modify (fun s => mb_upd window (mb_fds s) (S (mb_maps s)) (mb_bufs s) s));;
              let offset := u64 (map_size - size) in
              bench_region "UIO_MEMBENCH" uio offset size repeat;;
              (modify (fun s => mb_upd (mb_window s) (mb_fds s) (pred (mb_maps s)) (mb_bufs s) s));;
              ret 0
          end
      end
  end.

(** ** The parsers agree *)

Lemma mb_parse_u64_eq text : mb_parse_u64 text = parse_u64 (Some text).
Proof.
  unfold mb_parse_u64, parse_u64. case_bool_decide as He; [now subst|].
  destruct (strtoull 0 text) as [[v rest] er].
  destruct er; cbn [orb]; [reflexivity|].
  case_bool_decide as Hr; case_bool_decide as Hn; cbn [orb negb]; congruence.
Qed.

Lemma chomp_fgets n text : chomp (fgets (S n) text) = chomp (prefix n text).
Proof.
  revert n. induction text as [|a text IH]; intros [|n]; try reflexivity.
  change (fgets (S (S n)) (String a text))
    with (if char_eqb a "010" then String a EmptyString else String a (fgets (S n) text)).
  change (prefix (S n) (String a text)) with (String a (prefix n text)).
  destruct (char_eqb a "010") eqn:E.
  - unfold chomp. cbn [strchr]. now rewrite E.
  - specialize (IH n). unfold chomp in *. cbn [strchr]. rewrite E.
    destruct (strchr "010" (fgets (S n) text)) as [[? ?]|],
      (strchr "010" (prefix n text)) as [[? ?]|]; now f_equal.
Qed.

(** The tool reads sysfs files as the UIO fabric does. *)
Lemma mb_read_sysfs_eq file : mb_read_sysfs_u64 file = read_sysfs_u64 file.
Proof.
  destruct file as [text|]; [|reflexivity]. unfold mb_read_sysfs_u64, read_sysfs_u64.
  case_bool_decide; [reflexivity|].
  now rewrite mb_parse_u64_eq, (chomp_fgets 63).
Qed.

Lemma digit_value_pos a : 0 <= digit_value a.
Proof.
  unfold digit_value. generalize (Z.of_N (N_of_ascii a)). intros n.
  destruct ((48 <=? n) && (n <=? 57)) eqn:E1; [lia|].
  destruct ((97 <=? n) && (n <=? 122)) eqn:E2; [lia|].
  destruct ((65 <=? n) && (n <=? 90)) eqn:E3; lia.
Qed.

Lemma scan_digits_pos base acc s : 0 <= base -> 0 <= acc -> 0 <= fst (scan_digits base acc s).
Proof.
  intros Hb. revert acc. induction s as [|a s IH]; intros acc Ha; cbn; [assumption|].
  destruct (_ <? base); [|assumption]. apply IH. pose proof (digit_value_pos a). nia.
Qed.

Lemma strtoull_range text : in_width 64 (fst (fst (strtoull 0 text))).
Proof.
  unfold strtoull. destruct (scan_sign _) as [neg s2].
  destruct (scan_base 0 s2) as [radix s3] eqn:Eb.
  assert (0 <= radix) as Hr.
  { unfold scan_base in Eb. cbn [Z.eqb] in Eb.
    destruct s2 as [|a r]; [injection Eb as <- <-; lia|].
    destruct (char_eqb a "0"); [|injection Eb as <- <-; lia].
    destruct r as [|x h]; [injection Eb as <- <-; lia|].
    destruct (_ && _); injection Eb as <- <-; lia. }
  destruct (negb _); [split; cbn; lia|].
  pose proof (scan_digits_pos radix 0 s3 Hr (Z.le_refl 0)) as Hp.
  destruct (scan_digits radix 0 s3) as [v rest]. cbn [fst] in Hp.
  destruct (Z.ltb_spec ULLONG_MAX v) as [Hm|Hm]; cbn [fst].
  - split; cbn; unfold ULLONG_MAX; lia.
  - destruct neg; [apply u64_range|]. unfold in_width, ULLONG_MAX in *. lia.
Qed.

(** ** Saving and restoring *)

Lemma splice_slice off len (l : list Z) :
  0 <= off -> 0 <= len -> off + len <= zlen l -> splice off (slice off len l) l = l.
Proof.
  intros H1 H2 H3. unfold splice. unfold zlen in H3.
  assert (length (slice off len l) = Z.to_nat len) as ->
    by (unfold slice; rewrite length_take, length_drop; lia).
  unfold slice. rewrite <- drop_drop, take_drop. apply take_drop.
Qed.

(** Everything but the window, the clock and the allocator. *)
Record mb_kept (s s' : mb_state) : Prop := {
  mk_fds : mb_fds s' = mb_fds s;
  mk_maps : mb_maps s' = mb_maps s;
  mk_bufs : mb_bufs s' = mb_bufs s;
  mk_out : mb_out s' = mb_out s;
}.

(** The values of [n] probes from [i] on, folded into the sink. *)
Definition probes (f : Z -> Z) (n : nat) (i sink : Z) : Z :=
  fold_left Z.lxor (map (fun k => f (i + Z.of_nat k)) (seq 0 n)) sink.

Lemma probes_step f n i sink : probes f (S n) i sink = probes f n (i + 1) (Z.lxor sink (f i)).
Proof.
  unfold probes. cbn [seq map fold_left]. rewrite Z.add_0_r, <- seq_shift, map_map.
  f_equal. apply map_ext. intros k. f_equal. lia.
Qed.

Lemma probe_index_range i size : 0 < size -> 0 <= probe_index i size < size.
Proof. intros. unfold probe_index. now apply Z.mod_pos_bound. Qed.

Section rounds.
Context (offset size : Z) (Hoff : 0 <= offset) (Hsize : 0 < size).
Implicit Types s : mb_state.

Lemma clock_spec s :
  exists t s', mb_monotonic_ns s = Done (t, s') /\ mb_kept s s' /\ mb_window s' = mb_window s.
Proof.
  unfold mb_monotonic_ns. destruct (mb_clock s) as [|[sec nsec] l]; eexists _, _;
    (split; [reflexivity|]); now repeat split.
Qed.

Lemma mb_kept_trans s1 s2 s3 : mb_kept s1 s2 -> mb_kept s2 s3 -> mb_kept s1 s3.
Proof. intros [] []. split; congruence. Qed.

Lemma mb_kept_refl s : mb_kept s s.
Proof. now split. Qed.

(** A timed call: two readings of the clock around it. *)
Lemma wp_clock {A} (k : Z -> M mb_state A) s (Q : A -> mb_state -> Prop) :
  (forall t s', mb_kept s s' -> mb_window s' = mb_window s -> wp (k t) s' Q) ->
  wp (bind mb_monotonic_ns k) s Q.
Proof.
  intros H. rewrite wpx_bind. destruct (clock_spec s) as (t & s' & E & Hk & Hw).
  rewrite (wpx_done _ _ _ _ _ _ E). now apply H.
Qed.

Lemma read_rounds_spec n i ns sink s :
  offset + size <= zlen (mb_window s) ->
  wp (read_rounds n i offset size ns sink) s (fun r s' =>
    mb_kept s s' /\ mb_window s' = mb_window s /\
    snd r = probes (fun i => slice offset size (mb_window s) !!! Z.to_nat (probe_index i size))
              n i sink).
Proof.
  revert i ns sink s. induction n as [|n IH]; intros i ns sink s Hl; cbn [read_rounds].
  { rewrite wpx_ret. split; [apply mb_kept_refl | now split]. }
  apply wp_clock. intros t1 s1 K1 W1. rewrite wpx_bind. unfold win_load. unfold wpx at 1.
  rewrite W1, !(proj2 (Z.leb_le _ _)) by lia. cbn [andb].
  apply wp_clock. intros t2 s2 K2 W2. rewrite wpx_bind. unfold buf_at, wpx at 1.
  pose proof (probe_index_range i size Hsize) as Hp.
  destruct (lookup_lt_is_Some_2 (slice offset size (mb_window s))
    (Z.to_nat (probe_index i size))) as [b Eb].
  { pose proof (zlen_slice offset size (mb_window s)). unfold zlen in *. lia. }
  rewrite Eb. wpuse IH; [congruence|]. intros r s3 (K3 & W3 & ->).
  rewrite W1 in W2. split; [eauto using mb_kept_trans|]. split; [congruence|].
  rewrite probes_step, W2. now rewrite (list_lookup_total_correct _ _ _ Eb).
Qed.

(** Filling keeps everything outside the region, so that storing the saved bytes gives
    the old window back. *)
Definition restorable (w w' : list Z) : Prop :=
  zlen w' = zlen w /\
  forall d, zlen d = size -> splice offset d w' = splice offset d w.

Lemma restorable_fill w w' d : restorable w w' -> offset + size <= zlen w ->
  zlen d = size -> restorable w (splice offset d w').
Proof.
  intros [Hz Hr] Hl Hd. split.
  - rewrite zlen_splice; lia.
  - intros d' Hd'. rewrite splice_splice by (unfold zlen in *; lia). now apply Hr.
Qed.

Lemma write_rounds_spec n i ns sink w s :
  restorable w (mb_window s) -> offset + size <= zlen w ->
  wp (write_rounds n i offset size ns sink) s (fun r s' =>
    mb_kept s s' /\ restorable w (mb_window s') /\ snd r = probes fill_byte n i sink).
Proof.
  revert i ns sink s. induction n as [|n IH]; intros i ns sink s Hr Hl; cbn [write_rounds].
  { rewrite wpx_ret. split; [apply mb_kept_refl | now split]. }
  pose proof Hr as [Hz _]. set (d := replicate (Z.to_nat size) (fill_byte i)).
  assert (zlen d = size) as Hd by (unfold zlen, d; rewrite length_replicate; lia).
  apply wp_clock. intros t1 s1 K1 W1. rewrite wpx_bind. unfold win_store. unfold wpx at 1.
  rewrite W1, !(proj2 (Z.leb_le _ _)) by lia. cbn [andb].
  apply wp_clock. cbn [mb_window mb_upd]. intros t2 s2 K2 W2. rewrite wpx_bind.
  unfold win_load, wpx at 1. rewrite W2, zlen_splice by lia.
  pose proof (probe_index_range i size Hsize) as Hp. rewrite !(proj2 (Z.leb_le _ _)) by lia.
  cbn [andb].
  assert (slice (offset + probe_index i size) 1 (splice offset d (mb_window s)) !!! 0%nat
          = fill_byte i) as ->.
  { apply list_lookup_total_correct. rewrite lookup_slice by lia.
    replace (Z.to_nat (offset + probe_index i size) + 0)%nat
      with (Z.to_nat offset + Z.to_nat (probe_index i size))%nat by lia.
    rewrite lookup_splice_in by (unfold zlen in *; lia).
    apply lookup_replicate_2. lia. }
  wpuse IH; [rewrite W2; now apply restorable_fill | assumption|].
  intros r s3 (K3 & W3 & ->). rewrite probes_step.
  split; [|now split]. eapply mb_kept_trans; [exact K1|]. eapply mb_kept_trans; [|exact K3].
  destruct K2. now split.
Qed.
End rounds.

(** What the region reports. *)
Definition bench_sink (region : list Z) (size repeat : Z) : Z :=
  probes fill_byte (Z.to_nat repeat) 0
    (probes (fun i => region !!! Z.to_nat (probe_index i size)) (Z.to_nat repeat) 0 0).

Lemma bench_region_spec label device offset size repeat s :
  0 <= offset -> 0 < size -> offset + size <= zlen (mb_window s) ->
  wp (bench_region label device offset size repeat) s (fun _ s' =>
    mb_window s' = mb_window s /\ mb_fds s' = mb_fds s /\ mb_maps s' = mb_maps s /\
    mb_bufs s' = mb_bufs s /\
    (mb_out s' = mb_out s \/
     exists r, mb_out s' = r :: mb_out s /\ rp_total r = u64 (size * repeat) /\
       rp_sink r = bench_sink (slice offset size (mb_window s)) size repeat) /\
    (mb_alloc s = [] -> mb_out s' <> mb_out s)).
Proof.
  intros Ho Hs Hl. unfold bench_region. rewrite wpx_bind. unfold mb_malloc at 1, wpx at 1.
  rewrite wpx_bind. unfold mb_malloc, wpx at 1. cbn [mb_alloc mb_bufs mb_window mb_fds mb_maps mb_clock mb_out].
  set (c := match mb_alloc s with b :: _ => b | [] => true end).
  set (v := match tl (mb_alloc s) with b :: _ => b | [] => true end).
  destruct (negb c || negb v) eqn:Ecv.
  { unfold mb_free. rewrite wpx_bind, !wpx_modify. cbn.
    destruct c eqn:Ec, v eqn:Ev; try discriminate Ecv; cbn;
      (repeat (split; [reflexivity|]); split; [now left|]; intros Ea;
       unfold c, v in *; rewrite Ea in *; discriminate). }
  apply orb_false_elim in Ecv as [Ec Ev]. apply negb_false_iff in Ec, Ev. rewrite Ec, Ev.
  rewrite wpx_bind. unfold win_load, wpx at 1. cbn [mb_window].
  rewrite !(proj2 (Z.leb_le _ _)) by lia. cbn [andb]. rewrite wpx_bind.
  wpuse (read_rounds_spec offset size); [assumption | assumption | assumption|].
  intros r s1 (K1 & W1 & Er). cbn [mb_window] in W1, Er. rewrite wpx_bind.
  wpuse (write_rounds_spec offset size Ho Hs _ _ _ _ (mb_window s));
    [rewrite W1; now split | assumption|].
  intros w s2 (K2 & [Hz Hr] & Ew). rewrite wpx_bind. unfold win_store, wpx at 1.
  assert (zlen (slice offset size (mb_window s)) = size) as Hsl by (apply zlen_slice; lia).
  rewrite Hsl, !(proj2 (Z.leb_le _ _)) by lia. cbn [andb].
  rewrite Hr, splice_slice by (lia || assumption).
  unfold mb_free. rewrite !wpx_bind, !wpx_modify. cbn.
  destruct K1 as [F1 M1 B1 O1], K2 as [F2 M2 B2 O2]. cbn in *.
  split; [reflexivity|]. split; [congruence|]. split; [congruence|].
  split; [rewrite B2, B1; reflexivity|]. split.
  - right. eexists. split; [now rewrite O2, O1|]. cbn. split; [reflexivity|].
    rewrite Ew, Er. reflexivity.
  - intros _ E. apply (f_equal length) in E. rewrite O2, O1 in E. cbn in E. lia.
Qed.

(** The outcome of a run: released resources, and the window of a successful one. *)
Definition bench_outcome (h : uio_host) (s : mb_state) (code : Z) (s' : mb_state) : Prop :=
  mb_fds s' = mb_fds s /\ mb_maps s' = mb_maps s /\ mb_bufs s' = mb_bufs s /\
  (code <> 0 -> mb_window s' = mb_window s /\ mb_out s' = mb_out s) /\
  (code = 0 -> exists uio size repeat window,
     uh_mmap h uio 1 (zlen window) = Some window /\ 0 < size <= zlen window /\
     mb_window s' = window /\
     (mb_alloc s = [] -> exists r, mb_out s' = r :: mb_out s /\
        rp_total r = u64 (size * repeat) /\
        rp_sink r = bench_sink (slice (zlen window - size) size window) size repeat)).

Lemma bench_refused h s code : code <> 0 -> bench_outcome h s code s.
Proof. intros Hc. now repeat (split; [easy|]). Qed.

Lemma arg_u64_range arg dflt : in_width 64 dflt -> in_width 64 (arg_u64 arg dflt).
Proof. intros Hd. destruct arg; [apply strtoull_range | exact Hd]. Qed.

Lemma mb_sysfs_range file size : mb_read_sysfs_u64 file = Some size -> in_width 64 size.
Proof.
  rewrite mb_read_sysfs_eq. unfold read_sysfs_u64. destruct file; [|easy].
  case_bool_decide; [easy|]. apply parse_u64_range.
Qed.

(** ** Claims *)

(** The benchmark leaves no trace. On a host whose [mmap] returns windows of the
    requested length, the tool performs no access outside the mapping for any argument
    list, and returns; descriptors, mappings and buffers are released on every path;
    a failing run touches no memory and prints nothing; a run that exits with 0 has
    mapped the window sysfs describes and leaves every byte of it as it was, and it
    reports the bytes it read and wrote there unless a buffer could not be allocated. *)
Theorem membench_transparent h argv s :
  host_ok h ->
  exists code s', membench_main h argv s = Done (code, s') /\ bench_outcome h s code s'.
Proof.
  intros Hh. enough (wp (membench_main h argv) s (bench_outcome h s)) as H
    by exact (wp_elim _ _ _ H).
  unfold membench_main. set (uio := default "/dev/uio0"%string (argv !! 1%nat)).
  pose proof (arg_u64_range (argv !! 2%nat) (64 * 1024 * 1024)) as Hs.
  set (size := arg_u64 (argv !! 2%nat) (64 * 1024 * 1024)) in *.
  set (repeat := arg_u64 (argv !! 3%nat) 3). cbv zeta.
  destruct (strrchr "/" uio) as [name|]; [|now apply bench_refused].
  case_bool_decide; [now apply bench_refused|].
  destruct (mb_read_sysfs_u64 _) as [map_size|] eqn:Em; [|now apply bench_refused].
  apply mb_sysfs_range in Em. destruct ((size =? 0) || _ || _) eqn:Ev; [now apply bench_refused|].
  destruct (_ <? 0); [now apply bench_refused|]. rewrite !wpx_bind, !wpx_modify.
  destruct (uh_mmap h uio 1 map_size) as [window|] eqn:Ew;
    [|destruct s; now apply bench_refused].
  wpsimpl. rewrite !orb_false_iff, Z.eqb_neq, Z.ltb_ge in Ev.
  destruct Ev as [[Hz _] Hle], (Hh _ _ _ _ Ew) as [Hwin _]. unfold in_width in *.
  rewrite u64_small by (unfold in_width; lia).
  wpuse bench_region_spec; [lia | lia | cbn; lia|].
  cbn [mb_upd mb_window mb_fds mb_maps mb_bufs mb_alloc mb_out].
  intros _ s1 (W & F & Mp & B & Ho & Hne). wpsimpl.
  unfold bench_outcome. cbn. rewrite F, Mp, B, W. repeat (split; [easy|]).
  intros _. exists uio, size, repeat, window. rewrite Hwin.
  split; [assumption|]. split; [lia|]. split; [reflexivity|]. intros Ha.
  specialize (Hne Ha). destruct Ho as [Ho|Ho]; [easy | exact Ho].
Qed.

(** A window of four bytes, its last two measured twice. *)
Definition bench_host : uio_host :=
  {| uh_page_size := 4096; uh_open := fun _ => 3;
     uh_file := fun path => if bool_decide (path = "/sys/class/uio/uio0/maps/map1/size"%string)
                            then Some ("0x4" +:+ String "010" "") else None;
     uh_mmap := fun _ _ size => if size =? 4 then Some [1; 2; 3; 4] else None |}.
Definition bench_start : mb_state :=
  {| mb_window := []; mb_fds := 3; mb_maps := 0; mb_bufs := 0; mb_alloc := [];
     mb_clock := [(1, 5); (1, 9)]; mb_out := [] |}.

Lemma membench_transparent_witness :
  exists code s', membench_main bench_host ["uio-membench"; "/dev/uio0"; "2"; "2"]%string bench_start
      = Done (code, s') /\ code = 0 /\ mb_window s' = [1; 2; 3; 4] /\
    map rp_sink (mb_out s') = [Z.lxor (Z.lxor 3 4) (Z.lxor 0xa5 0xa4)].
Proof.
  destruct (membench_transparent bench_host ["uio-membench"; "/dev/uio0"; "2"; "2"]%string
    bench_start) as (code & s' & E & _).
  - intros path r size w. cbn. destruct (Z.eqb_spec size 4); [|easy].
    intros [= <-]. subst. split; [reflexivity|]. repeat constructor; discriminate.
  - exists code, s'. split; [exact E|]. vm_compute in E. injection E as <- <-.
    now repeat split.
Defined.

(** A size beyond the window is refused, and a malformed one reads as 0. *)
Example membench_refuses :
  membench_main bench_host ["uio-membench"; "/dev/uio0"; "5"]%string bench_start
    = Done (2, bench_start) /\
  membench_main bench_host ["uio-membench"; "/dev/uio0"; "x"]%string bench_start
    = Done (2, bench_start) /\
  membench_main bench_host ["uio-membench"; "uio0"]%string bench_start = Done (2, bench_start).
Proof. repeat split; vm_compute; reflexivity. Qed.
