(* ===== verification/Doorbell.v ===== *)
(** * The doorbell of the UIO topology

    How a register write of the frontend guest wakes the backend daemon, across five
    parties: the UIO mode of the QEMU patch on the frontend side ([axi_uio_write],
    [axi_uio_notify_backend], [axi_uio_notify_backend_async],
    [axi_wait_for_notify_ack], [axi_control_read]) and on the backend side
    ([axi_control_read], [axi_uio_write] of the interrupt-control register), the
    control socket between them, the kernel module [chiplets_uio.c] with the event
    counter of the UIO core, and the loop of [linux_uio.c]. Every party moves in steps
    that interleave freely. QEMU stores a register with one access; the daemon loads and
    resets the notify register, which all queues share, with four byte accesses each, and
    the guest may store between any two of them. The control connection does not break.
    A queue is represented by the number of requests the guest has published and the
    daemon has not yet taken. *)

From S2P Require Import Prelude Endian CStrings VirtioMmio ChipletsUio LinuxUio.

#[local] Open Scope Z_scope.
#[local] Close Scope c_scope.

(** ** State *)

Inductive control_msg : Type :=
| FrontendNotify
| FrontendIrqAssert
| FrontendIrqDeassert
| FrontendNotifyAck.

(** Properties of the frontend device, [notify-policy=barrier] and [notify-ack], and the
    queues of which the device takes requests when it is notified. *)
Record bell_config : Type := {
  bc_barrier : bool;
  bc_notify_ack : bool;
  bc_serves : Z -> bool;
}.

Definition axi_uio_write_needs_backend (cfg : bell_config) (addr : Z) : bool :=
  if negb (bc_barrier cfg) then true
  else existsb (Z.eqb addr)
    [VIRTIO_MMIO_DEVICE_FEATURES_SEL; VIRTIO_MMIO_DRIVER_FEATURES;
     VIRTIO_MMIO_DRIVER_FEATURES_SEL; VIRTIO_MMIO_QUEUE_SEL; VIRTIO_MMIO_QUEUE_READY;
     VIRTIO_MMIO_INTERRUPT_ACK; VIRTIO_MMIO_QUEUE_NOTIFY; VIRTIO_MMIO_STATUS].

(** The frontend QEMU between two events: idle, inside [axi_uio_write] with the store
    done and the notification still to come (asynchronous for the queue notifications
    of the barrier policy), or waiting for the acknowledgement. It holds the global
    lock in the last two, so no control message is handled elsewhere. *)
Inductive frontend_cpu : Type :=
| CpuIdle
| CpuStored (async : bool)
| CpuWait.

(** The daemon: blocked in [read]; about to write the enable word; at the acknowledge
    register of the scan; about to reset it; at the notify register, some bytes of which
    are loaded; about to reset it, with the number of bytes stored; about to call the
    device with the value found; about to flush the interrupt level. *)
Inductive daemon_phase : Type :=
| DRead
| DArm
| DAck
| DAckClear
| DLoad (loaded : list Z)
| DClear (value : Z) (stored : nat)
| DServe (value : Z)
| DFlush.

Record bell : Type := {
  (* the shared register page: the bytes of the notify register, an interrupt
     acknowledgement *)
  pg_notify : list Z;
  pg_ack : bool;
  (* the guest, for each queue: published requests, one not yet notified, and whether the
     last notification was lost in the register (not part of the program, see
     [guest_notify]); an interrupt edge to handle *)
  g_work : Z -> nat;
  g_due : Z -> bool;
  g_lost : Z -> bool;
  g_edge : bool;
  (* the frontend QEMU: its CPU, async_notify_pending, the interrupt line *)
  fr_cpu : frontend_cpu;
  fr_pending : bool;
  fr_irq : bool;
  (* the control socket, frontend to backend and back *)
  ch_up : list control_msg;
  ch_down : list control_msg;
  (* the backend machine: a latched edge, the module and its line, the event counter
     and the value the daemon has read *)
  bk_latch : bool;
  bk_uio : chiplets_uio_dev * irq_line;
  bk_event : nat;
  bk_seen : nat;
  (* the daemon: phase, interrupt status of the device, pending_irq_level *)
  dm_phase : daemon_phase;
  dm_status : bool;
  dm_level : option bool;
}.

Definition on_page (notify : list Z) (ack : bool) (s : bell) : bell :=
  {| pg_notify := notify; pg_ack := ack; g_work := g_work s; g_due := g_due s; g_lost := g_lost s;
     g_edge := g_edge s; fr_cpu := fr_cpu s; fr_pending := fr_pending s; fr_irq := fr_irq s;
     ch_up := ch_up s; ch_down := ch_down s; bk_latch := bk_latch s; bk_uio := bk_uio s;
     bk_event := bk_event s; bk_seen := bk_seen s; dm_phase := dm_phase s;
     dm_status := dm_status s; dm_level := dm_level s |}.
Definition on_guest (work : Z -> nat) (due lost : Z -> bool) (edge : bool) (s : bell) : bell :=
  {| pg_notify := pg_notify s; pg_ack := pg_ack s; g_work := work; g_due := due;
     g_lost := lost; g_edge := edge; fr_cpu := fr_cpu s; fr_pending := fr_pending s; fr_irq := fr_irq s;
     ch_up := ch_up s; ch_down := ch_down s; bk_latch := bk_latch s; bk_uio := bk_uio s;
     bk_event := bk_event s; bk_seen := bk_seen s; dm_phase := dm_phase s;
     dm_status := dm_status s; dm_level := dm_level s |}.
Definition on_frontend (cpu : frontend_cpu) (pending irq : bool) (s : bell) : bell :=
  {| pg_notify := pg_notify s; pg_ack := pg_ack s; g_work := g_work s; g_due := g_due s; g_lost := g_lost s;
     g_edge := g_edge s; fr_cpu := cpu; fr_pending := pending; fr_irq := irq;
     ch_up := ch_up s; ch_down := ch_down s; bk_latch := bk_latch s; bk_uio := bk_uio s;
     bk_event := bk_event s; bk_seen := bk_seen s; dm_phase := dm_phase s;
     dm_status := dm_status s; dm_level := dm_level s |}.
Definition on_channels (up down : list control_msg) (s : bell) : bell :=
  {| pg_notify := pg_notify s; pg_ack := pg_ack s; g_work := g_work s; g_due := g_due s; g_lost := g_lost s;
     g_edge := g_edge s; fr_cpu := fr_cpu s; fr_pending := fr_pending s; fr_irq := fr_irq s;
     ch_up := up; ch_down := down; bk_latch := bk_latch s; bk_uio := bk_uio s;
     bk_event := bk_event s; bk_seen := bk_seen s; dm_phase := dm_phase s;
     dm_status := dm_status s; dm_level := dm_level s |}.
Definition on_backend (latch : bool) (uio : chiplets_uio_dev * irq_line) (event seen : nat)
    (s : bell) : bell :=
  {| pg_notify := pg_notify s; pg_ack := pg_ack s; g_work := g_work s; g_due := g_due s; g_lost := g_lost s;
     g_edge := g_edge s; fr_cpu := fr_cpu s; fr_pending := fr_pending s; fr_irq := fr_irq s;
     ch_up := ch_up s; ch_down := ch_down s; bk_latch := latch; bk_uio := uio;
     bk_event := event; bk_seen := seen; dm_phase := dm_phase s;
     dm_status := dm_status s; dm_level := dm_level s |}.
Definition on_daemon (phase : daemon_phase) (status : bool) (level : option bool) (s : bell)
  : bell :=
  {| pg_notify := pg_notify s; pg_ack := pg_ack s; g_work := g_work s; g_due := g_due s; g_lost := g_lost s;
     g_edge := g_edge s; fr_cpu := fr_cpu s; fr_pending := fr_pending s; fr_irq := fr_irq s;
     ch_up := ch_up s; ch_down := ch_down s; bk_latch := bk_latch s; bk_uio := bk_uio s;
     bk_event := bk_event s; bk_seen := bk_seen s; dm_phase := phase;
     dm_status := status; dm_level := level |}.

(** ** The frontend QEMU *)

(** [axi_control_send] *)
Definition send_up (m : control_msg) (s : bell) : bell := on_channels (ch_up s ++ [m]) (ch_down s) s.

(** [qemu_set_irq]: the guest's interrupt controller latches a rising edge. *)
Definition set_irq (level : bool) (s : bell) : bell :=
  on_guest (g_work s) (g_due s) (g_lost s) (g_edge s || (level && negb (fr_irq s)))
    (on_frontend (fr_cpu s) (fr_pending s) level s).

(** [axi_uio_notify_backend], up to the wait. *)
Definition axi_uio_notify_backend (cfg : bell_config) (s : bell) : bell :=
  on_frontend (if bc_notify_ack cfg then CpuWait else CpuIdle) (fr_pending s) (fr_irq s)
    (send_up FrontendNotify s).

Definition axi_uio_notify_backend_async (cfg : bell_config) (s : bell) : bell :=
  if bc_notify_ack cfg && fr_pending s then on_frontend CpuIdle (fr_pending s) (fr_irq s) s
  else on_frontend CpuIdle (bc_notify_ack cfg) (fr_irq s) (send_up FrontendNotify s).

(** What [axi_uio_write] has left to do after the store to [addr]. *)
Definition after_store (cfg : bell_config) (addr : Z) : frontend_cpu :=
  if axi_uio_write_needs_backend cfg addr
  then CpuStored (bc_barrier cfg && (addr =? VIRTIO_MMIO_QUEUE_NOTIFY))
  else CpuIdle.

(** The rest of [axi_uio_write]. *)
Definition frontend_send (cfg : bell_config) (s : bell) : option bell :=
  match fr_cpu s with
  | CpuStored true => Some (axi_uio_notify_backend_async cfg s)
  | CpuStored false => Some (axi_uio_notify_backend cfg s)
  | _ => None
  end.

(** One message in the loop of [axi_wait_for_notify_ack]. *)
Definition axi_wait_for_notify_ack (s : bell) : option bell :=
  match fr_cpu s, ch_down s with
  | CpuWait, m :: rest =>
      let s := on_channels (ch_up s) rest s in
      Some (match m with
            | FrontendNotifyAck => on_frontend CpuIdle (fr_pending s) (fr_irq s) s
            | FrontendIrqAssert => set_irq true s
            | FrontendIrqDeassert => set_irq false s
            | FrontendNotify => s
            end)
  | _, _ => None
  end.

(** The deadline of that loop. *)
Definition frontend_timeout (s : bell) : option bell :=
  match fr_cpu s with
  | CpuWait => Some (on_frontend CpuIdle (fr_pending s) (fr_irq s) s)
  | _ => None
  end.

(** [axi_control_read] in the main loop of the frontend. *)
Definition frontend_control_read (s : bell) : option bell :=
  match fr_cpu s, ch_down s with
  | CpuIdle, m :: rest =>
      let s := on_channels (ch_up s) rest s in
      Some (match m with
            | FrontendNotify => set_irq false (set_irq true s)
            | FrontendIrqAssert => set_irq true s
            | FrontendIrqDeassert => set_irq false s
            | FrontendNotifyAck => on_frontend (fr_cpu s) false (fr_irq s) s
            end)
  | _, _ => None
  end.

(** ** The backend machine *)

(** [axi_control_read] in the backend QEMU: a notification is a pulse on the line, which
    the edge-triggered controller latches. *)
Definition backend_control_read (s : bell) : option bell :=
  match ch_up s with
  | m :: rest =>
      let s := on_channels rest (ch_down s) s in
      Some (match m with
            | FrontendNotify => on_backend true (bk_uio s) (bk_event s) (bk_seen s) s
            | _ => s
            end)
  | [] => None
  end.

(** A latched edge is taken while the line is enabled: the handler of the module runs
    and the UIO core counts the event. *)
Definition backend_irq (s : bell) : option bell :=
  if bk_latch s && (il_depth (snd (bk_uio s)) =? 0)
  then Some (on_backend false (chiplets_uio_irq (bk_uio s)) (S (bk_event s)) (bk_seen s) s)
  else None.

(** ** The daemon *)

Definition go (phase : daemon_phase) (s : bell) : bell :=
  on_daemon phase (dm_status s) (dm_level s) s.

(** The store of the interrupt level reaches [axi_uio_write] of the backend QEMU. *)
Definition flush_level (level : bool) (s : bell) : bell :=
  on_channels (ch_up s)
    (ch_down s ++ [if level then FrontendIrqAssert else FrontendIrqDeassert; FrontendNotifyAck]) s.

(** A function changed at one queue. *)
Definition upd {A} (q : Z) (x : A) (f : Z -> A) : Z -> A := fun q' => if q' =? q then x else f q'.

(** The notify register is loaded: idle, or the number of a queue. *)
Definition loaded_value (value : Z) : daemon_phase :=
  if value =? UIO_NOTIFY_IDLE then DFlush else DClear value 0.

Definition daemon_step (cfg : bell_config) (s : bell) : option bell :=
  match dm_phase s with
  | DRead =>  (* read(fd): blocks until the counter has moved *)
      if (bk_event s =? bk_seen s)%nat then None
      else Some (go DArm (on_backend (bk_latch s) (bk_uio s) (bk_event s) (bk_event s) s))
  | DArm =>   (* write(fd, 1) *)
      Some (go DAck (on_backend (bk_latch s) (chiplets_uio_irqcontrol 1 (bk_uio s))
                       (bk_event s) (bk_seen s) s))
  | DAck =>   (* INTERRUPT_ACK: the callback clears the status and lowers the line *)
      Some (if pg_ack s then on_daemon DAckClear false (Some false) s else go (DLoad []) s)
  | DAckClear => (* the acknowledge register is reset *)
      Some (on_page (pg_notify s) false (go (DLoad []) s))
  | DLoad loaded => (* one byte of load_le32 *)
      let loaded := loaded ++ [pg_notify s !!! length loaded] in
      Some (go (if (4 <=? length loaded)%nat then loaded_value (virtio_load_le32 loaded)
                else DLoad loaded) s)
  | DClear value k => (* one byte of store_le32 *)
      Some (on_page (<[k := virtio_store_le32 UIO_NOTIFY_IDLE !!! k]> (pg_notify s)) (pg_ack s)
              (go (if (3 <=? k)%nat then DServe value else DClear value (S k)) s))
  | DServe queue => (* the notify callback *)
      Some (if bc_serves cfg queue && negb (g_work s queue =? 0)%nat
            then on_guest (upd queue 0%nat (g_work s)) (g_due s) (g_lost s) (g_edge s)
                   (on_daemon DFlush true (Some true) s)
            else on_daemon DFlush (dm_status s) (Some (dm_status s)) s)
  | DFlush =>
      Some (match dm_level s with
            | None => go DRead s
            | Some level => on_daemon DRead (dm_status s) None (flush_level level s)
            end)
  end.

(** ** The guest *)

(** A request enters the available ring of a queue. *)
Definition guest_publish (q : Z) (s : bell) : bell :=
  on_guest (upd q (S (g_work s q)) (g_work s)) (upd q true (g_due s)) (g_lost s) (g_edge s) s.

(** Whether the daemon is going to call the device for queue [q] if nothing else is
    stored: the value it is loading, has loaded, or finds with the next scan. *)
Definition found_by_scan (phase : daemon_phase) (notify : list Z) (q : Z) : bool :=
  let there := bool_decide (notify = virtio_store_le32 q) in
  match phase with
  | DLoad loaded =>
      bool_decide (loaded ++ drop (length loaded) notify = virtio_store_le32 q)
  | DClear value _ => value =? q
  | DServe value => (value =? q) || there
  | _ => there
  end.

(** The notifications that are lost when [q] is stored: its own, if the daemon is not
    going to find it, and those it replaces. *)
Definition lost_after (q : Z) (s : bell) : Z -> bool := fun q' =>
  let found notify := found_by_scan (dm_phase s) notify q' in
  if q' =? q then negb (found (virtio_store_le32 q))
  else g_lost s q' || (found (pg_notify s) && negb (found (virtio_store_le32 q))).

(** A write of QueueNotify, as far as the store. *)
Definition guest_notify (cfg : bell_config) (q : Z) (s : bell) : option bell :=
  match fr_cpu s with
  | CpuIdle =>
      Some (on_page (virtio_store_le32 q) (pg_ack s)
             (on_guest (g_work s) (upd q false (g_due s)) (lost_after q s) (g_edge s)
             (on_frontend (after_store cfg VIRTIO_MMIO_QUEUE_NOTIFY) (fr_pending s) (fr_irq s) s)))
  | _ => None
  end.

(** The interrupt handler of the guest acknowledges. *)
Definition guest_isr (cfg : bell_config) (s : bell) : option bell :=
  match fr_cpu s with
  | CpuIdle =>
      if g_edge s
      then Some (on_page (pg_notify s) true (on_guest (g_work s) (g_due s) (g_lost s) false
                   (on_frontend (after_store cfg VIRTIO_MMIO_INTERRUPT_ACK) (fr_pending s)
                      (fr_irq s) s)))
      else None
  | _ => None
  end.

(** A write of another register, other than a reset. *)
Definition guest_other (cfg : bell_config) (addr : Z) (s : bell) : option bell :=
  if (addr =? VIRTIO_MMIO_QUEUE_NOTIFY) || (addr =? VIRTIO_MMIO_INTERRUPT_ACK) then None else
  match fr_cpu s with
  | CpuIdle => Some (on_frontend (after_store cfg addr) (fr_pending s) (fr_irq s) s)
  | _ => None
  end.

(** ** Steps *)

Inductive bell_action : Type :=
| ASend | AWait | ATimeout | AControl | ABackendRead | ABackendIrq | ADaemon
| APublish (q : Z) | ANotify (q : Z) | AIsr | AOther (addr : Z).

#[export] Instance bell_action_eq_dec : EqDecision bell_action.
Proof. solve_decision. Defined.

Definition bell_exec (cfg : bell_config) (a : bell_action) (s : bell) : option bell :=
  match a with
  | ASend => frontend_send cfg s
  | AWait => axi_wait_for_notify_ack s
  | ATimeout => frontend_timeout s
  | AControl => frontend_control_read s
  | ABackendRead => backend_control_read s
  | ABackendIrq => backend_irq s
  | ADaemon => daemon_step cfg s
  | APublish q => Some (guest_publish q s)
  | ANotify q => guest_notify cfg q s
  | AIsr => guest_isr cfg s
  | AOther addr => guest_other cfg addr s
  end.

(** Everything but the guest moves by itself. *)
Definition machine_action (a : bell_action) : bool :=
  match a with APublish _ | ANotify _ | AIsr | AOther _ => false | _ => true end.

Inductive bell_reachable (cfg : bell_config) (s0 : bell) : bell -> Prop :=
| bell_start : bell_reachable cfg s0 s0
| bell_step a s s' : bell_reachable cfg s0 s -> bell_exec cfg a s = Some s' ->
    bell_reachable cfg s0 s'.

(** [n] steps of the machine. *)
Inductive machine_run (cfg : bell_config) : nat -> bell -> bell -> Prop :=
| machine_stop s : machine_run cfg 0 s s
| machine_step a n s s1 s2 : machine_action a = true -> bell_exec cfg a s = Some s1 ->
    machine_run cfg n s1 s2 -> machine_run cfg (S n) s s2.

(** No step of the machine is left. *)
Definition at_rest (cfg : bell_config) (s : bell) : Prop :=
  forall a, machine_action a = true -> bell_exec cfg a s = None.

Definition bell_boot (dev : chiplets_uio_dev) : bell :=
  {| pg_notify := virtio_store_le32 UIO_NOTIFY_IDLE; pg_ack := false; g_work := fun _ => 0%nat;
     g_due := fun _ => false; g_lost := fun _ => false; g_edge := false;
     fr_cpu := CpuIdle; fr_pending := false; fr_irq := false; ch_up := []; ch_down := [];
     bk_latch := false; bk_uio := (dev, {| il_depth := 0; il_unbalanced := false |});
     bk_event := 0; bk_seen := 0; dm_phase := DRead; dm_status := false; dm_level := None |}.

(** ** The invariant *)

(** A wake-up is on its way to the daemon. *)
Definition stored (cpu : frontend_cpu) : Prop :=
  match cpu with CpuStored _ => True | _ => False end.

Definition woken (s : bell) : Prop :=
  stored (fr_cpu s) \/ In FrontendNotify (ch_up s) \/
  bk_latch s = true \/ bk_event s <> bk_seen s.

(** The level of the line once the messages in flight are handled. *)
Fixpoint line_after (ms : list control_msg) (level : bool) : bool :=
  match ms with
  | [] => level
  | FrontendIrqAssert :: r => line_after r true
  | FrontendIrqDeassert :: r => line_after r false
  | _ :: r => line_after r level
  end.

(** The level the frontend's line is going to have. *)
Definition line_target (s : bell) : bool :=
  match dm_level s with Some l => l | None => line_after (ch_down s) (fr_irq s) end.

(** What the notify register is known to hold while no wake-up is on its way. *)
Definition scanned (phase : daemon_phase) (notify : list Z) : Prop :=
  match phase with
  | DRead | DServe _ | DFlush => virtio_load_le32 notify = UIO_NOTIFY_IDLE
  | DLoad loaded => loaded = take (length loaded) notify
  | DClear _ k => take k notify = take k (virtio_store_le32 UIO_NOTIFY_IDLE)
  | DArm | DAck | DAckClear => True
  end.

(** Between the byte accesses. *)
Definition phase_ok (phase : daemon_phase) : Prop :=
  match phase with
  | DLoad loaded => (length loaded < 4)%nat
  | DClear value k => (k < 4)%nat /\ value <> UIO_NOTIFY_IDLE
  | _ => True
  end.

(** A queue the device serves, by a number that is not the idle value. *)
Definition served_queue (cfg : bell_config) (q : Z) : Prop :=
  bc_serves cfg q = true /\ in_width 32 q /\ q <> UIO_NOTIFY_IDLE.

Record bell_inv (cfg : bell_config) (s : bell) : Prop := {
  bi_mirror : irq_mirrored (bk_uio s);
  bi_policy : fr_cpu s = CpuStored true -> bc_barrier cfg = true;
  bi_seen : (bk_seen s <= bk_event s)%nat;
  bi_masked : cu_irq_enabled (fst (bk_uio s)) = false ->
    bk_event s <> bk_seen s \/ dm_phase s = DArm;
  bi_ack : pg_ack s = true -> woken s \/ In (dm_phase s) [DArm; DAck; DAckClear];
  bi_page : length (pg_notify s) = 4%nat /\ phase_ok (dm_phase s);
  bi_notify : woken s \/ scanned (dm_phase s) (pg_notify s);
  bi_work : forall q, served_queue cfg q -> (0 < g_work s q)%nat ->
    g_due s q = true \/ g_lost s q = true \/
    found_by_scan (dm_phase s) (pg_notify s) q = true;
  bi_down : Forall (fun m => m <> FrontendNotify) (ch_down s);
  bi_line : line_target s = dm_status s;
  bi_level : In (dm_phase s) [DRead; DArm; DAck] -> dm_level s = None;
}.

Lemma line_after_app ms ms' level :
  line_after (ms ++ ms') level = line_after ms' (line_after ms level).
Proof. revert level. induction ms as [|[] ms IH]; intros level; cbn; auto. Qed.

Lemma irq_line_masked dev line :
  irq_mirrored (dev, line) ->
  irq_mirrored (chiplets_uio_irq (dev, line)) /\
  cu_irq_enabled (fst (chiplets_uio_irq (dev, line))) = false.
Proof.
  intros H. split; [exact (step_mirrored _ _ (step_irq _) H)|].
  cbn. destruct (cu_irq_enabled dev) eqn:E; [reflexivity|exact E].
Qed.

Lemma irq_line_armed u :
  irq_mirrored u ->
  irq_mirrored (chiplets_uio_irqcontrol 1 u) /\
  cu_irq_enabled (fst (chiplets_uio_irqcontrol 1 u)) = true.
Proof.
  intros H. split; [exact (step_mirrored _ _ (step_control 1 _) H)|].
  destruct u as [dev line]. cbn. destruct (cu_irq_enabled dev) eqn:E; [exact E|reflexivity].
Qed.

Ltac bell_goal :=
  constructor; unfold woken, line_target, stored in *; cbn in *;
  rewrite ?in_app_iff, ?line_after_app; cbn; auto.

Lemma inv_send cfg s s' :
  bc_barrier cfg && bc_notify_ack cfg = false ->
  bell_inv cfg s -> frontend_send cfg s = Some s' -> bell_inv cfg s'.
Proof.
  intros Hcfg [H1 H2 H3 H4 H5 H6 H7 H8 H9 H10 H11] He.
  destruct s as [? ? ? ? ? ? cpu]; cbn in *.
  unfold frontend_send in He. cbn in He.
  destruct cpu as [|[]|]; try discriminate; injection He as <-.
  - rewrite (H2 eq_refl) in Hcfg. cbn in Hcfg. unfold axi_uio_notify_backend_async.
    rewrite Hcfg. cbn. bell_goal; try (intros; tauto); discriminate.
  - unfold axi_uio_notify_backend.
    bell_goal; try (intros; tauto). intros. destruct (bc_notify_ack cfg); discriminate.
Qed.

Lemma inv_wait cfg s s' :
  bell_inv cfg s -> axi_wait_for_notify_ack s = Some s' -> bell_inv cfg s'.
Proof.
  intros [H1 H2 H3 H4 H5 H6 H7 H8 H9 H10 H11] He.
  destruct s as [? ? ? ? ? ? cpu ? ? ? down]; cbn in *.
  unfold axi_wait_for_notify_ack in He. cbn in He.
  destruct cpu, down as [|m down]; try discriminate. injection He as <-.
  inversion_clear H9 as [|? ? Hm Hd]. destruct m; [easy|..]; bell_goal; intros; easy.
Qed.

Lemma inv_timeout cfg s s' :
  bell_inv cfg s -> frontend_timeout s = Some s' -> bell_inv cfg s'.
Proof.
  intros [H1 H2 H3 H4 H5 H6 H7 H8 H9 H10 H11] He.
  destruct s as [? ? ? ? ? ? cpu]; cbn in *.
  unfold frontend_timeout in He. cbn in He. destruct cpu; try discriminate. injection He as <-.
  bell_goal; intros; easy.
Qed.

Lemma inv_control cfg s s' :
  bell_inv cfg s -> frontend_control_read s = Some s' -> bell_inv cfg s'.
Proof.
  intros [H1 H2 H3 H4 H5 H6 H7 H8 H9 H10 H11] He.
  destruct s as [? ? ? ? ? ? cpu ? ? ? down]; cbn in *.
  unfold frontend_control_read in He. cbn in He.
  destruct cpu, down as [|m down]; try discriminate. injection He as <-.
  inversion_clear H9 as [|? ? Hm Hd]. destruct m; [easy|..]; bell_goal; intros; easy.
Qed.

Lemma inv_backend_read cfg s s' :
  bell_inv cfg s -> backend_control_read s = Some s' -> bell_inv cfg s'.
Proof.
  intros [H1 H2 H3 H4 H5 H6 H7 H8 H9 H10 H11] He.
  destruct s as [? ? ? ? ? ? cpu ? ? up]; cbn in *.
  unfold backend_control_read in He. cbn in He.
  destruct up as [|m up]; try discriminate. injection He as <-.
  destruct m; bell_goal; intros; intuition discriminate.
Qed.

Lemma inv_backend_irq cfg s s' :
  bell_inv cfg s -> backend_irq s = Some s' -> bell_inv cfg s'.
Proof.
  intros [H1 H2 H3 H4 H5 H6 H7 H8 H9 H10 H11] He. unfold backend_irq in He.
  destruct (bk_latch s && _); try discriminate. injection He as <-.
  destruct (bk_uio s) as [dev line] eqn:Eu. destruct (irq_line_masked dev line H1) as [Hm Hd].
  bell_goal; first [lia | left; do 3 right; lia | right; left; lia | idtac].
Qed.

(** The bytes of the notify register under the daemon's accesses. *)
Section notify_bytes.
Implicit Types (notify loaded : list Z) (value q : Z).

Lemma load_byte loaded notify : (length loaded < length notify)%nat ->
  (loaded ++ [notify !!! length loaded]) ++ drop (length (loaded ++ [notify !!! length loaded])) notify
  = loaded ++ drop (length loaded) notify.
Proof.
  intros Hl. rewrite <- app_assoc, length_app. cbn. f_equal.
  rewrite (drop_S notify (notify !!! length loaded) (length loaded)).
  - do 2 f_equal. lia.
  - now apply list_lookup_lookup_total_lt.
Qed.

Lemma load_prefix loaded notify : (length loaded < length notify)%nat ->
  loaded = take (length loaded) notify ->
  loaded ++ [notify !!! length loaded] = take (length (loaded ++ [notify !!! length loaded])) notify.
Proof.
  intros Hl E. rewrite length_app. cbn. rewrite Nat.add_1_r.
  rewrite (take_S_r notify (length loaded) (notify !!! length loaded)).
  - now rewrite <- E.
  - now apply list_lookup_lookup_total_lt.
Qed.

Lemma clear_prefix k notify : length notify = 4%nat -> (k < 4)%nat ->
  take k notify = take k (virtio_store_le32 UIO_NOTIFY_IDLE) ->
  take (S k) (<[k := virtio_store_le32 UIO_NOTIFY_IDLE !!! k]> notify)
  = take (S k) (virtio_store_le32 UIO_NOTIFY_IDLE).
Proof.
  intros Hl Hk E. rewrite (take_S_r _ k (virtio_store_le32 UIO_NOTIFY_IDLE !!! k)).
  2:{ apply list_lookup_insert_eq. lia. }
  rewrite take_insert_ge by lia. rewrite E. symmetry. apply take_S_r.
  apply list_lookup_lookup_total_lt. rewrite length_store_le32. lia.
Qed.

Lemma load_store_small q : in_width 32 q -> virtio_load_le32 (virtio_store_le32 q) = q.
Proof.
  intros Hq. rewrite <- (app_nil_r (virtio_store_le32 q)), load_store_le32.
  now apply u32_small.
Qed.
End notify_bytes.

(** A field of the invariant that a step of the daemon leaves alone. *)
Ltac bell_daemon := bell_goal; intros; try (intuition (discriminate || congruence || lia)).

Lemma found_loaded loaded notify q :
  length notify = 4%nat -> (length loaded < 4)%nat ->
  let loaded' := loaded ++ [notify !!! length loaded] in
  in_width 32 q -> q <> UIO_NOTIFY_IDLE ->
  found_by_scan (DLoad loaded) notify q = true ->
  found_by_scan (if (4 <=? length loaded')%nat then loaded_value (virtio_load_le32 loaded')
                 else DLoad loaded') notify q = true.
Proof.
  intros Hn Hl loaded' Hq Hi Hf. cbn in Hf. rewrite <- load_byte in Hf by lia. fold loaded' in Hf.
  destruct (Nat.leb_spec 4 (length loaded')); [|exact Hf].
  apply bool_decide_eq_true in Hf. rewrite drop_ge, app_nil_r in Hf by lia.
  rewrite Hf, load_store_small by assumption. unfold loaded_value.
  rewrite (proj2 (Z.eqb_neq _ _) Hi). cbn. apply Z.eqb_refl.
Qed.

Lemma scanned_loaded loaded notify :
  length notify = 4%nat -> (length loaded < 4)%nat ->
  let loaded' := loaded ++ [notify !!! length loaded] in
  let phase := if (4 <=? length loaded')%nat then loaded_value (virtio_load_le32 loaded')
               else DLoad loaded' in
  phase_ok phase /\ (scanned (DLoad loaded) notify -> scanned phase notify).
Proof.
  intros Hn Hl loaded'. cbv zeta. pose proof (load_prefix loaded notify ltac:(lia)) as Hp.
  fold loaded' in Hp. destruct (Nat.leb_spec 4 (length loaded')) as [Hle|].
  - unfold loaded_value. destruct (Z.eqb_spec (virtio_load_le32 loaded') UIO_NOTIFY_IDLE) as [E|];
      cbn; [split; [exact I|] | split; [split; [lia | assumption]|]].
    + intros Hs. specialize (Hp Hs). rewrite take_ge in Hp by lia. now rewrite <- Hp.
    + intros _. now rewrite take_0.
  - split; [cbn; lia | exact Hp].
Qed.

Lemma scanned_cleared value k notify :
  length notify = 4%nat -> (k < 4)%nat -> value <> UIO_NOTIFY_IDLE ->
  let p := if (3 <=? k)%nat then DServe value else DClear value (S k) in
  ~ In p [DRead; DArm; DAck] /\ phase_ok p /\
  (scanned (DClear value k) notify ->
   scanned p (<[k := virtio_store_le32 UIO_NOTIFY_IDLE !!! k]> notify)) /\
  (forall q n, (value =? q) = true -> found_by_scan p n q = true).
Proof.
  intros Hlen Hk Hv p. subst p. destruct (Nat.leb_spec 3 k) as [H3k|H3k]; cbn.
  - split; [intuition discriminate|]. split; [exact I|]. split; [|now intros q n ->].
    intros E. assert (k = 3%nat) as -> by lia. pose proof (clear_prefix 3 notify Hlen Hk E) as Ht.
    rewrite !take_ge in Ht by (rewrite ?length_insert, ?length_store_le32; lia).
    rewrite Ht. reflexivity.
  - split; [intuition discriminate|]. split; [split; [lia | exact Hv]|]. split; [|auto].
    intros E. now apply clear_prefix.
Qed.

Lemma inv_daemon cfg s s' :
  bell_inv cfg s -> daemon_step cfg s = Some s' -> bell_inv cfg s'.
Proof.
  intros [H1 H2 H3 H4 H5 H6 H7 H8 H9 H10 H11] He.
  destruct s as [notify ack work ? ? ? ? ? ? ? ? ? uio event seen phase status level]; cbn in *.
  destruct H6 as [Hlen Hph].
  unfold daemon_step in He. cbn -[Nat.leb] in He.
  destruct phase as [| | | |loaded|value k|queue|].
  - destruct (event =? seen)%nat eqn:E; [discriminate|]. injection He as <-. bell_daemon.
  - injection He as <-. destruct (irq_line_armed uio H1) as [Hm Hd]. bell_daemon.
  - destruct ack; injection He as <-; bell_daemon.
  - injection He as <-; bell_daemon.
  - cbn [phase_ok] in Hph. destruct (scanned_loaded loaded notify Hlen Hph) as [Hok Hsc].
    pose proof (fun q => found_loaded loaded notify q Hlen Hph) as Hfo. cbv zeta in *.
    set (phase := if (4 <=? _)%nat then _ else _) in *. injection He as <-.
    assert (~ In phase [DRead; DArm; DAck]) as Hno.
    { unfold phase, loaded_value. destruct (_ <=? _)%nat; [destruct (_ =? _)|]; cbn;
        intuition discriminate. }
    assert (phase <> DArm) as Hna by (intros E; apply Hno; rewrite E; cbn; auto).
    clearbody phase. bell_goal; intros; try (intuition (discriminate || congruence)).
    destruct H as (Hs & Hq & Hi). destruct (H8 q) as [?|[?|?]]; try tauto; [now split|auto].
  - destruct Hph as [Hk Hv]. destruct (scanned_cleared value k notify Hlen Hk Hv) as (Hno & Hok & Hsc & Hfo).
    set (p := if (3 <=? k)%nat then _ else _) in *. injection He as <-.
    assert (p <> DArm) as Hna by (intros E; apply Hno; rewrite E; cbn; auto).
    clearbody p. bell_goal; intros; try (intuition (discriminate || congruence)).
    + now rewrite length_insert.
    + destruct (H8 q H H0) as [?|[?|?]]; auto.
  - destruct (bc_serves cfg queue && negb (work queue =? 0)%nat) eqn:Es; injection He as <-;
      bell_goal; intros; try (intuition (discriminate || congruence)).
    + unfold upd in H0. destruct (Z.eqb_spec q queue) as [->|Hne]; [lia|].
      destruct (H8 q H H0) as [?|[?|Hf]]; auto. apply orb_true_iff in Hf as [Hf|Hf]; [|auto].
      apply Z.eqb_eq in Hf. congruence.
    + destruct (H8 q H H0) as [?|[?|Hf]]; auto. apply orb_true_iff in Hf as [Hf|Hf]; [|auto].
      apply Z.eqb_eq in Hf. subst queue. rewrite (proj1 H) in Es. cbn in Es.
      destruct (work q); [lia | discriminate].
  - destruct level as [[]|]; injection He as <-; bell_goal; intros; try intuition discriminate.
    all: apply Forall_app; repeat constructor; easy.
Qed.

Lemma after_store_notify cfg :
  after_store cfg VIRTIO_MMIO_QUEUE_NOTIFY = CpuStored (bc_barrier cfg).
Proof. now destruct cfg as [[] []]. Qed.

Lemma after_store_ack cfg : after_store cfg VIRTIO_MMIO_INTERRUPT_ACK = CpuStored false.
Proof. now destruct cfg as [[] []]. Qed.

Lemma after_store_other cfg addr :
  (addr =? VIRTIO_MMIO_QUEUE_NOTIFY) = false ->
  after_store cfg addr =
    if axi_uio_write_needs_backend cfg addr then CpuStored false else CpuIdle.
Proof. intros H. unfold after_store. now rewrite H, andb_false_r. Qed.

Lemma found_stored_other phase notify data q :
  found_by_scan phase notify q = true ->
  (found_by_scan phase notify q && negb (found_by_scan phase data q)) = true \/
  found_by_scan phase data q = true.
Proof. intros ->. destruct (found_by_scan phase data q); auto. Qed.

Lemma inv_guest cfg a s s' :
  machine_action a = false -> bell_inv cfg s -> bell_exec cfg a s = Some s' -> bell_inv cfg s'.
Proof.
  intros Ha [H1 H2 H3 H4 H5 H6 H7 H8 H9 H10 H11] He.
  destruct s as [notify ? work ? lost edge cpu]; cbn in *.
  destruct a; try discriminate Ha; cbn in He.
  - injection He as <-. bell_goal. intros q' Hq Hw. unfold upd in *.
    destruct (q' =? q); [now left | auto].
  - unfold guest_notify in He. cbn in He. destruct cpu; try discriminate. injection He as <-.
    rewrite after_store_notify. bell_goal.
    + intros H. now injection H.
    + split; [reflexivity | apply H6].
    + intros q' Hq Hw. unfold upd, lost_after. cbn. destruct (Z.eqb_spec q' q) as [->|].
      * right. destruct (found_by_scan _ _ q); cbn; auto.
      * destruct (H8 q' Hq Hw) as [Hd|[Hd|Hf]]; [auto | rewrite Hd; auto|].
        right. destruct (found_stored_other _ _ (virtio_store_le32 q) q' Hf) as [Hx|Hx]; [|auto].
        left. rewrite Hx. apply orb_true_r.
  - unfold guest_isr in He. cbn in He. destruct cpu, edge; try discriminate. injection He as <-.
    rewrite after_store_ack. bell_goal. easy.
  - unfold guest_other in He. cbn in He.
    destruct (addr =? VIRTIO_MMIO_QUEUE_NOTIFY) eqn:Ea; [discriminate|].
    destruct (_ || _), cpu; try discriminate. injection He as <-.
    rewrite after_store_other by exact Ea.
    destruct (axi_uio_write_needs_backend cfg addr); bell_goal; intros; intuition discriminate.
Qed.

Lemma inv_exec cfg a s s' :
  bc_barrier cfg && bc_notify_ack cfg = false ->
  bell_inv cfg s -> bell_exec cfg a s = Some s' -> bell_inv cfg s'.
Proof.
  intros Hcfg Hi He.
  destruct (machine_action a) eqn:Ha; [|exact (inv_guest cfg a s s' Ha Hi He)].
  destruct a; try discriminate Ha; cbn [bell_exec] in He.
  - exact (inv_send cfg s s' Hcfg Hi He).
  - exact (inv_wait cfg s s' Hi He).
  - exact (inv_timeout cfg s s' Hi He).
  - exact (inv_control cfg s s' Hi He).
  - exact (inv_backend_read cfg s s' Hi He).
  - exact (inv_backend_irq cfg s s' Hi He).
  - exact (inv_daemon cfg s s' Hi He).
Qed.

Lemma inv_boot cfg dev : cu_irq_enabled dev = true -> bell_inv cfg (bell_boot dev).
Proof.
  intros Hd. bell_goal; try easy; try congruence; try lia.
  unfold irq_mirrored. cbn. now rewrite Hd.
Qed.

Lemma inv_reachable cfg dev s :
  bc_barrier cfg && bc_notify_ack cfg = false -> cu_irq_enabled dev = true ->
  bell_reachable cfg (bell_boot dev) s -> bell_inv cfg s.
Proof. intros Hc Hd. induction 1; eauto using inv_boot, inv_exec. Qed.

(** With no step left, nothing is pending. *)
Lemma inv_rest cfg s :
  bell_inv cfg s -> at_rest cfg s ->
  virtio_load_le32 (pg_notify s) = UIO_NOTIFY_IDLE /\ pg_ack s = false /\
  (forall q, served_queue cfg q -> g_due s q = false -> g_lost s q = false -> g_work s q = 0%nat) /\
  fr_irq s = dm_status s.
Proof.
  intros [H1 H2 H3 H4 H5 H6 H7 H8 H9 H10 H11] Hr.
  pose proof (Hr ASend eq_refl) as Rs. pose proof (Hr ATimeout eq_refl) as Rt.
  pose proof (Hr AControl eq_refl) as Rc. pose proof (Hr ABackendRead eq_refl) as Rb.
  pose proof (Hr ABackendIrq eq_refl) as Ri. pose proof (Hr ADaemon eq_refl) as Rd.
  destruct s as [notify ack work due lost ? cpu ? ? up down latch [dev line] event seen phase st level].
  unfold bell_exec, frontend_send, frontend_timeout, frontend_control_read,
    backend_control_read, backend_irq, daemon_step in *. cbn in *.
  destruct cpu as [|[]|]; try discriminate. destruct down; [|discriminate].
  destruct up; [|discriminate].
  destruct phase; try discriminate. destruct (event =? seen)%nat eqn:Ee; [|discriminate].
  apply Nat.eqb_eq in Ee. subst seen. unfold irq_mirrored in H1. cbn in H1. subst line.
  destruct (cu_irq_enabled dev); [|destruct (H4 eq_refl); easy]. cbn in Ri.
  destruct latch; [discriminate|]. unfold woken, line_target in *. cbn in *.
  assert (N : virtio_load_le32 notify = UIO_NOTIFY_IDLE) by intuition congruence.
  assert (A : ack = false) by (destruct ack; [intuition congruence|reflexivity]).
  rewrite H11 in H10 by auto. subst. repeat split; auto.
  intros q Hq Hd Hl. destruct (work q) eqn:Ew; [reflexivity|].
  destruct (H8 q Hq ltac:(lia)) as [?|[?|Hf]]; try congruence.
  apply bool_decide_eq_true in Hf. subst notify. destruct Hq as (_ & Hw & Hi).
  rewrite load_store_small in N by assumption. contradiction.
Qed.

(** ** Termination *)

Definition cpu_rank (cpu : frontend_cpu) : nat :=
  match cpu with CpuStored _ => 200 | CpuWait => 1 | CpuIdle => 0 end.
Definition phase_rank (p : daemon_phase) : nat :=
  match p with
  | DArm => 20 | DAck => 18 | DAckClear => 17 | DLoad loaded => 12 + (4 - length loaded)
  | DClear _ k => 7 + (4 - k) | DServe _ => 6 | DFlush => 5 | DRead => 0
  end.

(** The steps the machine can still take are at most this many. *)
Definition potential (s : bell) : nat :=
  cpu_rank (fr_cpu s) + 100 * length (ch_up s) + (if bk_latch s then 60 else 0) +
  (if (bk_event s =? bk_seen s)%nat then 0 else 40) + phase_rank (dm_phase s) +
  2 * length (ch_down s).

Lemma loaded_rank loaded b :
  let loaded' := loaded ++ [b] in
  (phase_rank (if (4 <=? length loaded')%nat then loaded_value (virtio_load_le32 loaded')
               else DLoad loaded') < phase_rank (DLoad loaded))%nat.
Proof.
  intros loaded'. assert (length loaded' = S (length loaded)) as E
    by (unfold loaded'; rewrite length_app; cbn; lia).
  rewrite E. destruct (Nat.leb_spec 4 (S (length loaded))).
  - unfold loaded_value. destruct (_ =? _); cbn; lia.
  - cbn. rewrite E. lia.
Qed.

Lemma cleared_rank value k :
  (phase_rank (if (3 <=? k)%nat then DServe value else DClear value (S k))
   < phase_rank (DClear value k))%nat.
Proof. destruct (Nat.leb_spec 3 k); cbn; lia. Qed.

Lemma daemon_decreases cfg s s' : daemon_step cfg s = Some s' -> (potential s' < potential s)%nat.
Proof.
  intros He. destruct s as [? ack work ? ? ? ? ? ? ? ? ? ? event seen phase ? level].
  unfold daemon_step in He. cbn -[Nat.leb] in He. unfold potential.
  destruct phase as [| | | |loaded|value k|queue|].
  5, 6: apply (inj Some) in He; subst s'; cbn [fr_cpu ch_up bk_latch bk_event bk_seen dm_phase ch_down go
    on_daemon on_page].
  5: pose proof (loaded_rank loaded (pg_notify0 !!! length loaded)) as Hr; cbv zeta in Hr; lia.
  5: pose proof (cleared_rank value k); lia.
  all: destruct (event =? seen)%nat eqn:E; try discriminate; try injection He as <-;
    try destruct ack; try destruct (bc_serves _ _ && _); try destruct level as [[]|];
    cbn; rewrite ?E, ?Nat.eqb_refl, ?length_app; cbn; lia.
Qed.

Lemma potential_decreases cfg a s s' :
  machine_action a = true -> bell_exec cfg a s = Some s' -> (potential s' < potential s)%nat.
Proof.
  intros Ha He. destruct (decide (a = ADaemon)) as [->|Hne]; [exact (daemon_decreases _ _ _ He)|].
  destruct s as [notify ack work ? ? ? cpu ? ? up down latch u ev seen phase st level].
  unfold potential.
  destruct a; try discriminate Ha; try contradiction; cbn in He |- *;
    unfold frontend_send, axi_wait_for_notify_ack, frontend_timeout, frontend_control_read,
      backend_control_read, backend_irq in He; cbn in He.
  - destruct cpu as [|[]|]; try discriminate; injection He as <-; cbn.
    + unfold axi_uio_notify_backend_async; cbn.
      destruct (bc_notify_ack cfg && _); cbn; rewrite ?length_app; cbn; lia.
    + rewrite length_app. destruct (bc_notify_ack cfg); cbn; lia.
  - destruct cpu, down as [|[] down]; try discriminate; injection He as <-; cbn; lia.
  - destruct cpu; try discriminate; injection He as <-; cbn; lia.
  - destruct cpu, down as [|[] down]; try discriminate; injection He as <-; cbn; lia.
  - destruct up as [|[] up]; try discriminate; injection He as <-; cbn; destruct latch; lia.
  - destruct latch; [|discriminate]. destruct (_ =? 0); [|discriminate].
    injection He as <-. cbn [potential fr_cpu ch_up bk_latch bk_event bk_seen dm_phase ch_down on_backend].
    destruct (S ev =? seen)%nat; lia.
Qed.

Lemma run_bounded cfg n s s' :
  machine_run cfg n s s' -> (n + potential s' <= potential s)%nat.
Proof.
  induction 1 as [|a n s s1 s2 Ha He _ IH]; [lia|].
  pose proof (potential_decreases cfg a s s1 Ha He). lia.
Qed.

Lemma run_reachable cfg s0 n s s' :
  machine_run cfg n s s' -> bell_reachable cfg s0 s -> bell_reachable cfg s0 s'.
Proof. induction 1; eauto using bell_step. Qed.

(** Some step is possible, or the machine is at rest. *)
Lemma rest_or_step cfg s :
  at_rest cfg s \/
  exists a s', machine_action a = true /\ bell_exec cfg a s = Some s'.
Proof.
  assert (D : forall l, (forall a, In a l -> machine_action a = true -> bell_exec cfg a s = None) \/
    exists a s', machine_action a = true /\ bell_exec cfg a s = Some s').
  { induction l as [|a l [IH|IH]]; [left; easy| |now right].
    destruct (bell_exec cfg a s) as [s'|] eqn:E.
    - destruct (machine_action a) eqn:Ha; [right; eauto|].
      left. intros b [<-|Hb]; [congruence|auto].
    - left. intros b [<-|Hb]; auto. }
  destruct (D [ASend; AWait; ATimeout; AControl; ABackendRead; ABackendIrq; ADaemon]) as [H|H];
    [left|now right].
  intros a Ha. destruct a; try discriminate; apply H; cbn; auto 10.
Qed.

(** The machine comes to rest by itself. *)
Lemma settles cfg s : exists n s', machine_run cfg n s s' /\ at_rest cfg s'.
Proof.
  induction s as [s IH] using (induction_ltof1 _ potential). unfold ltof in IH.
  destruct (rest_or_step cfg s) as [H|(a & s1 & Ha & He)].
  - exists 0%nat, s. split; [constructor|exact H].
  - destruct (IH s1 (potential_decreases cfg a s s1 Ha He)) as (n & s' & Hr & Hs).
    exists (S n), s'. split; [econstructor; eauto|exact Hs].
Qed.

Lemma machine_due cfg n s s' : machine_run cfg n s s' ->
  g_due s' = g_due s /\ g_lost s' = g_lost s.
Proof.
  induction 1 as [|a n s s1 s2 Ha He _ [-> ->]]; [now split|].
  destruct a; try discriminate Ha; cbn in He;
    unfold frontend_send, axi_uio_notify_backend_async, axi_wait_for_notify_ack, frontend_timeout,
      frontend_control_read, backend_control_read, backend_irq, daemon_step in He;
    repeat case_match; simplify_eq; now split.
Qed.

(** ** Schedules *)

Fixpoint run_actions (cfg : bell_config) (acts : list bell_action) (s : bell) : option bell :=
  match acts with
  | [] => Some s
  | a :: r => match bell_exec cfg a s with Some s' => run_actions cfg r s' | None => None end
  end.

(** The state a schedule from the start ends in, if all its steps are possible. *)
Definition outcome_of (cfg : bell_config) (acts : list bell_action) : bell :=
  default (bell_boot bare_dev) (run_actions cfg acts (bell_boot bare_dev)).

Definition runs (cfg : bell_config) (acts : list bell_action) : bool :=
  match run_actions cfg acts (bell_boot bare_dev) with Some _ => true | None => false end.

Lemma runs_outcome cfg acts : runs cfg acts = true ->
  run_actions cfg acts (bell_boot bare_dev) = Some (outcome_of cfg acts).
Proof. unfold runs, outcome_of. now destruct (run_actions _ _ _). Qed.

Lemma run_actions_reachable cfg s0 acts s s' :
  bell_reachable cfg s0 s -> run_actions cfg acts s = Some s' -> bell_reachable cfg s0 s'.
Proof.
  revert s. induction acts as [|a acts IH]; cbn; intros s Hr H; [now simplify_eq|].
  destruct (bell_exec cfg a s) as [s1|] eqn:E; [|discriminate].
  eapply IH; [|exact H]. eapply bell_step; eauto.
Qed.

(** A property kept by every allowed action is kept by a schedule of them. *)
Lemma run_actions_inv cfg (ok : bell_action -> bool) (P : bell -> Prop) acts s s' :
  (forall a s s', ok a = true -> P s -> bell_exec cfg a s = Some s' -> P s') ->
  forallb ok acts = true -> P s -> run_actions cfg acts s = Some s' -> P s'.
Proof.
  intros HP. revert s. induction acts as [|a acts IH]; cbn; intros s Ho Hs H; [now simplify_eq|].
  apply andb_prop in Ho as [Ha Ho].
  destruct (bell_exec cfg a s) as [s1|] eqn:E; [|discriminate]. eauto.
Qed.

(** The barrier policy with acknowledgements: a notification is believed pending, and
    nothing is on its way. *)
Record wedged (s : bell) : Prop := {
  wg_work : (0 < g_work s 0%Z)%nat;
  wg_edge : g_edge s = false;
  wg_cpu : fr_cpu s = CpuIdle \/ fr_cpu s = CpuStored true;
  wg_pending : fr_pending s = true;
  wg_up : ch_up s = [];
  wg_down : ch_down s = [];
  wg_latch : bk_latch s = false;
  wg_event : bk_event s = bk_seen s;
  wg_phase : dm_phase s = DRead;
}.

(** A device with one queue. *)
Definition barrier_ack : bell_config :=
  {| bc_barrier := true; bc_notify_ack := true; bc_serves := Z.eqb 0 |}.

(** Actions but the write of a register that needs the backend. *)
Definition quiet (a : bell_action) : bool :=
  match a with AOther addr => negb (axi_uio_write_needs_backend barrier_ack addr) | _ => true end.

Lemma wedged_exec a s s' :
  quiet a = true -> wedged s -> bell_exec barrier_ack a s = Some s' -> wedged s'.
Proof.
  intros Ha [H1 H2 H3 H4 H5 H6 H7 H8 H9] He. destruct s; cbn in *. subst.
  destruct a; cbn [quiet] in Ha; cbn in He; cbv [frontend_send axi_uio_notify_backend_async
    axi_wait_for_notify_ack frontend_timeout frontend_control_read backend_control_read backend_irq
    daemon_step guest_publish guest_notify guest_isr guest_other] in He; cbn in He;
    rewrite ?Nat.eqb_refl in He; destruct H3 as [-> | ->]; try discriminate He.
  5, 6: destruct (addr =? VIRTIO_MMIO_QUEUE_NOTIFY) eqn:Ea; [discriminate He|];
    destruct (false || _); try discriminate He.
  5: rewrite after_store_other in He by exact Ea;
    destruct (axi_uio_write_needs_backend barrier_ack addr); [discriminate Ha|].
  all: injection He as <-; constructor; cbn; unfold upd; try (destruct (0 =? q)%Z); auto; lia.
Qed.

(** An interrupt the guest has not seen and will not see: the line is high already. *)
Record edge_lost (s : bell) : Prop := {
  el_edge : g_edge s = false;
  el_irq : fr_irq s = true;
  el_status : dm_status s = true;
  el_ack : pg_ack s = false;
  el_level : dm_level s <> Some false;
  el_down : Forall (fun m => m = FrontendIrqAssert \/ m = FrontendNotifyAck) (ch_down s);
}.

Lemma edge_lost_daemon cfg s s' : edge_lost s -> daemon_step cfg s = Some s' -> edge_lost s'.
Proof.
  intros [H1 H2 H3 H4 H5 H6] He. destruct s; cbn in *. subst.
  unfold daemon_step in He. cbn -[Nat.leb] in He.
  repeat case_match; simplify_eq; constructor; cbn; auto; try easy.
  all: apply Forall_app; split; [exact H6|].
  all: destruct b; [|easy]; do 2 (constructor; [auto|]); constructor.
Qed.

Lemma edge_lost_exec cfg a s s' :
  edge_lost s -> bell_exec cfg a s = Some s' -> edge_lost s'.
Proof.
  destruct (decide (a = ADaemon)) as [->|Ha]; [apply edge_lost_daemon|].
  intros [H1 H2 H3 H4 H5 H6] He. destruct s as [? ? ? ? ? ? cpu ? ? ? down]; cbn in *. subst.
  destruct a; try easy; cbn in He; unfold frontend_send, axi_uio_notify_backend_async,
    axi_wait_for_notify_ack, frontend_timeout, frontend_control_read, backend_control_read,
    backend_irq, guest_publish, guest_notify, guest_isr, guest_other in He; cbn in He;
    repeat (case_match; try discriminate); simplify_eq;
    first [inversion_clear H6 as [|? ? [?|?] ?]|idtac]; simplify_eq; constructor; cbn; auto.
Qed.

(** ** Claims *)

(** C15: the doorbell is never lost, except in the shared register. Unless the
    asynchronous notifications of the barrier policy are combined with acknowledgements,
    from every state that any interleaving of the guest, the two QEMUs, the kernel module
    and the daemon reaches, the byte accesses to the notify register included, the
    machine comes to rest by itself after at most [potential s] steps, however its
    parties are scheduled. At rest no notification and no acknowledgement is left on the
    register page and the line of the frontend shows the interrupt status of the device;
    and of every queue the device serves every notified request has been taken, unless
    the last notification of the queue was lost in the one register all queues share:
    replaced there by that of another queue, or stored between the byte accesses with
    which the daemon reads and resets the register for another value ([lost_after]). *)
Theorem doorbell_delivers cfg dev s :
  bc_barrier cfg && bc_notify_ack cfg = false -> cu_irq_enabled dev = true ->
  bell_reachable cfg (bell_boot dev) s ->
  (exists n s', machine_run cfg n s s' /\ at_rest cfg s') /\
  forall n s', machine_run cfg n s s' ->
    (n <= potential s)%nat /\
    (at_rest cfg s' ->
     virtio_load_le32 (pg_notify s') = UIO_NOTIFY_IDLE /\ pg_ack s' = false /\
     (forall q, served_queue cfg q -> g_due s q = false -> g_lost s q = false ->
        g_work s' q = 0%nat) /\
     fr_irq s' = dm_status s').
Proof.
  intros Hc Hd Hr. split; [apply settles|]. intros n s' Hn.
  pose proof (run_bounded cfg n s s' Hn). split; [lia|]. intros Hs.
  destruct (machine_due cfg n s s' Hn) as [<- <-]. apply (inv_rest cfg s' ); [|exact Hs].
  eapply inv_reachable; eauto using run_reachable.
Qed.

(** A notification that is stored and sent, and taken up by the module. *)
Definition kick (q : Z) : list bell_action := [APublish q; ANotify q; ASend].
Definition wake : list bell_action := [ABackendRead; ABackendIrq].

(** A round of the daemon: to the first byte load, through the loads, the stores of the
    reset, the callback and the flush. *)
Definition full_round : list bell_action := repeat ADaemon 13.

(** Notified while the acknowledgement of an interrupt is still on the page, under the
    policy that notifies on every write. *)
Definition ack_then_kick : list bell_action :=
  kick 0 ++ wake ++ full_round ++ [AControl; AControl; AIsr; ASend] ++ kick 0.

Definition fixed_delay : bell_config :=
  {| bc_barrier := false; bc_notify_ack := false; bc_serves := Z.eqb 0 |}.

Lemma doorbell_delivers_witness :
  exists s, run_actions fixed_delay ack_then_kick (bell_boot bare_dev) = Some s /\
    g_work s 0 = 1%nat /\ pg_notify s = [0; 0; 0; 0] /\ pg_ack s = true /\
    exists n s', machine_run fixed_delay n s s' /\ at_rest fixed_delay s' /\ g_work s' 0 = 0%nat.
Proof.
  pose proof (runs_outcome fixed_delay ack_then_kick ltac:(vm_compute; reflexivity)) as Er.
  exists (outcome_of fixed_delay ack_then_kick). split; [exact Er|].
  do 3 (split; [vm_compute; reflexivity|]).
  destruct (doorbell_delivers fixed_delay bare_dev (outcome_of fixed_delay ack_then_kick)
    eq_refl eq_refl) as [(n & s' & Hn & Hs) H].
  - exact (run_actions_reachable fixed_delay _ _ _ _ (bell_start _ _) Er).
  - exists n, s'. split; [exact Hn|]. split; [exact Hs|].
    destruct (H n s' Hn) as [_ Hw]. destruct (Hw Hs) as (_ & _ & Hg & _).
    apply Hg; [|vm_compute; reflexivity..].
    split; [reflexivity|]. split; [split|]; vm_compute; congruence.
Defined.

(** Both exceptions are losses: with two queues a notification is replaced by another
    one, and with a single queue one is stored between the bytes the daemon loads, which
    it then takes for the number of a queue that does not exist and resets. The machine
    comes to rest with the request not taken. *)
Definition two_queues : bell_config :=
  {| bc_barrier := false; bc_notify_ack := false; bc_serves := fun q => (q =? 0) || (q =? 1) |}.

Definition rest_with_work (cfg : bell_config) (q : Z) (acts : list bell_action) : Prop :=
  exists s, run_actions cfg acts (bell_boot bare_dev) = Some s /\ at_rest cfg s /\
    g_due s q = false /\ g_lost s q = true /\ g_work s q = 1%nat.

(** A schedule evaluated. *)
Ltac schedule :=
  eexists; split; [apply runs_outcome; vm_compute; reflexivity|];
  split; [intros []; vm_compute; (discriminate || reflexivity) |].

Example doorbell_overwritten :
  rest_with_work two_queues 0
    (kick 0 ++ kick 1 ++ [ABackendRead] ++ wake ++ full_round ++ [AControl; AControl]).
Proof. schedule. repeat split; vm_compute; reflexivity. Qed.

Example notify_torn_load :
  rest_with_work fixed_delay 0
    ([AOther VIRTIO_MMIO_STATUS; ASend] ++ wake ++ repeat ADaemon 4 ++ kick 0 ++
     repeat ADaemon 9 ++ wake ++ repeat ADaemon 8 ++ [AControl; AControl]).
Proof. schedule. repeat split; vm_compute; reflexivity. Qed.

(** A queue notification, and another register write that waits. *)
Definition kick_then_write : list bell_action :=
  kick 0 ++ [AOther VIRTIO_MMIO_STATUS; ASend; ABackendRead] ++ wake ++ full_round ++
  [AWait; AWait; AIsr; ASend] ++ wake ++ repeat ADaemon 9 ++ [AWait; AWait] ++ kick 0.

(** C37: the barrier policy with acknowledgements loses the doorbell. The loop that waits
    for the acknowledgement of a synchronous write also takes the one that belongs to
    an earlier queue notification and leaves [async_notify_pending] set; no
    acknowledgement is then outstanding, yet every later queue notification is
    suppressed. A schedule reaches such a state with a request published and notified;
    from there, whatever the guest queues and notifies and however the parties are
    scheduled, the daemon stays blocked and the request is not taken, as long as no
    other register that needs the backend is written. *)
Theorem doorbell_wedges :
  exists s, run_actions barrier_ack kick_then_write (bell_boot bare_dev) = Some s /\
    pg_notify s = [0; 0; 0; 0] /\ g_due s 0 = false /\ g_work s 0 = 1%nat /\ fr_pending s = true /\
    at_rest barrier_ack s /\
    forall acts s', forallb quiet acts = true -> run_actions barrier_ack acts s = Some s' ->
      dm_phase s' = DRead /\ (0 < g_work s' 0)%nat /\ g_edge s' = false.
Proof.
  eexists. split; [apply runs_outcome; vm_compute; reflexivity|].
  do 4 (split; [vm_compute; reflexivity|]).
  split; [intros []; vm_compute; (discriminate || reflexivity)|]. intros acts s' Ha Hs.
  assert (W : wedged s').
  { eapply (run_actions_inv barrier_ack quiet wedged); eauto using wedged_exec.
    constructor; vm_compute; auto. }
  split; [apply W|]. split; apply W.
Qed.

(** C40: an interrupt is lost when the acknowledgement of the previous one and a queue
    notification are found by the same scan. The deferred level keeps only its last
    value, so the line is not lowered in between, and the interrupt is edge triggered
    in the tables QEMU generates for the guest. A schedule reaches a state at rest in
    which both requests are done and the second has no interrupt; from there no
    schedule at all delivers one. *)
Theorem interrupt_edge_lost :
  exists s, run_actions fixed_delay
      (ack_then_kick ++ [ABackendRead] ++ wake ++ repeat ADaemon 14 ++
       [AControl; AControl]) (bell_boot bare_dev) = Some s /\
    at_rest fixed_delay s /\ g_work s 0 = 0%nat /\ dm_status s = true /\ g_edge s = false /\
    forall acts s', run_actions fixed_delay acts s = Some s' ->
      g_edge s' = false /\ dm_status s' = true.
Proof.
  eexists. split; [apply runs_outcome; vm_compute; reflexivity|].
  split; [intros []; vm_compute; (discriminate || reflexivity)|].
  do 3 (split; [vm_compute; reflexivity|]).
  intros acts s' Hs.
  assert (L : edge_lost s').
  { refine (run_actions_inv fixed_delay (fun _ => true) edge_lost acts _ s' _ _ _ Hs).
    - intros a s1 s2 _. apply edge_lost_exec.
    - now apply forallb_forall.
    - constructor; vm_compute; auto; discriminate. }
  split; apply L.
Qed.
