(* ===== verification/BlkQueue.v ===== *)
(** * A queue of block requests of any kind

    [blkd_virtio_notify_queue] against a sequential reference: writes, reads, flushes
    and unsupported requests, valid or refused, are executed one after the other in
    ring order on the image and on guest memory, each followed by its used-ring entry.
    A request may read what an earlier one of the same notification wrote. *)

From S2P Require Import Prelude Endian Fabric Virtio VirtioMmio QueueService Rings.
From S2P Require Import Posix BlockBackend VirtioBlk LinuxUio BlkSafety BlkRequest BlkService.

#[local] Open Scope Z_scope.
#[local] Open Scope c_scope.

(** ** Requests *)

(** The data phase: payloads for the device, destinations, or neither. *)
Inductive blk_op : Type :=
| OutOp (payloads : list (virtio_desc * list Z))
| InOp (targets : list virtio_desc)
| FlushOp (segs : list virtio_desc)
| OtherOp (request_type : Z) (segs : list virtio_desc).

Record blk_request : Type := {
  rq_head : Z;
  rq_sector : Z;
  rq_hd : virtio_desc;
  rq_op : blk_op;
  rq_sd : virtio_desc;
}.

Definition op_type (op : blk_op) : Z :=
  match op with
  | OutOp _ => VIRTIO_BLK_T_OUT
  | InOp _ => VIRTIO_BLK_T_IN
  | FlushOp _ => VIRTIO_BLK_T_FLUSH
  | OtherOp t _ => t
  end.

Definition op_segs (op : blk_op) : list virtio_desc :=
  match op with
  | OutOp ps => map fst ps
  | InOp segs | FlushOp segs | OtherOp _ segs => segs
  end.

(** The request as the driver laid it out in memory. *)
Definition op_at (m : mem) (q : virtio_queue) (hd : virtio_desc) (op : blk_op) : Prop :=
  match op with
  | OutOp ps => Forall (payload_at m) ps
  | InOp segs => Forall (target_ok m (chain_slots q (d_next hd) segs)) segs
  | FlushOp _ => True
  | OtherOp t _ => t <> VIRTIO_BLK_T_IN /\ t <> VIRTIO_BLK_T_OUT /\ t <> VIRTIO_BLK_T_FLUSH
  end.

Record posted (m : mem) (q : virtio_queue) (r : blk_request) : Prop := {
  po_head : in_width 16 (rq_head r);
  po_chain : request_at m q (rq_head r) (op_type (rq_op r)) (rq_sector r) (rq_hd r)
               (op_segs (rq_op r)) (rq_sd r);
  po_op : op_at m q (rq_hd r) (rq_op r);
}.

(** ** The reference *)

(** The image, and the part of it on stable storage. *)
Record disk : Type := { dk_file : list Z; dk_durable : list Z }.

Definition disk_of (b : blkd) : disk :=
  {| dk_file := h_file (bk_host b); dk_durable := h_durable (bk_host b) |}.

(** One request: the disk and guest memory afterwards, and the used length. [ok] is
    whether [fsync] succeeds. *)
Definition request_result (be : blkd_block_backend) (r : blk_request) (ok : bool)
    (d : disk) (m : mem) : disk * mem * Z :=
  let status st m := mem_write m (d_addr (rq_sd r)) [st] in
  let st0 := initial_status (op_type (rq_op r)) (rq_sector r) in
  let offset := request_offset (rq_sector r) in
  match rq_op r with
  | OutOp ps =>
      let '(st, _, file) := out_spec be offset ps 0 st0 (dk_file d) in
      ({| dk_file := file; dk_durable := dk_durable d |}, status st m, 1)
  | InOp segs =>
      let '(st, len, m) := in_spec be (dk_file d) offset segs 0 st0 m in
      (d, status st m, u32 (len + 1))
  | FlushOp _ =>
      if ok then ({| dk_file := dk_file d; dk_durable := dk_file d |}, status st0 m, 1)
      else (d, status VIRTIO_BLK_S_IOERR m, 1)
  | OtherOp _ _ => (d, status st0 m, 1)
  end.

(** All of them, in order, with the used ring filled from index [idx] on. *)
Fixpoint serve_queue (be : blkd_block_backend) (q : virtio_queue)
    (rs : list (blk_request * bool)) (idx : Z) (d : disk) (m : mem) : disk * mem :=
  match rs with
  | [] => (d, m)
  | (r, ok) :: rs =>
      let '(d, m, len) := request_result be r ok d m in
      serve_queue be q rs (u16 (idx + 1)) d (used_push m q idx (rq_head r) len)
  end.

(** ** Facts about the reference *)

Section reference.
Context (be : blkd_block_backend) (q : virtio_queue).

Lemma in_spec_proper file offset segs len st m1 m2 : m1 ≡m m2 ->
  (in_spec be file offset segs len st m1).1 = (in_spec be file offset segs len st m2).1 /\
  (in_spec be file offset segs len st m1).2 ≡m (in_spec be file offset segs len st m2).2.
Proof.
  revert len st m1 m2. induction segs as [|d segs IH]; intros len st m1 m2 E; [easy|].
  cbn [in_spec]. destruct (in_step_proper be file (u64 (offset + len)) d st m1 m2 E) as [E1 E2].
  destruct (in_step _ _ _ _ _ m1), (in_step _ _ _ _ _ m2). cbn [fst snd] in *. subst.
  now apply IH.
Qed.

Lemma result_proper r ok d m1 m2 : m1 ≡m m2 ->
  (request_result be r ok d m1).1.1 = (request_result be r ok d m2).1.1 /\
  (request_result be r ok d m1).1.2 ≡m (request_result be r ok d m2).1.2 /\
  (request_result be r ok d m1).2 = (request_result be r ok d m2).2.
Proof.
  intros E. unfold request_result. destruct (rq_op r) as [ps|segs|segs|t segs].
  - destruct (out_spec _ _ _ _ _ _) as [[st len] file]. cbn. now rewrite E.
  - destruct (in_spec_proper (dk_file d) (request_offset (rq_sector r)) segs 0
      (initial_status (op_type (InOp segs)) (rq_sector r)) m1 m2 E) as [E1 E2].
    destruct (in_spec _ _ _ _ _ _ m1) as [[st1 l1] k1], (in_spec _ _ _ _ _ _ m2) as [[st2 l2] k2].
    cbn [fst snd] in *. injection E1 as -> ->. now rewrite E2.
  - destruct ok; cbn; now rewrite E.
  - cbn. now rewrite E.
Qed.

Lemma serve_queue_snoc rs r ok idx d m : in_width 16 idx ->
  serve_queue be q (rs ++ [(r, ok)]) idx d m =
  let s := serve_queue be q rs idx d m in
  let res := request_result be r ok s.1 s.2 in
  (res.1.1, used_push res.1.2 q (u16 (idx + Z.of_nat (length rs))) (rq_head r) res.2).
Proof.
  revert idx d m. induction rs as [|[r0 ok0] rs IH]; intros idx d m Hi; cbn [app serve_queue length].
  - rewrite Z.add_0_r, u16_small by assumption. cbn [fst snd].
    now destruct (request_result be r ok d m) as [[? ?] ?].
  - destruct (request_result be r0 ok0 d m) as [[d1 m1] len]. rewrite IH by apply u16_range.
    cbv zeta. do 2 f_equal. unfold u16. rewrite Zplus_mod_idemp_l. f_equal. lia.
Qed.

(** What a request writes to guest memory besides the used ring. *)
Definition output (r : blk_request) (a : Z) : Prop :=
  a = d_addr (rq_sd r) \/
  match rq_op r with
  | InOp segs => Exists (fun d => d_addr d <= a < d_addr d + d_len d) segs
  | _ => False
  end.

Lemma in_spec_agree (W : Z -> Prop) file offset segs len st m0 m :
  zlen file = be_image_len be -> Forall (fun d => 0 <= d_len d) segs ->
  (forall a, Exists (fun d => d_addr d <= a < d_addr d + d_len d) segs -> W a) ->
  agree W m0 m -> agree W m0 (in_spec be file offset segs len st m).2.
Proof.
  intros Hz. revert len st m. induction segs as [|d segs IH]; intros len st m Hl HW Ha; [assumption|].
  apply Forall_cons_iff in Hl as [Hd Hl]. cbn [in_spec].
  destruct (in_step _ _ _ _ _ _) as [st' m'] eqn:E. apply IH; [assumption | |].
  - intros a Hx. apply HW. now apply Exists_cons_tl.
  - revert E. unfold in_step. destruct (has_bit _ _); [|now intros [= _ <-]].
    destruct (_ =? _); [|now intros [= _ <-]].
    destruct (read_in_bounds _ _ _) eqn:Eb; intros [= _ <-]; [|assumption].
    apply agree_write; [|assumption]. unfold read_in_bounds in Eb.
    pose proof (u64_range (offset + len)) as Hu. unfold in_width in Hu.
    rewrite zlen_slice by lia. intros x Hx. apply HW. now apply Exists_cons_hd.
Qed.

Lemma result_agree (W : Z -> Prop) r ok d m0 m :
  zlen (dk_file d) = be_image_len be ->
  (forall segs, rq_op r = InOp segs -> Forall (fun d => 0 <= d_len d) segs) ->
  (forall a, output r a -> W a) ->
  agree W m0 m -> agree W m0 (request_result be r ok d m).1.2.
Proof.
  intros Hz Hl HW Ha.
  assert (forall st m1, agree W m0 m1 ->
    agree W m0 (mem_write m1 (d_addr (rq_sd r)) [st])) as Hs.
  { intros st m1 H1. apply agree_write; [|assumption]. intros x. change (zlen [st]) with 1.
    intros Hx. apply HW. left. lia. }
  unfold request_result, output in *. destruct (rq_op r) as [ps|segs|segs|t segs].
  - destruct (out_spec _ _ _ _ _ _) as [[st len] file]. now apply Hs.
  - pose proof (in_spec_agree W (dk_file d) (request_offset (rq_sector r)) segs 0
      (initial_status (op_type (InOp segs)) (rq_sector r)) m0 m Hz (Hl _ eq_refl)
      (fun a Hx => HW a (or_intror Hx)) Ha) as H.
    destruct (in_spec _ _ _ _ _ _ _) as [[st len] m1]. now apply Hs.
  - destruct ok; now apply Hs.
  - now apply Hs.
Qed.
End reference.

(** ** One request *)

Section requests.
Context {F : Type} `{RamFabric F}.
Context (direct_read : bool) (fuel : nat).
Implicit Types (f : F) (b : blkd).

(** The daemon has executed [r] from [b] and guest memory [m]. *)
Definition executed (r : blk_request) b (m : mem) (res : option Z) (s : F * blkd) : Prop :=
  exists ok,
    let o := request_result (bd_backend (blkd_dev b)) r ok (disk_of b) m in
    res = Some o.2 /\ ram_ok (fst s) /\ peek (fst s) ≡m o.1.2 /\ blkd_ok (snd s) /\
    same_device b (snd s) /\ disk_of (snd s) = o.1.1 /\ benign_host (bk_host (snd s)).

Lemma complete_flush_exact f b sd status data_len :
  ram_ok f -> blkd_ok b -> benign_host (bk_host b) -> desc_wf sd -> status_ok status ->
  addr_range (d_addr sd) 1 -> mapped (peek f) (d_addr sd) 1 ->
  wp (complete_request VIRTIO_BLK_T_FLUSH sd status data_len) (f, b) (fun r s =>
    exists ok : bool, r = Some 1 /\ ram_ok (fst s) /\
    peek (fst s) ≡m mem_write (peek f) (d_addr sd) [if ok then status else VIRTIO_BLK_S_IOERR] /\
    blkd_ok (snd s) /\ same_device b (snd s) /\
    disk_of (snd s) =
      (if ok then {| dk_file := h_file (bk_host b); dk_durable := h_file (bk_host b) |}
       else disk_of b) /\
    benign_host (bk_host (snd s))).
Proof.
  intros Hf Hb Hh Hd Hst Ha Hm. unfold complete_request.
  cbn [Z.eqb VIRTIO_BLK_T_FLUSH VIRTIO_BLK_T_IN Pos.eqb]. rewrite wpx_bind.
  eapply wpx_mono with (Q := fun st s => exists ok : bool,
    st = (if ok then status else VIRTIO_BLK_S_IOERR) /\ fst s = f /\ blkd_ok (snd s) /\
    same_device b (snd s) /\
    disk_of (snd s) =
      (if ok then {| dk_file := h_file (bk_host b); dk_durable := h_file (bk_host b) |}
       else disk_of b) /\ benign_host (bk_host (snd s))).
  { rewrite wpx_bind. pose proof (block_flush_safe f b Hb) as Hs. revert Hs.
    destruct Hh as [Hev Hal].
    unfold on_host, blkd_block_flush, fsync. wpsimpl. cbn [fst snd]. unfold wpx.
    destruct (h_io (bk_host b)) as [|[| |n] ev] eqn:Ev; cbn [io_step];
      intros [E [Hok [Hsd _]]]; cbn [fst snd] in *;
      [exists true | exists false | exists false | exists true];
      (split; [reflexivity|]; split; [reflexivity|]; split; [exact Hok|]; split; [exact Hsd|];
       split; [reflexivity|]; split; [|exact Hal]); cbn;
      first [constructor | now inversion Hev]. }
  intros st [f1 b1] (ok & -> & E & Hok & Hsd & Hdk & Hh1). cbn [fst snd] in *. subst f1.
  wpsimpl. cbn [fst snd].
  assert (is_byte (if ok then status else VIRTIO_BLK_S_IOERR)) as Hby.
  { unfold status_ok, is_byte, VIRTIO_BLK_S_IOERR in *. destruct ok; lia. }
  wpuse (dma_write_ram f (d_addr sd) [if ok then status else VIRTIO_BLK_S_IOERR]); try assumption;
    try (unfold in_width, zlen; cbn; lia); [apply Hd | constructor; [exact Hby | constructor] |].
  intros ? f2 (-> & Hp & Hf2). wpsimpl. cbn [fst snd]. exists ok. auto 10.
Qed.

Lemma process_flush f b head sector hd segs sd :
  ram_ok f -> blkd_ok b -> benign_host (bk_host b) ->
  request_at (peek f) (blkd_queue b) head VIRTIO_BLK_T_FLUSH sector hd segs sd ->
  (length segs < fuel)%nat ->
  wp (process_chain direct_read fuel head) (f, b)
    (executed {| rq_head := head; rq_sector := sector; rq_hd := hd; rq_op := FlushOp segs;
                 rq_sd := sd |} b (peek f)).
Proof.
  intros Hf Hb Hh Hr Hfuel. pose proof Hr as [_ _ _ _ _ _ Hc [Ha Hm] Hl].
  eapply process_start; [assumption | exact Hr|]. intros f1 Hf1 Hp1.
  wpuse (walk_other direct_read fuel segs sd f1 b); try assumption; try easy; try lia.
  { eapply chain_at_proper; [symmetry; eassumption | assumption]. }
  intros r [f2 b2] (-> & Hf2 & Hp2 & E). cbn [fst snd] in *. subst b2.
  assert (peek f2 ≡m peek f) as Hp12 by (now rewrite Hp2).
  wpuse complete_flush_exact; try assumption;
    [eapply chain_at_last; eassumption | apply initial_status_ok | now rewrite Hp12|].
  intros r s (ok & -> & Hfs & Hp & Hok & Hsd & Hdk & Hhs). exists ok.
  rewrite Hp12 in Hp. destruct ok; cbn; auto 10.
Qed.

Lemma process_other f b head t sector hd segs sd :
  ram_ok f -> blkd_ok b -> benign_host (bk_host b) ->
  t <> VIRTIO_BLK_T_IN -> t <> VIRTIO_BLK_T_OUT -> t <> VIRTIO_BLK_T_FLUSH ->
  request_at (peek f) (blkd_queue b) head t sector hd segs sd ->
  (length segs < fuel)%nat ->
  wp (process_chain direct_read fuel head) (f, b)
    (executed {| rq_head := head; rq_sector := sector; rq_hd := hd; rq_op := OtherOp t segs;
                 rq_sd := sd |} b (peek f)).
Proof.
  intros Hf Hb Hh H1 H2 H3 Hr Hfuel. pose proof Hr as [_ _ _ _ _ _ Hc [Ha Hm] Hl].
  eapply process_start; [assumption | exact Hr|]. intros f1 Hf1 Hp1.
  wpuse (walk_other direct_read fuel segs sd f1 b); try assumption; try easy; try lia.
  { eapply chain_at_proper; [symmetry; eassumption | assumption]. }
  intros r [f2 b2] (-> & Hf2 & Hp2 & E). cbn [fst snd] in *. subst b2.
  assert (peek f2 ≡m peek f) as Hp12 by (now rewrite Hp2).
  wpuse complete_ram; try assumption;
    [eapply chain_at_last; eassumption | apply initial_status_ok | now rewrite Hp12|].
  intros r [f3 b3] (-> & Hfs & Hp & E). cbn [fst snd] in *. subst b3. exists true.
  rewrite Hp12 in Hp.
  rewrite (proj2 (Z.eqb_neq _ _) H1). cbn. auto 10 using same_device_refl.
Qed.

(** Every posted request is executed as the reference says. *)
Lemma process_request f b r :
  ram_ok f -> blkd_ok b -> benign_host (bk_host b) ->
  posted (peek f) (blkd_queue b) r -> (length (op_segs (rq_op r)) < fuel)%nat ->
  wp (process_chain direct_read fuel (rq_head r)) (f, b) (executed r b (peek f)).
Proof.
  intros Hf Hb Hh [_ Hr Hop] Hfuel. destruct r as [head sector hd op sd]. cbn [rq_head rq_sector
    rq_hd rq_op rq_sd] in *. destruct op as [ps|segs|segs|t segs]; cbn [op_type op_segs op_at] in *.
  - rewrite length_map in Hfuel. wpuse process_out; try eassumption.
    intros res s Hq. exists true. unfold request_result, disk_of. cbn [rq_op rq_sector rq_sd dk_file
      dk_durable op_type]. destruct (out_spec _ _ _ _ _ _) as [[st len] file].
    destruct Hq as (-> & Hfs & Hp & [Hok Hsd Hfile Hdur Hhs]). cbn. rewrite Hfile, Hdur. auto 10.
  - wpuse process_in; try eassumption.
    intros res s Hq. exists true. unfold request_result, disk_of. cbn [rq_op rq_sector rq_sd dk_file
      dk_durable op_type]. destruct (in_spec _ _ _ _ _ _ _) as [[st len] m'].
    destruct Hq as (-> & Hfs & Hp & [Hok Hsd Hfile Hdur Hhs]). cbn. rewrite Hfile, Hdur. auto 10.
  - now apply process_flush.
  - destruct Hop as (? & ? & ?). now apply process_other.
Qed.
End requests.

(** ** The queue *)

(** What serving [rs] writes to guest memory. *)
Definition touches (q : virtio_queue) (rs : list blk_request) (a : Z) : Prop :=
  q_used q <= a < q_used q + (4 + ring_size q * 8) \/ Exists (fun r => output r a) rs.

(** [rs] are the requests the guest made available from the cursor on. *)
Record available (m : mem) (q : virtio_queue) (rs : list blk_request) : Prop := {
  av_index : mem_at m (q_avail q + 2)
    (virtio_store_le16 (u16 (q_last_avail_idx q + Z.of_nat (length rs))));
  av_slot : forall j r, rs !! j = Some r ->
    mem_at m (avail_slot q (u16 (q_last_avail_idx q + Z.of_nat j)))
           (virtio_store_le16 (rq_head r)) /\
    posted m q r;
}.

(** The driver keeps the memory it gave to the device apart: what the device writes is
    neither ring input, nor descriptor, header or payload, and lies outside the used
    ring, which the device fills. There are no more requests than ring slots. *)
Record isolated (m : mem) (q : virtio_queue) (rs : list blk_request) : Prop := {
  is_available : forall m', agree (touches q rs) m m' -> available m' q rs;
  is_outputs : forall j r a, rs !! j = Some r -> output r a ->
    a < q_used q \/ q_used q + (4 + ring_size q * 8) <= a;
  is_count : Z.of_nat (length rs) <= ring_size q;
}.

Lemma chain_slots_cursor q c i segs : chain_slots (cursor_to q c) i segs = chain_slots q i segs.
Proof. revert i. induction segs as [|d segs IH]; intros i; cbn; [reflexivity | now rewrite IH]. Qed.

Lemma posted_cursor m q c r : posted m q r -> posted m (cursor_to q c) r.
Proof.
  intros [? [] Hop]. split; [assumption | split; try assumption; now apply chain_at_cursor|].
  destruct (rq_op r); cbn in *; try assumption. now rewrite chain_slots_cursor.
Qed.

Section serve.
Context {F : Type} `{RamFabric F}.
Context (direct_read : bool) (fuel : nat).
(** The state when the notification arrives. *)
Context (m0 : mem) (q : virtio_queue) (be : blkd_block_backend) (rs : list blk_request)
        (d0 : disk) (u0 : Z).
Hypothesis rings : rings_ok m0 q.
Hypothesis apart : isolated m0 q rs.
Hypothesis u0_width : in_width 16 u0.
Hypothesis enough_fuel : Forall (fun r => (length (op_segs (rq_op r)) < fuel)%nat) rs.
Implicit Types (f : F) (b : blkd).

(** After [k] requests. *)
Record progress (k : nat) (f : F) (b : blkd) : Prop := {
  sp_fab : ram_ok f;
  sp_ok : blkd_ok b;
  sp_host : benign_host (bk_host b);
  sp_agree : agree (touches q rs) m0 (peek f);
  sp_queue : blkd_queue b = cursor_to q (u16 (q_last_avail_idx q + Z.of_nat k));
  sp_backend : bd_backend (blkd_dev b) = be;
  sp_index : mem_at (peek f) (q_used q + 2) (virtio_store_le16 (u16 (u0 + Z.of_nat k)));
  sp_state : exists oks, length oks = k /\
    let s := serve_queue be q (zip (take k rs) oks) u0 d0 m0 in
    disk_of b = s.1 /\ peek f ≡m s.2;
}.

Lemma progress_peek k f f' b :
  progress k f b -> ram_ok f' -> peek f' ≡m peek f -> progress k f' b.
Proof.
  intros [] Hf E. split; try assumption.
  - eapply agree_proper; eassumption.
  - now rewrite E.
  - destruct sp_state0 as (oks & Hl & Hd & Hm). exists oks.
    split; [assumption|]. split; [assumption | now rewrite E].
Qed.

(** The outputs of a request leave the index of the used ring alone. *)
Lemma index_kept k r ok d m idx :
  rs !! k = Some r -> zlen (dk_file d) = be_image_len be -> op_at m q (rq_hd r) (rq_op r) ->
  mem_at m (q_used q + 2) (virtio_store_le16 idx) ->
  mem_at (request_result be r ok d m).1.2 (q_used q + 2) (virtio_store_le16 idx).
Proof.
  intros Hr Hz Hop Hm. eapply (mem_at_agree (output r)); [| |exact Hm].
  - change (zlen (virtio_store_le16 idx)) with 2. intros x Hx Ho.
    pose proof (ro_size _ _ rings). destruct (is_outputs _ _ _ apart k r x Hr Ho); lia.
  - apply result_agree; [assumption | | auto | apply agree_refl].
    intros segs E. rewrite E in Hop. cbn in Hop. eapply list.Forall_impl; [exact Hop|].
    intros d' [Hs _]. unfold seg_range, addr_range in Hs. lia.
Qed.

Lemma progress_process k f b r :
  progress k f b -> rs !! k = Some r ->
  wp (process_chain direct_read fuel (rq_head r)) (f, b) (fun res s =>
    exists used_len used_idx, res = Some used_len /\ ram_ok (fst s) /\
      rings_ok (peek (fst s)) (blkd_queue (snd s)) /\ in_width 16 used_idx /\
      mem_at (peek (fst s)) (q_used (blkd_queue (snd s)) + 2)
             (virtio_store_le16 used_idx) /\
      forall f', ram_ok f' ->
        peek f' ≡m used_push (peek (fst s)) (blkd_queue (snd s)) used_idx
                             (rq_head r) used_len ->
        progress (S k) f' (bump_queue (snd s))).
Proof.
  intros Hse Hr. pose proof (is_available _ _ _ apart _ (sp_agree _ _ _ Hse)) as Hav.
  destruct (av_slot _ _ _ Hav k r Hr) as [_ Hpo].
  pose proof (ro_size _ _ rings) as Hs.
  destruct (bo_image b (sp_ok _ _ _ Hse)) as [Hz _ _]. rewrite (sp_backend _ _ _ Hse) in Hz.
  wpuse (process_request direct_read fuel f b r); try apply Hse.
  { rewrite (sp_queue _ _ _ Hse). now apply posted_cursor. }
  { apply (proj1 (Forall_lookup _ _) enough_fuel k r Hr). }
  intros res [f1 b1] (ok & -> & Hf1 & Hp1 & Hok & Hsd & Hdk & Hh). cbn [fst snd] in *.
  rewrite (sp_backend _ _ _ Hse) in *.
  assert (blkd_queue b1 = cursor_to q (u16 (q_last_avail_idx q + Z.of_nat k))) as Eq
    by (rewrite (same_device_queue _ _ Hsd); apply Hse).
  assert (agree (touches q rs) m0 (peek f1)) as Hag.
  { eapply agree_proper; [exact Hp1|]. apply result_agree; [exact Hz | | |apply Hse].
    - intros segs E. pose proof (po_op _ _ _ Hpo) as Hop. rewrite E in Hop.
      eapply list.Forall_impl; [exact Hop|].
      intros d' [Hsr _]. unfold seg_range, addr_range in Hsr. lia.
    - intros a Ha. right. apply Exists_exists. exists r.
      split; [eapply list_elem_of_lookup_2; eassumption | exact Ha]. }
  eexists _, (u16 (u0 + Z.of_nat k)). rewrite Eq.
  split; [reflexivity|]. split; [assumption|].
  split; [apply (rings_ok_agree _ _ _ q Hag) in rings; now destruct rings|].
  split; [apply u16_range|].
  assert (mem_at (peek f1) (q_used q + 2) (virtio_store_le16 (u16 (u0 + Z.of_nat k)))) as Hix.
  { rewrite Hp1. eapply index_kept; [exact Hr | exact Hz | apply Hpo | apply Hse]. }
  split; [exact Hix|]. intros f' Hf' Hpush.
  assert (peek f' ≡m used_push (peek f1) q (u16 (u0 + Z.of_nat k)) (rq_head r)
    (request_result be r ok (disk_of b) (peek f)).2) as Hp' by exact Hpush.
  split; try assumption.
  - now apply bump_queue_ok.
  - eapply agree_proper; [exact Hp'|]. apply (used_push_agree q); [assumption | now left | assumption].
  - rewrite bump_queue_queue, Eq by assumption. unfold advance_cursor, cursor_to. cbn.
    f_equal. unfold u16. rewrite Zplus_mod_idemp_l. f_equal. lia.
  - cbn. rewrite <- (sp_backend _ _ _ Hse). now apply same_device_backend.
  - rewrite Hp'.
    replace (u16 (u0 + Z.of_nat (S k))) with (u16 (u16 (u0 + Z.of_nat k) + 1)).
    + apply used_push_index.
    + unfold u16. rewrite Zplus_mod_idemp_l. f_equal. lia.
  - destruct (sp_state _ _ _ Hse) as (oks & Hl & Hd & Hm). exists (oks ++ [ok]).
    pose proof (lookup_lt_Some _ _ _ Hr) as Hk.
    split; [rewrite length_app, Hl; cbn; lia|]. cbv zeta.
    rewrite (take_S_r _ _ _ Hr), zip_with_app by (rewrite length_take; lia).
    cbn [zip_with]. rewrite serve_queue_snoc by assumption. cbv zeta. cbn [fst snd].
    rewrite length_zip_with, length_take, Hl.
    replace (Nat.min (Nat.min k (length rs)) k) with k by lia.
    destruct (result_proper be r ok (disk_of b) (peek f)
      (serve_queue be q (zip (take k rs) oks) u0 d0 m0).2 Hm) as (E1 & E2 & E3).
    rewrite <- Hd, <- E1, <- E3. split; [exact Hdk|].
    rewrite Hp'. unfold used_push. rewrite Hp1, E2. reflexivity.
Qed.

Lemma progress_all requests f b : (length rs < requests)%nat -> progress 0 f b ->
  wp (service_loop blkd_queue bump_queue (process_chain direct_read fuel)
                   requests false) (f, b) (fun r s =>
    r = Some (0 <? length rs)%nat /\ progress (length rs) (fst s) (snd s)).
Proof.
  intros Hreq Hse. rewrite <- (length_map rq_head rs).
  assert (forall k head, map rq_head rs !! k = Some head ->
    exists r, rs !! k = Some r /\ head = rq_head r) as Hheads.
  { intros k head. rewrite list_lookup_fmap. destruct (rs !! k) as [w|]; [|easy].
    intros [= <-]. eauto. }
  pose proof (ro_size _ _ rings) as Hs.
  pose proof (u16_range (q_num q)) as Hr. fold (ring_size q) in Hr. unfold in_width in Hr.
  pose proof (is_count _ _ _ apart) as Hcount.
  change (0 <? length (map rq_head rs))%nat with (false || (0 <? length (map rq_head rs))%nat).
  apply (service_loop_ram blkd_queue bump_queue _ (map rq_head rs) progress
    (u16 (q_last_avail_idx q + Z.of_nat (length rs)))); try assumption.
  - apply u16_range.
  - intros k f1 b1 H1'. rewrite (sp_queue _ _ _ H1').
    pose proof (is_available _ _ _ apart _ (sp_agree _ _ _ H1')) as Hav.
    split; [apply H1'|]. split.
    { pose proof (rings_ok_agree _ _ _ _ (sp_agree _ _ _ H1') rings) as Hro.
      now destruct Hro. }
    split; [apply u16_range | apply Hav].
  - intros k f1 b1 head H1' Hh. destruct (Hheads _ _ Hh) as (r & Hr' & ->).
    rewrite (sp_queue _ _ _ H1').
    pose proof (is_available _ _ _ apart _ (sp_agree _ _ _ H1')) as Hav.
    destruct (av_slot _ _ _ Hav k r Hr') as [Hslot Hpo].
    apply lookup_lt_Some in Hr'. split; [apply Hpo|]. split; [|exact Hslot].
    cbn. apply cursor_distinct; lia.
  - intros f1 b1 H1'. rewrite (sp_queue _ _ _ H1'). cbn. now rewrite length_map.
  - intros. eapply progress_peek; eassumption.
  - intros k f1 b1 head H1' Hh. destruct (Hheads _ _ Hh) as (r & Hr' & ->).
    now apply progress_process.
  - lia.
  - rewrite length_map. lia.
Qed.
End serve.

(** ** A notification *)

(** The state in which a notification of queue 0 serves [rs]. *)
Record queue_ready (fuel requests : nat) (b : blkd) (m : mem) (rs : list blk_request) (u0 : Z)
  : Prop := {
  qr_ok : blkd_ok b;
  qr_host : benign_host (bk_host b);
  qr_ready : q_ready (blkd_queue b) <> 0;
  qr_rings : rings_ok m (blkd_queue b);
  qr_apart : isolated m (blkd_queue b) rs;
  qr_width : in_width 16 u0;
  qr_used : mem_at m (q_used (blkd_queue b) + 2) (virtio_store_le16 u0);
  qr_fuel : Forall (fun r => (length (op_segs (rq_op r)) < fuel)%nat) rs;
  qr_requests : (length rs < requests)%nat;
}.

(** The daemon [b'] and guest memory [m'] after the requests, as the reference executes
    them from the disk [d] and guest memory [m]. *)
Record queue_done (q : virtio_queue) (be : blkd_block_backend) (rs : list blk_request) (u0 : Z)
    (d : disk) (m : mem) (b' : blkd) (m' : mem) : Prop := {
  qd_state : exists oks, length oks = length rs /\
    disk_of b' = (serve_queue be q (zip rs oks) u0 d m).1 /\
    m' ≡m (serve_queue be q (zip rs oks) u0 d m).2;
  qd_cursor : blkd_queue b' =
    cursor_to q (u16 (q_last_avail_idx q + Z.of_nat (length rs)));
  qd_irq : rs <> [] ->
    has_bit (v_interrupt_status (m_vdev (bk_mmio b'))) VIRTIO_INTERRUPT_VRING = true;
  qd_agree : agree (touches q rs) m m';
}.

Lemma queue_served {F} `{HR : RamFabric F} direct_read requests fuel f b rs u0 len :
  ram_ok f -> queue_ready fuel requests b (peek f) rs u0 ->
  exists f' b',
    blkd_mmio_write direct_read requests fuel VIRTIO_MMIO_QUEUE_NOTIFY 0 len (f, b)
      = Done (true, (f', b')) /\ ram_ok f' /\
    (rs <> [] -> exists f0, ram_ok f0 /\ fabric_raise_irq f0 = Done (true, f')) /\
    queue_done (blkd_queue b) (bd_backend (blkd_dev b)) rs u0 (disk_of b) (peek f) b' (peek f').
Proof.
  intros Hf [Hb Hh Hrdy Hro Hin Hu0 Hu Hfuel Hreq].
  set (q := blkd_queue b) in *. set (be := bd_backend (blkd_dev b)).
  assert (progress (peek f) q be rs (disk_of b) u0 0 f b) as Hse.
  { split; try assumption; try reflexivity; [apply agree_refl | | |].
    - rewrite Z.add_0_r, u16_small by apply (queue_ok b Hb). fold q. now destruct q.
    - rewrite Z.add_0_r, u16_small by assumption. assumption.
    - exists []. now split. }
  destruct (wp_elim (blkd_mmio_write direct_read requests fuel VIRTIO_MMIO_QUEUE_NOTIFY
    0 len) (f, b) (fun r s => r = true /\ ram_ok (fst s) /\
      (rs <> [] -> exists f0, ram_ok f0 /\ fabric_raise_irq f0 = Done (true, fst s)) /\ exists f1 b1,
      snd s = (if (0 <? length rs)%nat then raise_vring b1 else b1) /\ peek (fst s) ≡m peek f1 /\
      progress (peek f) q be rs (disk_of b) u0 (length rs) f1 b1))
    as (r & [f' b'] & E & -> & Hf' & Hraise & f1 & b1 & Eb & Hp & Hfin).
  - unfold blkd_mmio_write. rewrite wpx_bind, wpx_modify. cbn [fst snd].
    rewrite notify_write_id by reflexivity.
    rewrite wpx_check. cbn [Z.eqb VIRTIO_MMIO_QUEUE_NOTIFY VIRTIO_MMIO_STATUS
      VIRTIO_MMIO_INTERRUPT_ACK Pos.eqb andb].
    rewrite wpx_ret, wpx_check, wpx_ret, wpx_check.
    unfold blkd_virtio_notify_queue. rewrite wpx_bind, wpx_gets. cbn [fst snd].
    fold q. rewrite (proj2 (Z.eqb_neq _ _) Hrdy). cbn [negb orb u32].
    change (negb (u32 0 =? 0) || false) with false. cbn iota.
    rewrite wpx_try.
    wpuse (progress_all direct_read fuel (peek f) q be rs (disk_of b) u0); try eassumption.
    intros r [f1 b1] [-> Hfin]. cbn [fst snd] in *.
    destruct (Nat.ltb_spec 0 (length rs)) as [Hlt|Hge].
    + wpsimpl. cbn [fst snd].
      destruct (wp_elim _ _ _ (ram_raise f1 (sp_fab _ _ _ _ _ _ _ _ _ Hfin)))
        as (r & f2 & Er & -> & Hp2 & Hf2).
      unfold wpx at 1. rewrite Er. wpsimpl. split; [reflexivity|]. split; [exact Hf2|].
      split; [|eauto]. intros _. exists f1. split; [apply Hfin | exact Er].
    + unfold blkd_ack_notify. wpsimpl. cbn [fst snd].
      destruct (has_bit _ _); wpsimpl;
        [wpuse ram_raise | wpuse ram_lower]; try apply Hfin;
        intros r f2 (-> & Hp2 & Hf2); wpsimpl; (split; [reflexivity|]; split; [exact Hf2|]; split; [|eauto];
        intros Hne; destruct rs; [easy | cbn in Hge; lia]).
  - cbn [fst snd] in *. destruct Hfin. exists f', b'.
    split; [exact E|]. split; [exact Hf'|]. split; [exact Hraise|]. subst b'.
    destruct sp_state0 as (oks & Hl & Hd & Hm). rewrite firstn_all in Hd, Hm.
    destruct rs as [|r0 rs']; split; try easy.
    + exists oks. split; [exact Hl|]. split; [exact Hd | now rewrite Hp].
    + eapply agree_proper; eassumption.
    + exists oks. split; [exact Hl|]. split; [exact Hd | now rewrite Hp].
    + intros _. apply raise_vring_bit.
    + eapply agree_proper; eassumption.
Qed.

(** ** Claims *)

(** C2: a notification executes its queue. With any number of requests available, be they
    writes, reads, flushes or of an unsupported type, inside or outside the image, with
    wrong descriptor directions, on a writable or a read-only image, the notification
    returns success and has had exactly the effect of the reference: the requests
    executed once each, one after the other in ring order, on the image, on stable
    storage and on guest memory, every one with its status byte and used-ring entry. The
    cursor has reached the available index; the interrupt is pending if there was a
    request; no guest byte outside the used ring, the status bytes and the destinations
    of reads has changed. *)
Theorem blk_queue_refines {F} `{HR : RamFabric F} direct_read requests fuel f b rs u0 len :
  ram_ok f -> queue_ready fuel requests b (peek f) rs u0 ->
  exists f' b',
    blkd_mmio_write direct_read requests fuel VIRTIO_MMIO_QUEUE_NOTIFY 0 len (f, b)
      = Done (true, (f', b')) /\ ram_ok f' /\
    queue_done (blkd_queue b) (bd_backend (blkd_dev b)) rs u0 (disk_of b) (peek f) b' (peek f').
Proof.
  intros Hf Hr. destruct (queue_served direct_read requests fuel f b rs u0 len Hf Hr)
    as (f' & b' & E & Hf' & _ & Hd). exists f', b'. auto.
Qed.

(** The witness: a write of four bytes to sector 1, and a read of them back, in one
    notification. Table at 0x1000, headers at 0x1080, payload at 0x10a0, destination at
    0x10b0, status bytes at 0x10c0. *)
Definition link_desc (addr len flags next : Z) : virtio_desc :=
  {| d_addr := addr; d_len := len; d_flags := flags; d_next := next |}.

Definition store_request : blk_request :=
  {| rq_head := 0; rq_sector := 1; rq_hd := link_desc 0x1080 16 VRING_DESC_F_NEXT 1;
     rq_op := OutOp [(link_desc 0x10a0 4 VRING_DESC_F_NEXT 2, [1; 2; 3; 4])];
     rq_sd := link_desc 0x10c0 1 VRING_DESC_F_WRITE 0 |}.
Definition fetch_request : blk_request :=
  {| rq_head := 3; rq_sector := 1; rq_hd := link_desc 0x1090 16 VRING_DESC_F_NEXT 4;
     rq_op := InOp [link_desc 0x10b0 4 (Z.lor VRING_DESC_F_NEXT VRING_DESC_F_WRITE) 5];
     rq_sd := link_desc 0x10c1 1 VRING_DESC_F_WRITE 0 |}.
Definition pair_requests : list blk_request := [store_request; fetch_request].

Definition request_descs (r : blk_request) : list Z :=
  concat (map encode_desc (rq_hd r :: op_segs (rq_op r) ++ [rq_sd r])).

Definition pair_memory : list Z :=
  concat (map request_descs pair_requests) ++ replicate 32 0
  ++ blk_header VIRTIO_BLK_T_OUT 0 1 ++ blk_header VIRTIO_BLK_T_IN 0 1
  ++ [1; 2; 3; 4] ++ replicate 28 0 ++ replicate 64 0xff
  ++ [0; 0] ++ virtio_store_le16 2 ++ virtio_store_le16 0 ++ virtio_store_le16 3
  ++ replicate 248 0 ++ replicate 128 0.

Definition pair_fabric : uio_state := sample_fabric pair_memory.

Definition pair_queue : virtio_queue :=
  {| q_num := 8; q_ready := 1; q_desc := 0x1000; q_avail := 0x1100; q_used := 0x1200;
     q_last_avail_idx := 0 |}.

Definition pair_blkd : blkd := set_up_queue (blkd_connect (sample_blkd false PNull 0 [])) pair_queue.

Lemma pair_untouched a len :
  a + len <= 0x10b0 \/ 0x1100 <= a /\ a + len <= 0x1200 ->
  forall x, a <= x < a + len -> ~ touches pair_queue pair_requests x.
Proof.
  intros Ha x Hx [Hu|He].
  - change (q_used pair_queue) with 0x1200 in Hu. lia.
  - apply Exists_cons in He as [[E|[]]|He]; [change (d_addr (rq_sd store_request)) with 0x10c0 in E; lia|].
    apply Exists_cons in He as [[E|E]|He]; [| |now apply Exists_nil in He].
    + change (d_addr (rq_sd fetch_request)) with 0x10c1 in E. lia.
    + apply Exists_cons in E as [E|E]; [|now apply Exists_nil in E]. cbn in E. lia.
Qed.

Section pair.
Context (m : mem) (Hag : agree (touches pair_queue pair_requests) (uio_peek pair_fabric) m).

Lemma pair_at a data :
  a + zlen data <= 0x10b0 \/ 0x1100 <= a /\ a + zlen data <= 0x1200 ->
  0x1000 <= a -> slice (a - 0x1000) (zlen data) pair_memory = data -> mem_at m a data.
Proof.
  intros Hr Ha E. eapply mem_at_agree; [|exact Hag|].
  - now apply pair_untouched.
  - now apply uio_over_mem_at.
Qed.

Ltac pair_mem := apply pair_at;
  [first [left; closed_le | right; split; closed_le] | closed_le | vm_compute; reflexivity].
Ltac pair_desc := split; [split; decided | split; [demo_range | pair_mem]].
Ltac pair_mapped := eapply mapped_agree; [exact Hag|]; apply uio_over_mapped; closed_le.
Ltac pair_chain :=
  split; [pair_desc | reflexivity | demo_range | exists 0; pair_mem | decided | decided
         | split; [pair_desc | split; [reflexivity | split; [pair_desc | reflexivity]]]
         | split; [demo_range | pair_mapped] | reflexivity].

Lemma pair_available : available m pair_queue pair_requests.
Proof.
  split; [pair_mem|]. intros [|[|j]] r Hr; [| |easy]; injection Hr as <-.
  - split; [pair_mem|]. split; [decided | pair_chain|].
    constructor; [|constructor]. split; [decided|]. split; [reflexivity|].
    split; [demo_range | pair_mem].
  - split; [pair_mem|]. split; [decided | pair_chain|].
    constructor; [|constructor]. split; [demo_range|]. split; [pair_mapped|].
    constructor; [right; closed_le | constructor; [right; closed_le | constructor]].
Qed.
End pair.

Lemma pair_ready : queue_ready 3 3 pair_blkd (uio_peek pair_fabric) pair_requests 0.
Proof.
  split.
  - apply set_up_queue_ok. split; decided.
  - split; constructor.
  - discriminate.
  - split; [reflexivity | demo_range | demo_range | apply uio_over_mapped; closed_le].
  - split; [apply pair_available | | closed_le].
    intros j r a Hr Ho. left. change (q_used (blkd_queue pair_blkd)) with 0x1200.
    destruct j as [|[|j]]; [| |easy]; injection Hr as <-.
    + destruct Ho as [->|[]]. closed_le.
    + destruct Ho as [->|Ho]; [closed_le|].
      apply Exists_cons in Ho as [E|E]; [|now apply Exists_nil in E]. cbn in E. lia.
  - decided.
  - apply uio_over_mem_at; [closed_le | vm_compute; reflexivity].
  - repeat constructor.
  - cbn. lia.
Qed.

Lemma blk_queue_refines_witness :
  exists f' b',
    blkd_mmio_write false 3 3 VIRTIO_MMIO_QUEUE_NOTIFY 0 4 (pair_fabric, pair_blkd)
      = Done (true, (f', b')) /\
    h_file (bk_host b') = splice 512 [1; 2; 3; 4] (replicate 1024 7) /\
    uio_peek f' 0x10b0 = Some 1 /\ uio_peek f' 0x10b3 = Some 4 /\ uio_peek f' 0x10c1 = Some 0.
Proof.
  destruct (blk_queue_refines (HR := uio_ram) false 3 3 pair_fabric pair_blkd pair_requests 0 4)
    as (f' & b' & E & _ & [(oks & Hl & Hd & Hm) _ _ _]).
  - apply uio_over_inv; decided.
  - exact pair_ready.
  - exists f', b'. split; [exact E|].
    destruct oks as [|o1 [|o2 [|]]]; try discriminate Hl.
    split; [exact (f_equal dk_file Hd)|].
    repeat split; (etransitivity; [apply Hm|]); vm_compute; reflexivity.
Defined.
