(* ===== verification/GuestDriver.v ===== *)
(** * The guest's driver on the socket

    What a virtio-mmio driver writes while it sets a device up, and how a session of such
    writes runs against a device behind the QEMU socket fabric, for any device whose
    write callback only records a register that is not QueueNotify. *)

From S2P Require Import Prelude Endian Fabric Virtio VirtioMmio QueueService.
From S2P Require Import Posix QemuSocket QemuPeer QemuService.

#[local] Open Scope Z_scope.
#[local] Open Scope c_scope.

(** A 32-bit register write of the guest. *)
Definition register_write (r : Z * Z) : access := GuestWrite r.1 4 r.2.

Record plain_register (r : Z * Z) : Prop := {
  pr_offset : 0 <= r.1 <= 0x1fc;
  pr_plain : r.1 <> VIRTIO_MMIO_QUEUE_NOTIFY;
  pr_value : in_width 32 r.2;
}.

(** ** Values *)

Lemma shiftr32_width x : in_width 64 x -> in_width 32 (Z.shiftr x 32).
Proof.
  unfold in_width. rewrite Z.shiftr_div_pow2 by lia. intros. Z.div_mod_to_equations. lia.
Qed.

Lemma halves x y : in_width 64 x -> in_width 64 y ->
  set_high (set_low y (u32 (u32 x))) (u32 (Z.shiftr x 32)) = x.
Proof.
  intros Hx Hy. pose proof (shiftr32_width x Hx) as Hs.
  rewrite (u32_small (u32 x)), (u32_small (Z.shiftr x 32)) by (assumption || apply u32_range).
  rewrite set_low_high by (assumption || apply u32_range).
  rewrite Z.shiftr_div_pow2 by lia. unfold u32. pose proof (Z.div_mod x (2 ^ 32)). lia.
Qed.

Lemma low_bytes_32 v : in_width 32 v -> low_bytes 4 v = v.
Proof.
  unfold low_bytes, in_width. intros Hv. rewrite u64_small by (unfold in_width; lia).
  apply Z.mod_small. exact Hv.
Qed.

Lemma low_bytes_u32 x : low_bytes 4 x = u32 x.
Proof.
  unfold low_bytes, u32, u64. change (8 * 4) with 32. Z.div_mod_to_equations. lia.
Qed.

(** The interrupt bit survives the 32-bit read through the socket. *)
Lemma vring_read (x : Z) :
  has_bit x VIRTIO_INTERRUPT_VRING = true ->
  has_bit (low_bytes 4 (mask_read x 4)) VIRTIO_INTERRUPT_VRING = true.
Proof.
  rewrite low_bytes_u32. apply vring_status.
Qed.

(** ** The set-up sequence *)

(** Reset, acknowledge, driver found, the accepted features in two halves, features
    settled. *)
Definition negotiation (features : Z) : list (Z * Z) :=
  [(VIRTIO_MMIO_STATUS, 0); (VIRTIO_MMIO_STATUS, 1); (VIRTIO_MMIO_STATUS, 3);
   (VIRTIO_MMIO_DRIVER_FEATURES_SEL, 1); (VIRTIO_MMIO_DRIVER_FEATURES, Z.shiftr features 32);
   (VIRTIO_MMIO_DRIVER_FEATURES_SEL, 0); (VIRTIO_MMIO_DRIVER_FEATURES, u32 features);
   (VIRTIO_MMIO_STATUS, 11)].

(** One queue: its size, its ring addresses in halves, ready. *)
Definition queue_setup (index n desc avail used : Z) : list (Z * Z) :=
  [(VIRTIO_MMIO_QUEUE_SEL, index); (VIRTIO_MMIO_QUEUE_NUM, n);
   (VIRTIO_MMIO_QUEUE_DESC_LOW, u32 desc); (VIRTIO_MMIO_QUEUE_DESC_HIGH, Z.shiftr desc 32);
   (VIRTIO_MMIO_QUEUE_AVAIL_LOW, u32 avail); (VIRTIO_MMIO_QUEUE_AVAIL_HIGH, Z.shiftr avail 32);
   (VIRTIO_MMIO_QUEUE_USED_LOW, u32 used); (VIRTIO_MMIO_QUEUE_USED_HIGH, Z.shiftr used 32);
   (VIRTIO_MMIO_QUEUE_READY, 1)].

(** The queue the driver asked for, and what the register writes leave in it. *)
Definition driver_queue (n desc avail used : Z) : virtio_queue :=
  {| q_num := n; q_ready := 1; q_desc := desc; q_avail := avail; q_used := used;
     q_last_avail_idx := 0 |}.

Definition programmed_queue (n desc avail used : Z) : virtio_queue :=
  {| q_num := u32 n; q_ready := 1;
     q_desc := set_high (set_low 0 (u32 (u32 desc))) (u32 (Z.shiftr desc 32));
     q_avail := set_high (set_low 0 (u32 (u32 avail))) (u32 (Z.shiftr avail 32));
     q_used := set_high (set_low 0 (u32 (u32 used))) (u32 (Z.shiftr used 32));
     q_last_avail_idx := 0 |}.

Lemma programmed_queue_eq n desc avail used :
  in_width 32 n -> in_width 64 desc -> in_width 64 avail -> in_width 64 used ->
  programmed_queue n desc avail used = driver_queue n desc avail used.
Proof.
  intros. assert (in_width 64 0) by (unfold in_width; lia). unfold programmed_queue.
  now rewrite !halves, u32_small by assumption.
Qed.

Ltac plain_registers :=
  repeat (constructor; [split; [vm_compute; split; discriminate | discriminate |
    cbn [snd]; first [assumption | apply u32_range | now apply shiftr32_width
                     | unfold in_width; lia]]|]);
  constructor.

Lemma negotiation_plain features :
  in_width 64 features -> Forall plain_register (negotiation features).
Proof. intros Hf. unfold negotiation. plain_registers. Qed.

Lemma queue_setup_plain index n desc avail used :
  in_width 32 index -> in_width 32 n -> in_width 64 desc -> in_width 64 avail ->
  in_width 64 used -> Forall plain_register (queue_setup index n desc avail used).
Proof. intros Hi Hn Hd Ha Hu. unfold queue_setup. plain_registers. Qed.

Lemma status_plain v : in_width 32 v -> Forall plain_register [(VIRTIO_MMIO_STATUS, v)].
Proof. intros Hv. plain_registers. Qed.

(** ** The fabric under a register write *)

Lemma lower_quiet script log s (Q : bool -> sock qemu -> Prop) :
  qemu_quiet script log s ->
  (forall s', qemu_quiet script log s' -> qm_mem (sk_peer s') = qm_mem (sk_peer s) -> Q true s') ->
  wp fabric_lower_irq s Q.
Proof.
  intros Hs HQ. destruct (quiet_link _ _ _ Hs) as (q & ev & -> & Hq & Hb).
  eapply (send_irq script log _ false); [assumption | assumption | now right|].
  intros ev2 Hb2 Hq2. apply HQ; [now apply link_quiet | reflexivity].
Qed.

Lemma raise_quiet script log s (Q : bool -> sock qemu -> Prop) :
  qemu_quiet script log s ->
  (forall s', qemu_quiet script log s' -> qm_mem (sk_peer s') = qm_mem (sk_peer s) -> Q true s') ->
  wp fabric_raise_irq s Q.
Proof.
  intros Hs HQ. destruct (quiet_link _ _ _ Hs) as (q & ev & -> & Hq & Hb).
  cbn [fabric_raise_irq qemu_fabric]. unfold qemu_raise_irq. rewrite wpx_check.
  eapply (send_irq script log _ false); [assumption | assumption | now right|].
  intros ev1 Hb1 Hq1. eapply (send_irq script log _ true); [assumption | assumption | now left|].
  intros ev2 Hb2 Hq2. apply HQ; [now apply link_quiet | reflexivity].
Qed.

(** Lowering the line on a condition, as both daemons do after a register write. *)
Lemma lower_if_quiet {D : Type} script log (c : bool) s (d : D) :
  qemu_quiet script log s ->
  wp (if c then liftF fabric_lower_irq else ret true) (s, d) (fun ok s' =>
    ok = true /\ qemu_quiet script log (fst s') /\ snd s' = d /\
    qm_mem (sk_peer (fst s')) = qm_mem (sk_peer s)).
Proof.
  intros Hs. destruct c; [|now rewrite wpx_ret]. rewrite wpx_liftF. cbn [fst snd].
  apply (lower_quiet script log); [assumption|]. intros s' Hs' Em. auto.
Qed.

(** ** Sessions *)

Section session.
Context {D : Type} (dev : fabric_device (sock qemu) D) (rd : D -> Z -> Z -> Z).
Context (pre : Z -> Z -> Z -> D -> mem -> Prop).
Context (eff : Z -> Z -> Z -> D -> mem -> D -> mem -> Prop).

(** The device after a list of register writes. *)
Context (put : list (Z * Z) -> D -> D).
Context (put_nil : forall d, put [] d = d).
Context (put_cons : forall r regs d, put (r :: regs) d = put regs (put [r] d)).
Context (base : fd_addr dev = 0).
Context (pre_plain : forall off v d m, off <> VIRTIO_MMIO_QUEUE_NOTIFY -> pre off v 4 d m).
Context (eff_plain : forall off v d m d' m', off <> VIRTIO_MMIO_QUEUE_NOTIFY ->
  eff off v 4 d m d' m' -> d' = put [(off, v)] d /\ m' = m).

Lemma plain_effect r d m d' m' : plain_register r ->
  eff (r.1 - fd_addr dev) (low_bytes 4 r.2) 4 d m d' m' -> d' = put [r] d /\ m' = m.
Proof.
  intros [_ Hp Hv]. rewrite base, Z.sub_0_r, low_bytes_32 by assumption. intros He.
  apply eff_plain in He; [|assumption]. now destruct r.
Qed.

Lemma setup_admissible regs rest d m :
  Forall plain_register regs ->
  admissible dev pre eff rest (put regs d) m ->
  admissible dev pre eff (map register_write regs ++ rest) d m.
Proof.
  intros Hr. revert d. induction Hr as [|r regs Hr _ IH]; intros d Had.
  { now rewrite put_nil in Had. }
  cbn [map app register_write admissible]. split.
  - apply pre_plain. rewrite base, Z.sub_0_r. apply Hr.
  - intros d1 m1 He. apply plain_effect in He as [-> ->]; [|assumption].
    apply IH. now rewrite <- put_cons.
Qed.

Lemma setup_runs regs rest d m vs d' m' :
  Forall plain_register regs ->
  runs dev rd eff (map register_write regs ++ rest) d m vs d' m' ->
  runs dev rd eff rest (put regs d) m vs d' m'.
Proof.
  intros Hr. revert d. induction Hr as [|r regs Hr _ IH]; intros d H.
  { now rewrite put_nil. }
  cbn [map app register_write] in H. inversion H as [| |? ? ? ? ? ? d1 m1 ? ? ? He H1]; subst.
  apply plain_effect in He as [-> ->]; [|assumption]. rewrite put_cons. now apply IH in H1.
Qed.

Lemma setup_access_ok regs : fd_size dev = 0x200 ->
  Forall plain_register regs -> Forall (access_ok dev) (map register_write regs).
Proof.
  intros Hs Hr. apply Forall_map. eapply list.Forall_impl; [exact Hr|].
  intros r [Ho _ _]. cbn. unfold in_aperture. rewrite base, Hs. lia.
Qed.
End session.
