(* ===== verification/BlkSocket.v ===== *)
(** * The block daemon behind QEMU, end to end

    A guest on the other side of the socket negotiates with the block device, programs
    its queue, and notifies it with requests in memory: the daemon's connection loop,
    the message exchange, the transport registers, the queue and the image file
    together. The generic session of [QemuPeer.v] is instantiated with the block
    device; the queue is served by the lemmas of [BlkQueue.v]. *)

From S2P Require Import Prelude Endian Fabric Virtio VirtioMmio QueueService Rings.
From S2P Require Import Posix BlockBackend VirtioBlk BlkSafety BlkRequest BlkQueue.
From S2P Require Import QemuSocket QemuPeer QemuService GuestDriver LinuxUio.

#[local] Open Scope Z_scope.
#[local] Open Scope c_scope.

(** The daemon after register writes that do not notify. *)
Definition registers_written (regs : list (Z * Z)) (b : blkd) : blkd :=
  {| bk_mmio := mmio_run (bk_mmio b) regs; bk_host := bk_host b |}.

Section device.
Context (direct_read : bool) (requests fuel : nat) (path : string).

Definition blk_dev : fabric_device (sock qemu) blkd :=
  blkd_fabric_init_device direct_read requests fuel path.

(** When the write callback of the block device succeeds, and what it does. *)
Definition blk_pre (off v _size : Z) (b : blkd) (m : mem) : Prop :=
  off = VIRTIO_MMIO_QUEUE_NOTIFY ->
  v = 0 /\ exists rs u0, queue_ready fuel requests b m rs u0.

Definition blk_effect (off v _size : Z) (b : blkd) (m : mem) (b' : blkd) (m' : mem) : Prop :=
  if off =? VIRTIO_MMIO_QUEUE_NOTIFY
  then forall rs u0, queue_ready fuel requests b m rs u0 ->
    queue_done (blkd_queue b) (bd_backend (blkd_dev b)) rs u0 (disk_of b) m b' m'
  else b' = registers_written [(off, v)] b /\ m' = m.

(** A register other than QueueNotify. *)
Lemma blk_plain script log off v size s b :
  qemu_quiet script log s -> off <> VIRTIO_MMIO_QUEUE_NOTIFY ->
  wp (blkd_mmio_write direct_read requests fuel off v size) (s, b) (fun ok s' =>
    ok = true /\ qemu_quiet script log (fst s') /\
    snd s' = registers_written [(off, v)] b /\
    qm_mem (sk_peer (fst s')) = qm_mem (sk_peer s)).
Proof.
  intros Hs Hoff. unfold blkd_mmio_write. rewrite wpx_bind, wpx_modify. cbn [fst snd].
  set (b' := {| bk_mmio := _; bk_host := _ |}).
  rewrite wpx_check. wpuse (lower_if_quiet script log); [eassumption|].
  intros r [s1 b1] (-> & Hs1 & E1 & Em1). cbn [fst snd] in *. subst b1.
  rewrite wpx_check. wpuse (lower_if_quiet script log); [eassumption|].
  intros r [s2 b2] (-> & Hs2 & E2 & Em2). cbn [fst snd] in *. subst b2.
  rewrite (proj2 (Z.eqb_neq off _) Hoff), wpx_check, wpx_ret, wpx_ret. cbn [fst snd].
  split; [reflexivity|]. split; [assumption|]. split; [reflexivity | congruence].
Qed.

Lemma blk_spec script log off v size s b :
  qemu_quiet script log s -> in_width 64 v -> blk_pre off v size b (qm_mem (sk_peer s)) ->
  wp (blkd_mmio_write direct_read requests fuel off v size) (s, b) (fun ok s' =>
    ok = true /\ qemu_quiet script log (fst s') /\
    blk_effect off v size b (qm_mem (sk_peer s)) (snd s') (qm_mem (sk_peer (fst s')))).
Proof.
  intros Hs _ Hpre. unfold blk_effect. destruct (Z.eqb_spec off VIRTIO_MMIO_QUEUE_NOTIFY) as [->|Hn].
  - destruct (Hpre eq_refl) as (-> & rs & u0 & Hr).
    destruct (queue_served (HR := qemu_ram script log) direct_read requests fuel s b rs u0 size Hs Hr)
      as (s1 & b1 & E & Hs1 & _). unfold wpx. rewrite E. cbn [fst snd].
    split; [reflexivity|]. split; [exact Hs1|]. intros rs' u' Hr'.
    destruct (queue_served (HR := qemu_ram script log) direct_read requests fuel s b rs' u' size Hs Hr')
      as (s2 & b2 & E2 & _ & _ & Hd). rewrite E in E2. injection E2 as <- <-. exact Hd.
  - apply blk_plain; assumption.
Qed.
End device.

(** ** The guest's driver *)

(** What the driver writes before it uses queue 0: negotiation, the queue with its ring
    addresses, driver ready. *)
Definition driver_setup (features n desc avail used : Z) : list (Z * Z) :=
  negotiation features ++ queue_setup 0 n desc avail used ++ [(VIRTIO_MMIO_STATUS, 15)].

(** The driver sets the device up, notifies queue 0 and reads the interrupt status. *)
Definition driver_program (features n desc avail used : Z) : list access :=
  map register_write (driver_setup features n desc avail used) ++
  [GuestWrite VIRTIO_MMIO_QUEUE_NOTIFY 4 0; GuestRead VIRTIO_MMIO_INTERRUPT_STATUS 4].

Section setup.
Context (features n desc avail used : Z).
Context (Hf : in_width 64 features) (Hn : in_width 32 n) (Hd : in_width 64 desc)
        (Ha : in_width 64 avail) (Hu : in_width 64 used).

Lemma setup_plain : Forall plain_register (driver_setup features n desc avail used).
Proof.
  unfold driver_setup. repeat (apply Forall_app; split).
  - now apply negotiation_plain.
  - apply queue_setup_plain; (assumption || decided).
  - apply status_plain. decided.
Qed.

Lemma setup_queue b :
  blkd_queue (registers_written (driver_setup features n desc avail used) (blkd_connect b))
  = driver_queue n desc avail used.
Proof.
  transitivity (programmed_queue n desc avail used); [reflexivity|].
  now apply programmed_queue_eq.
Qed.
End setup.

Section program.
Context (direct_read : bool) (requests fuel : nat) (path : string).
Notation dev := (blk_dev direct_read requests fuel path).
Notation pre := (blk_pre requests fuel).
Notation eff := (blk_effect requests fuel).

Lemma written_cons r regs b :
  registers_written (r :: regs) b = registers_written regs (registers_written [r] b).
Proof. reflexivity. Qed.

Lemma pre_plain off v b m : off <> VIRTIO_MMIO_QUEUE_NOTIFY -> pre off v 4 b m.
Proof. intros H E. contradiction. Qed.

Lemma eff_plain off v b m b' m' : off <> VIRTIO_MMIO_QUEUE_NOTIFY ->
  eff off v 4 b m b' m' -> b' = registers_written [(off, v)] b /\ m' = m.
Proof. intros H. unfold blk_effect. now rewrite (proj2 (Z.eqb_neq _ _) H). Qed.

Lemma written_nil b : registers_written [] b = b.
Proof. now destruct b. Qed.

Lemma registers_serving be file b regs :
  BlkSafety.serving be file (fun _ => True) b ->
  BlkSafety.serving be file (fun _ => True) (registers_written regs b).
Proof.
  revert b. induction regs as [|r regs IH]; intros b Hb; [now destruct b|].
  apply (IH {| bk_mmio := virtio_mmio_write (bk_mmio b) r.1 r.2; bk_host := bk_host b |}).
  now apply serving_mmio_write.
Qed.

Lemma program_ok features n desc avail used :
  in_width 64 features -> in_width 32 n -> in_width 64 desc -> in_width 64 avail ->
  in_width 64 used -> Forall (access_ok dev) (driver_program features n desc avail used).
Proof.
  intros Hf Hn Hd Ha Hu. unfold driver_program. apply Forall_app. split.
  - apply setup_access_ok; try reflexivity. now apply setup_plain.
  - do 2 (constructor; [vm_compute; repeat split; discriminate|]). constructor.
Qed.
End program.

(** ** Claims *)

(** C1: a guest behind QEMU gets its requests executed. A guest connects over the
    socket, whatever the interruptions and short transfers on it, resets the device,
    negotiates features, programs queue 0 with the ring addresses it chose, and
    notifies it with any number of requests of any kind in its memory. The daemon serves
    every access and ends the connection when the guest is done; image, stable storage
    and guest memory are then what the reference gives for the requests executed one
    after the other in ring order, used ring and status bytes included, every other
    guest byte is as it was, and the guest's read of the interrupt status returned the
    used-buffer bit if there was a request. *)
Theorem blk_socket_serves direct_read requests fuel path features n desc avail used rs u0 m s b :
  blkd_startable b -> benign_host (bk_host b) ->
  in_width 64 features -> in_width 32 n ->
  in_width 64 desc -> in_width 64 avail -> in_width 64 used ->
  let q := driver_queue n desc avail used in
  rings_ok m q -> isolated m q rs ->
  in_width 16 u0 -> mem_at m (used + 2) (virtio_store_le16 u0) ->
  Forall (fun r => (length (op_segs (rq_op r)) < fuel)%nat) rs -> (length rs < requests)%nat ->
  let program := driver_program features n desc avail used in
  after program [] m s ->
  exists s' b' m' irq,
    serve_connection (blkd_fabric_init_device direct_read requests fuel path)
      (S (length program)) (s, b) = Done (false, (s', b')) /\
    finished [irq] m' s' /\
    (rs <> [] -> has_bit irq VIRTIO_INTERRUPT_VRING = true) /\
    queue_done q (bd_backend (blkd_dev b)) rs u0 (disk_of b) m b' m'.
Proof.
  intros Hst Hh Hf Hn Hd Ha Hu q Hri Hin Hu0 Hui Hfu Hreq program Hs.
  set (regs := driver_setup features n desc avail used).
  set (b1 := registers_written regs (blkd_connect b)).
  assert (blkd_queue b1 = q) as Eq by now apply setup_queue.
  assert (BlkSafety.serving (bd_backend (blkd_dev b)) (h_file (bk_host b)) (fun _ => True) b1)
    as [Hok _ Hbe _].
  { apply registers_serving. destruct (connect_serving b Hst). split; try assumption.
    now apply list.Forall_true. }
  assert (queue_ready fuel requests b1 m rs u0) as Hr.
  { split; rewrite ?Eq; try assumption. discriminate. }
  pose proof (setup_plain features n desc avail used Hf Hn Hd Ha Hu) as Hpl.
  destruct (connection_admissible (blk_dev direct_read requests fuel path)
    (blkd_fabric_ops direct_read requests fuel) blkd_mmio_read
    (blkd_mmio_write direct_read requests fuel) (blk_pre requests fuel)
    (blk_effect requests fuel) program m s b eq_refl eq_refl eq_refl (Z.le_refl 0)
    ltac:(vm_compute; discriminate) eq_refl (blk_spec direct_read requests fuel)
    (program_ok direct_read requests fuel path _ _ _ _ _ Hf Hn Hd Ha Hu) Hs)
    as (s' & b' & vs & m' & E & Hrun & Hfin).
  - apply (setup_admissible (blk_dev direct_read requests fuel path) _ _ registers_written written_nil written_cons eq_refl
      (pre_plain requests fuel) (eff_plain requests fuel)); [exact Hpl|]. split; [|easy]. intros _.
    split; [reflexivity | exists rs, u0; exact Hr].
  - apply (setup_runs (blk_dev direct_read requests fuel path) _ _ registers_written written_nil written_cons eq_refl
      (eff_plain requests fuel)) in Hrun; [|exact Hpl]. fold regs b1 in Hrun.
    inversion Hrun as [| |? ? ? ? ? ? d1 m1 ? ? ? He H1]; subst.
    inversion H1 as [|? ? ? ? ? vs' ? ? H2|]; subst. inversion H2; subst.
    assert (queue_done (blkd_queue b1) (bd_backend (blkd_dev b1)) rs u0 (disk_of b) m b' m') as Hk
      by exact (He rs u0 Hr).
    rewrite Eq, Hbe in Hk. exists s', b', m'. eexists.
    split; [exact E|]. split; [exact Hfin|]. split; [|exact Hk].
    intros Hne. apply vring_read, Hk, Hne.
Qed.

(** The guest of the witness: a write and the read of the same bytes. *)
Definition demo_program : list access := driver_program 0x100000000 8 0x1000 0x1100 0x1200.

Definition demo_start : sock qemu :=
  {| sk_peer := {| qm_mem := uio_peek pair_fabric; qm_irq := false; qm_wait := QService;
                   qm_pending := []; qm_script := tl demo_program; qm_log := [] |};
     sk_in := request_bytes (GuestWrite VIRTIO_MMIO_STATUS 4 0); sk_ev := bumpy;
     sk_alloc := [] |}.

Lemma pair_bytes a x : uio_peek pair_fabric a = Some x -> is_byte x.
Proof.
  assert (Forall is_byte pair_memory) as Hb by decided.
  unfold uio_peek. destruct (_ <? 0); [discriminate|]. intros H.
  exact (Forall_lookup_1 _ _ _ _ Hb H).
Defined.

Lemma blk_socket_serves_witness :
  exists s' b' m' irq,
    serve_connection (blkd_fabric_init_device false 3 3 "/run/blk.sock")
      (S (length demo_program)) (demo_start, sample_blkd false PNull 0 [])
      = Done (false, (s', b')) /\ finished [irq] m' s' /\
    h_file (bk_host b') = splice 512 [1; 2; 3; 4] (replicate 1024 7) /\
    m' 0x10b0 = Some 1 /\ m' 0x10b3 = Some 4.
Proof.
  destruct (blk_socket_serves false 3 3 "/run/blk.sock" 0x100000000 8 0x1000 0x1100 0x1200
    pair_requests 0 (uio_peek pair_fabric) demo_start (sample_blkd false PNull 0 []))
    as (s' & b' & m' & irq & E & Hf & _ & [(oks & Hl & Hd & Hm) _ _ _]).
  - apply sample_startable.
  - split; constructor.
  - decided.
  - decided.
  - decided.
  - decided.
  - decided.
  - exact (qr_rings _ _ _ _ _ _ pair_ready).
  - exact (qr_apart _ _ _ _ _ _ pair_ready).
  - decided.
  - exact (qr_used _ _ _ _ _ _ pair_ready).
  - repeat constructor.
  - cbn. lia.
  - split; try reflexivity; [exact pair_bytes | repeat constructor; discriminate].
  - exists s', b', m', irq. split; [exact E|]. split; [exact Hf|].
    destruct oks as [|o1 [|o2 [|]]]; try discriminate Hl.
    split; [exact (f_equal dk_file Hd)|].
    split; (etransitivity; [apply Hm|]); vm_compute; reflexivity.
Defined.
