(* ===== verification/UioKick.v ===== *)
(** * A notification through the shared page

    The guest stores a queue number into the notify register of the page and the UIO
    daemon makes one round of its loop, for any device that satisfies the contract of the
    register scan ([MirrorDevice]): what the round does, given what the callback of the
    device does. *)

From S2P Require Import Prelude Endian Fabric Virtio VirtioMmio QueueService.
From S2P Require Import LinuxUio UioMirror UioScan.

#[local] Open Scope Z_scope.
#[local] Open Scope c_scope.

(** Guest memory does not depend on the register page. *)
Lemma paged_peek u u' : paged u u' -> uio_peek u' = uio_peek u.
Proof. intros [_ -> _]. reflexivity. Qed.

(** A pending level reaches the control register, and nothing else changes. *)
Lemma flush_sets_level level u :
  uio_inv true u -> us_pending_irq_level u = level -> level = 0 \/ level = 1 ->
  0x100 <= uc_irq_control_offset (us_config u) < 2 ^ 64 - 4 ->
  uc_irq_control_offset (us_config u) + 4 <= um_size (us_mmio u) ->
  exists u', flush_pending_irq_level u = Done (true, u') /\ uio_peek u' = uio_peek u /\
    virtio_load_le32 (slice (uc_irq_control_offset (us_config u)) 4 (page u')) = level /\
    forall off, in_page off -> reg off u' = reg off u.
Proof.
  intros [Hok _] Hl Hb Hio Hs. unfold flush_pending_irq_level, bind, get. rewrite Hl.
  set (io := uc_irq_control_offset (us_config u)) in *.
  rewrite (proj2 (Z.ltb_ge level 0)) by lia.
  replace (if level =? 0 then 0 else 1) with level by (destruct Hb as [-> | ->]; reflexivity).
  unfold uio_size. rewrite u64_small by (unfold in_width; lia).
  rewrite (proj2 (Z.ltb_ge _ _)) by lia. pose proof (page_ok u Hok) as Hpg.
  rewrite (mo_size _ _ Hpg) in Hs. assert (zlen (virtio_store_le32 level) = 4) as H4 by reflexivity.
  destruct (map_store_ok _ (page u) io (virtio_store_le32 level) Hpg) as [E Hpg'];
    [lia | lia | apply bytes_store_le32|].
  unfold mmio_store32. rewrite E. eexists. split; [reflexivity|]. split; [reflexivity|]. split.
  - cbn. rewrite <- H4 at 1. rewrite slice_splice_same by lia.
    now destruct Hb as [-> | ->].
  - intros off (H0 & Ha & H1). unfold reg. cbn. f_equal. apply slice_splice_disjoint; lia.
Qed.

(** The page after the guest's store and the daemon's reset of the register. *)
Definition notified (v : Z) (u : uio_state) : uio_state :=
  store_word VIRTIO_MMIO_QUEUE_NOTIFY (virtio_store_le32 UIO_NOTIFY_IDLE)
    (axi_uio_write VIRTIO_MMIO_QUEUE_NOTIFY v u).

Section kick.
Context {D : Type} (dev : fabric_device uio_state D) (I : D -> Prop) (P : Z -> Z -> Prop).
Context `{!MirrorDevice dev I P} (window_size_eq : fd_size dev = 0x200).
Implicit Types (u : uio_state) (d : D).

Lemma notify_written : In VIRTIO_MMIO_QUEUE_NOTIFY write_offsets.
Proof. vm_compute. tauto. Qed.

Lemma notified_spec sel v u d : mirror_inv dev I P sel (u, d) -> in_width 32 v ->
  uio_inv true (notified v u) /\ uio_peek (notified v u) = uio_peek u /\
  us_config (notified v u) = us_config u /\
  um_size (us_mmio (notified v u)) = um_size (us_mmio u) /\
  reg VIRTIO_MMIO_QUEUE_NOTIFY (notified v u) = UIO_NOTIFY_IDLE.
Proof.
  intros [Hw _ _ _ _] Hv. cbn [fst] in Hw. pose proof (in_page_written _ notify_written) as Ho.
  destruct (axi_uio_write_spec VIRTIO_MMIO_QUEUE_NOTIFY v u (wo_inv _ _ Hw) notify_written Hv
    (window_size _ _ Hw)) as [Hp _].
  pose proof (window_ok_paged dev _ _ Hw Hp) as Hw1. unfold notified.
  set (u1 := axi_uio_write VIRTIO_MMIO_QUEUE_NOTIFY v u) in *.
  pose proof (store_word_paged VIRTIO_MMIO_QUEUE_NOTIFY (virtio_store_le32 UIO_NOTIFY_IDLE) u1
    (wo_inv _ _ Hw1) Ho eq_refl (bytes_store_le32 _) (window_size _ _ Hw1)) as Hp2.
  split; [exact (pd_inv _ _ Hp2)|]. split; [rewrite (paged_peek _ _ Hp2); now apply paged_peek|].
  split; [rewrite (pd_rest _ _ Hp2), (pd_rest _ _ Hp); reflexivity|].
  split; [now rewrite (pd_size _ _ Hp2), (pd_size _ _ Hp)|].
  rewrite store_word_reg; try assumption;
    [reflexivity | apply Hw1 | reflexivity | apply (window_size _ _ Hw1)].
Qed.

(** Publication: the interrupt status becomes visible, guest memory and the pending
    level stay. *)
Lemma refresh_status sel u d :
  mirror_inv dev I P sel (u, d) ->
  exists u', refresh_read_registers dev (u, d) = Done (tt, (u', d)) /\
    mirror_inv dev I P sel (u', d) /\
    shadow_of u' = shadow_of u /\ uio_peek u' = uio_peek u /\
    us_pending_irq_level u' = us_pending_irq_level u /\ us_config u' = us_config u /\
    um_size (us_mmio u') = um_size (us_mmio u) /\
    reg VIRTIO_MMIO_INTERRUPT_STATUS u' = u32 (md_read d VIRTIO_MMIO_INTERRUPT_STATUS 4).
Proof.
  intros Hm. pose proof Hm as [Hw _ _ _ _]. pose proof Hw as [[Hok _] Hd Hs].
  destruct (wp_elim _ _ _ (refresh_mirror dev _ _ sel u d Hm)) as ([] & [u' d'] & E & Hm' & Hsh).
  pose proof (page_ok u Hok) as Hpg. destruct md_ops as (ops & Eo & Er & _).
  pose proof (refresh_ok dev md_read (ex_intro _ ops (conj Eo Er)) (u, d) (page u) Hpg) as Hr.
  rewrite window_size_eq in Hr. specialize (Hr ltac:(vm_compute; split; [discriminate | reflexivity])).
  unfold wpx in Hr. rewrite E in Hr. destruct Hr as [Ed Erest (pg & pg' & Hpg1 & Hpg' & Hl & Hst & _)].
  cbn [fst snd] in *. subst d'. exists u'. split; [exact E|]. split; [exact Hm'|].
  pose proof (mapping_ok_inj _ _ _ Hpg1 Hpg). subst pg.
  split; [exact Hsh|]. split; [now rewrite Erest|]. split; [now rewrite Erest|].
  split; [now rewrite Erest|].
  split; [now rewrite (mo_size _ _ Hpg'), Hl, <- (mo_size _ _ Hpg)|].
  unfold reg. rewrite (page_of u' pg' Hpg'), Hst.
  - apply load_store_id, u32_range.
  - unfold published, listed. apply orb_true_iff. left.
    apply andb_true_iff. split; [reflexivity|].
    unfold window, uio_size. cbn [fst]. rewrite window_size_eq in *.
    unfold VIRTIO_MMIO_INTERRUPT_STATUS. lia.
Qed.

(** The scan hands the notification to the device. *)
Lemma notify_delivered sel v u d u3 d3 :
  mirror_inv dev I P sel (u, d) -> in_width 32 v -> P VIRTIO_MMIO_QUEUE_NOTIFY v ->
  reg VIRTIO_MMIO_QUEUE_NOTIFY u <> v ->
  md_write VIRTIO_MMIO_QUEUE_NOTIFY v 4 (notified v u, d) = Done (true, (u3, d3)) ->
  delivered dev VIRTIO_MMIO_QUEUE_NOTIFY v u (axi_uio_write VIRTIO_MMIO_QUEUE_NOTIFY v u, d)
    = Done (true, (u3, d3)) /\ mirror_inv dev I P sel (u3, d3) /\
  us_config u3 = us_config u /\ um_size (us_mmio u3) = um_size (us_mmio u) /\
  reg VIRTIO_MMIO_QUEUE_NOTIFY u3 = UIO_NOTIFY_IDLE.
Proof.
  intros Hm Hv HP Hn E. pose proof Hm as [Hw Hd _ _ _]. cbn [fst snd] in *.
  destruct (notified_spec sel v u d Hm Hv) as (Hi & _ & Ec & Es & Hidle).
  destruct (axi_uio_write_spec VIRTIO_MMIO_QUEUE_NOTIFY v u (wo_inv _ _ Hw) notify_written Hv
    (window_size _ _ Hw)) as [Hp _].
  pose proof (window_ok_paged dev _ _ Hw Hp) as Hw1.
  assert (delivered dev VIRTIO_MMIO_QUEUE_NOTIFY v u (axi_uio_write VIRTIO_MMIO_QUEUE_NOTIFY v u, d)
    = Done (true, (u3, d3))) as Edel.
  { unfold delivered. rewrite (proj2 (Z.eqb_neq v _)) by congruence. unfold direct_write.
    rewrite Z.eqb_refl. rewrite (bind_done _ _ _ tt (notified v u, d)).
    - unfold check_then. rewrite (bind_done _ _ _ true (u3, d3)); [reflexivity|].
      now rewrite (dev_write_md dev I P).
    - unfold notified. now rewrite (mmio_store32_word dev) by (assumption || apply in_page_written, notify_written). }
  pose proof (delivered_mirror dev I P sel VIRTIO_MMIO_QUEUE_NOTIFY v u d Hm notify_written Hv HP) as Hpost.
  pose proof (md_keeps (dev := dev) (I := I) (P := P) VIRTIO_MMIO_QUEUE_NOTIFY v (notified v u) d
    notify_written Hv HP Hi Hd) as Hk.
  unfold wpx in Hk, Hpost. rewrite E in Hk. rewrite Edel in Hpost.
  destruct Hk as (_ & Emm & Ecf & _ & _). cbn [fst snd] in *.
  split; [exact Edel|]. split; [exact (Hpost eq_refl)|].
  split; [congruence|]. split; [now rewrite Emm|]. now rewrite (reg_same _ _ _ Emm).
Qed.

(** The whole round. *)
Lemma notify_round sel v u d u3 d3 level :
  mirror_inv dev I P sel (u, d) -> in_width 32 v -> P VIRTIO_MMIO_QUEUE_NOTIFY v ->
  reg VIRTIO_MMIO_QUEUE_NOTIFY u <> v ->
  uc_irq_control_offset (us_config u) + 4 <= um_size (us_mmio u) ->
  md_write VIRTIO_MMIO_QUEUE_NOTIFY v 4 (notified v u, d) = Done (true, (u3, d3)) ->
  us_pending_irq_level u3 = level -> level = 0 \/ level = 1 ->
  exists u',
    uio_round dev (shadow_of u) (axi_uio_write VIRTIO_MMIO_QUEUE_NOTIFY v u, d)
      = Done ((true, shadow_of u'), (u', d3)) /\
    uio_peek u' = uio_peek u3 /\
    reg VIRTIO_MMIO_QUEUE_NOTIFY u' = UIO_NOTIFY_IDLE /\
    reg VIRTIO_MMIO_INTERRUPT_STATUS u' = u32 (md_read d3 VIRTIO_MMIO_INTERRUPT_STATUS 4) /\
    virtio_load_le32 (slice (uc_irq_control_offset (us_config u)) 4 (page u')) = level /\
    mirror_inv dev I P sel (u', d3).
Proof.
  intros Hm Hv HP Hn Hio E Hlev Hb.
  destruct (notify_delivered sel v u d u3 d3 Hm Hv HP Hn E) as (E1 & Hm1 & Ec1 & Es1 & Hn1).
  destruct (refresh_status sel u3 d3 Hm1)
    as (u4 & E2 & Hm2 & Hsh2 & Epk2 & El2 & Ec2 & Es2 & Hst2).
  pose proof (mn_irq _ _ _ _ _ Hm) as Hirq. cbn [fst] in Hirq.
  destruct (flush_sets_level level u4) as (u5 & E3 & Epk3 & Hw3 & Hreg3); rewrite ?Ec2, ?Ec1.
  { apply Hm2. } { congruence. } { exact Hb. } { exact Hirq. } { rewrite Es2, Es1. exact Hio. }
  assert (scan_round dev VIRTIO_MMIO_QUEUE_NOTIFY v (u, d) = Done (true, (u5, d3))) as Ed.
  { unfold scan_round. rewrite (bind_done _ _ _ (reg VIRTIO_MMIO_QUEUE_NOTIFY u) (u, d)) by reflexivity.
    rewrite (bind_done _ _ _ tt (axi_uio_write VIRTIO_MMIO_QUEUE_NOTIFY v u, d)) by reflexivity.
    fold (delivered dev VIRTIO_MMIO_QUEUE_NOTIFY v u). unfold check_then.
    rewrite (bind_done _ _ _ _ _ E1). rewrite (bind_done _ _ _ _ _ E2).
    unfold liftF, zoom. cbn [fst snd]. now rewrite E3. }
  pose proof (round_direct dev I P sel VIRTIO_MMIO_QUEUE_NOTIFY v u d Hm notify_written Hv HP
    ltac:(discriminate)) as Hround.
  rewrite Ed in Hround. destruct Hround as [Eround Hm3]. cbn [fst] in *.
  exists u5. split; [exact Eround|]. split; [now rewrite Epk3, Epk2|].
  split; [|split; [|split; [|exact Hm3]]].
  - rewrite Hreg3 by apply in_page_written, notify_written.
    rewrite (ext_in_map Hsh2 _ notify_written). exact Hn1.
  - rewrite Hreg3 by (vm_compute; split; [|split]; (discriminate || reflexivity)). exact Hst2.
  - rewrite Ec2, Ec1 in Hw3. exact Hw3.
Qed.
End kick.
