(* ===== verification/BlkUio.v ===== *)
(** * The block daemon behind the UIO mirror

    A queue notification the guest stores into the shared register page, and the round of
    the daemon it wakes: the scan, the queue, the publication of the registers and the
    interrupt level together. *)

From S2P Require Import Prelude Endian Fabric Virtio VirtioMmio QueueService Rings.
From S2P Require Import Posix BlockBackend VirtioBlk LinuxUio UioMirror UioScan BlkSafety.
From S2P Require Import BlkRequest BlkMirror BlkQueue UioKick.

#[local] Open Scope Z_scope.
#[local] Open Scope c_scope.

(** ** Claims *)

(** C3: a notification through the shared page. The guest stores the number of queue 0
    into the notify register of the page and the daemon makes one round of its loop:
    the scan finds the notification, the queue is executed exactly as the reference
    says, the notify register is idle again, the published interrupt status shows the
    used-buffer bit, and the interrupt-control register has been set to 1, after the
    registers were published. The shadow agrees with the page, so the next
    notification is found as well. *)
Theorem uio_kick_serves direct_read requests fuel path be image sel u b rs u0 :
  let dev := blkd_fabric_init_device (F := uio_state) direct_read requests fuel path in
  let io := uc_irq_control_offset (us_config u) in
  mirror_inv dev (serving be image divisible) blk_access sel (u, b) ->
  reg VIRTIO_MMIO_QUEUE_NOTIFY u <> 0 -> io + 4 <= um_size (us_mmio u) ->
  queue_ready fuel requests b (uio_peek u) rs u0 -> rs <> [] ->
  exists u' b',
    uio_round dev (shadow_of u) (axi_uio_write VIRTIO_MMIO_QUEUE_NOTIFY 0 u, b)
      = Done ((true, shadow_of u'), (u', b')) /\
    queue_done (blkd_queue b) (bd_backend (blkd_dev b)) rs u0 (disk_of b) (uio_peek u) b'
               (uio_peek u') /\
    reg VIRTIO_MMIO_QUEUE_NOTIFY u' = UIO_NOTIFY_IDLE /\
    has_bit (reg VIRTIO_MMIO_INTERRUPT_STATUS u') VIRTIO_INTERRUPT_VRING = true /\
    virtio_load_le32 (slice io 4 (page u')) = 1 /\
    mirror_inv dev (serving be image divisible) blk_access sel (u', b').
Proof.
  intros dev io Hm Hn Hio Hr Hne. assert (in_width 32 0) as H0 by (unfold in_width; lia).
  destruct (notified_spec dev _ _ sel 0 u b Hm H0) as (Hi & Epk & _). rewrite <- Epk in Hr.
  destruct (queue_served (HR := uio_ram) direct_read requests fuel (notified 0 u) b rs u0 4 Hi Hr)
    as (u3 & b' & E & _ & Hraise & Hd).
  destruct (Hraise Hne) as (f0 & _ & Ef). cbn in Ef. injection Ef as Ef.
  destruct (notify_round dev _ _ eq_refl sel 0 u b u3 b' 1 Hm H0 ltac:(discriminate) Hn Hio E)
    as (u' & Er & Epk' & Hidle & Hst & Hlev & Hm'); [now rewrite <- Ef | now right|].
  exists u', b'. split; [exact Er|]. rewrite Epk'. split; [cbn in Hd; now rewrite Epk in Hd|].
  split; [exact Hidle|]. split; [|now split].
  rewrite Hst. apply vring_status, (qd_irq _ _ _ _ _ _ _ _ Hd), Hne.
Qed.

(** The witness: the write and the read of [BlkQueue.v], behind a page with an idle
    notify register. *)
Definition pair_page : list Z :=
  splice VIRTIO_MMIO_QUEUE_NOTIFY (virtio_store_le32 UIO_NOTIFY_IDLE) (replicate 1024 0).

Definition pair_uio : uio_state := uio_over 0x1000 pair_page pair_memory.

Lemma uio_kick_serves_witness :
  let dev := blkd_fabric_init_device (F := uio_state) false 3 3 "uio:/dev/uio0" in
  exists u' b',
    uio_round dev (shadow_of pair_uio) (axi_uio_write VIRTIO_MMIO_QUEUE_NOTIFY 0 pair_uio, pair_blkd)
      = Done ((true, shadow_of u'), (u', b')) /\
    h_file (bk_host b') = splice 512 [1; 2; 3; 4] (replicate 1024 7) /\
    uio_peek u' 0x10b0 = Some 1 /\ uio_peek u' 0x10b3 = Some 4 /\
    virtio_load_le32 (slice 0x200 4 (page u')) = 1.
Proof.
  cbv zeta.
  destruct (uio_kick_serves false 3 3 "uio:/dev/uio0"
    {| be_fd := 3; be_image_len := 1024; be_readonly := false |} (replicate 1024 7) 0
    pair_uio pair_blkd pair_requests 0)
    as (u' & b' & E & [(oks & Hl & Hd & Hm) _ _ _] & _ & _ & Hw & _).
  - split; cbn [fst snd].
    + split; [apply uio_over_inv; decided | |]; (split; discriminate || reflexivity)
        || discriminate.
    + split; [apply set_up_queue_ok; split; decided | | reflexivity | discriminate].
      repeat constructor. discriminate.
    + reflexivity.
    + reflexivity.
    + split; [discriminate | reflexivity].
  - vm_compute. discriminate.
  - vm_compute. discriminate.
  - exact pair_ready.
  - discriminate.
  - exists u', b'. split; [exact E|].
    destruct oks as [|o1 [|o2 [|]]]; try discriminate Hl.
    split; [exact (f_equal dk_file Hd)|].
    split; [etransitivity; [apply Hm|]; vm_compute; reflexivity|].
    split; [etransitivity; [apply Hm|]; vm_compute; reflexivity|]. exact Hw.
Defined.
