(* ===== verification/ConsoleSocket.v ===== *)
(** * The console daemon behind QEMU, end to end

    A guest on the other side of the socket negotiates with the console, programs its
    receive and transmit queues, offers its receive buffers, notifies the transmit queue
    and handles the interrupt. The generic session of [GuestDriver.v] is instantiated with
    the console; the transmission is that of [ConsoleService.v]. *)

From S2P Require Import Prelude Endian Fabric Virtio VirtioMmio QueueService Rings.
From S2P Require Import Posix LinuxUio VirtioConsole ConsoleService.
From S2P Require Import QemuSocket QemuPeer QemuService GuestDriver.

#[local] Open Scope Z_scope.
#[local] Open Scope c_scope.

(** The console after register writes that do not notify. *)
Definition console_written (regs : list (Z * Z)) (c : cond) : cond :=
  {| co_mmio := mmio_run (co_mmio c) regs; co_out := co_out c; co_io := co_io c |}.

Lemma console_written_nil c : console_written [] c = c.
Proof. now destruct c. Qed.

Lemma console_written_cons r regs c :
  console_written (r :: regs) c = console_written regs (console_written [r] c).
Proof. reflexivity. Qed.

(** Every queue size the driver writes is a usable one. *)
Definition sizes_usable (regs : list (Z * Z)) : Prop :=
  Forall (fun r => r.1 = VIRTIO_MMIO_QUEUE_NUM -> divisible (u32 r.2)) regs.

Lemma console_written_ok regs c :
  sizes_usable regs -> cond_ok divisible c -> cond_ok divisible (console_written regs c).
Proof.
  intros Hr. revert c. induction Hr as [|r regs Hr _ IH]; intros c Hc.
  { now rewrite console_written_nil. }
  rewrite console_written_cons. apply IH. now apply cond_write_ok.
Qed.

Section device.
Context (requests fuel : nat) (path : string).

Definition console_dev : fabric_device (sock qemu) cond :=
  cond_fabric_init_device requests fuel path.

(** When the write callback of the console succeeds, and what it does. *)
Definition console_pre (off v _size : Z) (c : cond) (m : mem) : Prop :=
  off = VIRTIO_MMIO_QUEUE_NOTIFY ->
  v = 0 \/ v = 1 /\ exists ts u0, tx_ready requests fuel c m ts u0.

Definition console_effect (off v _size : Z) (c : cond) (m : mem) (c' : cond) (m' : mem) : Prop :=
  if off =? VIRTIO_MMIO_QUEUE_NOTIFY
  then (v = 0 -> c' = c /\ m' = m) /\
       (v = 1 -> forall ts u0, tx_ready requests fuel c m ts u0 ->
          tx_done (cond_queue 1 c) (co_out c) ts u0 m c' m')
  else c' = console_written [(off, v)] c /\ m' = m.

Lemma console_plain script log off v size s c :
  qemu_quiet script log s -> off <> VIRTIO_MMIO_QUEUE_NOTIFY ->
  wp (cond_mmio_write requests fuel off v size) (s, c) (fun ok s' =>
    ok = true /\ qemu_quiet script log (fst s') /\
    snd s' = console_written [(off, v)] c /\
    qm_mem (sk_peer (fst s')) = qm_mem (sk_peer s)).
Proof.
  intros Hs Hoff. unfold cond_mmio_write. rewrite wpx_bind, wpx_modify. cbn [fst snd].
  rewrite wpx_check. wpuse (lower_if_quiet script log); [eassumption|].
  intros r [s1 c1] (-> & Hs1 & E1 & Em1). cbn [fst snd] in *. subst c1.
  rewrite wpx_check. wpuse (lower_if_quiet script log); [eassumption|].
  intros r [s2 c2] (-> & Hs2 & E2 & Em2). cbn [fst snd] in *. subst c2.
  rewrite (proj2 (Z.eqb_neq off _) Hoff), wpx_check, wpx_ret, wpx_ret. cbn [fst snd].
  split; [reflexivity|]. split; [assumption|]. split; [reflexivity | congruence].
Qed.

Lemma console_ack script log s c :
  qemu_quiet script log s ->
  wp cond_ack_notify (s, c) (fun ok s' => ok = true /\ qemu_quiet script log (fst s') /\
    snd s' = c /\ qm_mem (sk_peer (fst s')) = qm_mem (sk_peer s)).
Proof.
  intros Hs. unfold cond_ack_notify. rewrite wpx_bind, wpx_gets. cbn [fst snd].
  destruct (has_bit _ _); rewrite wpx_liftF; cbn [fst snd];
    [apply (raise_quiet script log) | apply (lower_quiet script log)];
    try assumption; intros s' Hs' Em; auto.
Qed.

(** The receive queue: the notification is acknowledged and nothing else happens. *)
Lemma console_receive script log size s c :
  qemu_quiet script log s ->
  wp (cond_mmio_write requests fuel VIRTIO_MMIO_QUEUE_NOTIFY 0 size) (s, c) (fun ok s' =>
    ok = true /\ qemu_quiet script log (fst s') /\ snd s' = c /\
    qm_mem (sk_peer (fst s')) = qm_mem (sk_peer s)).
Proof.
  intros Hs. unfold cond_mmio_write. rewrite wpx_bind, wpx_modify. cbn [fst snd].
  rewrite cond_notify_id, wpx_check. cbn [Z.eqb VIRTIO_MMIO_QUEUE_NOTIFY VIRTIO_MMIO_STATUS
    VIRTIO_MMIO_INTERRUPT_ACK Pos.eqb andb].
  rewrite wpx_ret, wpx_check, wpx_ret, wpx_check.
  unfold cond_virtio_notify_queue. change (COND_QUEUE_COUNT <=? u32 0) with false.
  change (u32 0 =? 0) with true. cbn iota. rewrite wpx_bind, wpx_gets.
  destruct (_ =? 0); (wpuse (console_ack script log); [eassumption|];
    intros r s1 (-> & H); rewrite wpx_ret; auto).
Qed.

Lemma console_spec script log off v size s c :
  qemu_quiet script log s -> in_width 64 v -> console_pre off v size c (qm_mem (sk_peer s)) ->
  wp (cond_mmio_write requests fuel off v size) (s, c) (fun ok s' =>
    ok = true /\ qemu_quiet script log (fst s') /\
    console_effect off v size c (qm_mem (sk_peer s)) (snd s') (qm_mem (sk_peer (fst s')))).
Proof.
  intros Hs _ Hpre. unfold console_effect.
  destruct (Z.eqb_spec off VIRTIO_MMIO_QUEUE_NOTIFY) as [->|Hn]; [|now apply console_plain].
  destruct (Hpre eq_refl) as [-> | (-> & ts & u0 & Hr)].
  { wpuse (console_receive script log); [eassumption|]. intros ok s' (-> & H1 & H2 & H3).
    split; [reflexivity|]. split; [exact H1|]. split; [auto | discriminate]. }
  destruct (tx_kick (HR := qemu_ram script log) requests fuel s c ts u0 size Hs Hr)
    as (s1 & c1 & E & Hs1 & _). unfold wpx. rewrite E. cbn [fst snd].
  split; [reflexivity|]. split; [exact Hs1|]. split; [discriminate|]. intros _ ts' u' Hr'.
  destruct (tx_kick (HR := qemu_ram script log) requests fuel s c ts' u' size Hs Hr')
    as (s2 & c2 & E2 & _ & _ & Hd). rewrite E in E2. injection E2 as <- <-. exact Hd.
Qed.

Lemma console_pre_plain off v c m :
  off <> VIRTIO_MMIO_QUEUE_NOTIFY -> console_pre off v 4 c m.
Proof. intros H E. contradiction. Qed.

Lemma console_eff_plain off v c m c' m' : off <> VIRTIO_MMIO_QUEUE_NOTIFY ->
  console_effect off v 4 c m c' m' -> c' = console_written [(off, v)] c /\ m' = m.
Proof. intros H. unfold console_effect. now rewrite (proj2 (Z.eqb_neq _ _) H). Qed.
End device.

(** ** The guest's driver *)

(** Where the driver places a queue. *)
Record ring : Type := { rg_num : Z; rg_desc : Z; rg_avail : Z; rg_used : Z }.

Record ring_wf (r : ring) : Prop := {
  rw_num : in_width 32 (rg_num r);
  rw_size : divisible (rg_num r);
  rw_desc : in_width 64 (rg_desc r);
  rw_avail : in_width 64 (rg_avail r);
  rw_used : in_width 64 (rg_used r);
}.

Definition ring_setup (index : Z) (r : ring) : list (Z * Z) :=
  queue_setup index (rg_num r) (rg_desc r) (rg_avail r) (rg_used r).

Definition ring_queue (r : ring) : virtio_queue :=
  driver_queue (rg_num r) (rg_desc r) (rg_avail r) (rg_used r).

Definition console_setup (features : Z) (rx tx : ring) : list (Z * Z) :=
  negotiation features ++ ring_setup 0 rx ++ ring_setup 1 tx ++ [(VIRTIO_MMIO_STATUS, 15)].

(** The driver sets both queues up, offers its receive buffers, transmits, reads the
    interrupt status, acknowledges the interrupt and reads the status again. *)
Definition console_program (features : Z) (rx tx : ring) : list access :=
  map register_write (console_setup features rx tx) ++
  [GuestWrite VIRTIO_MMIO_QUEUE_NOTIFY 4 0; GuestWrite VIRTIO_MMIO_QUEUE_NOTIFY 4 1;
   GuestRead VIRTIO_MMIO_INTERRUPT_STATUS 4;
   GuestWrite VIRTIO_MMIO_INTERRUPT_ACK 4 VIRTIO_INTERRUPT_VRING;
   GuestRead VIRTIO_MMIO_INTERRUPT_STATUS 4].

Section setup.
Context (features : Z) (rx tx : ring).
Context (Hf : in_width 64 features) (Hrx : ring_wf rx) (Htx : ring_wf tx).

Lemma console_setup_plain : Forall plain_register (console_setup features rx tx).
Proof.
  unfold console_setup, ring_setup. destruct Hrx, Htx. repeat (apply Forall_app; split).
  - now apply negotiation_plain.
  - apply queue_setup_plain; (assumption || decided).
  - apply queue_setup_plain; (assumption || decided).
  - apply status_plain. decided.
Qed.

Lemma console_setup_sizes : sizes_usable (console_setup features rx tx).
Proof.
  destruct Hrx, Htx. unfold sizes_usable, console_setup, ring_setup, negotiation, queue_setup.
  cbn [app].
  repeat (constructor; [cbn [fst snd]; intros E; first [discriminate E
    | now rewrite u32_small by assumption]|]).
  constructor.
Qed.

Lemma console_setup_queue c :
  cond_queue 1 (console_written (console_setup features rx tx) (cond_connect c)) = ring_queue tx.
Proof.
  transitivity (programmed_queue (rg_num tx) (rg_desc tx) (rg_avail tx) (rg_used tx));
    [reflexivity|]. destruct Htx. now apply programmed_queue_eq.
Qed.

Lemma console_program_ok requests fuel path :
  Forall (access_ok (console_dev requests fuel path)) (console_program features rx tx).
Proof.
  unfold console_program. apply Forall_app. split.
  - apply setup_access_ok; try reflexivity. exact console_setup_plain.
  - do 5 (constructor; [vm_compute; repeat split; discriminate|]). constructor.
Qed.
End setup.

(** Acknowledging the used-buffer interrupt clears it. *)
Lemma console_acked c :
  has_bit (low_bytes 4 (cond_mmio_read
    (console_written [(VIRTIO_MMIO_INTERRUPT_ACK, VIRTIO_INTERRUPT_VRING)] c)
    VIRTIO_MMIO_INTERRUPT_STATUS 4)) VIRTIO_INTERRUPT_VRING = false.
Proof.
  rewrite low_bytes_u32. unfold cond_mmio_read, has_bit.
  change (virtio_mmio_read _ VIRTIO_MMIO_INTERRUPT_STATUS 4) with
    (Z.land (Z.land (v_interrupt_status (m_vdev (co_mmio c))) (u32 (Z.lnot 1))) 0xffffffff).
  unfold u32 at 1. rewrite <- Z.land_ones by lia. rewrite <- !Z.land_assoc.
  change (Z.land (u32 (Z.lnot 1)) _) with 0. now rewrite Z.land_0_r.
Qed.

(** ** Claims *)

(** C4: a guest behind QEMU gets its output written. A guest connects over the socket,
    whatever the interruptions and short transfers on it and on the output, resets the
    console, negotiates features, programs the receive and the transmit queue, notifies
    both with any number of chains pending for transmission, reads the interrupt status,
    acknowledges the interrupt and reads the status again. The daemon serves every access
    and ends the connection when the guest is done; the console output has grown by the
    device-readable bytes of the chains in ring order, every chain is published in the
    used ring with its number of bytes, no other byte of guest memory changed, the first
    status read shows the interrupt if there was a chain and the second does not. *)
Theorem console_socket_transmits requests fuel path features rx tx ts u0 m s c :
  Forall benign (co_io c) -> in_width 64 features -> ring_wf rx -> ring_wf tx ->
  let q := ring_queue tx in
  rings_ok m q -> tx_independent m q ts ->
  in_width 16 u0 -> mem_at m (rg_used tx + 2) (virtio_store_le16 u0) ->
  Forall (fun t => (length (t_segs t) < fuel)%nat) ts -> (length ts < requests)%nat ->
  let program := console_program features rx tx in
  after program [] m s ->
  exists s' c' m' irq irq',
    serve_connection (cond_fabric_init_device requests fuel path)
      (S (length program)) (s, c) = Done (false, (s', c')) /\
    finished [irq; irq'] m' s' /\
    (ts <> [] -> has_bit irq VIRTIO_INTERRUPT_VRING = true) /\
    has_bit irq' VIRTIO_INTERRUPT_VRING = false /\
    co_out c' = co_out c ++ concat (map t_output ts) /\
    cond_queue 1 c' = cursor_to q (u16 (Z.of_nat (length ts))) /\
    mem_at m' (rg_used tx + 2) (virtio_store_le16 (u16 (u0 + Z.of_nat (length ts)))) /\
    (forall j t, ts !! j = Some t ->
       mem_at m' (used_slot q (u16 (u0 + Z.of_nat j)))
              (virtio_store_le32 (t_head t) ++ virtio_store_le32 (zlen (t_output t)))) /\
    agree (used_region q) m m'.
Proof.
  intros Hio Hf Hrx Htx q Hri Hin Hu0 Hui Hfu Hreq program Hs.
  set (regs := console_setup features rx tx).
  set (c1 := console_written regs (cond_connect c)).
  assert (cond_queue 1 c1 = q) as Eq by now apply console_setup_queue.
  assert (cond_ok divisible c1) as Hok.
  { apply console_written_ok; [exact (console_setup_sizes _ _ _ Hrx Htx)|].
    apply cond_connect_ok. discriminate. }
  assert (tx_ready requests fuel c1 m ts u0) as Hr.
  { split; rewrite ?Eq; try assumption. discriminate. }
  pose proof (console_setup_plain features rx tx Hf Hrx Htx) as Hpl.
  destruct (connection_admissible (console_dev requests fuel path)
    (cond_fabric_ops requests fuel) cond_mmio_read (cond_mmio_write requests fuel)
    (console_pre requests fuel) (console_effect requests fuel) program m s c eq_refl eq_refl
    eq_refl (Z.le_refl 0) ltac:(vm_compute; discriminate) eq_refl (console_spec requests fuel)
    (console_program_ok _ _ _ Hf Hrx Htx requests fuel path) Hs)
    as (s' & c' & vs & m' & E & Hrun & Hfin).
  - apply (setup_admissible (console_dev requests fuel path) _ _ console_written
      console_written_nil console_written_cons eq_refl (console_pre_plain requests fuel)
      (console_eff_plain requests fuel)); [exact Hpl|]. fold regs. fold c1.
    split; [now left|]. intros c2 m2 [He _]. destruct (He eq_refl) as [-> ->].
    split; [right; split; [reflexivity | now exists ts, u0]|]. intros c3 m3 _.
    split; [discriminate | easy].
  - apply (setup_runs (console_dev requests fuel path) _ _ console_written
      console_written_nil console_written_cons eq_refl (console_eff_plain requests fuel))
      in Hrun; [|exact Hpl]. fold regs c1 in Hrun.
    inversion Hrun as [| |? ? ? ? ? ? c2 m2 ? ? ? He H1]; subst.
    destruct (proj1 He eq_refl) as [-> ->].
    inversion H1 as [| |? ? ? ? ? ? c3 m3 ? ? ? Hk H2]; subst.
    assert (tx_done (cond_queue 1 c1) (co_out c) ts u0 m c3 m3) as Hd
      by exact (proj2 Hk eq_refl ts u0 Hr). rewrite Eq in Hd.
    inversion H2 as [|? ? ? ? ? vs2 ? ? H3|]; subst.
    inversion H3 as [| |? ? ? ? ? ? c4 m4 ? ? ? He4 H4]; subst.
    apply (console_eff_plain requests fuel) in He4 as [-> ->]; [|discriminate].
    inversion H4 as [|? ? ? ? ? vs4 ? ? H5|]; subst. inversion H5; subst.
    destruct Hd as [Ho Hc Hi Hd Hv Ha]. eexists s', _, m'.
    eexists _, _. split; [exact E|]. split; [exact Hfin|].
    split; [intros Hne; exact (vring_read _ (Hv Hne))|].
    split; [apply console_acked | auto].
Qed.

(** The guest of the witness prints three bytes. *)
Definition demo_rx : ring := {| rg_num := 4; rg_desc := 0; rg_avail := 0x40; rg_used := 0x60 |}.
Definition demo_tx_ring : ring :=
  {| rg_num := 4; rg_desc := 0x1000; rg_avail := 0x1100; rg_used := 0x1200 |}.
Definition console_demo : list access := console_program 0x300000001 demo_rx demo_tx_ring.

Definition console_start : sock qemu :=
  {| sk_peer := {| qm_mem := uio_peek tx_fabric; qm_irq := false; qm_wait := QService;
                   qm_pending := []; qm_script := tl console_demo; qm_log := [] |};
     sk_in := request_bytes (GuestWrite VIRTIO_MMIO_STATUS 4 0); sk_ev := bumpy;
     sk_alloc := [] |}.

Lemma tx_bytes_ok a x : uio_peek tx_fabric a = Some x -> is_byte x.
Proof.
  assert (Forall is_byte tx_memory) as Hb by decided.
  unfold uio_peek. destruct (_ <? 0); [discriminate|]. intros H.
  exact (Forall_lookup_1 _ _ _ _ Hb H).
Defined.

Lemma ring_wf_4 d a u : in_width 64 d -> in_width 64 a -> in_width 64 u ->
  ring_wf {| rg_num := 4; rg_desc := d; rg_avail := a; rg_used := u |}.
Proof. intros. split; try assumption; [decided | discriminate]. Defined.

Lemma console_socket_transmits_witness :
  exists s' c' m' irq irq',
    serve_connection (cond_fabric_init_device 2 1 "/run/console.sock")
      (S (length console_demo)) (console_start, idle_cond [IoShort 1; IoIntr])
      = Done (false, (s', c')) /\ finished [irq; irq'] m' s' /\
    co_out c' = [104; 105; 10] /\ has_bit irq VIRTIO_INTERRUPT_VRING = true.
Proof.
  destruct (console_socket_transmits 2 1 "/run/console.sock" 0x300000001 demo_rx demo_tx_ring
    [demo_tx] 0 (uio_peek tx_fabric) console_start (idle_cond [IoShort 1; IoIntr]))
    as (s' & c' & m' & irq & irq' & E & Hf & Hi & _ & Ho & _).
  - repeat constructor; cbn; lia.
  - decided.
  - apply ring_wf_4; decided.
  - apply ring_wf_4; decided.
  - split; [reflexivity | demo_range | demo_range | apply uio_over_mapped; closed_le].
  - exact demo_tx_independent.
  - decided.
  - apply uio_over_mem_at; [closed_le | vm_compute; reflexivity].
  - repeat constructor.
  - cbn. lia.
  - split; try reflexivity; [exact tx_bytes_ok | repeat constructor; discriminate].
  - exists s', c', m', irq, irq'. split; [exact E|]. split; [exact Hf|].
    split; [exact Ho | apply Hi; discriminate].
Defined.
