(* ===== verification/QemuDevice.v ===== *)
(** * The QEMU device: the code of its socket mode

    [axi_connect], [axi_send_header], [axi_service_backend], [axi_read] and [axi_write] of
    [patches/qemu/0001-chiplets-qemu-support.patch], statement by statement, over a
    connection to any backend. The event machine of [QemuPeer.v], against which the
    socket fabric is verified, is shown to be what this code does. *)

From S2P Require Import Prelude Endian Fabric QueueService Posix QemuSocket QemuPeer.

#[local] Open Scope Z_scope.
#[local] Open Scope c_scope.

(** [sizeof(addr.sun_path)] *)
Definition AXI_SUN_PATH : nat := 108.

Section device.
Context {P : Type} `{Peer P}.

(** What the kernel answers to one attempt to connect: [socket] fails, [connect] fails, or
    the connection with the backend. *)
Inductive dial : Type :=
| NoSocket
| Refused
| Accepted (c : sock P).

(** [struct AxiState] in socket mode, with the guest memory and the interrupt line the
    device acts on: [as_sockfd] is the open connection, [as_wired] says that [s->irq] is
    not NULL, [as_reports] counts the calls of [warn_report], [as_dials] are the outcomes
    of the next attempts to connect, refused when there is none left. *)
Record axi_sock_state : Type := {
  as_sockfd : option (sock P);
  as_socket_path : string;
  as_reported : bool;
  as_reports : nat;
  as_mem : mem;
  as_wired : bool;
  as_irq : bool;
  as_dials : list dial;
}.

Definition set_sockfd (c : option (sock P)) (s : axi_sock_state) : axi_sock_state :=
  {| as_sockfd := c; as_socket_path := as_socket_path s; as_reported := as_reported s;
     as_reports := as_reports s; as_mem := as_mem s; as_wired := as_wired s;
     as_irq := as_irq s; as_dials := as_dials s |}.

Definition set_guest (m : mem) (irq : bool) (s : axi_sock_state) : axi_sock_state :=
  {| as_sockfd := as_sockfd s; as_socket_path := as_socket_path s;
     as_reported := as_reported s; as_reports := as_reports s; as_mem := m;
     as_wired := as_wired s; as_irq := irq; as_dials := as_dials s |}.

(** A transfer on [sockfd]; a closed descriptor fails with [EBADF]. *)
Definition on_sockfd {A} (closed : A) (k : M (sock P) A) : M axi_sock_state A := fun s =>
  match as_sockfd s with
  | None => Done (closed, s)
  | Some c =>
      match k c with
      | Done (a, c') => Done (a, set_sockfd (Some c') s)
      | UB => UB
      | NoFuel => NoFuel
      end
  end.

(** [axi_io_all] with [is_write] true, then false. *)
Definition axi_io_all_write (buf : list Z) : M axi_sock_state bool :=
  on_sockfd false (fun c => write_loop (loop_fuel (sk_ev c)) sk_write 0 buf c).

Definition axi_io_all_read (len : nat) : M axi_sock_state (bool * list Z) :=
  on_sockfd (false, []) (fun c => read_loop (loop_fuel (sk_ev c)) sk_read 0 len c).

Definition axi_close : M axi_sock_state unit := modify (set_sockfd None).

(** The outcome of one attempt: the new [sockfd]; the report is made once until a
    connection succeeds. *)
Definition dialled (c : option (sock P)) (rest : list dial) (s : axi_sock_state) : axi_sock_state :=
  let failed := match c with None => true | Some _ => false end in
  {| as_sockfd := c; as_socket_path := as_socket_path s; as_reported := failed;
     as_reports := if failed && negb (as_reported s) then S (as_reports s) else as_reports s;
     as_mem := as_mem s; as_wired := as_wired s; as_irq := as_irq s; as_dials := rest |}.

Definition axi_connect : M axi_sock_state bool := fun s =>
  match as_sockfd s with
  | Some _ => Done (true, s)
  | None =>
      match as_dials s with
      | Accepted c :: rest =>
          if (AXI_SUN_PATH <=? String.length (as_socket_path s))%nat
          then Done (false, dialled None rest s)
          else Done (true, dialled (Some c) rest s)
      | _ :: rest => Done (false, dialled None rest s)
      | [] => Done (false, dialled None [] s)
      end
  end.

Definition axi_send_header (kind addr len : Z) : M axi_sock_state bool :=
  check axi_connect;
  ok ← axi_io_all_write (encode_header (message kind addr len));
  if negb ok then (axi_close;; ret false) else ret true.

Definition axi_send_reply (kind addr len : Z) : M axi_sock_state bool :=
  axi_io_all_write (encode_header (message kind addr len)).

(** An interrupt line that is not wired is only logged. *)
Definition axi_assert_irq : M axi_sock_state unit :=
  modify (fun s => set_guest (as_mem s) (if as_wired s then true else as_irq s) s).

Definition axi_deassert_irq : M axi_sock_state unit :=
  modify (fun s => set_guest (as_mem s) (if as_wired s then false else as_irq s) s).

(** [address_space_rw]: [None], or [false], when part of the range is not backed. *)
Definition address_space_read (addr : Z) (len : nat) : M axi_sock_state (option (list Z)) :=
  gets (fun s => load_range (as_mem s) addr len).

Definition address_space_write (addr : Z) (buf : list Z) : M axi_sock_state bool := fun s =>
  match load_range (as_mem s) addr (length buf) with
  | None => Done (false, s)
  | Some _ => Done (true, set_guest (mem_write (as_mem s) addr buf) (as_irq s) s)
  end.

(** [axi_close(s); return false;] *)
Definition axi_give_up : M axi_sock_state bool := axi_close;; ret false.

(** The cases of the two DMA requests: whether the [break] is reached. *)
Definition axi_serve_dma_read (hdr : axi_header) : M axi_sock_state bool :=
  if ah_length hdr =? 0 then axi_send_reply AXI_MSG_DMA_READ_REPLY (ah_offset hdr) 0 else
  result ← address_space_read (ah_offset hdr) (Z.to_nat (ah_length hdr));
  match result with
  | None => ret false
  | Some buf =>
      check axi_send_reply AXI_MSG_DMA_READ_REPLY (ah_offset hdr) (ah_length hdr);
      axi_io_all_write buf
  end.

Definition axi_serve_dma_write (hdr : axi_header) : M axi_sock_state bool :=
  r ← (if ah_length hdr =? 0 then ret (true, [])
       else axi_io_all_read (Z.to_nat (ah_length hdr)));
  if negb (fst r) then ret false else
  check address_space_write (ah_offset hdr) (snd r);
  axi_send_reply AXI_MSG_ERROR 0 0.

(** The requests of the backend, one after the other; [fuel] bounds their number. *)
Fixpoint axi_service_backend (fuel : nat) : M axi_sock_state bool :=
  match fuel with
  | O => out_of_fuel
  | S fuel =>
      r ← axi_io_all_read AXI_HEADER_LEN;
      if negb (fst r) then axi_give_up else
      let hdr := decode_header (snd r) in
      if ah_kind hdr =? AXI_MSG_ERROR then ret true
      else if ah_kind hdr =? AXI_MSG_IRQ_ASSERT then
        axi_assert_irq;; axi_service_backend fuel
      else if ah_kind hdr =? AXI_MSG_IRQ_DEASSERT then
        axi_deassert_irq;; axi_service_backend fuel
      else if ah_kind hdr =? AXI_MSG_DMA_READ then
        ok ← axi_serve_dma_read hdr;
        if negb ok then axi_give_up else axi_service_backend fuel
      else if ah_kind hdr =? AXI_MSG_DMA_WRITE then
        ok ← axi_serve_dma_write hdr;
        if negb ok then axi_give_up else axi_service_backend fuel
      else axi_give_up
  end.

(** [axi_close(s); return 0;] *)
Definition axi_read_zero : M axi_sock_state Z := axi_close;; ret 0.

(** The reply to a read; the bytes of the value that are not received stay zero. *)
Definition axi_read_reply : M axi_sock_state Z :=
  r ← axi_io_all_read AXI_HEADER_LEN;
  if negb (fst r) then axi_read_zero else
  let reply := decode_header (snd r) in
  if negb (ah_kind reply =? AXI_MSG_MMIO_READ_REPLY) || (8 <? ah_length reply)
  then axi_read_zero
  else if ah_length reply =? 0 then ret 0 else
  r ← axi_io_all_read (Z.to_nat (ah_length reply));
  if negb (fst r) then axi_read_zero else
  ret (virtio_load_le64 (snd r ++ replicate (8 - Z.to_nat (ah_length reply)) 0)).

Definition axi_read (addr size : Z) : M axi_sock_state Z :=
  ok ← axi_send_header AXI_MSG_MMIO_READ addr size;
  if negb ok then ret 0 else axi_read_reply.

Definition axi_write (fuel : nat) (addr value size : Z) : M axi_sock_state unit :=
  ok ← axi_send_header AXI_MSG_MMIO_WRITE addr size;
  if negb ok then ret tt else
  ok ← axi_io_all_write (take (Z.to_nat size) (virtio_store_le64 value));
  if negb ok then axi_close else
  axi_service_backend fuel;; ret tt.

(** A register access of the guest: the value of a read, 0 for a write. *)
Definition guest_access (fuel : nat) (a : access) : M axi_sock_state Z :=
  match a with
  | GuestRead off size => axi_read off size
  | GuestWrite off size value => axi_write fuel off value size;; ret 0
  end.

Fixpoint guest_accesses (fuel : nat) (l : list access) : M axi_sock_state (list Z) :=
  match l with
  | [] => ret []
  | a :: l => v ← guest_access fuel a; vs ← guest_accesses fuel l; ret (v :: vs)
  end.
End device.
Arguments dial P : clear implicits.
Arguments axi_sock_state P : clear implicits.

(** ** The code and the event machine *)

(** A backend that only records what QEMU sends; the bytes it will ever send are in
    [sk_in] already. *)
Record tape : Type := { tp_sent : list Z }.

#[global, program] Instance tape_peer : Peer tape :=
  {| feed := fun t c => ({| tp_sent := tp_sent t ++ c |}, []) |}.
Next Obligation. intros [l]. cbn. now rewrite app_nil_r. Qed.
Next Obligation. intros [l] a b. cbn. now rewrite app_assoc. Qed.
Next Obligation. constructor. Qed.

Section transfers.
Implicit Types (st : axi_sock_state tape) (c : sock tape).

Lemma read_enough len st c (Q : bool * list Z -> axi_sock_state tape -> Prop) :
  as_sockfd st = Some c -> Forall benign (sk_ev c) -> (len <= length (sk_in c))%nat ->
  (forall ev, Forall benign ev ->
     Q (true, take len (sk_in c)) (set_sockfd (Some (sk_get c len ev)) st)) ->
  wp (axi_io_all_read len) st Q.
Proof.
  intros Hc Hb Hl HQ. unfold wpx, axi_io_all_read, on_sockfd. rewrite Hc.
  fold (io_all_read (P := tape) len c).
  destruct (io_all_read_benign len c Hb Hl) as (ev & -> & Hev). now apply HQ.
Qed.

Lemma read_short len st c (Q : bool * list Z -> axi_sock_state tape -> Prop) :
  as_sockfd st = Some c -> (length (sk_in c) < len)%nat ->
  (forall data c', Q (false, data) (set_sockfd (Some c') st)) ->
  wp (axi_io_all_read len) st Q.
Proof.
  intros Hc Hl HQ. unfold wpx, axi_io_all_read, on_sockfd. rewrite Hc.
  fold (io_all_read (P := tape) len c). rewrite io_all_read_eq.
  destruct (drain _ _ _) as [[b d] ev] eqn:E. apply drain_prefix in E as (_ & _ & Hb).
  destruct b; [destruct (Hb eq_refl); lia | apply HQ].
Qed.

Lemma write_whole buf st c (Q : bool -> axi_sock_state tape -> Prop) :
  as_sockfd st = Some c -> Forall benign (sk_ev c) ->
  (forall ev, Forall benign ev -> Q true (set_sockfd (Some (sk_put c buf ev)) st)) ->
  wp (axi_io_all_write buf) st Q.
Proof.
  intros Hc Hb HQ. unfold wpx, axi_io_all_write, on_sockfd. rewrite Hc.
  fold (io_all_write (P := tape) buf c).
  destruct (io_all_write_benign buf c Hb) as (ev & -> & Hev). now apply HQ.
Qed.
End transfers.

(** The device [st] on the connection [c] and the machine [q] are in the same state. *)
Record linked (st : axi_sock_state tape) (c : sock tape) (q : qemu) : Prop := {
  lk_fd : as_sockfd st = Some c;
  lk_ev : Forall benign (sk_ev c);
  lk_wired : as_wired st = true;
  lk_mem : as_mem st = qm_mem q;
  lk_irq : as_irq st = qm_irq q;
  lk_in : sk_in c = qm_pending q;
  lk_script : qm_script q = [];
  lk_bytes : forall a b, qm_mem q a = Some b -> is_byte b;
  lk_payload : bytes (sk_in c);
}.

(** The device [st'] has done what the machine did when it went to [q'] and sent [out]:
    the access is over, with the rest of the input unread; or the connection is closed,
    because the machine closed it or because the input ended too early. *)
Definition agrees (sent : list Z) (q' : qemu) (out : list Z) (st' : axi_sock_state tape) : Prop :=
  as_mem st' = qm_mem q' /\ as_irq st' = qm_irq q' /\
  match qm_wait q' with
  | QIdle => exists c', as_sockfd st' = Some c' /\ tp_sent (sk_peer c') = sent ++ out /\
                        sk_in c' = qm_pending q'
  | _ => as_sockfd st' = None
  end.

Lemma settle_step q q' out : qemu_step q = Some (q', out) ->
  qemu_settle q = ((qemu_settle q').1, out ++ (qemu_settle q').2).
Proof. intros E. now rewrite qemu_settle_eq, E. Qed.

Lemma settle_none q : qemu_step q = None -> qemu_settle q = (q, []).
Proof. intros E. now rewrite qemu_settle_eq, E. Qed.

Lemma settle_closed q n : qemu_settle (close_peer n q) = (close_peer n q, []).
Proof. apply settle_none. unfold qemu_step. now case_match. Qed.

Lemma settle_last q n log : qm_script q = [] ->
  qemu_settle (next_access n log q).1 = ((next_access n log q).1, []).
Proof.
  intros Hs. apply settle_none. unfold qemu_step, next_access. rewrite Hs.
  now case_match.
Qed.

Lemma map_u8_bytes_id l : bytes l -> map u8 l = l.
Proof.
  induction 1 as [|x l Hx _ IH]; [reflexivity|]. cbn. rewrite IH. f_equal.
  unfold u8. apply Z.mod_small. exact Hx.
Qed.

Lemma load_range_bytes m a len data :
  (forall a b, m a = Some b -> is_byte b) -> load_range m a len = Some data -> bytes data.
Proof.
  intros Hm E. apply mapM_Some_1 in E. unfold bytes.
  induction E as [|i x l k Hx _ IH]; constructor; [exact (Hm _ _ Hx) | exact IH].
Qed.

Lemma mem_write_bytes m a data :
  (forall a b, m a = Some b -> is_byte b) -> bytes data ->
  forall x b, mem_write m a data x = Some b -> is_byte b.
Proof.
  intros Hm Hd x b. unfold mem_write. destruct (_ && _); [|apply Hm].
  intros E. exact (proj1 (Forall_lookup _ _) Hd _ _ E).
Qed.

Section simulation.
Implicit Types (st : axi_sock_state tape) (c : sock tape) (q : qemu).

(** The state after a request that was served, [n] bytes of input later. *)
Definition served_to (n : nat) (m : mem) (irq : bool) q : qemu :=
  qm_with m irq QService (drop n (qm_pending q)) q.

Definition service_outcome (sent : list Z) q (st' : axi_sock_state tape) : Prop :=
  agrees sent (qemu_settle q).1 (qemu_settle q).2 st' /\
  qm_log (qemu_settle q).1 = qm_log q.

Definition simulates (fuel : nat) : Prop := forall st c q,
  linked st c q -> qm_wait q = QService -> (length (sk_in c) < fuel)%nat ->
  wp (axi_service_backend fuel) st (fun _ => service_outcome (tp_sent (sk_peer c)) q).

(** A request was served: the rest is the same loop. *)
Lemma sim_continue fuel st c q n out m irq st' c' :
  simulates fuel -> linked st c q -> (length (sk_in c) < S fuel)%nat ->
  (0 < n <= length (sk_in c))%nat -> qemu_step q = Some (served_to n m irq q, out) ->
  as_sockfd st' = Some c' -> Forall benign (sk_ev c') -> as_wired st' = true ->
  as_mem st' = m -> as_irq st' = irq -> sk_in c' = drop n (sk_in c) ->
  tp_sent (sk_peer c') = tp_sent (sk_peer c) ++ out ->
  (forall a b, m a = Some b -> is_byte b) ->
  wp (axi_service_backend fuel) st' (fun _ => service_outcome (tp_sent (sk_peer c)) q).
Proof.
  intros IH Hk Hf Hn Hstep Hfd Hev Hwi Hm Hi Hin Hsent Hby.
  wpuse (IH st' c' (served_to n m irq q)).
  - split; try assumption; cbn; [now rewrite Hin, (lk_in _ _ _ Hk) | apply Hk|].
    rewrite Hin. apply Forall_drop, Hk.
  - reflexivity.
  - rewrite Hin, length_drop. lia.
  - intros _ st2 [(Hm2 & Hi2 & Hc2) Hl]. unfold service_outcome. rewrite (settle_step _ _ _ Hstep).
    cbn [fst snd]. split; [|exact Hl]. split; [exact Hm2|]. split; [exact Hi2|].
    destruct (qm_wait _); try exact Hc2. rewrite Hsent, <- app_assoc in Hc2. exact Hc2.
Qed.

(** The device closes where the machine does, and where the input ends too early. *)
Lemma sim_close q st' sent :
  as_mem st' = qm_mem q -> as_irq st' = qm_irq q ->
  (exists n, qemu_step q = Some (close_peer n q, [])) \/
    (qemu_step q = None /\ qm_wait q <> QIdle) ->
  as_sockfd st' = None -> service_outcome sent q st'.
Proof.
  intros Hm Hi Hcase Hfd. unfold service_outcome.
  destruct Hcase as [[n E] | [E Hw]].
  - rewrite (settle_step _ _ _ E), settle_closed. cbn [fst snd]. now repeat split.
  - rewrite (settle_none _ E). cbn [fst snd]. repeat split; try assumption.
    now destruct (qm_wait q).
Qed.

Lemma closes_down st (Q : bool -> axi_sock_state tape -> Prop) :
  Q false (set_sockfd None st) -> wp axi_give_up st Q.
Proof. intros HQ. exact HQ. Qed.

(** The two DMA cases. *)
Lemma serve_dma_read_spec st c h :
  as_sockfd st = Some c -> Forall benign (sk_ev c) ->
  wp (axi_serve_dma_read h) st (fun ok st' =>
    match load_range (as_mem st) (ah_offset h) (Z.to_nat (ah_length h)) with
    | None => ok = false /\ st' = st
    | Some data => ok = true /\ exists c', st' = set_sockfd (Some c') st /\
        Forall benign (sk_ev c') /\ sk_in c' = sk_in c /\
        tp_sent (sk_peer c') = tp_sent (sk_peer c) ++
          encode_header (message AXI_MSG_DMA_READ_REPLY (ah_offset h) (ah_length h)) ++ data
    end).
Proof.
  intros Hc Hb. unfold axi_serve_dma_read. destruct (Z.eqb_spec (ah_length h) 0) as [->|Hne].
  - apply (write_whole _ _ c); [assumption | assumption|]. intros ev Hev. cbn.
    split; [reflexivity|]. eexists. split; [reflexivity|]. cbn. now rewrite !app_nil_r.
  - rewrite wpx_bind. unfold address_space_read. rewrite wpx_gets.
    destruct (load_range _ _ _) as [data|]; [|now rewrite wpx_ret]. rewrite wpx_check.
    apply (write_whole _ _ c); [assumption | assumption|]. intros ev Hev.
    eapply write_whole; [reflexivity | assumption|]. intros ev' Hev'.
    split; [reflexivity|]. eexists. split; [reflexivity|]. cbn. now rewrite !app_nil_r, <- app_assoc.
Qed.

Lemma serve_dma_write_spec st c h :
  as_sockfd st = Some c -> Forall benign (sk_ev c) -> 0 <= ah_length h ->
  let len := Z.to_nat (ah_length h) in
  wp (axi_serve_dma_write h) st (fun ok st' =>
    if (length (sk_in c) <? len)%nat then ok = false /\ exists fd, st' = set_sockfd fd st else
    match load_range (as_mem st) (ah_offset h) len with
    | None => ok = false /\ exists fd, st' = set_sockfd fd st
    | Some _ => ok = true /\ exists c',
        st' = set_sockfd (Some c') (set_guest
          (mem_write (as_mem st) (ah_offset h) (take len (sk_in c))) (as_irq st) st) /\
        Forall benign (sk_ev c') /\ sk_in c' = drop len (sk_in c) /\
        tp_sent (sk_peer c') = tp_sent (sk_peer c) ++ encode_header (message AXI_MSG_ERROR 0 0)
    end).
Proof.
  intros Hc Hb Hl len. unfold axi_serve_dma_write. rewrite wpx_bind.
  assert (forall c1 ev, c1 = sk_get c len ev -> Forall benign ev -> (len <= length (sk_in c))%nat ->
    wp (check address_space_write (ah_offset h) (take len (sk_in c));
        axi_send_reply AXI_MSG_ERROR 0 0) (set_sockfd (Some c1) st) (fun ok st' =>
      match load_range (as_mem st) (ah_offset h) len with
      | None => ok = false /\ exists fd, st' = set_sockfd fd st
      | Some _ => ok = true /\ exists c',
          st' = set_sockfd (Some c') (set_guest
            (mem_write (as_mem st) (ah_offset h) (take len (sk_in c))) (as_irq st) st) /\
          Forall benign (sk_ev c') /\ sk_in c' = drop len (sk_in c) /\
          tp_sent (sk_peer c') = tp_sent (sk_peer c) ++ encode_header (message AXI_MSG_ERROR 0 0)
      end)) as Hstore.
  { intros c1 ev -> Hev Hle. rewrite wpx_check. unfold address_space_write, wpx at 1.
    rewrite length_take, Nat.min_l by assumption. cbn [as_mem set_sockfd].
    destruct (load_range _ _ _); [|eauto].
    eapply write_whole; [reflexivity | exact Hev|]. intros ev' Hev'. split; [reflexivity|].
    eexists. split; [reflexivity|]. cbn. now rewrite !app_nil_r. }
  destruct (Z.eqb_spec (ah_length h) 0) as [E|Hne].
  - rewrite wpx_ret. cbn [fst snd negb]. assert (len = 0%nat) as E0 by (unfold len; lia).
    replace (length (sk_in c) <? len)%nat with false by (symmetry; apply Nat.ltb_ge; lia).
    specialize (Hstore (sk_get c len (sk_ev c)) _ eq_refl Hb ltac:(lia)). rewrite E0 in Hstore |- *.
    replace (set_sockfd _ st) with st in Hstore; [exact Hstore|].
    destruct st; cbn in *. subst. unfold set_sockfd, sk_get. cbn. do 2 f_equal.
    now destruct c.
  - destruct (Nat.ltb_spec (length (sk_in c)) len) as [Hs|Hs].
    + apply (read_short _ _ c); [assumption | exact Hs|]. intros data c'. cbn [fst negb].
      rewrite wpx_ret. eauto.
    + apply (read_enough _ _ c); [assumption | assumption | exact Hs|]. intros ev Hev.
      cbn [fst snd negb]. now apply (Hstore _ ev).
Qed.

(** What the machine does with a header that has arrived. *)
Lemma header_step q :
  qm_wait q = QService -> (HLEN <= length (qm_pending q))%nat ->
  let h := decode_header (take HLEN (qm_pending q)) in
  let len := Z.to_nat (ah_length h) in
  let payload := take len (drop HLEN (qm_pending q)) in
  qemu_step q =
    if ah_kind h =? AXI_MSG_ERROR then Some (next_access HLEN (qm_log q) q)
    else if ah_kind h =? AXI_MSG_IRQ_ASSERT then Some (served_to HLEN (qm_mem q) true q, [])
    else if ah_kind h =? AXI_MSG_IRQ_DEASSERT then Some (served_to HLEN (qm_mem q) false q, [])
    else if ah_kind h =? AXI_MSG_DMA_READ then
      match load_range (qm_mem q) (ah_offset h) len with
      | None => Some (close_peer HLEN q, [])
      | Some data =>
          Some (served_to HLEN (qm_mem q) (qm_irq q) q,
                encode_header (message AXI_MSG_DMA_READ_REPLY (ah_offset h) (ah_length h))
                ++ map u8 data)
      end
    else if ah_kind h =? AXI_MSG_DMA_WRITE then
      if (length (qm_pending q) <? HLEN + len)%nat then None else
      match load_range (qm_mem q) (ah_offset h) len with
      | None => Some (close_peer (HLEN + len) q, [])
      | Some _ =>
          Some (served_to (HLEN + len) (mem_write (qm_mem q) (ah_offset h) payload) (qm_irq q) q,
                encode_header (message AXI_MSG_ERROR 0 0))
      end
    else Some (close_peer HLEN q, []).
Proof.
  intros Hw Hl. unfold qemu_step. rewrite (proj2 (Nat.ltb_ge _ _) Hl), Hw. reflexivity.
Qed.

(** The last access is over. *)
Lemma sim_finish c q ev st' n log :
  qm_script q = [] -> qemu_step q = Some (next_access n log q) ->
  as_mem st' = qm_mem q -> as_irq st' = qm_irq q -> sk_in c = qm_pending q ->
  as_sockfd st' = Some (sk_get c n ev) ->
  agrees (tp_sent (sk_peer c)) (qemu_settle q).1 (qemu_settle q).2 st' /\
  qm_log (qemu_settle q).1 = log /\ qm_wait (qemu_settle q).1 = QIdle.
Proof.
  intros Hs E Hm Hi Hin Hfd. destruct (next_access n log q) as [q' out] eqn:En.
  assert (out = [] /\ q' = (next_access n log q).1) as [-> Eq]
    by (revert En; unfold next_access; rewrite Hs; intros [= <- <-]; now split).
  rewrite (settle_step _ _ _ E), Eq, settle_last by assumption. cbn [fst snd].
  unfold next_access. rewrite Hs. cbn. split; [|now split].
  split; [exact Hm|]. split; [exact Hi|]. eexists. split; [exact Hfd|].
  split; [cbn; now rewrite app_nil_r | cbn; now rewrite Hin].
Qed.

(** One iteration, after the header [h] was read. *)
Section iteration.
Context (fuel : nat) (IH : simulates fuel) st c q (ev : list io_event).
Context (Hk : linked st c q) (Hw : qm_wait q = QService).
Context (Hf : (length (sk_in c) < S fuel)%nat) (Hev : Forall benign ev).
Context (Hl : (HLEN <= length (sk_in c))%nat).

Definition input_header : axi_header := decode_header (take HLEN (sk_in c)).
Definition after_header : axi_sock_state tape := set_sockfd (Some (sk_get c HLEN ev)) st.

Lemma input_header_wf : header_wf input_header.
Proof.
  apply decode_header_wf; [apply Forall_take, Hk | now rewrite length_take, Nat.min_l].
Qed.

Lemma header_consumed : (0 < HLEN <= length (sk_in c))%nat.
Proof. unfold HLEN, AXI_HEADER_LEN in *. lia. Qed.

Lemma sim_irq level :
  qemu_step q = Some (served_to HLEN (qm_mem q) level q, []) ->
  wp ((modify (fun s => set_guest (as_mem s) (if as_wired s then level else as_irq s) s));;
      axi_service_backend fuel) after_header (fun _ => service_outcome (tp_sent (sk_peer c)) q).
Proof.
  intros Hstep. rewrite wpx_bind, wpx_modify. pose proof header_consumed.
  destruct (Hk). eapply (sim_continue fuel st c q HLEN _ _ _ _ (sk_get c HLEN ev));
    try eassumption; try reflexivity; cbn; now rewrite ?lk_wired0, ?app_nil_r.
Qed.

Lemma sim_dma_read :
  qemu_step q =
    match load_range (qm_mem q) (ah_offset input_header) (Z.to_nat (ah_length input_header)) with
    | None => Some (close_peer HLEN q, [])
    | Some data =>
        Some (served_to HLEN (qm_mem q) (qm_irq q) q,
              encode_header (message AXI_MSG_DMA_READ_REPLY (ah_offset input_header)
                (ah_length input_header)) ++ map u8 data)
    end ->
  wp (ok ← axi_serve_dma_read input_header;
      if negb ok then axi_give_up else axi_service_backend fuel) after_header
     (fun _ => service_outcome (tp_sent (sk_peer c)) q).
Proof.
  intros Hstep. pose proof header_consumed. destruct (Hk). rewrite wpx_bind.
  wpuse (serve_dma_read_spec after_header (sk_get c HLEN ev) input_header);
    [reflexivity | assumption|].
  intros ok st2 H2. cbn [as_mem after_header set_sockfd] in H2. rewrite lk_mem0 in H2.
  destruct (load_range (qm_mem q) _ _) as [data|] eqn:Ed.
  - destruct H2 as (-> & c' & -> & Hb' & Hi' & Hs'). cbn [negb].
    rewrite map_u8_bytes_id in Hstep by (eapply load_range_bytes; eassumption).
    eapply (sim_continue fuel st c q HLEN _ _ _ _ c'); try eassumption; reflexivity.
  - destruct H2 as [-> ->]. cbn [negb].
    apply closes_down, sim_close; try assumption; try reflexivity. left. now exists HLEN.
Qed.

Lemma sim_dma_write :
  let len := Z.to_nat (ah_length input_header) in
  qemu_step q =
    (if (length (sk_in c) <? HLEN + len)%nat then None else
     match load_range (qm_mem q) (ah_offset input_header) len with
     | None => Some (close_peer (HLEN + len) q, [])
     | Some _ =>
         Some (served_to (HLEN + len) (mem_write (qm_mem q) (ah_offset input_header)
                 (take len (drop HLEN (sk_in c)))) (qm_irq q) q,
               encode_header (message AXI_MSG_ERROR 0 0))
     end) ->
  wp (ok ← axi_serve_dma_write input_header;
      if negb ok then axi_give_up else axi_service_backend fuel) after_header
     (fun _ => service_outcome (tp_sent (sk_peer c)) q).
Proof.
  intros len Hstep. pose proof header_consumed. destruct (Hk). rewrite wpx_bind.
  wpuse (serve_dma_write_spec after_header (sk_get c HLEN ev) input_header);
    [reflexivity | assumption | apply (hw_length _ input_header_wf)|].
  intros ok st2 H2. cbn [as_mem as_irq after_header set_sockfd sk_in sk_get] in H2.
  rewrite lk_mem0, length_drop in H2. fold len in H2.
  replace (length (sk_in c) <? HLEN + len)%nat with (length (sk_in c) - HLEN <? len)%nat
    in Hstep by (apply eq_true_iff_eq; rewrite !Nat.ltb_lt; lia).
  destruct (Nat.ltb_spec (length (sk_in c) - HLEN) len) as [Hs|Hs].
  { destruct H2 as (-> & fd & ->). cbn [negb]. apply closes_down, sim_close; try assumption;
      try reflexivity. right. split; [exact Hstep | now rewrite Hw]. }
  destruct (load_range (qm_mem q) _ _) as [old|].
  - destruct H2 as (-> & c' & -> & Hb' & Hi' & Hs'). cbn [negb].
    eapply (sim_continue fuel st c q (HLEN + len) _ _ _ _ c'); try eassumption; try reflexivity.
    + lia.
    + now rewrite Hi', drop_drop.
    + apply mem_write_bytes; [assumption|]. now apply Forall_take, Forall_drop.
  - destruct H2 as (-> & fd & ->). cbn [negb]. apply closes_down, sim_close; try assumption;
      try reflexivity. left. eexists. exact Hstep.
Qed.
End iteration.

Lemma service_sim fuel : simulates fuel.
Proof.
  induction fuel as [|fuel IH]; intros st c q Hk Hw Hf; [lia|]. destruct (Hk).
  cbn [axi_service_backend]. rewrite wpx_bind.
  destruct (Nat.lt_ge_cases (length (sk_in c)) HLEN) as [Hs|Hl].
  { apply (read_short _ _ c); [assumption | exact Hs|]. intros data c'.
    apply closes_down, sim_close; try assumption; try reflexivity. right.
    split; [unfold qemu_step | now rewrite Hw].
    now rewrite <- lk_in0, (proj2 (Nat.ltb_lt _ _) Hs). }
  apply (read_enough _ _ c); [assumption | assumption | exact Hl|]. intros ev Hev.
  pose proof Hl as Hl'. rewrite lk_in0 in Hl'. pose proof (header_step q Hw Hl') as Hstep.
  cbn [fst snd negb]. cbv zeta in Hstep |- *. rewrite <- lk_in0 in Hstep.
  change AXI_HEADER_LEN with HLEN. fold (input_header c) in Hstep |- *.
  fold (after_header st c ev).
  destruct (ah_kind (input_header c) =? AXI_MSG_ERROR).
  { rewrite wpx_ret. destruct (sim_finish c q ev (after_header st c ev) HLEN (qm_log q))
      as (Ha & Hlog & _); (assumption || reflexivity || now split). }
  destruct (_ =? AXI_MSG_IRQ_ASSERT); [now apply (sim_irq fuel IH st c q ev)|].
  destruct (_ =? AXI_MSG_IRQ_DEASSERT); [now apply (sim_irq fuel IH st c q ev)|].
  destruct (_ =? AXI_MSG_DMA_READ); [now apply (sim_dma_read fuel IH st c q ev)|].
  destruct (_ =? AXI_MSG_DMA_WRITE); [now apply (sim_dma_write fuel IH st c q ev)|].
  apply closes_down, sim_close; try assumption; try reflexivity. left. now exists HLEN.
Qed.

(** The value a read returns: the one the machine logs, 0 when the connection closes. *)
Definition read_outcome (sent : list Z) q (v : Z) (st' : axi_sock_state tape) : Prop :=
  agrees sent (qemu_settle q).1 (qemu_settle q).2 st' /\
  match qm_wait (qemu_settle q).1 with
  | QIdle => qm_log (qemu_settle q).1 = qm_log q ++ [v]
  | _ => v = 0
  end.

Lemma read_close sent q st' :
  (exists n, qemu_step q = Some (close_peer n q, [])) \/
    (qemu_step q = None /\ qm_wait q <> QIdle) ->
  as_mem st' = qm_mem q -> as_irq st' = qm_irq q -> as_sockfd st' = None ->
  read_outcome sent q 0 st'.
Proof.
  intros Hcase Hm Hi Hfd. split; [now apply sim_close|].
  destruct Hcase as [[n E] | [E Hw]].
  - now rewrite (settle_step _ _ _ E), settle_closed.
  - rewrite (settle_none _ E). cbn [fst snd]. now destruct (qm_wait q).
Qed.

Lemma reply_done st c q n v ev :
  linked st c q -> qemu_step q = Some (next_access n (qm_log q ++ [v]) q) ->
  read_outcome (tp_sent (sk_peer c)) q v (set_sockfd (Some (sk_get c n ev)) st).
Proof.
  intros [] E. destruct (sim_finish c q ev (set_sockfd (Some (sk_get c n ev)) st) n
    (qm_log q ++ [v])) as (Ha & Hlog & Hi); try assumption; try reflexivity.
  split; [exact Ha | now rewrite Hi].
Qed.

Lemma read_sim st c q : linked st c q -> qm_wait q = QReply ->
  wp axi_read_reply st (read_outcome (tp_sent (sk_peer c)) q).
Proof.
  intros Hk Hw. destruct (Hk). unfold axi_read_reply. rewrite wpx_bind.
  assert (forall st1, as_mem st1 = as_mem st -> as_irq st1 = as_irq st ->
    (exists n, qemu_step q = Some (close_peer n q, [])) \/ qemu_step q = None ->
    wp axi_read_zero st1 (read_outcome (tp_sent (sk_peer c)) q)) as Hclose.
  { intros st1 Hm Hi Hc. unfold axi_read_zero, axi_close. rewrite wpx_bind, wpx_modify, wpx_ret.
    apply read_close; try reflexivity; [|cbn; congruence | cbn; congruence].
    destruct Hc as [Hc | Hc]; [now left | right]. now rewrite Hw. }
  destruct (Nat.lt_ge_cases (length (sk_in c)) HLEN) as [Hs|Hl].
  { apply (read_short _ _ c); [assumption | exact Hs|]. intros data c'.
    apply Hclose; try reflexivity. right. unfold qemu_step.
    now rewrite <- lk_in0, (proj2 (Nat.ltb_lt _ _) Hs). }
  apply (read_enough _ _ c); [assumption | assumption | exact Hl|]. intros ev Hev.
  cbn [fst snd negb]. change AXI_HEADER_LEN with HLEN. fold (input_header c).
  assert (0 <= ah_length (input_header c)) as H0
    by apply (hw_length _ (input_header_wf st c q Hk Hl)).
  assert (qemu_step q =
    if negb (ah_kind (input_header c) =? AXI_MSG_MMIO_READ_REPLY) || (8 <? ah_length (input_header c))
    then Some (close_peer HLEN q, [])
    else let len := Z.to_nat (ah_length (input_header c)) in
      if (length (sk_in c) <? HLEN + len)%nat then None
      else Some (next_access (HLEN + len) (qm_log q ++
        [virtio_load_le64 (take len (drop HLEN (sk_in c)) ++ replicate (8 - len) 0)]) q)) as Hstep.
  { unfold qemu_step. now rewrite <- lk_in0, (proj2 (Nat.ltb_ge _ _) Hl), Hw. }
  destruct (_ || _); [apply Hclose; eauto|]. cbv zeta in Hstep.
  destruct (Z.eqb_spec (ah_length (input_header c)) 0) as [E0|Hne].
  { rewrite E0, Nat.add_0_r, (proj2 (Nat.ltb_ge _ _) Hl) in Hstep. rewrite wpx_ret.
    now apply reply_done. }
  assert (length (sk_in (sk_get c HLEN ev)) = length (sk_in c) - HLEN)%nat as Hlen
    by apply length_drop.
  set (len := Z.to_nat (ah_length (input_header c))) in *. rewrite wpx_bind.
  destruct (Nat.ltb_spec (length (sk_in c)) (HLEN + len)) as [Hs|Hs].
  - eapply read_short; [reflexivity | lia|].
    intros data c'. apply Hclose; eauto.
  - eapply read_enough; [reflexivity | assumption | lia|].
    intros ev' Hev'. cbn [fst snd negb]. rewrite wpx_ret.
    replace (set_sockfd _ _) with (set_sockfd (Some (sk_get c (HLEN + len) ev')) st)
      by (unfold sk_get; cbn; now rewrite drop_drop).
    now apply reply_done.
Qed.
End simulation.

(** ** Connecting *)

(** The next access goes out on [c]: the open connection, or the one the next attempt to
    connect obtains. *)
Definition connects {P} `{Peer P} (st : axi_sock_state P) (c : sock P) : Prop :=
  as_sockfd st = Some c \/
  (as_sockfd st = None /\ (String.length (as_socket_path st) < AXI_SUN_PATH)%nat /\
   exists rest, as_dials st = Accepted c :: rest).

Lemma axi_connect_ok {P} `{Peer P} (st : axi_sock_state P) c : connects st c ->
  exists st', axi_connect st = Done (true, st') /\ as_sockfd st' = Some c /\
    as_mem st' = as_mem st /\ as_irq st' = as_irq st /\ as_wired st' = as_wired st.
Proof.
  unfold axi_connect. intros [E | (E & Hl & rest & Ed)]; rewrite E.
  - exists st. now repeat split.
  - rewrite Ed, (proj2 (Nat.leb_gt _ _) Hl). eexists. now repeat split.
Qed.

Lemma send_header_ok kind addr len (st : axi_sock_state tape) c (Q : bool -> axi_sock_state tape -> Prop) :
  connects st c -> Forall benign (sk_ev c) ->
  (forall st' c', as_sockfd st' = Some c' -> Forall benign (sk_ev c') -> sk_in c' = sk_in c ->
     tp_sent (sk_peer c') = tp_sent (sk_peer c) ++ encode_header (message kind addr len) ->
     as_mem st' = as_mem st -> as_irq st' = as_irq st -> as_wired st' = as_wired st -> Q true st') ->
  wp (axi_send_header kind addr len) st Q.
Proof.
  intros Hc Hb HQ. destruct (axi_connect_ok st c Hc) as (st1 & E & Hfd & Hm & Hi & Hw).
  unfold axi_send_header. rewrite wpx_check. unfold wpx at 1. rewrite E. rewrite wpx_bind.
  apply (write_whole _ _ c); [assumption | assumption|]. intros ev Hev. cbn [negb].
  rewrite wpx_ret. eapply HQ; try reflexivity; try assumption. cbn. now rewrite app_nil_r.
Qed.

(** A failed attempt: nothing but the report changes. *)
Lemma axi_connect_fails {P} `{Peer P} (st : axi_sock_state P) :
  as_sockfd st = None ->
  Forall (fun d => match d with
                   | Accepted _ => (AXI_SUN_PATH <= String.length (as_socket_path st))%nat
                   | _ => True
                   end) (as_dials st) ->
  axi_connect st = Done (false, dialled None (tl (as_dials st)) st).
Proof.
  unfold axi_connect. intros ->. destruct (as_dials st) as [|d l]; [reflexivity|].
  intros Hd%Forall_inv. destruct d; try reflexivity. now rewrite (proj2 (Nat.leb_le _ _) Hd).
Qed.

(** The machine at the start of an access. *)
Definition waiting_for (a : access) (m : mem) (irq : bool) : qemu :=
  {| qm_mem := m; qm_irq := irq; qm_wait := wait_for a; qm_pending := []; qm_script := [];
     qm_log := [] |}.

Lemma feed_settle a m irq bs :
  qemu_feed (waiting_for a m irq) bs = qemu_settle (receive bs (waiting_for a m irq)).
Proof. destruct bs; [|reflexivity]. symmetry. now apply settle_none. Qed.

(** ** Claims *)

(** C5: the device code is the peer the socket fabric is verified against. Whatever bytes
    the backend sends, well formed or not, complete or cut off, whatever the
    interruptions and short transfers, and whether the connection is open already or has
    to be made: a register access of the guest returns; it sends the bytes, makes the
    changes to guest memory and to the interrupt line, leaves the input and returns the
    value that the event machine does on the same input; where the machine closes the
    connection or still waits for input that does not come, the access closes it and
    returns 0. *)
Theorem qemu_device_is_peer fuel a (st : axi_sock_state tape) c :
  connects st c -> Forall benign (sk_ev c) -> as_wired st = true -> bytes (sk_in c) ->
  (forall x b, as_mem st x = Some b -> is_byte b) -> (length (sk_in c) < fuel)%nat ->
  let r := feed (waiting_for a (as_mem st) (as_irq st)) (sk_in c) in
  exists v st', guest_access fuel a st = Done (v, st') /\
    agrees (tp_sent (sk_peer c) ++ request_bytes a) r.1 r.2 st' /\
    (qm_wait r.1 = QIdle ->
       qm_log r.1 = match a with GuestRead _ _ => [v] | GuestWrite _ _ _ => [] end) /\
    (qm_wait r.1 <> QIdle -> v = 0).
Proof.
  intros Hc Hb Hw Hin Hm Hf r.
  assert (r = qemu_settle (receive (sk_in c) (waiting_for a (as_mem st) (as_irq st)))) as ->
    by apply feed_settle.
  set (q := receive _ _).
  destruct (wp_elim (guest_access fuel a) st (fun v st' =>
    agrees (tp_sent (sk_peer c) ++ request_bytes a) (qemu_settle q).1 (qemu_settle q).2 st' /\
    (qm_wait (qemu_settle q).1 = QIdle -> qm_log (qemu_settle q).1 =
       match a with GuestRead _ _ => [v] | GuestWrite _ _ _ => [] end) /\
    (qm_wait (qemu_settle q).1 <> QIdle -> v = 0))) as (v & st' & E & H); [|eauto].
  destruct a as [off size|off size value]; cbn [guest_access].
  - unfold axi_read. rewrite wpx_bind. apply (send_header_ok _ _ _ st c); [assumption..|].
    intros st1 c1 Hfd Hb1 Hi1 Hs1 Em Ei Ew. cbn [negb].
    wpuse (read_sim st1 c1 q); [split; cbn; try assumption; congruence | reflexivity|].
    intros v st' [Ha Hv]. rewrite Hs1 in Ha. split; [exact Ha|].
    destruct (qm_wait (qemu_settle q).1); split; easy.
  - rewrite wpx_bind. unfold axi_write. rewrite wpx_bind.
    apply (send_header_ok _ _ _ st c); [assumption..|].
    intros st1 c1 Hfd Hb1 Hi1 Hs1 Em Ei Ew. cbn [negb]. rewrite wpx_bind.
    apply (write_whole _ _ c1); [assumption..|]. intros ev Hev. cbn [negb]. rewrite wpx_bind.
    wpuse (service_sim fuel _ (sk_put c1 (take (Z.to_nat size) (virtio_store_le64 value)) ev) q).
    + split; cbn; rewrite ?app_nil_r; try assumption; congruence.
    + reflexivity.
    + cbn. rewrite app_nil_r, Hi1. exact Hf.
    + intros b st' [Ha Hl]. rewrite !wpx_ret. cbn [sk_peer sk_put feed tape_peer fst tp_sent] in Ha.
      rewrite Hs1, <- app_assoc in Ha. split; [exact Ha|]. split; [intros _; exact Hl | easy].
Qed.

(** The witness: the backend raises the interrupt, writes two bytes of guest memory and
    acknowledges a register write, over a connection made for it. *)
Definition backend_script : list Z :=
  encode_header (message AXI_MSG_IRQ_ASSERT 0 0)
  ++ encode_header (message AXI_MSG_DMA_WRITE 8 2) ++ [5; 6]
  ++ encode_header (message AXI_MSG_ERROR 0 0).

Definition idle_device (dials : list (dial tape)) : axi_sock_state tape :=
  {| as_sockfd := None; as_socket_path := "/run/blk.sock"; as_reported := false;
     as_reports := 0; as_mem := fun a => if (0 <=? a) && (a <? 64) then Some 0 else None;
     as_wired := true; as_irq := false; as_dials := dials |}.

Definition backend_conn : sock tape :=
  {| sk_peer := {| tp_sent := [] |}; sk_in := backend_script;
     sk_ev := [IoShort 3; IoIntr; IoShort 20]; sk_alloc := [] |}.

Lemma qemu_device_is_peer_witness :
  exists v st', guest_access 99 (GuestWrite 0x50 4 0) (idle_device [Accepted backend_conn])
      = Done (v, st') /\
    as_irq st' = true /\ as_mem st' 8 = Some 5 /\ as_mem st' 9 = Some 6 /\
    exists c', as_sockfd st' = Some c' /\ sk_in c' = [].
Proof.
  destruct (qemu_device_is_peer 99 (GuestWrite 0x50 4 0) (idle_device [Accepted backend_conn])
    backend_conn) as (v & st' & E & (Hm & Hi & c' & Hc & _ & Hin) & _).
  - right. split; [reflexivity|]. split; [cbn; unfold AXI_SUN_PATH; lia|]. now exists [].
  - repeat constructor; discriminate.
  - reflexivity.
  - repeat (constructor; [split; vm_compute; (reflexivity || discriminate)|]). constructor.
  - cbn. intros x b. destruct (_ && _); [|discriminate]. intros [= <-]. split; [easy | reflexivity].
  - cbn. lia.
  - exists v, st'. split; [exact E|]. split; [rewrite Hi; vm_compute; reflexivity|].
    rewrite Hm. split; [vm_compute; reflexivity|]. split; [vm_compute; reflexivity|].
    exists c'. split; [exact Hc|]. rewrite Hin. vm_compute. reflexivity.
Defined.

(** A guest whose backend is absent. While no connection can be made, because there
    is no socket, nobody listens or the path does not fit, every register read returns 0,
    every register write is dropped, guest memory and the interrupt line stay as they
    are, and the failure is reported once, not once per access. *)
Theorem qemu_backend_absent {P} `{Peer P} fuel l (st : axi_sock_state P) :
  as_sockfd st = None ->
  Forall (fun d => match d with
                   | Accepted _ => (AXI_SUN_PATH <= String.length (as_socket_path st))%nat
                   | _ => True
                   end) (as_dials st) ->
  exists st', guest_accesses fuel l st = Done (replicate (length l) 0, st') /\
    as_sockfd st' = None /\ as_mem st' = as_mem st /\ as_irq st' = as_irq st /\
    as_reports st' = (as_reports st +
      match l with [] => 0 | _ => if as_reported st then 0 else 1 end)%nat.
Proof.
  revert st. induction l as [|a l IH]; intros st Hfd Hd.
  { exists st. now rewrite Nat.add_0_r. }
  set (st1 := dialled None (tl (as_dials st)) st).
  assert (guest_access fuel a st = Done (0, st1)) as Ea.
  { destruct a; cbn [guest_access]; unfold axi_read, axi_write, axi_send_header, check_then, bind;
      now rewrite (axi_connect_fails st Hfd Hd). }
  destruct (IH st1) as (st' & E & H1 & H2 & H3 & H4); [reflexivity | |].
  { cbn. destruct (as_dials st); [constructor | now apply Forall_inv_tail in Hd]. }
  exists st'. cbn [guest_accesses]. unfold bind at 1. rewrite Ea. unfold bind at 1. rewrite E.
  split; [reflexivity|]. split; [exact H1|]. split; [exact H2|]. split; [exact H3|].
  rewrite H4. cbn. destruct (as_reported st), l; cbn; lia.
Qed.

Lemma qemu_backend_absent_witness :
  exists st', guest_accesses 1 [GuestRead 0 4; GuestWrite 0x70 4 0; GuestRead 0x60 4]
      (idle_device [NoSocket; Refused]) = Done ([0; 0; 0], st') /\ as_reports st' = 1%nat.
Proof.
  destruct (qemu_backend_absent 1 [GuestRead 0 4; GuestWrite 0x70 4 0; GuestRead 0x60 4]
    (idle_device [NoSocket; Refused])) as (st' & E & _ & _ & _ & Hr).
  - reflexivity.
  - repeat constructor.
  - exists st'. split; [exact E | exact Hr].
Defined.
