(* ===== verification/QemuRealize.v ===== *)
(** * The QEMU device: realisation and the tables the guest's firmware shows

    [axi_realize] of [patches/qemu/0001-chiplets-qemu-support.patch] with the parsing of
    its properties, the wiring on the two supported machines, the control socket of the
    UIO mode and the regions it maps; the device-tree nodes of ARM virt and the ACPI
    entries of microvm that describe those regions to the guest. *)

From S2P Require Import Prelude.
From stdpp Require Import strings.

#[local] Open Scope Z_scope.

Definition MICROVM_AXI_IRQ_BASE : Z := 16.
Definition MICROVM_AXI_IRQ_COUNT : Z := 8.
Definition CONTROL_SUN_PATH : nat := 108.

Inductive AxiMode : Type := AXI_MODE_SOCKET | AXI_MODE_UIO.
Inductive AxiRole : Type := AXI_ROLE_SLAVE | AXI_ROLE_MASTER.
Inductive AxiRamAccess : Type := AXI_RAM_ACCESS_SHARED_MEM | AXI_RAM_ACCESS_QEMU_MEDIATED.
Inductive AxiNotifyPolicy : Type := AXI_NOTIFY_POLICY_ALL | AXI_NOTIFY_POLICY_BARRIER.

#[global] Instance AxiMode_eq_dec : EqDecision AxiMode.
Proof. solve_decision. Defined.
#[global] Instance AxiRole_eq_dec : EqDecision AxiRole.
Proof. solve_decision. Defined.

(** The properties of [axi_properties]; a string that is not given is NULL, a memory
    backend is known by its size. *)
Record axi_props : Type := {
  ap_base : Z;
  ap_size : Z;
  ap_dma_base : Z;
  ap_dma_size : Z;
  ap_irq : Z;
  ap_socket : option string;
  ap_mode : option string;
  ap_role : option string;
  ap_control_socket : option string;
  ap_ram_access : option string;
  ap_notify_policy : option string;
  ap_memdev : option Z;
  ap_dma_memdev : option Z;
}.

(** The machine the device is plugged into: an x86 machine with or without the second
    IO-APIC and a GSI table, ARM virt with or without a device tree, or another one. *)
Inductive qemu_machine : Type :=
| X86Machine (ioapic2 gsi : bool)
| VirtMachine (fdt : bool)
| OtherMachine.

(** The outcomes of the system calls on the control socket. *)
Record control_env : Type := {
  ce_socket : bool;
  ce_bind : bool;
  ce_listen : bool;
  ce_connect : bool;
}.

Inductive axi_error : Type :=
| ErrBase | ErrSize | ErrMode | ErrRole | ErrSocket | ErrMemdev | ErrControlSocket
| ErrRamAccess | ErrNotifyPolicy | ErrIoapic2 | ErrIrqRange | ErrSpiRange | ErrMachine
| ErrMemdevSize | ErrNoSocket | ErrPathLength | ErrListen | ErrConnect.

(** A device-tree node: its name and unit address, what it is compatible with, its
    register windows and its interrupt. *)
Record fdt_node : Type := {
  fn_name : string;
  fn_unit : Z;
  fn_compatible : string;
  fn_reg : list (Z * Z);
  fn_irq : Z;
}.

(** What realisation did: the parsed values, the interrupt wired, the regions mapped into
    system memory, the nodes added, and which descriptors are open. *)
Record realized : Type := {
  rz_mode : AxiMode;
  rz_role : AxiRole;
  rz_irq : option Z;
  rz_windows : list (Z * Z);
  rz_nodes : list fdt_node;
  rz_listen_fd : bool;
  rz_control_fd : bool;
}.

Definition rz_start : realized :=
  {| rz_mode := AXI_MODE_SOCKET; rz_role := AXI_ROLE_SLAVE; rz_irq := None; rz_windows := [];
     rz_nodes := []; rz_listen_fd := false; rz_control_fd := false |}.

Definition rz_parsed (mode : AxiMode) (role : AxiRole) (s : realized) : realized :=
  {| rz_mode := mode; rz_role := role; rz_irq := rz_irq s; rz_windows := rz_windows s;
     rz_nodes := rz_nodes s; rz_listen_fd := rz_listen_fd s; rz_control_fd := rz_control_fd s |}.

Definition rz_wired (irq : option Z) (nodes : list fdt_node) (s : realized) : realized :=
  {| rz_mode := rz_mode s; rz_role := rz_role s; rz_irq := irq; rz_windows := rz_windows s;
     rz_nodes := rz_nodes s ++ nodes; rz_listen_fd := rz_listen_fd s;
     rz_control_fd := rz_control_fd s |}.

Definition rz_fds (listen control : bool) (s : realized) : realized :=
  {| rz_mode := rz_mode s; rz_role := rz_role s; rz_irq := rz_irq s; rz_windows := rz_windows s;
     rz_nodes := rz_nodes s; rz_listen_fd := listen; rz_control_fd := control |}.

Definition rz_mapped (w : list (Z * Z)) (s : realized) : realized :=
  {| rz_mode := rz_mode s; rz_role := rz_role s; rz_irq := rz_irq s; rz_windows := w;
     rz_nodes := rz_nodes s; rz_listen_fd := rz_listen_fd s; rz_control_fd := rz_control_fd s |}.

(** [s ?: dflt] *)
Definition or_default (s : option string) (dflt : string) : string :=
  match s with Some x => x | None => dflt end.

(** [!s || !s[0]] *)
Definition missing (s : option string) : bool :=
  match s with Some x => String.eqb x "" | None => true end.

(** ** Properties *)

Definition axi_parse_mode (p : axi_props) : axi_error + (AxiMode * AxiRole) :=
  let mode := or_default (ap_mode p) "socket" in
  let role := or_default (ap_role p) "slave" in
  let parse_role m :=
    if String.eqb role "slave" then inr (m, AXI_ROLE_SLAVE)
    else if String.eqb role "master" then inr (m, AXI_ROLE_MASTER)
    else inl ErrRole in
  if String.eqb mode "socket" then parse_role AXI_MODE_SOCKET
  else if String.eqb mode "uio" then parse_role AXI_MODE_UIO
  else inl ErrMode.

Definition axi_parse_ram_access (p : axi_props) : option AxiRamAccess :=
  let mode := or_default (ap_ram_access p) "shared-mem" in
  if String.eqb mode "shared-mem" then Some AXI_RAM_ACCESS_SHARED_MEM
  else if String.eqb mode "qemu-mediated" then Some AXI_RAM_ACCESS_QEMU_MEDIATED
  else None.

Definition axi_parse_notify_policy (p : axi_props) : option AxiNotifyPolicy :=
  let policy := or_default (ap_notify_policy p) "all" in
  if String.eqb policy "all" then Some AXI_NOTIFY_POLICY_ALL
  else if String.eqb policy "barrier" then Some AXI_NOTIFY_POLICY_BARRIER
  else None.

(** ** Machines *)

(** The windows a table entry shows: the registers, and the DMA window if it has a size. *)
Definition table_windows (p : axi_props) : list (Z * Z) :=
  (ap_base p, ap_size p) ::
  if ap_dma_size p =? 0 then [] else [(ap_dma_base p, ap_dma_size p)].

Definition axi_add_virt_fdt_node (fdt : bool) (p : axi_props) (s : realized) : list fdt_node :=
  if negb (bool_decide (rz_role s = AXI_ROLE_SLAVE)) || negb fdt then [] else
  [{| fn_name := if ap_dma_size p =? 0 then "virtio_mmio" else "axi_mmio";
      fn_unit := ap_base p;
      fn_compatible := if ap_dma_size p =? 0 then "virtio,mmio" else "axi,mmio";
      fn_reg := table_windows p; fn_irq := ap_irq p |}].

Definition axi_add_virt_uio_fdt_node (fdt : bool) (p : axi_props) (s : realized)
  : list fdt_node :=
  if negb (bool_decide (rz_mode s = AXI_MODE_UIO))
     || negb (bool_decide (rz_role s = AXI_ROLE_MASTER)) || negb fdt then [] else
  [{| fn_name := "chiplets_uio"; fn_unit := ap_base p; fn_compatible := "chiplets,uio";
      fn_reg := table_windows p; fn_irq := ap_irq p |}].

(** [None]: the machine is not of this kind; otherwise an error or the wired device. *)
Definition axi_realize_x86 (m : qemu_machine) (p : axi_props) (s : realized)
  : option (option axi_error * realized) :=
  match m with
  | X86Machine ioapic2 gsi => Some (
      if negb ioapic2 then (Some ErrIoapic2, s)
      else if (ap_irq p <? MICROVM_AXI_IRQ_BASE)
              || (MICROVM_AXI_IRQ_BASE + MICROVM_AXI_IRQ_COUNT <=? ap_irq p)
      then (Some ErrIrqRange, s)
      else if gsi && (ap_irq p <? 256) then (None, rz_wired (Some (ap_irq p)) [] s)
      else (None, s))
  | _ => None
  end.

Definition axi_realize_arm_virt (m : qemu_machine) (p : axi_props) (s : realized)
  : option (option axi_error * realized) :=
  match m with
  | VirtMachine fdt => Some (
      if 256 <=? ap_irq p then (Some ErrSpiRange, s)
      else (None, rz_wired (Some (ap_irq p))
                    (axi_add_virt_fdt_node fdt p s ++ axi_add_virt_uio_fdt_node fdt p s) s))
  | _ => None
  end.

Definition realize_machine (m : qemu_machine) (p : axi_props) (s : realized)
  : option axi_error * realized :=
  match axi_realize_x86 m p s with
  | Some r => r
  | None => match axi_realize_arm_virt m p s with
            | Some r => r
            | None => (Some ErrMachine, s)
            end
  end.

(** ** The control socket *)

Definition path_fits (p : axi_props) : bool :=
  (String.length (or_default (ap_control_socket p) "") <? CONTROL_SUN_PATH)%nat.

Definition axi_control_listen (e : control_env) (p : axi_props) (s : realized)
  : option axi_error * realized :=
  if negb (ce_socket e) then (Some ErrNoSocket, s) else
  let s := rz_fds true (rz_control_fd s) s in
  if negb (path_fits p) then (Some ErrPathLength, s)
  else if negb (ce_bind e) || negb (ce_listen e) then (Some ErrListen, s)
  else (None, s).

Definition axi_control_connect (e : control_env) (p : axi_props) (s : realized)
  : option axi_error * realized :=
  if negb (ce_socket e) then (Some ErrNoSocket, s) else
  let s := rz_fds (rz_listen_fd s) true s in
  if negb (path_fits p) then (Some ErrPathLength, s)
  else if negb (ce_connect e) then (Some ErrConnect, s)
  else (None, s).

(** ** Realisation *)

(** The checks of the properties that depend on the mode. *)
Definition check_mode_props (mode : AxiMode) (p : axi_props) : option axi_error :=
  match mode with
  | AXI_MODE_SOCKET => if missing (ap_socket p) then Some ErrSocket else None
  | AXI_MODE_UIO =>
      match ap_memdev p with
      | None => Some ErrMemdev
      | Some _ => if missing (ap_control_socket p) then Some ErrControlSocket else None
      end
  end.

(** The register region of the UIO mode: the backend must hold it, and the control
    socket is opened. *)
Definition realize_uio (e : control_env) (p : axi_props) (s : realized)
  : option axi_error * realized :=
  match ap_memdev p with
  | None => (Some ErrMemdev, s)
  | Some host_size =>
      if host_size <? ap_size p then (Some ErrMemdevSize, s) else
      match rz_role s with
      | AXI_ROLE_SLAVE => axi_control_listen e p s
      | AXI_ROLE_MASTER => axi_control_connect e p s
      end
  end.

(** The DMA alias is mapped in UIO mode only, and only with a backend for it. *)
Definition dma_alias (p : axi_props) (s : realized) : list (Z * Z) :=
  match rz_mode s, ap_dma_memdev p with
  | AXI_MODE_UIO, Some _ =>
      if ap_dma_size p =? 0 then [] else [(ap_dma_base p, ap_dma_size p)]
  | _, _ => []
  end.

(** The second half of realisation, once the properties are parsed. *)
Definition realize_wired (m : qemu_machine) (e : control_env) (p : axi_props) (mode : AxiMode)
    (s : realized) : option axi_error * realized :=
  match realize_machine m p s with
  | (Some err, s) => (Some err, s)
  | (None, s) =>
      match (match mode with
             | AXI_MODE_UIO => realize_uio e p s
             | AXI_MODE_SOCKET => (None, s)
             end) with
      | (Some err, s) => (Some err, s)
      | (None, s) => (None, rz_mapped ((ap_base p, ap_size p) :: dma_alias p s) s)
      end
  end.

Definition axi_realize (m : qemu_machine) (e : control_env) (p : axi_props)
  : option axi_error * realized :=
  let s := rz_start in
  if ap_base p =? 0 then (Some ErrBase, s)
  else if ap_size p =? 0 then (Some ErrSize, s) else
  match axi_parse_mode p with
  | inl err => (Some err, s)
  | inr (mode, role) =>
      let s := rz_parsed mode role s in
      match check_mode_props mode p, axi_parse_ram_access p, axi_parse_notify_policy p with
      | Some err, _, _ => (Some err, s)
      | None, None, _ => (Some ErrRamAccess, s)
      | None, Some _, None => (Some ErrNotifyPolicy, s)
      | None, Some _, Some _ => realize_wired m e p mode s
      end
  end.

(** ** ACPI entries *)

(** A memory resource: a 32-bit descriptor, or a 64-bit one with its last address. *)
Inductive acpi_memory : Type :=
| Memory32Fixed (base size : Z)
| QWordMemory (base last size : Z).

Record acpi_device : Type := {
  ad_name : string;
  ad_hid : string;
  ad_uid : Z;
  ad_memory : list acpi_memory;
  ad_irq : Z;
}.

Definition axi_acpi_append_memory (base size : Z) : acpi_memory :=
  if (base <=? 2 ^ 32 - 1) && (size <=? 2 ^ 32 - 1) then Memory32Fixed base size
  else QWordMemory base (u64 (base + size - 1)) size.

(** The name of an entry is a prefix and its index, which is the interrupt number. *)
Definition axi_acpi_dsdt_add (base size irq index : Z) : acpi_device :=
  {| ad_name := "VR"; ad_hid := "LNRO0005"; ad_uid := index;
     ad_memory := [axi_acpi_append_memory base size]; ad_irq := irq |}.

Definition axi_acpi_frontend_dsdt_add (base size dma_base dma_size irq index : Z) : acpi_device :=
  {| ad_name := "AM"; ad_hid := "AXI0001"; ad_uid := index;
     ad_memory := [axi_acpi_append_memory base size; axi_acpi_append_memory dma_base dma_size];
     ad_irq := irq |}.

Definition axi_acpi_uio_dsdt_add (base size dma_base dma_size irq index : Z) : acpi_device :=
  {| ad_name := "AU"; ad_hid := "PRP0001"; ad_uid := index;
     ad_memory := axi_acpi_append_memory base size ::
       if dma_size =? 0 then [] else [axi_acpi_append_memory dma_base dma_size];
     ad_irq := irq |}.

Section acpi.

(** What [object_property_get_str] gives for a string property that was not set: NULL or
    a string. *)
Context (unset : option string).

Definition get_str (s : option string) : option string :=
  match s with Some x => Some x | None => unset end.

(** The entry of one device; none for a role that is neither slave nor master. *)
Definition acpi_entry (p : axi_props) : list acpi_device :=
  let mode := get_str (ap_mode p) in
  let role := get_str (ap_role p) in
  if negb (String.eqb (or_default mode "socket") "uio") then
    [axi_acpi_dsdt_add (ap_base p) (ap_size p) (ap_irq p) (ap_irq p)]
  else if String.eqb (or_default role "slave") "slave" then
    if negb (ap_dma_size p =? 0) then
      [axi_acpi_frontend_dsdt_add (ap_base p) (ap_size p) (ap_dma_base p) (ap_dma_size p)
         (ap_irq p) (ap_irq p)]
    else [axi_acpi_dsdt_add (ap_base p) (ap_size p) (ap_irq p) (ap_irq p)]
  else if negb (String.eqb (or_default role "") "master") then []
  else [axi_acpi_uio_dsdt_add (ap_base p) (ap_size p) (ap_dma_base p) (ap_dma_size p)
          (ap_irq p) (ap_irq p)].

(** The loop over the reserved interrupts and, for each, over the devices of the bus. *)
Definition acpi_dsdt_add_axi (bus : list axi_props) : list acpi_device :=
  concat (map (fun irq =>
    concat (map (fun p => if ap_irq p =? irq then acpi_entry p else []) bus))
    (seqZ MICROVM_AXI_IRQ_BASE MICROVM_AXI_IRQ_COUNT)).
End acpi.

(** ** The drivers of the guest *)

(** The match tables of [src/kernel/axi_mmio.c] and [src/kernel/chiplets_uio.c]. *)
Record platform_driver : Type := {
  pd_name : string;
  pd_of_ids : list string;
  pd_acpi_ids : list string;
}.

Definition axi_mmio_driver : platform_driver :=
  {| pd_name := "axi-mmio"; pd_of_ids := ["axi,mmio"%string]; pd_acpi_ids := ["AXI0001"%string] |}.

Definition chiplets_uio_driver : platform_driver :=
  {| pd_name := "chiplets-uio"; pd_of_ids := ["chiplets,uio"%string];
     pd_acpi_ids := ["PRP0001"%string] |}.

(** The driver of Linux that ARM64 backend guests use is not in the repository; the
    compatible string it matches is the module parameter [of_id] that [flake.nix] gives
    it. *)
Definition uio_pdrv_genirq_driver : platform_driver :=
  {| pd_name := "uio_pdrv_genirq"; pd_of_ids := ["chiplets,uio"%string]; pd_acpi_ids := [] |}.

(** The modules of a guest on each machine ([docs/uio-fabric.md]): [chiplets_uio] is built
    for x86 only. *)
Definition guest_modules (m : qemu_machine) : list platform_driver :=
  match m with
  | X86Machine _ _ => [axi_mmio_driver; chiplets_uio_driver]
  | VirtMachine _ => [axi_mmio_driver; uio_pdrv_genirq_driver]
  | OtherMachine => []
  end.

Definition bound_by (m : qemu_machine) (ids : platform_driver -> list string) (id : string)
  : list string := map pd_name (filter (fun d => id ∈ ids d) (guest_modules m)).

(** The driver a device is meant for: the UIO driver of the machine for a master in UIO
    mode, the frontend driver for a device with a DMA window, otherwise the driver of
    Linux for virtio-mmio, which is none of them. *)
Definition meant_for (m : qemu_machine) (p : axi_props) : list string :=
  if String.eqb (or_default (ap_mode p) "socket") "uio"
     && String.eqb (or_default (ap_role p) "slave") "master" then
    match m with
    | X86Machine _ _ => [pd_name chiplets_uio_driver]
    | VirtMachine _ => [pd_name uio_pdrv_genirq_driver]
    | OtherMachine => []
    end
  else if ap_dma_size p =? 0 then [] else [pd_name axi_mmio_driver].

(** ** What realisation requires *)

Definition mode_name (p : axi_props) : string := or_default (ap_mode p) "socket".
Definition role_name (p : axi_props) : string := or_default (ap_role p) "slave".

(** The control socket of the UIO mode can be opened. *)
Definition control_opens (e : control_env) (p : axi_props) : Prop :=
  exists path, ap_control_socket p = Some path /\ path <> ""%string /\
    (String.length path < CONTROL_SUN_PATH)%nat /\ ce_socket e = true /\
    (role_name p = "slave"%string -> ce_bind e = true /\ ce_listen e = true) /\
    (role_name p = "master"%string -> ce_connect e = true).

Record realizable (m : qemu_machine) (e : control_env) (p : axi_props) : Prop := {
  re_base : ap_base p <> 0;
  re_size : ap_size p <> 0;
  re_mode : mode_name p = "socket"%string \/ mode_name p = "uio"%string;
  re_role : role_name p = "slave"%string \/ role_name p = "master"%string;
  re_ram : ap_ram_access p = None \/ ap_ram_access p = Some "shared-mem"%string \/
    ap_ram_access p = Some "qemu-mediated"%string;
  re_policy : ap_notify_policy p = None \/ ap_notify_policy p = Some "all"%string \/
    ap_notify_policy p = Some "barrier"%string;
  re_socket : mode_name p = "socket"%string ->
    exists path, ap_socket p = Some path /\ path <> ""%string;
  re_memdev : mode_name p = "uio"%string ->
    exists host_size, ap_memdev p = Some host_size /\ ap_size p <= host_size;
  re_control : mode_name p = "uio"%string -> control_opens e p;
  re_machine : match m with
               | X86Machine ioapic2 _ => ioapic2 = true /\ 16 <= ap_irq p < 24
               | VirtMachine _ => ap_irq p < 256
               | OtherMachine => False
               end;
}.

Lemma missing_false s : missing s = false <-> exists x, s = Some x /\ x <> ""%string.
Proof.
  destruct s as [x|]; cbn; [|split; [discriminate | intros (x & [=] & _)]].
  rewrite String.eqb_neq. split; [eauto | intros (y & [= <-] & Hy); exact Hy].
Qed.

(** The parsers. *)
Lemma parse_ram_ok p : axi_parse_ram_access p <> None <->
  ap_ram_access p = None \/ ap_ram_access p = Some "shared-mem"%string \/
  ap_ram_access p = Some "qemu-mediated"%string.
Proof.
  unfold axi_parse_ram_access. destruct (ap_ram_access p) as [x|]; cbn; [|now intuition].
  destruct (String.eqb_spec x "shared-mem") as [->|]; [now intuition|].
  destruct (String.eqb_spec x "qemu-mediated") as [->|]; [now intuition|].
  split; [contradiction | intros [|[|]]; congruence].
Qed.

Lemma parse_policy_ok p : axi_parse_notify_policy p <> None <->
  ap_notify_policy p = None \/ ap_notify_policy p = Some "all"%string \/
  ap_notify_policy p = Some "barrier"%string.
Proof.
  unfold axi_parse_notify_policy. destruct (ap_notify_policy p) as [x|]; cbn; [|now intuition].
  destruct (String.eqb_spec x "all") as [->|]; [now intuition|].
  destruct (String.eqb_spec x "barrier") as [->|]; [now intuition|].
  split; [contradiction | intros [|[|]]; congruence].
Qed.

Lemma parse_mode_ok p mode role : axi_parse_mode p = inr (mode, role) <->
  mode_name p = (match mode with AXI_MODE_SOCKET => "socket" | AXI_MODE_UIO => "uio" end)%string /\
  role_name p = (match role with AXI_ROLE_SLAVE => "slave" | AXI_ROLE_MASTER => "master" end)%string.
Proof.
  unfold axi_parse_mode. fold (mode_name p) (role_name p).
  destruct (String.eqb_spec (mode_name p) "socket") as [->|Hs];
    [|destruct (String.eqb_spec (mode_name p) "uio") as [->|Hu]];
    (destruct (String.eqb_spec (role_name p) "slave") as [->|Hr];
     [|destruct (String.eqb_spec (role_name p) "master") as [->|Hm]]);
    destruct mode, role;
    (split; [intros H; first [discriminate H | now split] | intros [? ?]; congruence]).
Qed.

Lemma machine_ok m p s :
  fst (realize_machine m p s) = None <->
  match m with
  | X86Machine ioapic2 _ => ioapic2 = true /\ 16 <= ap_irq p < 24
  | VirtMachine _ => ap_irq p < 256
  | OtherMachine => False
  end.
Proof.
  unfold realize_machine, axi_realize_x86, axi_realize_arm_virt.
  unfold MICROVM_AXI_IRQ_BASE, MICROVM_AXI_IRQ_COUNT. destruct m as [[] gsi|fdt|]; cbn.
  - destruct (Z.ltb_spec (ap_irq p) 16); [split; [discriminate | lia]|]. cbn.
    change (16 + 8) with 24. destruct (Z.leb_spec 24 (ap_irq p)); [split; [discriminate | lia]|].
    destruct (gsi && _); split; intros; (reflexivity || (split; [reflexivity | lia])).
  - split; [discriminate | now intros []].
  - destruct (Z.leb_spec 256 (ap_irq p)); split; intros; (discriminate || lia || reflexivity).
  - split; [discriminate | easy].
Qed.

Lemma machine_keeps m p s :
  rz_mode (snd (realize_machine m p s)) = rz_mode s /\
  rz_role (snd (realize_machine m p s)) = rz_role s /\
  rz_windows (snd (realize_machine m p s)) = rz_windows s /\
  rz_listen_fd (snd (realize_machine m p s)) = rz_listen_fd s /\
  rz_control_fd (snd (realize_machine m p s)) = rz_control_fd s.
Proof.
  unfold realize_machine, axi_realize_x86, axi_realize_arm_virt.
  destruct m as [[] gsi|fdt|]; cbn; repeat case_match; now repeat split.
Qed.

Lemma path_fits_spec p path : ap_control_socket p = Some path ->
  path_fits p = true <-> (String.length path < CONTROL_SUN_PATH)%nat.
Proof. intros E. unfold path_fits. rewrite E. apply Nat.ltb_lt. Qed.

Lemma uio_keeps e p s :
  rz_mode (snd (realize_uio e p s)) = rz_mode s /\
  rz_windows (snd (realize_uio e p s)) = rz_windows s /\
  rz_nodes (snd (realize_uio e p s)) = rz_nodes s.
Proof.
  unfold realize_uio, axi_control_listen, axi_control_connect.
  repeat case_match; now repeat split.
Qed.

Lemma realize_uio_ok e p s :
  missing (ap_control_socket p) = false ->
  role_name p = (match rz_role s with AXI_ROLE_SLAVE => "slave" | AXI_ROLE_MASTER => "master" end)%string ->
  fst (realize_uio e p s) = None <->
  (exists host_size, ap_memdev p = Some host_size /\ ap_size p <= host_size) /\ control_opens e p.
Proof.
  intros (path & Ep & Hne)%missing_false Hrole. unfold realize_uio, control_opens.
  pose proof (path_fits_spec p path Ep) as Hfit.
  destruct (ap_memdev p) as [host|]; [|split; [discriminate | intros ((h & [=] & _) & _)]].
  destruct (Z.ltb_spec host (ap_size p)).
  { split; [discriminate | intros ((h & [= <-] & Hh) & _); lia]. }
  unfold axi_control_listen, axi_control_connect. rewrite Ep, Hrole.
  destruct (path_fits p), (rz_role s), (ce_socket e), (ce_bind e), (ce_listen e), (ce_connect e);
    cbn; split; try discriminate; try reflexivity; intros H1;
    try (split; [eauto|]; exists path; repeat split; try easy; now apply Hfit);
    try (destruct H1 as (_ & path' & [= <-] & _ & Hl & Hs & Hb & Hc));
    try discriminate; try (apply Hfit in Hl; discriminate);
    try (now destruct (Hb eq_refl)); try (now specialize (Hc eq_refl)).
Qed.

(** The windows a realised device occupies. *)
Definition mapped_windows (p : axi_props) : list (Z * Z) :=
  (ap_base p, ap_size p) ::
  match ap_dma_memdev p with
  | Some _ => if String.eqb (mode_name p) "uio" && negb (ap_dma_size p =? 0)
              then [(ap_dma_base p, ap_dma_size p)] else []
  | None => []
  end.

Definition mode_string (mode : AxiMode) : string :=
  match mode with AXI_MODE_SOCKET => "socket" | AXI_MODE_UIO => "uio" end.

Lemma dma_alias_eq p s :
  mode_name p = mode_string (rz_mode s) ->
  (ap_base p, ap_size p) :: dma_alias p s = mapped_windows p.
Proof.
  intros Hm. unfold dma_alias, mapped_windows. rewrite Hm.
  destruct (rz_mode s), (ap_dma_memdev p); cbn; try reflexivity. now destruct (_ =? 0).
Qed.

Lemma realize_wired_ok m e p s :
  rz_windows s = [] ->
  role_name p = (match rz_role s with AXI_ROLE_SLAVE => "slave" | AXI_ROLE_MASTER => "master" end)%string ->
  mode_name p = mode_string (rz_mode s) ->
  (mode_name p = "uio"%string -> missing (ap_control_socket p) = false) ->
  let r := realize_wired m e p (rz_mode s) s in
  (fst r = None <->
     fst (realize_machine m p s) = None /\
     (mode_name p = "uio"%string ->
        (exists h, ap_memdev p = Some h /\ ap_size p <= h) /\ control_opens e p)) /\
  rz_windows (snd r) = match fst r with Some _ => [] | None => mapped_windows p end.
Proof.
  intros Hw Hr Hm Hc r. unfold r, realize_wired.
  destruct (machine_keeps m p s) as (Km & Kr & Kw & _).
  destruct (realize_machine m p s) as [[err|] s1]; cbn [fst snd] in *.
  { split; [split; [discriminate | now intros []] | congruence]. }
  destruct (rz_mode s) eqn:Em; cbn [mode_string] in Hm.
  - cbn [fst snd rz_windows rz_mapped]. split.
    + split; [|reflexivity]. intros _. split; [reflexivity|]. rewrite Hm. discriminate.
    + apply dma_alias_eq. now rewrite Km.
  - pose proof (realize_uio_ok e p s1 (Hc Hm)) as Ho. rewrite Kr in Ho. specialize (Ho Hr).
    destruct (uio_keeps e p s1) as (Um & Uw & _).
    destruct (realize_uio e p s1) as [[err|] s2]; cbn [fst snd rz_windows rz_mapped] in *.
    + split; [|congruence]. split; [discriminate|]. intros [_ H]. now apply Ho, H.
    + split; [|apply dma_alias_eq; now rewrite Um, Km].
      split; [|reflexivity]. intros _. split; [reflexivity|]. intros _. now apply Ho.
Qed.

Definition outcome_ok (m : qemu_machine) (e : control_env) (p : axi_props)
    (r : option axi_error * realized) : Prop :=
  (fst r = None <-> realizable m e p) /\
  rz_windows (snd r) = match fst r with Some _ => [] | None => mapped_windows p end.

Lemma refused m e p err s : rz_windows s = [] -> ~ realizable m e p ->
  outcome_ok m e p (Some err, s).
Proof. intros Hs Hr. split; [split; [discriminate | contradiction] | exact Hs]. Qed.

Lemma parse_mode_total p :
  mode_name p = "socket"%string \/ mode_name p = "uio"%string ->
  role_name p = "slave"%string \/ role_name p = "master"%string ->
  exists mode role, axi_parse_mode p = inr (mode, role).
Proof.
  intros Hm Hr. unfold axi_parse_mode. fold (mode_name p) (role_name p).
  destruct Hm as [-> | ->], Hr as [-> | ->]; cbn; eauto.
Qed.

Lemma mode_props_ok mode p : mode_name p = mode_string mode ->
  check_mode_props mode p = None <->
  (mode_name p = "socket"%string -> exists path, ap_socket p = Some path /\ path <> ""%string) /\
  (mode_name p = "uio"%string ->
     ap_memdev p <> None /\ missing (ap_control_socket p) = false).
Proof.
  intros ->. unfold check_mode_props. destruct mode; cbn [mode_string].
  - pose proof (missing_false (ap_socket p)) as Hm.
    destruct (missing (ap_socket p)); split; try discriminate; try reflexivity.
    + intros [H _]. destruct Hm as [_ Hm]. discriminate (Hm (H eq_refl)).
    + intros _. split; [intros _; now apply Hm | discriminate].
  - destruct (ap_memdev p); [destruct (missing _)|]; split; try discriminate; try reflexivity.
    + intros [_ H]. now destruct (H eq_refl).
    + intros _. split; [discriminate | now split].
    + intros [_ H]. now destruct (H eq_refl).
Qed.

Lemma realize_outcome m e p : outcome_ok m e p (axi_realize m e p).
Proof.
  unfold axi_realize.
  destruct (Z.eqb_spec (ap_base p) 0) as [|Hb]; [apply refused; [reflexivity | now intros []]|].
  destruct (Z.eqb_spec (ap_size p) 0) as [|Hz]; [apply refused; [reflexivity | now intros []]|].
  destruct (axi_parse_mode p) as [err|[mode role]] eqn:Epm.
  { apply refused; [reflexivity|]. intros [_ _ Hm Hr _ _ _ _ _ _].
    destruct (parse_mode_total p Hm Hr) as (? & ? & E). congruence. }
  apply parse_mode_ok in Epm as [Em Er]. fold (mode_string mode) in Em.
  set (s := rz_parsed mode role rz_start).
  pose proof (mode_props_ok mode p Em) as Hmp.
  destruct (check_mode_props mode p) as [err|].
  { apply refused; [reflexivity|]. intros [_ _ _ _ _ _ Hs Hmem Hctl _].
    enough (Some err = None) by discriminate. apply Hmp. split; [exact Hs|]. intros Hu.
    destruct (Hmem Hu) as (h & -> & _). destruct (Hctl Hu) as (path & -> & Hne & _).
    split; [discriminate|]. cbn. now apply String.eqb_neq. }
  destruct (proj1 Hmp eq_refl) as [Hsock Huio]. clear Hmp.
  pose proof (parse_ram_ok p) as Hra. pose proof (parse_policy_ok p) as Hnp.
  destruct (axi_parse_ram_access p) eqn:Era;
    [|apply refused; [reflexivity | intros H; now apply (proj2 Hra (re_ram _ _ _ H))]].
  destruct (axi_parse_notify_policy p) eqn:Enp;
    [|apply refused; [reflexivity | intros H; now apply (proj2 Hnp (re_policy _ _ _ H))]].
  destruct (realize_wired_ok m e p s eq_refl Er Em (fun H => proj2 (Huio H))) as [Hw Hwin].
  change (rz_mode s) with mode in *. split; [|exact Hwin]. rewrite Hw, machine_ok. split.
  - intros [Hm Hu]. split; try assumption; try congruence.
    + rewrite Em. destruct mode; auto.
    + rewrite Er. destruct role; auto.
    + now apply Hra.
    + now apply Hnp.
    + intros H. apply Hu, H.
    + intros H. apply Hu, H.
  - intros [? ? ? ? ? ? ? Hmem Hctl Hma]. split; [exact Hma | auto].
Qed.

(** ** The tables and the regions *)

(** A resource stands for a window: base and size, and the last address of a 64-bit one. *)
Definition resource_of (r : acpi_memory) (w : Z * Z) : Prop :=
  match r with
  | Memory32Fixed base size => (base, size) = w /\ base < 2 ^ 32 /\ size < 2 ^ 32
  | QWordMemory base last size => (base, size) = w /\ last = base + size - 1
  end.

(** The windows of a device are in the 64-bit address space. *)
Definition windows_fit (p : axi_props) : Prop :=
  Forall (fun w => 0 <= w.1 /\ 0 < w.2 /\ w.1 + w.2 <= 2 ^ 64) (table_windows p).

Lemma append_memory_resource base size :
  0 <= base /\ 0 < size /\ base + size <= 2 ^ 64 ->
  resource_of (axi_acpi_append_memory base size) (base, size).
Proof.
  intros (Hb & Hs & Hl). unfold axi_acpi_append_memory.
  destruct (Z.leb_spec base (2 ^ 32 - 1)), (Z.leb_spec size (2 ^ 32 - 1)); cbn;
    (split; [reflexivity|]); first [lia | apply u64_small; unfold in_width; lia].
Qed.

(** The nodes of a realised device. *)
Lemma realize_nodes fdt e p mode role :
  realizable (VirtMachine fdt) e p -> axi_parse_mode p = inr (mode, role) ->
  let s := rz_parsed mode role rz_start in
  rz_nodes (snd (axi_realize (VirtMachine fdt) e p)) =
    axi_add_virt_fdt_node fdt p s ++ axi_add_virt_uio_fdt_node fdt p s.
Proof.
  intros Hr Ep s. pose proof (proj2 (proj1 (realize_outcome (VirtMachine fdt) e p)) Hr) as Hok.
  revert Hok. unfold axi_realize. rewrite Ep. repeat (case_match; try discriminate).
  unfold realize_wired, realize_machine, axi_realize_x86, axi_realize_arm_virt.
  destruct (256 <=? _); [discriminate|]. destruct mode; cbn; [reflexivity|].
  destruct (uio_keeps e p (rz_wired (Some (ap_irq p)) (axi_add_virt_fdt_node fdt p s ++
    axi_add_virt_uio_fdt_node fdt p s) s)) as (_ & _ & Hn).
  destruct (realize_uio _ _ _) as [[err|] s2]; [discriminate | intros _; exact Hn].
Qed.

(** The windows an ACPI entry shows: that of the DMA in UIO mode only. *)
Definition acpi_windows (p : axi_props) : list (Z * Z) :=
  if String.eqb (mode_name p) "uio" then table_windows p else [(ap_base p, ap_size p)].

(** The entry of a realised device; a string that was not set is NULL or empty. *)
Lemma entry_windows ioapic2 gsi unset p :
  mode_name p = "socket"%string \/ mode_name p = "uio"%string ->
  role_name p = "slave"%string \/ role_name p = "master"%string ->
  windows_fit p -> unset = None \/ unset = Some ""%string ->
  (mode_name p = "uio"%string /\ ap_role p = None /\ unset = Some ""%string /\ acpi_entry unset p = []) \/
  (~ (mode_name p = "uio"%string /\ ap_role p = None /\ unset = Some ""%string) /\
   exists d, acpi_entry unset p = [d] /\ ad_irq d = ap_irq p /\
    Forall2 resource_of (ad_memory d) (acpi_windows p) /\
    bound_by (X86Machine ioapic2 gsi) pd_acpi_ids (ad_hid d) =
      if String.eqb (mode_name p) "uio" then meant_for (X86Machine ioapic2 gsi) p else []).
Proof.
  intros Hm Hr Hf Hu. unfold acpi_entry, meant_for, acpi_windows. fold (mode_name p) (role_name p).
  assert (String.eqb (or_default (get_str unset (ap_mode p)) "socket") "uio"
    = String.eqb (mode_name p) "uio") as ->.
  { unfold mode_name. destruct Hu as [-> | ->]; now destruct (ap_mode p). }
  unfold windows_fit, table_windows in *. destruct Hm as [-> | ->]; cbn.
  { right. split; [now intros []|]. eexists. split; [reflexivity|]. split; [reflexivity|].
    split; [|reflexivity]. cbn. apply Forall_cons_iff in Hf as [Hf _].
    constructor; [now apply append_memory_resource | constructor]. }
  destruct (decide (ap_role p = None /\ unset = Some ""%string)) as [[Ero ->]|Hno].
  { left. now rewrite Ero. }
  right. split; [intros (_ & H); contradiction|].
  assert (or_default (get_str unset (ap_role p)) "slave" = role_name p /\
          (role_name p = "master"%string ->
           or_default (get_str unset (ap_role p)) "" = "master"%string)) as [-> Hma].
  { unfold role_name. destruct Hu as [-> | ->]; destruct (ap_role p); try easy. now destruct Hno. }
  destruct Hr as [Er | Er]; rewrite Er; cbn; rewrite ?(Hma Er); cbn;
    destruct (ap_dma_size p =? 0) eqn:E0; cbn; eexists; (split; [reflexivity|]); cbn;
    rewrite ?E0; (split; [reflexivity|]); (split; [|reflexivity]);
    repeat (apply Forall_cons_iff in Hf as [? Hf]);
    repeat (constructor; [now apply append_memory_resource|]); constructor.
Qed.

Section listing.
Context {A B : Type} (key : A -> Z) (f : A -> list B).

Definition by_key (ids : list Z) (l : list A) : list B :=
  concat (map (fun i => concat (map (fun a => if key a =? i then f a else []) l)) ids).

Lemma select_key ids a : NoDup ids -> key a ∈ ids ->
  concat (map (fun i => if key a =? i then f a else []) ids) = f a.
Proof.
  induction 1 as [|i ids Hi Hn IH]; intros Ha; [now apply elem_of_nil in Ha|]. cbn.
  destruct (Z.eqb_spec (key a) i) as [E|Hne].
  - replace (concat _) with (@nil B); [apply app_nil_r|]. symmetry. clear IH Hn Ha. subst i.
    induction ids as [|j ids IH]; [reflexivity|]. cbn. apply not_elem_of_cons in Hi as [Hj Hi].
    now rewrite (proj2 (Z.eqb_neq _ _) Hj), IH.
  - apply IH. apply elem_of_cons in Ha as [E|Ha]; [contradiction | assumption].
Qed.

Lemma concat_zip_perm (g h : Z -> list B) ids :
  concat (map (fun i => g i ++ h i) ids) ≡ₚ concat (map g ids) ++ concat (map h ids).
Proof.
  induction ids as [|i ids IH]; [reflexivity|]. cbn. rewrite IH, <- !app_assoc.
  apply Permutation_app_head. rewrite !app_assoc. apply Permutation_app_tail, Permutation_app_comm.
Qed.

Lemma by_key_perm ids l : NoDup ids -> Forall (fun a => key a ∈ ids) l ->
  by_key ids l ≡ₚ concat (map f l).
Proof.
  intros Hn. induction 1 as [|a l Ha _ IH]; unfold by_key in *.
  - induction ids as [|i ids IH]; [reflexivity|]. apply NoDup_cons in Hn as [_ Hn]. cbn. auto.
  - cbn. rewrite concat_zip_perm, (select_key ids a Hn Ha). now rewrite IH.
Qed.
End listing.

(** The tables and the mapped windows. *)
Lemma table_mapped p :
  table_windows p = mapped_windows p <->
  ap_dma_size p = 0 \/ (mode_name p = "uio"%string /\ ap_dma_memdev p <> None).
Proof.
  unfold table_windows, mapped_windows.
  destruct (Z.eqb_spec (ap_dma_size p) 0) as [E|Hne], (String.eqb_spec (mode_name p) "uio") as [Em|Hm],
    (ap_dma_memdev p); cbn; split; intros H; try reflexivity; auto; try discriminate;
    try (right; split; [assumption | discriminate]); destruct H as [H|[? H]]; congruence.
Qed.

Lemma acpi_mapped p :
  acpi_windows p = mapped_windows p <->
  (mode_name p = "uio"%string -> ap_dma_size p = 0 \/ ap_dma_memdev p <> None).
Proof.
  pose proof (table_mapped p) as Ht. unfold acpi_windows.
  destruct (String.eqb_spec (mode_name p) "uio") as [Em|Hm].
  - rewrite Ht. intuition.
  - unfold mapped_windows. rewrite (proj2 (String.eqb_neq _ _) Hm).
    destruct (ap_dma_memdev p); cbn; intuition.
Qed.

Lemma entry_uids unset p : sublist (map ad_uid (acpi_entry unset p)) [ap_irq p].
Proof.
  unfold acpi_entry. repeat case_match; cbn; try reflexivity. apply sublist_nil_l.
Qed.

(** ** Claims *)

(** C22: which devices QEMU accepts. Realisation succeeds exactly for the devices whose
    base, size, mode, role, memory access and notify policy are valid, whose mode has what
    it needs (a socket path; or a backend that holds the register page and a control
    socket that can be opened for the role), and whose interrupt fits one of the two
    supported machines. A device that is refused maps nothing; one that is accepted maps
    its register window, and its DMA window when it is in UIO mode with a backend and a
    size for it. *)
Theorem axi_realize_outcome m e p :
  (fst (axi_realize m e p) = None <-> realizable m e p) /\
  rz_windows (snd (axi_realize m e p)) =
    match fst (axi_realize m e p) with Some _ => [] | None => mapped_windows p end.
Proof. apply realize_outcome. Qed.

(** C23: what the firmware tables show of a device. For every device QEMU accepted, with
    windows in the 64-bit address space:
    - on ARM virt the device tree has exactly one node for it (none without a tree or for
      a master in socket mode), with its interrupt, its register window, and its DMA
      window if it has one; they are the windows QEMU mapped exactly if that DMA window
      is backed in UIO mode; the UIO driver of the machine or the frontend driver, the
      one it is meant for, is matched by it;
    - on microvm it has exactly one ACPI entry, with its interrupt and its register
      window, and in UIO mode its DMA window; they are the mapped windows exactly if a
      DMA window in UIO mode is backed; in UIO mode the driver it is meant for is matched.
      Only a device in UIO mode whose role was not given has no entry, if QEMU reads a
      string that was not set as an empty one. *)
Theorem tables_show_windows m e p :
  realizable m e p -> windows_fit p ->
  let w := rz_windows (snd (axi_realize m e p)) in
  match m with
  | VirtMachine fdt =>
      exists nodes, rz_nodes (snd (axi_realize m e p)) = nodes /\
        length nodes = (if fdt && negb (String.eqb (mode_name p) "socket" &&
                                        String.eqb (role_name p) "master") then 1 else 0)%nat /\
        Forall (fun n => fn_reg n = table_windows p /\ fn_irq n = ap_irq p /\
          bound_by m pd_of_ids (fn_compatible n) = meant_for m p) nodes /\
        (table_windows p = w <->
           ap_dma_size p = 0 \/ (mode_name p = "uio"%string /\ ap_dma_memdev p <> None))
  | X86Machine _ _ => forall unset, unset = None \/ unset = Some ""%string ->
      (acpi_entry unset p = [] <->
         mode_name p = "uio"%string /\ ap_role p = None /\ unset = Some ""%string) /\
      (acpi_entry unset p <> [] ->
       exists d, acpi_entry unset p = [d] /\ ad_irq d = ap_irq p /\
         Forall2 resource_of (ad_memory d) (acpi_windows p) /\
         (mode_name p = "uio"%string -> bound_by m pd_acpi_ids (ad_hid d) = meant_for m p)) /\
      (acpi_windows p = w <->
         (mode_name p = "uio"%string -> ap_dma_size p = 0 \/ ap_dma_memdev p <> None))
  | OtherMachine => False
  end.
Proof.
  intros Hr Hf w. destruct (realize_outcome m e p) as [Hok Hw].
  rewrite (proj2 Hok Hr) in Hw. fold w in Hw.
  pose proof (re_mode _ _ _ Hr) as Hmode. pose proof (re_role _ _ _ Hr) as Hrole.
  destruct m as [ioapic2 gsi|fdt|]; [| |exact (re_machine _ _ _ Hr)].
  - intros unset Hu. split; [|split].
    + destruct (entry_windows ioapic2 gsi unset p Hmode Hrole Hf Hu)
        as [(H1 & H2 & H3 & E)|(Hno & d & E & _)]; rewrite E.
      * now split.
      * split; [discriminate | contradiction].
    + intros Hne. destruct (entry_windows ioapic2 gsi unset p Hmode Hrole Hf Hu)
        as [(_ & _ & _ & E)|(_ & d & E & Hi & Hmem & Hb)]; [contradiction|].
      exists d. repeat (split; [assumption|]). intros Hm. now rewrite Hb, Hm.
    + rewrite Hw. apply acpi_mapped.
  - destruct (parse_mode_total p Hmode Hrole) as (mode & role & Ep).
    eexists. split; [reflexivity|]. rewrite (realize_nodes fdt e p mode role Hr Ep).
    apply parse_mode_ok in Ep as [Em Er]. rewrite Hw, <- table_mapped. unfold meant_for.
    fold (mode_name p) (role_name p).
    rewrite Em, Er. unfold axi_add_virt_fdt_node, axi_add_virt_uio_fdt_node.
    destruct fdt, mode, role; cbn; (split; [reflexivity|]); (split; [|reflexivity]);
      repeat constructor; cbn; now destruct (_ =? 0).
Qed.

Definition demo_props (mode role : option string) (dma_memdev : option Z) : axi_props :=
  {| ap_base := 0xfeb00000; ap_size := 0x1000; ap_dma_base := 0x1000000000;
     ap_dma_size := 0x4000000; ap_irq := 17; ap_socket := Some "/run/blk.sock"; ap_mode := mode;
     ap_role := role; ap_control_socket := Some "/run/ctl.sock"; ap_ram_access := None;
     ap_notify_policy := Some "barrier"; ap_memdev := Some 0x1000; ap_dma_memdev := dma_memdev |}.

Definition calls_succeed : control_env :=
  {| ce_socket := true; ce_bind := true; ce_listen := true; ce_connect := true |}.

Lemma tables_show_windows_witness :
  exists d, acpi_entry (Some "") (demo_props (Some "uio") (Some "master") (Some 0x4000000)) = [d] /\
    ad_irq d = 17 /\
    Forall2 resource_of (ad_memory d) [(0xfeb00000, 0x1000); (0x1000000000, 0x4000000)].
Proof.
  pose proof (tables_show_windows (X86Machine true true) calls_succeed
    (demo_props (Some "uio") (Some "master") (Some 0x4000000))) as H.
  destruct (H ltac:(apply realize_outcome; vm_compute; reflexivity)
    ltac:(repeat constructor; vm_compute; congruence) (Some "") ltac:(now right)) as (_ & He & _).
  destruct (He ltac:(discriminate)) as (d & E & Hi & Hm & _).
  exists d. split; [exact E|]. split; [exact Hi | exact Hm].
Defined.

(** A window in the device tree that is not there. On ARM virt a slave device with a
    DMA size shows the DMA window in its node in any mode, while QEMU maps it only in UIO
    mode with a backend: for a device in socket mode, or without the backend, the guest
    is told of memory that does not exist. *)
Theorem fdt_window_unmapped e p :
  realizable (VirtMachine true) e p -> role_name p = "slave"%string -> ap_dma_size p <> 0 ->
  mode_name p = "socket"%string \/ ap_dma_memdev p = None ->
  exists n, rz_nodes (snd (axi_realize (VirtMachine true) e p)) = [n] /\
    fn_reg n = [(ap_base p, ap_size p); (ap_dma_base p, ap_dma_size p)] /\
    rz_windows (snd (axi_realize (VirtMachine true) e p)) = [(ap_base p, ap_size p)].
Proof.
  intros Hr Hrole Hd Hcase. destruct (realize_outcome (VirtMachine true) e p) as [Hok Hw].
  rewrite (proj2 Hok Hr) in Hw. rewrite Hw.
  destruct (parse_mode_total p (re_mode _ _ _ Hr) (re_role _ _ _ Hr)) as (mode & role & Ep).
  rewrite (realize_nodes true e p mode role Hr Ep).
  apply parse_mode_ok in Ep as [Em Er]. rewrite Hrole in Er. destruct role; [|discriminate].
  unfold axi_add_virt_fdt_node, axi_add_virt_uio_fdt_node, table_windows, mapped_windows.
  rewrite (proj2 (Z.eqb_neq _ _) Hd). cbn. rewrite orb_true_r. eexists. split; [reflexivity|].
  split; [reflexivity|]. destruct Hcase as [-> | ->]; [now destruct (ap_dma_memdev p) | reflexivity].
Qed.

Lemma fdt_window_unmapped_witness :
  exists n, rz_nodes (snd (axi_realize (VirtMachine true) calls_succeed
      (demo_props None None None))) = [n] /\
    fn_reg n = [(0xfeb00000, 0x1000); (0x1000000000, 0x4000000)] /\
    rz_windows (snd (axi_realize (VirtMachine true) calls_succeed (demo_props None None None)))
      = [(0xfeb00000, 0x1000)].
Proof.
  apply (fdt_window_unmapped calls_succeed (demo_props None None None)).
  - apply realize_outcome. vm_compute. reflexivity.
  - reflexivity.
  - discriminate.
  - left. reflexivity.
Defined.

(** The ACPI table lists every device once. With the interrupts realisation allows,
    the table is a rearrangement of the entries of the devices on the bus; with distinct
    interrupts no two entries share an identifier. *)
Theorem acpi_lists_devices unset bus :
  Forall (fun p => 16 <= ap_irq p < 24) bus ->
  acpi_dsdt_add_axi unset bus ≡ₚ concat (map (acpi_entry unset) bus) /\
  (NoDup (map ap_irq bus) -> NoDup (map ad_uid (acpi_dsdt_add_axi unset bus))).
Proof.
  intros Hb.
  assert (acpi_dsdt_add_axi unset bus ≡ₚ concat (map (acpi_entry unset) bus)) as Hp.
  { apply (by_key_perm ap_irq (acpi_entry unset)); [apply NoDup_seqZ|].
    eapply Forall_impl; [exact Hb|]. cbv beta. intros p Hi. apply elem_of_seqZ.
    unfold MICROVM_AXI_IRQ_BASE, MICROVM_AXI_IRQ_COUNT. lia. }
  split; [exact Hp|]. intros Hn. rewrite Hp. eapply sublist_NoDup; [exact Hn|].
  clear. induction bus as [|p bus IH]; [constructor|]. cbn [map concat]. rewrite map_app.
  change (ap_irq p :: map ap_irq bus) with ([ap_irq p] ++ map ap_irq bus).
  apply sublist_app; [apply entry_uids | exact IH].
Qed.

Lemma acpi_lists_devices_witness :
  acpi_dsdt_add_axi None [demo_props None None None] ≡ₚ
    acpi_entry None (demo_props None None None) ++ [].
Proof.
  apply (acpi_lists_devices None [demo_props None None None]).
  repeat constructor; cbn; lia.
Defined.

(** The default role is not in the ACPI table. QEMU's getter gives the empty string for a
    string property that was not set; with it a UIO device without an explicit role,
    which realisation takes for a slave, has no entry, so that the guest does not find
    it. *)
Theorem acpi_default_role_missing gsi e p :
  realizable (X86Machine true gsi) e p -> ap_mode p = Some "uio"%string -> ap_role p = None ->
  fst (axi_realize (X86Machine true gsi) e p) = None /\
  rz_windows (snd (axi_realize (X86Machine true gsi) e p)) = mapped_windows p /\
  acpi_entry (Some ""%string) p = [].
Proof.
  intros Hr Hm Hrole. destruct (realize_outcome (X86Machine true gsi) e p) as [Hok Hw].
  rewrite (proj2 Hok Hr) in Hw |- *. split; [reflexivity|]. split; [exact Hw|].
  unfold acpi_entry. now rewrite Hm, Hrole.
Qed.

(** [microvm_devices_init]: the first interrupt of the PCIe host bridge, where it is set,
    and of the built-in virtio transports. *)
Definition microvm_irq_bases (ioapic2 acpi : bool) : option Z * Z :=
  if ioapic2 then (Some 16, MICROVM_AXI_IRQ_BASE + MICROVM_AXI_IRQ_COUNT)
  else if acpi then (Some 12, 16)
  else (None, 5).

(** The interrupts of accepted devices are apart from those of the virtio transports; the
    first four are also the four lines of the PCIe host bridge. *)
Theorem microvm_irqs_shared ioapic2 gsi acpi e p :
  realizable (X86Machine ioapic2 gsi) e p ->
  ap_irq p < snd (microvm_irq_bases ioapic2 acpi) /\
  (ap_irq p < 20 -> exists base, fst (microvm_irq_bases ioapic2 acpi) = Some base /\
     base <= ap_irq p < base + 4).
Proof.
  intros Hr. destruct (re_machine _ _ _ Hr) as [-> Hi]. cbn.
  unfold MICROVM_AXI_IRQ_BASE, MICROVM_AXI_IRQ_COUNT. split; [lia|].
  intros H. exists 16. split; [reflexivity | lia].
Qed.
