(* ===== verification/QemuControl.v ===== *)
(** * The QEMU device: the UIO mode and its control connection

    [axi_control_accept], [axi_control_close], [axi_control_send], [axi_control_read],
    [axi_wait_for_notify_ack], [axi_uio_notify_backend], [axi_uio_notify_backend_async],
    [axi_uio_read] and [axi_uio_write] of
    [patches/qemu/0001-chiplets-qemu-support.patch] with a control connection that may be
    absent, fail or be replaced. The interleaving of the two machines over a connection
    that holds is in [Doorbell.v]; here one device runs statement by statement, while the
    daemon ([linux_uio.c]) stores to the register page they share. *)

From S2P Require Import Prelude Endian Fabric Virtio VirtioMmio QueueService Posix QemuSocket.
From S2P Require Import QemuPeer QemuDevice QemuRealize LinuxUio UioMirror.

#[local] Open Scope Z_scope.
#[local] Open Scope c_scope.

Definition AXI_MSG_FRONTEND_NOTIFY : Z := 100.
Definition AXI_MSG_FRONTEND_IRQ_ASSERT : Z := 101.
Definition AXI_MSG_FRONTEND_IRQ_DEASSERT : Z := 102.
Definition AXI_MSG_FRONTEND_NOTIFY_ACK : Z := 103.
Definition AXI_CONTROL_IRQ_OFFSET : Z := 0x200.

(** The outcome of one [g_poll]: the socket is readable, another event (a hang-up), or
    nothing before the deadline. *)
Inductive poll_outcome : Type := PollIn | PollOther | PollTimeout.

Section control.
Context {P : Type} `{Peer P}.

(** [struct AxiState] in UIO mode: properties, the control connection behind
    [control_fd], [async_notify_pending], the interrupt line ([ct_pulses]: how often
    it was pulsed), and the shared register page. [ct_daemon]: the stores the daemon is
    going to make on that page, those before each access of QEMU in turn. *)
Record ctl : Type := {
  ct_size : Z;
  ct_role : AxiRole;
  ct_policy : AxiNotifyPolicy;
  ct_notify_ack : bool;
  ct_fd : option (sock P);
  ct_pending : bool;
  ct_wired : bool;
  ct_irq : bool;
  ct_pulses : nat;
  ct_page : list Z;
  ct_daemon : list (list (Z * list Z));
}.

Definition ct_set_fd (c : option (sock P)) (s : ctl) : ctl :=
  {| ct_size := ct_size s; ct_role := ct_role s; ct_policy := ct_policy s;
     ct_notify_ack := ct_notify_ack s; ct_fd := c; ct_pending := ct_pending s;
     ct_wired := ct_wired s; ct_irq := ct_irq s; ct_pulses := ct_pulses s; ct_page := ct_page s;
     ct_daemon := ct_daemon s |}.

Definition ct_set_pending (b : bool) (s : ctl) : ctl :=
  {| ct_size := ct_size s; ct_role := ct_role s; ct_policy := ct_policy s;
     ct_notify_ack := ct_notify_ack s; ct_fd := ct_fd s; ct_pending := b;
     ct_wired := ct_wired s; ct_irq := ct_irq s; ct_pulses := ct_pulses s; ct_page := ct_page s;
     ct_daemon := ct_daemon s |}.

(** [if (s->irq) qemu_set_irq(s->irq, level)] *)
Definition ct_set_irq (level : bool) (s : ctl) : ctl :=
  {| ct_size := ct_size s; ct_role := ct_role s; ct_policy := ct_policy s;
     ct_notify_ack := ct_notify_ack s; ct_fd := ct_fd s; ct_pending := ct_pending s;
     ct_wired := ct_wired s; ct_irq := if ct_wired s then level else ct_irq s;
     ct_pulses := ct_pulses s; ct_page := ct_page s;
     ct_daemon := ct_daemon s |}.

Definition ct_pulse (s : ctl) : ctl :=
  {| ct_size := ct_size s; ct_role := ct_role s; ct_policy := ct_policy s;
     ct_notify_ack := ct_notify_ack s; ct_fd := ct_fd s; ct_pending := ct_pending s;
     ct_wired := ct_wired s; ct_irq := if ct_wired s then false else ct_irq s;
     ct_pulses := if ct_wired s then S (ct_pulses s) else ct_pulses s; ct_page := ct_page s;
     ct_daemon := ct_daemon s |}.

Definition ct_set_page (pg : list Z) (s : ctl) : ctl :=
  {| ct_size := ct_size s; ct_role := ct_role s; ct_policy := ct_policy s;
     ct_notify_ack := ct_notify_ack s; ct_fd := ct_fd s; ct_pending := ct_pending s;
     ct_wired := ct_wired s; ct_irq := ct_irq s; ct_pulses := ct_pulses s; ct_page := pg;
     ct_daemon := ct_daemon s |}.

Definition ct_set_daemon (w : list (list (Z * list Z))) (s : ctl) : ctl :=
  {| ct_size := ct_size s; ct_role := ct_role s; ct_policy := ct_policy s;
     ct_notify_ack := ct_notify_ack s; ct_fd := ct_fd s; ct_pending := ct_pending s;
     ct_wired := ct_wired s; ct_irq := ct_irq s; ct_pulses := ct_pulses s; ct_page := ct_page s;
     ct_daemon := w |}.

(** ** The connection *)

Definition ctl_close : M ctl unit := modify (ct_set_fd None).

(** [axi_control_accept]; [fd] is what [accept] returned. The connection it replaces is
    closed. *)
Definition ctl_accept (fd : option (sock P)) : M ctl unit :=
  match fd with
  | None => ret tt
  | Some c => ctl_close;; modify (ct_set_fd (Some c))
  end.

Definition on_control {A} (closed : A) (k : M (sock P) A) : M ctl A := fun s =>
  match ct_fd s with
  | None => Done (closed, s)
  | Some c =>
      match k c with
      | Done (a, c') => Done (a, ct_set_fd (Some c') s)
      | UB => UB
      | NoFuel => NoFuel
      end
  end.

Definition ctl_write (buf : list Z) : M ctl bool :=
  on_control false (fun c => write_loop (loop_fuel (sk_ev c)) sk_write 0 buf c).

Definition ctl_read_bytes (len : nat) : M ctl (bool * list Z) :=
  on_control (false, []) (fun c => read_loop (loop_fuel (sk_ev c)) sk_read 0 len c).

Definition ctl_send (kind : Z) : M ctl bool :=
  fd ← gets ct_fd;
  match fd with
  | None => ret false
  | Some _ =>
      ok ← ctl_write (encode_header (message kind 0 0));
      if negb ok then (ctl_close;; ret false) else ret true
  end.

(** The handler of the main loop. *)
Definition ctl_read : M ctl unit :=
  r ← ctl_read_bytes AXI_HEADER_LEN;
  if negb (fst r) then ctl_close else
  let kind := ah_kind (decode_header (snd r)) in
  if kind =? AXI_MSG_FRONTEND_NOTIFY then modify ct_pulse
  else if kind =? AXI_MSG_FRONTEND_IRQ_ASSERT then modify (ct_set_irq true)
  else if kind =? AXI_MSG_FRONTEND_IRQ_DEASSERT then modify (ct_set_irq false)
  else if kind =? AXI_MSG_FRONTEND_NOTIFY_ACK then modify (ct_set_pending false)
  else ret tt.

(** The loop that waits for the acknowledgement, with the outcome of each poll; the list
    ends when the deadline has passed. *)
Fixpoint ctl_wait_loop (polls : list poll_outcome) : M ctl unit :=
  match polls with
  | [] => ret tt
  | PollTimeout :: _ => ret tt
  | PollOther :: _ => ctl_close
  | PollIn :: polls =>
      r ← ctl_read_bytes AXI_HEADER_LEN;
      if negb (fst r) then ctl_close else
      let kind := ah_kind (decode_header (snd r)) in
      if kind =? AXI_MSG_FRONTEND_NOTIFY_ACK then ret tt
      else if kind =? AXI_MSG_FRONTEND_IRQ_ASSERT then
        (modify (ct_set_irq true));; ctl_wait_loop polls
      else if kind =? AXI_MSG_FRONTEND_IRQ_DEASSERT then
        (modify (ct_set_irq false));; ctl_wait_loop polls
      else ctl_wait_loop polls
  end.

(** [axi_wait_for_notify_ack]; the delays and the handler of the descriptor, which is
    removed during the wait, are not represented. *)
Definition ctl_wait_for_notify_ack (polls : list poll_outcome) : M ctl unit :=
  fd ← gets ct_fd;
  match fd with
  | None => ret tt
  | Some _ =>
      ok ← ctl_send AXI_MSG_FRONTEND_NOTIFY;
      if negb ok then ret tt else ctl_wait_loop polls
  end.

Definition ctl_notify_backend (polls : list poll_outcome) : M ctl unit :=
  ack ← gets ct_notify_ack;
  if ack : bool then ctl_wait_for_notify_ack polls
  else (ctl_send AXI_MSG_FRONTEND_NOTIFY;; ret tt).

Definition ctl_notify_backend_async : M ctl unit :=
  skip ← gets (fun s => ct_notify_ack s && ct_pending s);
  if skip : bool then ret tt else
  ctl_send AXI_MSG_FRONTEND_NOTIFY;;
  modify (fun s => ct_set_pending (ct_notify_ack s) s).

(** ** Register accesses *)

Definition ctl_needs_backend (policy : AxiNotifyPolicy) (addr : Z) : bool :=
  match policy with
  | AXI_NOTIFY_POLICY_ALL => true
  | AXI_NOTIFY_POLICY_BARRIER =>
      existsb (Z.eqb addr)
        [VIRTIO_MMIO_DEVICE_FEATURES_SEL; VIRTIO_MMIO_DRIVER_FEATURES;
         VIRTIO_MMIO_DRIVER_FEATURES_SEL; VIRTIO_MMIO_QUEUE_SEL; VIRTIO_MMIO_QUEUE_READY;
         VIRTIO_MMIO_INTERRUPT_ACK; VIRTIO_MMIO_QUEUE_NOTIFY; VIRTIO_MMIO_STATUS]
  end.

(** A store of the daemon; one outside the page does not reach it. *)
Definition daemon_store (pg : list Z) (w : Z * list Z) : list Z :=
  if (0 <=? w.1) && (w.1 + zlen w.2 <=? zlen pg) then splice w.1 w.2 pg else pg.

Definition daemon_turn : M ctl unit := modify (fun s =>
  match ct_daemon s with
  | [] => s
  | ws :: rest => ct_set_daemon rest (ct_set_page (fold_left daemon_store ws (ct_page s)) s)
  end).

(** [memcpy] from and to the shared page, which is undefined outside it. *)
Definition page_load (addr size : Z) : M ctl Z := daemon_turn;; fun s =>
  if (0 <=? addr) && (addr + size <=? zlen (ct_page s))
  then Done (virtio_load_le64 (slice addr size (ct_page s) ++ replicate (8 - Z.to_nat size) 0), s)
  else UB.

Definition page_store (addr : Z) (data : list Z) : M ctl unit := daemon_turn;; fun s =>
  if (0 <=? addr) && (addr + zlen data <=? zlen (ct_page s))
  then Done (tt, ct_set_page (splice addr data (ct_page s)) s)
  else UB.

Definition uio_read (polls : list poll_outcome) (addr size : Z) : M ctl Z :=
  s ← gets (fun s => s);
  if ct_size s <? u64 (addr + size) then ret 0 else
  (if bool_decide (ct_role s = AXI_ROLE_SLAVE) &&
      match ct_policy s with AXI_NOTIFY_POLICY_ALL => true | AXI_NOTIFY_POLICY_BARRIER => false end
   then ctl_notify_backend polls else ret tt);;
  page_load addr size.

(** [queue_offsets] *)
Definition uio_queue_offsets : list Z :=
  [VIRTIO_MMIO_QUEUE_NUM; VIRTIO_MMIO_QUEUE_READY; VIRTIO_MMIO_QUEUE_DESC_LOW;
   VIRTIO_MMIO_QUEUE_DESC_HIGH; VIRTIO_MMIO_QUEUE_AVAIL_LOW; VIRTIO_MMIO_QUEUE_AVAIL_HIGH;
   VIRTIO_MMIO_QUEUE_USED_LOW; VIRTIO_MMIO_QUEUE_USED_HIGH].

Fixpoint clear_queue (offsets : list Z) : M ctl unit :=
  match offsets with
  | [] => ret tt
  | off :: offsets =>
      size ← gets ct_size;
      (if off + 4 <=? size then page_store off [0; 0; 0; 0] else ret tt);;
      clear_queue offsets
  end.

Definition uio_write (polls : list poll_outcome) (addr value size : Z) : M ctl unit :=
  s ← gets (fun s => s);
  if ct_size s <? u64 (addr + size) then ret tt else
  page_store addr (take (Z.to_nat size) (virtio_store_le64 value));;
  (if bool_decide (ct_role s = AXI_ROLE_SLAVE) && (addr =? VIRTIO_MMIO_QUEUE_SEL)
   then clear_queue uio_queue_offsets else ret tt);;
  if bool_decide (ct_role s = AXI_ROLE_SLAVE) && ctl_needs_backend (ct_policy s) addr then
    match ct_policy s with
    | AXI_NOTIFY_POLICY_BARRIER =>
        if addr =? VIRTIO_MMIO_QUEUE_NOTIFY then ctl_notify_backend_async
        else ctl_notify_backend polls
    | AXI_NOTIFY_POLICY_ALL => ctl_notify_backend polls
    end
  else if bool_decide (ct_role s = AXI_ROLE_MASTER) && (addr =? AXI_CONTROL_IRQ_OFFSET) then
    ctl_send (if value =? 0 then AXI_MSG_FRONTEND_IRQ_DEASSERT else AXI_MSG_FRONTEND_IRQ_ASSERT);;
    ctl_send AXI_MSG_FRONTEND_NOTIFY_ACK;;
    ret tt
  else ret tt.
End control.
Arguments ctl P : clear implicits.

(** ** The connection never touches the page *)

Section frame.
Context {P : Type} `{Peer P}.
Implicit Types s : ctl P.

Record framed s s' : Prop := {
  fr_size : ct_size s' = ct_size s;
  fr_role : ct_role s' = ct_role s;
  fr_policy : ct_policy s' = ct_policy s;
  fr_page : ct_page s' = ct_page s;
  fr_daemon : ct_daemon s' = ct_daemon s;
}.

#[global] Instance framed_refl : Reflexive framed.
Proof. now split. Qed.

#[global] Instance framed_trans : Transitive framed.
Proof. intros s1 s2 s3 [] []. split; congruence. Qed.

(** Every call on the connection returns and leaves the frame. *)
Definition quietly {A} (m : M (ctl P) A) : Prop := forall s, wp m s (fun _ s' => framed s s').

Lemma quietly_ret {A} (a : A) : quietly (ret a).
Proof. intros s. now rewrite wpx_ret. Qed.

Lemma quietly_bind {A B} (m : M (ctl P) A) (k : A -> M (ctl P) B) :
  quietly m -> (forall a, quietly (k a)) -> quietly (bind m k).
Proof.
  intros Hm Hk s. rewrite wpx_bind. wpuse Hm. intros a s1 H1. wpuse Hk.
  intros b s2 H2. now transitivity s1.
Qed.

Lemma quietly_modify f : (forall s, framed s (f s)) -> quietly (modify f).
Proof. intros Hf s. now rewrite wpx_modify. Qed.

Lemma quietly_gets {A} (f : ctl P -> A) : quietly (gets f).
Proof. intros s. now rewrite wpx_gets. Qed.

Lemma quietly_write buf : quietly (ctl_write buf).
Proof.
  intros s. unfold wpx, ctl_write, on_control. destruct (ct_fd s) as [c|]; [|reflexivity].
  fold (io_all_write buf c). rewrite io_all_write_eq. destruct (wdrain _ _) as [[b w] ev].
  now split.
Qed.

Lemma quietly_read_bytes len : quietly (ctl_read_bytes len).
Proof.
  intros s. unfold wpx, ctl_read_bytes, on_control. destruct (ct_fd s) as [c|]; [|reflexivity].
  fold (io_all_read len c). rewrite io_all_read_eq. destruct (drain _ _ _) as [[b d] ev].
  now split.
Qed.
End frame.

Create HintDb control.
#[export] Hint Resolve quietly_ret quietly_bind quietly_modify quietly_gets quietly_write
  quietly_read_bytes : control.

(** Programs made of the calls above. *)
Ltac quiet_program :=
  repeat first
    [ apply quietly_ret | apply quietly_gets | apply quietly_write | apply quietly_read_bytes
    | apply quietly_modify; intros; now split
    | apply quietly_bind; [|intros ?]
    | match goal with
      | |- quietly (if ?b then _ else _) => destruct b
      | |- quietly (match ?x with _ => _ end) => destruct x
      end
    | assumption ].

Section programs.
Context {P : Type} `{Peer P}.
Implicit Types s : ctl P.

Lemma quietly_send kind : quietly (P := P) (ctl_send kind).
Proof. unfold ctl_send, ctl_close. quiet_program. Qed.

Lemma quietly_wait polls : quietly (P := P) (ctl_wait_loop polls).
Proof.
  induction polls as [|[] polls IH]; cbn [ctl_wait_loop]; unfold ctl_close; cbv zeta;
    quiet_program.
Qed.

Lemma quietly_notify polls : quietly (P := P) (ctl_notify_backend polls).
Proof.
  unfold ctl_notify_backend, ctl_wait_for_notify_ack.
  repeat first [apply quietly_send | apply quietly_wait | progress quiet_program].
Qed.

Lemma quietly_notify_async : quietly (P := P) ctl_notify_backend_async.
Proof.
  unfold ctl_notify_backend_async. repeat first [apply quietly_send | progress quiet_program].
Qed.

(** What realisation establishes: the page holds the registers. *)
Definition page_holds s : Prop := 0 <= ct_size s <= zlen (ct_page s).

Lemma daemon_store_length pg w : zlen (daemon_store pg w) = zlen pg.
Proof.
  unfold daemon_store. destruct ((_ <=? _) && _) eqn:E; [|reflexivity].
  apply andb_true_iff in E as [H1%Z.leb_le H2%Z.leb_le]. now apply zlen_splice.
Qed.

Lemma daemon_stores_length ws pg : zlen (fold_left daemon_store ws pg) = zlen pg.
Proof.
  revert pg. induction ws as [|w ws IH]; intros pg; [reflexivity|].
  cbn [fold_left]. now rewrite IH, daemon_store_length.
Qed.

(** The state before the next access to the page. *)
Definition turned s : ctl P :=
  match ct_daemon s with
  | [] => s
  | ws :: rest => ct_set_daemon rest (ct_set_page (fold_left daemon_store ws (ct_page s)) s)
  end.

Lemma turned_frame s :
  ct_size (turned s) = ct_size s /\ ct_role (turned s) = ct_role s /\
  ct_policy (turned s) = ct_policy s /\ ct_notify_ack (turned s) = ct_notify_ack s /\
  ct_fd (turned s) = ct_fd s /\ ct_pending (turned s) = ct_pending s /\
  zlen (ct_page (turned s)) = zlen (ct_page s).
Proof.
  unfold turned. destruct (ct_daemon s) as [|ws rest]; [repeat split|].
  repeat split. apply daemon_stores_length.
Qed.

Lemma page_store_ok addr data s :
  0 <= addr -> addr + zlen data <= zlen (ct_page s) ->
  page_store addr data s
  = Done (tt, ct_set_page (splice addr data (ct_page (turned s))) (turned s)).
Proof.
  intros Ha Hl. unfold page_store, daemon_turn, bind, modify. fold (turned s).
  destruct (turned_frame s) as (_ & _ & _ & _ & _ & _ & Hz). rewrite <- Hz in Hl.
  now rewrite (proj2 (Z.leb_le _ _) Ha), (proj2 (Z.leb_le _ _) Hl).
Qed.

Lemma page_load_ok addr size s :
  0 <= addr -> addr + size <= zlen (ct_page s) ->
  page_load addr size s = Done (virtio_load_le64
    (slice addr size (ct_page (turned s)) ++ replicate (8 - Z.to_nat size) 0), turned s).
Proof.
  intros Ha Hl. unfold page_load, daemon_turn, bind, modify. fold (turned s).
  destruct (turned_frame s) as (_ & _ & _ & _ & _ & _ & Hz). rewrite <- Hz in Hl.
  now rewrite (proj2 (Z.leb_le _ _) Ha), (proj2 (Z.leb_le _ _) Hl).
Qed.
End programs.

(** ** Register accesses *)

Section registers.
Context {P : Type} `{Peer P}.
Implicit Types s : ctl P.

(** The daemon's stores from here on are apart from [size] bytes at [addr]. *)
Definition daemon_apart (addr size : Z) s : Prop :=
  Forall (Forall (fun w => w.1 + zlen w.2 <= addr \/ addr + size <= w.1)) (ct_daemon s).

Lemma stores_apart addr size ws pg :
  0 <= addr -> 0 <= size -> addr + size <= zlen pg ->
  Forall (fun w => w.1 + zlen w.2 <= addr \/ addr + size <= w.1) ws ->
  slice addr size (fold_left daemon_store ws pg) = slice addr size pg.
Proof.
  intros Ha Hs. revert pg. induction ws as [|w ws IH]; intros pg Hl Hw; [reflexivity|].
  apply Forall_cons_iff in Hw as [Hw Hws]. cbn [fold_left].
  rewrite IH by (rewrite ?daemon_store_length; assumption).
  unfold daemon_store. destruct ((_ <=? _) && _) eqn:E; [|reflexivity].
  apply andb_true_iff in E as [H1%Z.leb_le H2%Z.leb_le].
  apply slice_splice_disjoint; lia.
Qed.

Lemma turned_apart addr size s :
  0 <= addr -> 0 <= size -> addr + size <= zlen (ct_page s) -> daemon_apart addr size s ->
  daemon_apart addr size (turned s) /\
  slice addr size (ct_page (turned s)) = slice addr size (ct_page s).
Proof.
  intros Ha Hs Hl Hd. unfold turned, daemon_apart in *. destruct (ct_daemon s) as [|ws rest] eqn:E.
  { split; [now rewrite E | reflexivity]. }
  apply Forall_cons_iff in Hd as [Hw Hr]. split; [exact Hr|]. now apply stores_apart.
Qed.

(** The same device and a page of the same length, in which [size] bytes at [addr] are
    [data] if the daemon stays apart from them. *)
Record holds (addr : Z) (data : list Z) s s' : Prop := {
  ho_size : ct_size s' = ct_size s;
  ho_role : ct_role s' = ct_role s;
  ho_policy : ct_policy s' = ct_policy s;
  ho_length : zlen (ct_page s') = zlen (ct_page s);
  ho_data : daemon_apart addr (zlen data) s ->
    daemon_apart addr (zlen data) s' /\ slice addr (zlen data) (ct_page s') = data;
}.

Lemma holds_framed addr data s s1 s2 : holds addr data s s1 -> framed s1 s2 -> holds addr data s s2.
Proof.
  intros [] []. split; try congruence. unfold daemon_apart in *.
  intros Hap. rewrite fr_daemon0, fr_page0. auto.
Qed.

(** A store that leaves the data alone. *)
Lemma store_holds addr data s0 s off word :
  0 <= addr -> addr + zlen data <= zlen (ct_page s0) ->
  0 <= off -> off + zlen word <= zlen (ct_page s0) ->
  off + zlen word <= addr \/ addr + zlen data <= off ->
  holds addr data s0 s ->
  wp (page_store off word) s (fun _ s' => holds addr data s0 s').
Proof.
  intros Ha Hl Ho Hf Hd []. unfold wpx. rewrite page_store_ok by (assumption || lia).
  destruct (turned_frame s) as (T1 & T2 & T3 & _ & _ & _ & T4).
  split; cbn [ct_size ct_role ct_policy ct_page ct_set_page ct_daemon]; try congruence.
  - rewrite zlen_splice by (assumption || lia). congruence.
  - intros Hap. destruct (ho_data0 Hap) as [Hap1 Hs].
    destruct (turned_apart addr (zlen data) s) as [Hap2 Hs2];
      [assumption | unfold zlen; lia | lia | assumption|].
    split; [exact Hap2|]. rewrite slice_splice_disjoint by (unfold zlen in *; lia). congruence.
Qed.

(** Clearing the queue registers leaves the selector alone. *)
Lemma clear_queue_holds offsets data s0 s :
  page_holds s0 -> Forall (fun o => 0x38 <= o) offsets -> zlen data <= 8 ->
  VIRTIO_MMIO_QUEUE_SEL + zlen data <= ct_size s0 ->
  holds VIRTIO_MMIO_QUEUE_SEL data s0 s ->
  wp (clear_queue offsets) s (fun _ s' => holds VIRTIO_MMIO_QUEUE_SEL data s0 s').
Proof.
  intros [_ Hp] Hoff Hd Hin. revert s. induction Hoff as [|o offsets Ho _ IH]; intros s Hh;
    cbn [clear_queue].
  { now rewrite wpx_ret. }
  rewrite wpx_bind, wpx_gets, wpx_bind.
  destruct (Z.leb_spec (o + 4) (ct_size s)) as [Hl|]; [|now rewrite wpx_ret; apply IH].
  rewrite (ho_size _ _ _ _ Hh) in Hl.
  eapply wpx_mono; [apply (store_holds VIRTIO_MMIO_QUEUE_SEL data s0)|intros [] s1; apply IH].
  all: change (zlen [0; 0; 0; 0]) with 4; unfold VIRTIO_MMIO_QUEUE_SEL in *; try lia.
  exact Hh.
Qed.

Lemma uio_write_holds polls addr value size s :
  page_holds s -> 0 <= addr -> 1 <= size <= 8 -> addr + size <= ct_size s -> ct_size s < 2 ^ 64 ->
  wp (uio_write polls addr value size) s (fun _ s' =>
    holds addr (take (Z.to_nat size) (virtio_store_le64 value)) s s').
Proof.
  intros Hp Ha Hs Hr Hw. set (data := take _ _).
  assert (zlen data = size) as Hl.
  { unfold zlen, data. rewrite length_take. change (length (virtio_store_le64 value)) with 8%nat. lia. }
  unfold uio_write. rewrite wpx_bind, wpx_gets.
  rewrite u64_small by (unfold in_width; lia). rewrite (proj2 (Z.ltb_ge _ _) Hr), wpx_bind.
  fold data. assert (addr + zlen data <= zlen (ct_page s)) as Hfit by (destruct Hp; lia).
  unfold wpx at 1. rewrite page_store_ok by assumption.
  set (s1 := ct_set_page _ _).
  destruct (turned_frame s) as (T1 & T2 & T3 & _ & _ & _ & T4).
  assert (holds addr data s s1) as H1.
  { split; cbn [s1 ct_size ct_role ct_policy ct_page ct_set_page]; try assumption.
    - rewrite zlen_splice by lia. exact T4.
    - intros Hap. split; [|apply slice_splice_same; lia].
      apply (turned_apart addr (zlen data) s); [assumption | lia | assumption | exact Hap]. }
  rewrite wpx_bind. eapply wpx_mono with (Q := fun _ s' => holds addr data s s').
  { destruct (_ && (addr =? VIRTIO_MMIO_QUEUE_SEL)) eqn:Eq; [|now rewrite wpx_ret].
    apply andb_true_iff in Eq as [_ ->%Z.eqb_eq]. apply clear_queue_holds; [assumption | | lia | lia | exact H1].
    repeat (constructor; [vm_compute; discriminate|]). constructor. }
  intros _ s2 H2.
  assert (forall k : M (ctl P) unit, quietly k -> wp k s2 (fun _ s' => holds addr data s s')) as Hk.
  { intros k Hq. wpuse Hq. intros _ s3. now apply holds_framed. }
  destruct (_ && ctl_needs_backend _ _); [|destruct (_ && _)].
  - destruct (ct_policy s); [|destruct (_ =? _)]; apply Hk;
      (apply quietly_notify || apply quietly_notify_async).
  - apply Hk. repeat first [apply quietly_send | progress quiet_program].
  - now rewrite wpx_ret.
Qed.

Lemma uio_read_value polls addr size s :
  page_holds s -> 0 <= addr -> 1 <= size <= 8 -> addr + size <= ct_size s -> ct_size s < 2 ^ 64 ->
  wp (uio_read polls addr size) s (fun v s' => page_holds s' /\
    (daemon_apart addr size s ->
     v = virtio_load_le64 (slice addr size (ct_page s) ++ replicate (8 - Z.to_nat size) 0))).
Proof.
  intros Hp Ha Hs Hr Hw. unfold uio_read. rewrite wpx_bind, wpx_gets.
  rewrite u64_small by (unfold in_width; lia). rewrite (proj2 (Z.ltb_ge _ _) Hr), wpx_bind.
  eapply wpx_mono with (Q := fun _ s' => framed s s').
  { destruct (_ && _); [apply quietly_notify | apply quietly_ret]. }
  intros _ s1 []. unfold wpx. unfold page_holds in *.
  rewrite page_load_ok by (rewrite ?fr_page0; lia).
  destruct (turned_frame s1) as (T1 & _ & _ & _ & _ & _ & T4).
  split; [rewrite T1, T4, fr_size0, fr_page0; exact Hp|]. intros Hap.
  destruct (turned_apart addr size s1) as [_ ->]; [assumption | lia | rewrite fr_page0; lia | |].
  - unfold daemon_apart in *. now rewrite fr_daemon0.
  - now rewrite fr_page0.
Qed.
End registers.

(** ** Queue notifications *)

(** The guest writes QueueNotify once for each value. *)
Fixpoint doorbells {P} `{Peer P} (vs : list Z) : M (ctl P) unit :=
  match vs with
  | [] => ret tt
  | v :: vs => uio_write [] VIRTIO_MMIO_QUEUE_NOTIFY v 4;; doorbells vs
  end.

(** A frontend with the barrier policy that expects acknowledgements. *)
Record barrier_frontend {P} `{Peer P} (s : ctl P) : Prop := {
  bf_role : ct_role s = AXI_ROLE_SLAVE;
  bf_policy : ct_policy s = AXI_NOTIFY_POLICY_BARRIER;
  bf_ack : ct_notify_ack s = true;
  bf_page : page_holds s;
  bf_size : 0x54 <= ct_size s < 2 ^ 64;
}.

Section doorbell.
Context {P : Type} `{Peer P}.
Implicit Types s : ctl P.

(** The store of QueueNotify. *)
Definition notify_stored (v : Z) s : ctl P :=
  ct_set_page (splice VIRTIO_MMIO_QUEUE_NOTIFY (take 4 (virtio_store_le64 v)) (ct_page (turned s)))
    (turned s).

Lemma notify_fits s : barrier_frontend s ->
  VIRTIO_MMIO_QUEUE_NOTIFY + 4 <= zlen (ct_page s).
Proof. intros [_ _ _ Hp Hs]. unfold VIRTIO_MMIO_QUEUE_NOTIFY. destruct Hp. lia. Qed.

(** A write of QueueNotify is the store and the asynchronous notification. *)
Lemma queue_notify s v : barrier_frontend s ->
  uio_write [] VIRTIO_MMIO_QUEUE_NOTIFY v 4 s = ctl_notify_backend_async (notify_stored v s).
Proof.
  intros Hb. pose proof (notify_fits s Hb) as Hfit. destruct Hb as [Hr Hpo Ha Hp Hs].
  unfold uio_write, bind at 1, gets at 1. cbv beta iota.
  change (u64 (VIRTIO_MMIO_QUEUE_NOTIFY + 4)) with 0x54.
  rewrite (proj2 (Z.ltb_ge _ 0x54)) by lia.
  unfold bind at 1. rewrite page_store_ok.
  - rewrite Hr, Hpo. reflexivity.
  - discriminate.
  - exact Hfit.
Qed.

Lemma notify_stored_frame v s : barrier_frontend s ->
  barrier_frontend (notify_stored v s) /\ ct_fd (notify_stored v s) = ct_fd s /\
  ct_pending (notify_stored v s) = ct_pending s.
Proof.
  intros Hb. pose proof (notify_fits s Hb) as Hfit. destruct Hb as [Hr Hpo Ha Hp Hs].
  destruct (turned_frame s) as (T1 & T2 & T3 & T4 & T5 & T6 & T7).
  split; [|split; assumption]. unfold page_holds in *.
  split; cbn [notify_stored ct_role ct_policy ct_notify_ack ct_size ct_set_page]; try congruence.
  unfold page_holds. cbn [notify_stored ct_size ct_page ct_set_page].
  rewrite zlen_splice, T1, T7; [exact Hp | discriminate | rewrite T7; exact Hfit].
Qed.

(** While a notification is pending, another one only stores. *)
Lemma pending_suppresses vs s : barrier_frontend s -> ct_pending s = true ->
  exists s', doorbells vs s = Done (tt, s') /\ ct_fd s' = ct_fd s /\ ct_pending s' = true.
Proof.
  revert s. induction vs as [|v vs IH]; intros s Hb Hp; [now exists s|].
  cbn [doorbells]. unfold bind at 1. rewrite (queue_notify s v Hb).
  destruct (notify_stored_frame v s Hb) as (Hb1 & <- & Hp1). rewrite Hp in Hp1.
  set (s1 := notify_stored v s) in *. clearbody s1.
  assert (ctl_notify_backend_async s1 = Done (tt, s1)) as ->.
  { unfold ctl_notify_backend_async, bind, gets. now rewrite (bf_ack _ Hb1), Hp1. }
  now apply IH.
Qed.
End doorbell.

(** ** The daemon's stores *)

(** The words of the page [linux_uio.c] stores to: the published registers and
    configuration, the two registers it resets, and the interrupt-control word. *)
Definition daemon_word (irq_control off : Z) : Prop :=
  In off registers \/ off = VIRTIO_MMIO_QUEUE_NOTIFY \/ off = VIRTIO_MMIO_INTERRUPT_ACK \/
  VIRTIO_MMIO_CONFIG <= off \/ off = irq_control.

(** Whatever the daemon stores is inside such words (single bytes, of [store_le32]). *)
Definition daemon_stores_words (irq_control : Z) (ws : list (list (Z * list Z))) : Prop :=
  Forall (Forall (fun w => exists off, daemon_word irq_control off /\
    off <= w.1 /\ w.1 + zlen w.2 <= off + 4)) ws.

Lemma words_apart {P} irq_control addr size (s : ctl P) :
  daemon_stores_words irq_control (ct_daemon s) ->
  (forall off, daemon_word irq_control off -> off + 4 <= addr \/ addr + size <= off) ->
  daemon_apart addr size s.
Proof.
  intros Hw Ha. unfold daemon_apart. eapply Forall_impl; [exact Hw|]. cbv beta. intros ws Hws.
  eapply Forall_impl; [exact Hws|]. cbv beta. intros w (off & Hoff & H1 & H2).
  destruct (Ha off Hoff); lia.
Qed.

(** ** Claims *)

(** C13: register accesses of the UIO mode, on a page the daemon stores to at the same
    time. For a device whose page holds its registers, whatever its role and policy,
    whatever the control connection is and does, and whatever the daemon stores before
    each access of QEMU to the page: a guest write inside the window and the read that
    follows both return, and no access leaves the page (the selection of a queue, which
    clears the queue registers, is among them). If the daemon stores where [linux_uio.c]
    does and the access touches none of those words, the read returns the low bytes of
    the value written. A read outside the window returns 0 and a write has no effect. *)
Theorem uio_access_roundtrip {P} `{Peer P} polls polls' addr value size irq_control (s : ctl P) :
  page_holds s -> ct_size s < 2 ^ 64 -> 0 <= addr -> 1 <= size <= 8 -> addr + size < 2 ^ 64 ->
  (addr + size <= ct_size s ->
     exists s1 v s2, uio_write polls addr value size s = Done (tt, s1) /\
       uio_read polls' addr size s1 = Done (v, s2) /\ page_holds s2 /\
       (daemon_stores_words irq_control (ct_daemon s) ->
        (forall off, daemon_word irq_control off -> off + 4 <= addr \/ addr + size <= off) ->
        v = low_bytes size value)) /\
  (ct_size s < addr + size ->
     uio_write polls addr value size s = Done (tt, s) /\ uio_read polls' addr size s = Done (0, s)).
Proof.
  intros Hp Hw Ha Hs Hlt. split; intros Hr.
  - destruct (wp_elim _ _ _ (uio_write_holds polls addr value size s Hp Ha Hs Hr Hw))
      as ([] & s1 & E1 & [H1 H2 H3 H4 H5]).
    assert (zlen (take (Z.to_nat size) (virtio_store_le64 value)) = size) as Hl
      by (unfold zlen; rewrite length_take, length_store_le64; lia).
    rewrite Hl in H5. assert (page_holds s1) as Hp1 by (unfold page_holds in *; lia).
    destruct (wp_elim _ _ _ (uio_read_value polls' addr size s1 Hp1 Ha Hs ltac:(lia) ltac:(lia)))
      as (v & s2 & E2 & Hp2 & Hv).
    exists s1, v, s2. do 3 (split; [assumption|]). intros Hd Hdis.
    destruct (H5 (words_apart irq_control addr size s Hd Hdis)) as [Hap Hsl].
    rewrite (Hv Hap), Hsl. unfold low_bytes. now rewrite <- (load_padded size value) by lia.
  - assert ((ct_size s <? u64 (addr + size)) = true) as Eo
      by (rewrite u64_small by (unfold in_width; lia); now apply Z.ltb_lt).
    split; [unfold uio_write | unfold uio_read]; unfold bind, gets; now rewrite Eo.
Qed.

(** The page of a frontend, on which the daemon resets a notification and publishes the
    status before the second access. *)
Definition demo_ctl (fd : option (sock tape)) : ctl tape :=
  {| ct_size := 0x200; ct_role := AXI_ROLE_SLAVE; ct_policy := AXI_NOTIFY_POLICY_BARRIER;
     ct_notify_ack := true; ct_fd := fd; ct_pending := false; ct_wired := true; ct_irq := false;
     ct_pulses := 0; ct_page := replicate 0x1000 0;
     ct_daemon := [[]; [(VIRTIO_MMIO_QUEUE_NOTIFY, [0xff]); (VIRTIO_MMIO_STATUS, [0xf])]] |}.

Lemma uio_access_roundtrip_witness :
  exists s1 s2, uio_write [PollIn] VIRTIO_MMIO_QUEUE_SEL 1 4 (demo_ctl None) = Done (tt, s1) /\
    uio_read [] VIRTIO_MMIO_QUEUE_SEL 4 s1 = Done (1, s2).
Proof.
  destruct (uio_access_roundtrip [PollIn] [] VIRTIO_MMIO_QUEUE_SEL 1 4 0x200 (demo_ctl None))
    as [H _].
  - split; vm_compute; discriminate.
  - reflexivity.
  - discriminate.
  - lia.
  - reflexivity.
  - destruct H as (s1 & v & s2 & E1 & E2 & _ & Hv); [vm_compute; discriminate|].
    exists s1, s2. split; [exact E1|]. rewrite E2. do 2 f_equal. apply Hv.
    + repeat (apply Forall_cons_2 || apply Forall_nil_2).
      * exists VIRTIO_MMIO_QUEUE_NOTIFY. split; [right; now left | split; discriminate].
      * exists VIRTIO_MMIO_STATUS. split; [left; cbn; tauto | split; discriminate].
    + assert (forallb (fun off => (off + 4 <=? 0x30) || (0x34 <=? off)) registers = true) as Hreg
        by (vm_compute; reflexivity).
      rewrite forallb_forall in Hreg. unfold daemon_word, VIRTIO_MMIO_QUEUE_SEL,
        VIRTIO_MMIO_QUEUE_NOTIFY, VIRTIO_MMIO_INTERRUPT_ACK, VIRTIO_MMIO_CONFIG.
      intros off [Hin|Hoff]; [specialize (Hreg off Hin)|]; lia.
Defined.

(** C39: a queue notification without a backend silences the queue. A frontend with the
    barrier policy and acknowledgements records the notification as pending even when it
    could not be sent. If the guest notifies before the backend has connected, the
    connection that is accepted afterwards carries no notification: however often the
    guest writes QueueNotify from then on, not one byte is sent, so that there is nothing
    the backend would acknowledge. *)
Theorem early_notify_silences {P} `{Peer P} v vs c (s : ctl P) :
  barrier_frontend s -> ct_fd s = None -> ct_pending s = false ->
  exists s', (uio_write [] VIRTIO_MMIO_QUEUE_NOTIFY v 4;; ctl_accept (Some c);; doorbells vs) s
      = Done (tt, s') /\ ct_fd s' = Some c /\ ct_pending s' = true.
Proof.
  intros Hb Hfd Hp. unfold bind at 1. rewrite (queue_notify s v Hb).
  destruct (notify_stored_frame v s Hb) as (Hb1 & Hfd1 & Hp1). rewrite Hfd in Hfd1. rewrite Hp in Hp1.
  set (s1 := notify_stored v s) in *. clearbody s1.
  assert (ctl_notify_backend_async s1 = Done (tt, ct_set_pending true s1)) as ->.
  { unfold ctl_notify_backend_async, ctl_send, bind, gets, modify, ret.
    now rewrite Hp1, andb_false_r, Hfd1, (bf_ack _ Hb1). }
  set (s2 := ct_set_fd (Some c) (ct_set_fd None (ct_set_pending true s1))).
  change ((ctl_accept (Some c);; doorbells vs) (ct_set_pending true s1)) with (doorbells vs s2).
  destruct (pending_suppresses vs s2) as (s' & E & H1 & H2); [|reflexivity|].
  - destruct Hb1. now split.
  - exists s'. now split.
Qed.

Lemma early_notify_silences_witness :
  exists s', (uio_write [] VIRTIO_MMIO_QUEUE_NOTIFY 0 4;; ctl_accept (Some backend_conn);;
      doorbells [0; 1; 0]) (demo_ctl None) = Done (tt, s') /\ ct_fd s' = Some backend_conn.
Proof.
  destruct (early_notify_silences 0 [0; 1; 0] backend_conn (demo_ctl None)) as (s' & E & Hc & _).
  - split; try reflexivity; [split; vm_compute; discriminate | vm_compute; split; [discriminate | reflexivity]].
  - reflexivity.
  - reflexivity.
  - exists s'. split; [exact E | exact Hc].
Defined.
