(* ===== verification/ConsoleUio.v ===== *)
(** * The console daemon behind the UIO mirror

    The console discharges the contract of the register scan; a notification of its
    transmit queue through the shared page, and what happens to it when the guest
    notifies the receive queue before the daemon has looked: both queues share one
    register. *)

From S2P Require Import Prelude Endian Fabric Virtio VirtioMmio QueueService Rings.
From S2P Require Import Posix LinuxUio UioMirror UioScan VirtioConsole ConsoleService.
From S2P Require Import BlkMirror UioKick.

#[local] Open Scope Z_scope.
#[local] Open Scope c_scope.

(** ** The contract of the scan *)

Definition cond_status (c : cond) : Z := v_status (m_vdev (co_mmio c)).

(** A well-formed console with status [st]. *)
Definition cond_at (st : Z) (c : cond) : Prop := cond_ok divisible c /\ cond_status c = st.

Lemma cond_at_out st out ev c : cond_at st c -> cond_at st (set_out out ev c).
Proof. intros [H E]. split; [now apply set_out_ok | exact E]. Qed.

Lemma cond_at_bump st qi c : cond_at st c -> cond_at st (cond_bump qi c).
Proof. intros [H E]. split; [now apply cond_bump_ok | exact E]. Qed.

Lemma cond_at_raise st c : cond_at st c -> cond_at st (cond_raise_vring c).
Proof. intros [H E]. split; [now apply cond_raise_ok | exact E]. Qed.

(** Queue sizes the driver can divide by. *)
Definition cond_access (off v : Z) : Prop :=
  off = VIRTIO_MMIO_QUEUE_NUM -> divisible (u32 v).

Lemma cond_status_read c : mmio_wf (co_mmio c) ->
  u32 (cond_mmio_read c VIRTIO_MMIO_STATUS 4) = cond_status c.
Proof.
  intros [[] _ _ _]. unfold cond_mmio_read, virtio_mmio_read, mask_read.
  change (register_value (co_mmio c) VIRTIO_MMIO_STATUS 4) with (cond_status c).
  change (4 =? 1) with false. change (4 =? 2) with false. change (4 =? 4) with true.
  cbn beta iota. change 0xffffffff with (Z.ones 32). rewrite Z.land_ones by lia.
  unfold cond_status. rewrite Z.mod_small by assumption. now apply u32_small.
Qed.

Section mirror_device.
Context (requests fuel : nat) (path : string).

#[global, program] Instance cond_mirror_device :
  MirrorDevice (cond_fabric_init_device (F := uio_state) requests fuel path)
    (cond_ok divisible) cond_access := {
  md_read := cond_mmio_read;
  md_write := cond_mmio_write requests fuel;
}.
Next Obligation. eexists. repeat split; reflexivity. Qed.
Next Obligation.
  intros off v u c Hin Hv HP Hi Hc.
  set (c' := {| co_mmio := virtio_mmio_write (co_mmio c) off v; co_out := co_out c;
                co_io := co_io c |}).
  set (st := if off =? VIRTIO_MMIO_STATUS then v else cond_status c).
  assert (cond_at st c') as Hc'.
  { split; [apply cond_write_ok; [discriminate | exact HP | assumption]|].
    now apply mmio_write_status. }
  set (K := @fab_ok _ _ (uio_pinned (us_mmio u) (us_config u))).
  assert (wlp (cond_mmio_write requests fuel off v 4) (u, c) (fun _ s =>
    K (fst s) /\ cond_at st (snd s))) as H.
  { apply (@cond_mmio_write_inv _ _ (uio_pinned (us_mmio u) (us_config u)) (cond_at st));
      auto using cond_at_out, cond_at_bump, cond_at_raise; [now intros ? [] | now split]. }
  eapply wpx_mono; [exact H|]. intros ok [u2 c2] [(Hi2 & Em & Ec) [Hs2 Est2]].
  cbn [fst snd] in *. split; [assumption|]. split; [assumption|]. split; [assumption|].
  split; [assumption|]. intros _. rewrite !cond_status_read by (apply Hs2 || apply Hc).
  exact Est2.
Qed.
End mirror_device.

(** ** The two notifications *)

(** The receive queue: the level of the interrupt line is set to the pending state. *)
Lemma rx_callback requests fuel len (u : uio_state) c :
  cond_mmio_write requests fuel VIRTIO_MMIO_QUEUE_NOTIFY 0 len (u, c)
  = Done (true, (set_pending
      (if has_bit (v_interrupt_status (m_vdev (co_mmio c))) VIRTIO_INTERRUPT_VRING then 1 else 0) u, c)).
Proof.
  unfold cond_mmio_write, bind at 1, modify at 1. cbn [fst snd]. rewrite cond_notify_id.
  unfold check_then at 1. rewrite (bind_done _ _ _ true (u, c)) by reflexivity.
  unfold check_then at 1. rewrite (bind_done _ _ _ true (u, c)) by reflexivity.
  cbn [Z.eqb VIRTIO_MMIO_QUEUE_NOTIFY Pos.eqb]. change (u32 0) with 0.
  assert (cond_virtio_notify_queue requests fuel 0 (u, c) = cond_ack_notify (u, c)) as E.
  { unfold cond_virtio_notify_queue, bind, gets. change (COND_QUEUE_COUNT <=? 0) with false.
    cbn [snd Z.eqb]. now destruct (_ =? 0). }
  unfold check_then. unfold bind at 1. rewrite E. unfold cond_ack_notify, bind, gets, liftF, zoom.
  cbn [fst snd]. now destruct (has_bit _ _).
Qed.

(** Of two notifications stored before the daemon looks, the page keeps the second. *)
Lemma notify_overwritten v w u :
  uio_inv true u -> 0x100 <= um_size (us_mmio u) ->
  axi_uio_write VIRTIO_MMIO_QUEUE_NOTIFY w (axi_uio_write VIRTIO_MMIO_QUEUE_NOTIFY v u)
  = axi_uio_write VIRTIO_MMIO_QUEUE_NOTIFY w u.
Proof.
  intros Hi Hs. assert (in_page VIRTIO_MMIO_QUEUE_NOTIFY) as Ho
    by apply in_page_written, notify_written.
  assert (forall x s, uio_inv true s -> 0x100 <= um_size (us_mmio s) ->
    axi_uio_write VIRTIO_MMIO_QUEUE_NOTIFY x s
    = store_word VIRTIO_MMIO_QUEUE_NOTIFY (virtio_store_le32 x) s) as Hw.
  { intros x s Hi' Hs'. unfold axi_uio_write, axi_uio_stores.
    change (VIRTIO_MMIO_QUEUE_NOTIFY =? VIRTIO_MMIO_QUEUE_SEL) with false. cbn [fold_left].
    apply guest_word; (assumption || reflexivity || apply Hi' || apply bytes_store_le32). }
  pose proof (store_word_paged VIRTIO_MMIO_QUEUE_NOTIFY (virtio_store_le32 v) u Hi Ho eq_refl
    (bytes_store_le32 _) Hs) as Hp.
  rewrite (Hw v u), !(Hw w) by (assumption || apply (pd_inv _ _ Hp) || now rewrite (pd_size _ _ Hp)).
  unfold store_word, page. cbn [us_mmio set_mmio um_addr um_size].
  pose proof (page_ok u (proj1 Hi)) as Hpg. fold (page u).
  assert (VIRTIO_MMIO_QUEUE_NOTIFY + zlen (virtio_store_le32 v) <= zlen (page u)) as Hfit.
  { rewrite <- (mo_size _ _ Hpg). change (zlen (virtio_store_le32 v)) with 4.
    unfold VIRTIO_MMIO_QUEUE_NOTIFY. lia. }
  now rewrite splice_splice by (assumption || discriminate || reflexivity).
Qed.

(** ** Claims *)

(** C6: a transmission through the shared page. The guest stores the number of the
    transmit queue into the notify register and the daemon makes one round of its loop:
    the console output grows by the bytes of all pending chains in ring order, the chains
    are published in the used ring, no other byte of guest memory changes, the notify
    register is idle again, the published interrupt status shows the interrupt and the
    interrupt-control register is 1; the shadow agrees with the page, so that the next
    notification is found as well. *)
Theorem console_uio_transmits requests fuel path sel u c ts u0 :
  let dev := cond_fabric_init_device (F := uio_state) requests fuel path in
  let io := uc_irq_control_offset (us_config u) in
  mirror_inv dev (cond_ok divisible) cond_access sel (u, c) ->
  reg VIRTIO_MMIO_QUEUE_NOTIFY u <> 1 -> io + 4 <= um_size (us_mmio u) ->
  tx_ready requests fuel c (uio_peek u) ts u0 -> ts <> [] ->
  exists u' c',
    uio_round dev (shadow_of u) (axi_uio_write VIRTIO_MMIO_QUEUE_NOTIFY 1 u, c)
      = Done ((true, shadow_of u'), (u', c')) /\
    tx_done (cond_queue 1 c) (co_out c) ts u0 (uio_peek u) c' (uio_peek u') /\
    reg VIRTIO_MMIO_QUEUE_NOTIFY u' = UIO_NOTIFY_IDLE /\
    has_bit (reg VIRTIO_MMIO_INTERRUPT_STATUS u') VIRTIO_INTERRUPT_VRING = true /\
    virtio_load_le32 (slice io 4 (page u')) = 1 /\
    mirror_inv dev (cond_ok divisible) cond_access sel (u', c').
Proof.
  intros dev io Hm Hn Hio Hr Hne. assert (in_width 32 1) as H1 by (unfold in_width; lia).
  destruct (notified_spec dev _ _ sel 1 u c Hm H1) as (Hi & Epk & _). rewrite <- Epk in Hr.
  destruct (tx_kick (HR := uio_ram) requests fuel (notified 1 u) c ts u0 4 Hi Hr)
    as (u3 & c' & E & _ & Hraise & Hd).
  destruct (Hraise Hne) as (f0 & _ & Ef). cbn in Ef. injection Ef as Ef.
  destruct (notify_round dev _ _ eq_refl sel 1 u c u3 c' 1 Hm H1 ltac:(discriminate) Hn Hio E)
    as (u' & Er & Epk' & Hidle & Hst & Hlev & Hm'); [now rewrite <- Ef | now right|].
  exists u', c'. split; [exact Er|]. rewrite Epk'. split; [cbn in Hd; now rewrite Epk in Hd|].
  split; [exact Hidle|]. split; [|now split].
  rewrite Hst. apply vring_status, (td_irq _ _ _ _ _ _ _ Hd), Hne.
Qed.

(** The page of the witnesses: the notify register is idle. *)
Definition console_uio : uio_state :=
  uio_over 0x1000 (splice VIRTIO_MMIO_QUEUE_NOTIFY (virtio_store_le32 UIO_NOTIFY_IDLE)
    (replicate 1024 0)) tx_memory.

Lemma console_uio_inv requests fuel path ev :
  mirror_inv (cond_fabric_init_device (F := uio_state) requests fuel path) (cond_ok divisible)
    cond_access 0 (console_uio, demo_cond ev).
Proof.
  split; cbn [fst snd].
  - split; [apply uio_over_inv; decided | |]; (split; discriminate || reflexivity) || discriminate.
  - apply demo_cond_ok.
  - reflexivity.
  - reflexivity.
  - split; [discriminate | reflexivity].
Qed.

Lemma console_uio_ready ev : Forall benign ev ->
  tx_ready 2 1 (demo_cond ev) (uio_peek console_uio) [demo_tx] 0.
Proof.
  intros Hev. split.
  - apply demo_cond_ok.
  - exact Hev.
  - discriminate.
  - split; [reflexivity | demo_range | demo_range | apply uio_over_mapped; closed_le].
  - exact demo_tx_independent.
  - decided.
  - apply uio_over_mem_at; [closed_le | vm_compute; reflexivity].
  - repeat constructor.
  - cbn. lia.
Qed.

Lemma console_uio_transmits_witness :
  let dev := cond_fabric_init_device (F := uio_state) 2 1 "uio:/dev/uio0" in
  exists u' c',
    uio_round dev (shadow_of console_uio)
      (axi_uio_write VIRTIO_MMIO_QUEUE_NOTIFY 1 console_uio, demo_cond [IoShort 1; IoIntr])
      = Done ((true, shadow_of u'), (u', c')) /\ co_out c' = [104; 105; 10].
Proof.
  cbv zeta.
  destruct (console_uio_transmits 2 1 "uio:/dev/uio0" 0 console_uio
    (demo_cond [IoShort 1; IoIntr]) [demo_tx] 0) as (u' & c' & E & [Ho _ _ _ _ _] & _).
  - apply console_uio_inv.
  - vm_compute. discriminate.
  - vm_compute. discriminate.
  - apply console_uio_ready. repeat constructor; discriminate.
  - discriminate.
  - exists u', c'. split; [exact E | exact Ho].
Defined.

(** C38: a transmission the daemon never sees. Both queues of the console share one notify
    register, and the daemon acts on the value it finds there. When the guest notifies the
    transmit queue and then the receive queue before the daemon has looked, the round of
    the daemon leaves the console as it was, its output, its cursor and guest memory
    included, whatever is pending for transmission, and the register is idle again:
    nothing is left that would start the transmission. *)
Theorem console_notify_overwritten requests fuel path sel u c :
  let dev := cond_fabric_init_device (F := uio_state) requests fuel path in
  let io := uc_irq_control_offset (us_config u) in
  mirror_inv dev (cond_ok divisible) cond_access sel (u, c) ->
  reg VIRTIO_MMIO_QUEUE_NOTIFY u = UIO_NOTIFY_IDLE -> io + 4 <= um_size (us_mmio u) ->
  exists u',
    uio_round dev (shadow_of u)
      (axi_uio_write VIRTIO_MMIO_QUEUE_NOTIFY 0 (axi_uio_write VIRTIO_MMIO_QUEUE_NOTIFY 1 u), c)
      = Done ((true, shadow_of u'), (u', c)) /\
    uio_peek u' = uio_peek u /\
    reg VIRTIO_MMIO_QUEUE_NOTIFY u' = UIO_NOTIFY_IDLE /\
    mirror_inv dev (cond_ok divisible) cond_access sel (u', c).
Proof.
  intros dev io Hm Hn Hio. assert (in_width 32 0) as H0 by (unfold in_width; lia).
  pose proof (mn_window _ _ _ _ _ Hm) as Hw. cbn [fst] in Hw.
  rewrite notify_overwritten by (apply Hw || apply (window_size _ _ Hw)).
  destruct (notified_spec dev _ _ sel 0 u c Hm H0) as (_ & Epk & _).
  set (level := if has_bit (v_interrupt_status (m_vdev (co_mmio c))) VIRTIO_INTERRUPT_VRING
                then 1 else 0).
  destruct (notify_round dev _ _ eq_refl sel 0 u c (set_pending level (notified 0 u)) c level Hm H0
    ltac:(discriminate) ltac:(rewrite Hn; discriminate) Hio (rx_callback requests fuel 4 _ c))
    as (u' & Er & Epk' & Hidle & _ & _ & Hm'); [reflexivity | unfold level; case_match; auto|].
  exists u'. split; [exact Er|]. split; [now rewrite Epk'|]. now split.
Qed.

Lemma console_notify_overwritten_witness :
  let dev := cond_fabric_init_device (F := uio_state) 2 1 "uio:/dev/uio0" in
  tx_ready 2 1 (demo_cond []) (uio_peek console_uio) [demo_tx] 0 /\
  exists u',
    uio_round dev (shadow_of console_uio)
      (axi_uio_write VIRTIO_MMIO_QUEUE_NOTIFY 0
         (axi_uio_write VIRTIO_MMIO_QUEUE_NOTIFY 1 console_uio), demo_cond [])
      = Done ((true, shadow_of u'), (u', demo_cond [])) /\
    reg VIRTIO_MMIO_QUEUE_NOTIFY u' = UIO_NOTIFY_IDLE.
Proof.
  cbv zeta. split; [apply console_uio_ready; constructor|].
  destruct (console_notify_overwritten 2 1 "uio:/dev/uio0" 0 console_uio (demo_cond []))
    as (u' & E & _ & Hi & _).
  - apply console_uio_inv.
  - reflexivity.
  - vm_compute. discriminate.
  - exists u'. split; [exact E | exact Hi].
Defined.
