(* ===== verification/UioBytes.v ===== *)
(** * The byte-wise stores of the register page

    [store_le32] of [src/fabrics/linux_uio.c] writes a register with four volatile byte
    stores, while the guest writes it with one. [LinuxUio.v] and [UioMirror.v] take a register store of the daemon as one step; here it
    is the four it is made of, with a guest store between them. [Doorbell.v] has the same
    granularity for the notification register, loads included. *)

From S2P Require Import Prelude Endian Fabric Virtio VirtioMmio QueueService.
From S2P Require Import LinuxUio UioMirror VirtioConsole ConsoleService VirtioBlk.

#[local] Open Scope Z_scope.
#[local] Open Scope c_scope.

(** The four stores: offset and byte. *)
Definition store_le32 (p value : Z) : list (Z * Z) :=
  [(p, Z.land value 0xff); (p + 1, Z.land (Z.shiftr value 8) 0xff);
   (p + 2, Z.land (Z.shiftr value 16) 0xff); (p + 3, Z.land (Z.shiftr value 24) 0xff)].

Definition byte_stores (l : list (Z * Z)) (pg : list Z) : list Z :=
  fold_left (fun pg w => splice w.1 [w.2] pg) l pg.

(** The guest's 32-bit store of [v] after [k] of the daemon's stores of [value]. *)
Definition torn_store (k : nat) (p value v : Z) (pg : list Z) : list Z :=
  byte_stores (drop k (store_le32 p value))
    (splice p (virtio_store_le32 v) (byte_stores (take k (store_le32 p value)) pg)).

(** Lists of stores with the same bytes at offsets that are equal by arithmetic. *)
Ltac same_stores :=
  cbn [take drop imap compose];
  repeat (apply (f_equal2 cons); [apply (f_equal2 pair); [cbn; lia | reflexivity]|]); reflexivity.

Section stores.
Context (p : Z) (H0 : 0 <= p).
Implicit Types (pg d : list Z).

(** Consecutive byte stores are one store. *)
Lemma byte_stores_from d : forall q pg, 0 <= q -> q + zlen d <= zlen pg ->
  byte_stores (imap (fun i b => (q + Z.of_nat i, b)) d) pg = splice q d pg.
Proof.
  induction d as [|b d IH]; intros q pg Hq Hl.
  { unfold byte_stores. cbn. now rewrite splice_nil. }
  unfold byte_stores in *. cbn [imap fold_left fst snd].
  replace (imap _ d) with (imap (fun i b => (q + 1 + Z.of_nat i, b)) d)
    by (apply imap_ext; intros; cbn; f_equal; lia).
  change (zlen (b :: d)) with (Z.of_nat (S (length d))) in Hl. unfold zlen in Hl.
  assert (zlen (splice (q + Z.of_nat 0) [b] pg) = zlen pg) as Hs
    by (apply zlen_splice; unfold zlen; cbn; lia).
  rewrite IH; [|lia | unfold zlen in *; lia]. replace (q + Z.of_nat 0) with q by lia.
  change 1 with (zlen [b]). rewrite splice_app by (unfold zlen; cbn; lia). reflexivity.
Qed.

Lemma store_le32_bytewise k value :
  drop k (store_le32 p value)
  = imap (fun i b => (p + Z.of_nat k + Z.of_nat i, b)) (drop k (virtio_store_le32 value)) /\
  take k (store_le32 p value)
  = imap (fun i b => (p + Z.of_nat i, b)) (take k (virtio_store_le32 value)).
Proof.
  unfold store_le32, virtio_store_le32.
  do 4 (destruct k as [|k]; [split; same_stores|]).
  rewrite !drop_ge, !take_ge by (cbn; lia). split; [reflexivity | same_stores].
Qed.

Lemma torn_store_eq k value v pg : (k <= 4)%nat -> p + 4 <= zlen pg ->
  slice p 4 (torn_store k p value v pg)
  = take k (virtio_store_le32 v) ++ drop k (virtio_store_le32 value).
Proof.
  intros Hk Hl. unfold torn_store. destruct (store_le32_bytewise k value) as [-> ->].
  assert (forall x, length (take k (virtio_store_le32 x)) = k /\
    length (drop k (virtio_store_le32 x)) = (4 - k)%nat) as Hlen.
  { intros x. rewrite length_take, length_drop. change (length (virtio_store_le32 x)) with 4%nat. lia. }
  rewrite (byte_stores_from (take k (virtio_store_le32 value)) p pg)
    by (unfold zlen in *; destruct (Hlen value); lia).
  set (pg1 := splice p (take k (virtio_store_le32 value)) pg).
  assert (zlen pg1 = zlen pg) as H1
    by (apply zlen_splice; [lia | unfold zlen in *; destruct (Hlen value); lia]).
  rewrite <- (take_drop k (virtio_store_le32 v)) at 1.
  destruct (Hlen v) as [Hv1 Hv2], (Hlen value) as [Hw1 Hw2].
  rewrite <- splice_app by (unfold zlen in *; lia).
  assert (zlen (take k (virtio_store_le32 v)) = Z.of_nat k) as Hz by (unfold zlen; lia).
  rewrite Hz. assert (zlen (splice p (take k (virtio_store_le32 v)) pg1) = zlen pg) as H2
    by (rewrite zlen_splice; [exact H1 | lia | unfold zlen in *; lia]).
  assert (zlen (splice (p + Z.of_nat k) (drop k (virtio_store_le32 v))
    (splice p (take k (virtio_store_le32 v)) pg1)) = zlen pg) as H3
    by (rewrite zlen_splice; [exact H2 | lia | unfold zlen in *; lia]).
  rewrite byte_stores_from by (unfold zlen in *; lia).
  rewrite splice_splice by (unfold zlen in *; lia).
  rewrite <- Hz, splice_app by (unfold zlen in *; lia).
  assert (zlen (take k (virtio_store_le32 v) ++ drop k (virtio_store_le32 value)) = 4) as H4
    by (unfold zlen; rewrite length_app; lia).
  rewrite <- H4 at 1. apply slice_splice_same; unfold zlen in *; lia.
Qed.
End stores.

(** ** The reset of the notify register *)

Definition torn_reset (k : nat) (v : Z) (pg : list Z) : list Z :=
  torn_store k VIRTIO_MMIO_QUEUE_NOTIFY UIO_NOTIFY_IDLE v pg.

(** What a scan finds afterwards: the low bytes of the queue number and idle bytes. *)
Lemma torn_value k v pg :
  (1 <= k <= 3)%nat -> 0 <= v < 255 -> VIRTIO_MMIO_QUEUE_NOTIFY + 4 <= zlen pg ->
  virtio_load_le32 (slice VIRTIO_MMIO_QUEUE_NOTIFY 4 (torn_reset k v pg))
  = v + (2 ^ 32 - 2 ^ (8 * Z.of_nat k)).
Proof.
  intros Hk Hv Hl. unfold torn_reset. rewrite torn_store_eq by (assumption || discriminate || lia).
  rewrite store_le32_digits.
  assert (v mod 256 = v /\ v / 2 ^ 8 mod 256 = 0 /\ v / 2 ^ 16 mod 256 = 0) as (-> & -> & ->)
    by (Z.div_mod_to_equations; lia).
  change (virtio_store_le32 UIO_NOTIFY_IDLE) with [0xff; 0xff; 0xff; 0xff].
  destruct k as [|[|[|[|k]]]]; try lia; cbn [take drop app];
    rewrite load_le32_sum by (unfold is_byte; lia); lia.
Qed.

(** Both devices take such a value for a queue that does not exist. *)
Lemma cond_foreign_queue requests fuel w len (u : uio_state) c :
  COND_QUEUE_COUNT <= w -> in_width 32 w ->
  exists u', cond_mmio_write requests fuel VIRTIO_MMIO_QUEUE_NOTIFY w len (u, c)
    = Done (true, (u', c)).
Proof.
  intros Hw H32. unfold cond_mmio_write, bind at 1, modify at 1. cbn [fst snd].
  rewrite cond_notify_id.
  unfold check_then at 1. rewrite (bind_done _ _ _ true (u, c)) by reflexivity.
  unfold check_then at 1. rewrite (bind_done _ _ _ true (u, c)) by reflexivity.
  cbn [Z.eqb VIRTIO_MMIO_QUEUE_NOTIFY Pos.eqb]. rewrite u32_small by assumption.
  unfold cond_virtio_notify_queue. rewrite (proj2 (Z.leb_le _ _) Hw).
  unfold check_then, cond_ack_notify, bind, gets, liftF, zoom. cbn [fst snd].
  destruct (has_bit _ _); eexists; reflexivity.
Qed.

Lemma blkd_foreign_queue direct_read requests fuel w len (u : uio_state) b :
  w <> 0 -> in_width 32 w ->
  exists u', blkd_mmio_write direct_read requests fuel VIRTIO_MMIO_QUEUE_NOTIFY w len (u, b)
    = Done (true, (u', b)).
Proof.
  intros Hw H32. unfold blkd_mmio_write, bind at 1, modify at 1. cbn [fst snd].
  replace {| bk_mmio := _; bk_host := bk_host b |} with b by (now destruct b).
  unfold check_then at 1. rewrite (bind_done _ _ _ true (u, b)) by reflexivity.
  unfold check_then at 1. rewrite (bind_done _ _ _ true (u, b)) by reflexivity.
  cbn [Z.eqb VIRTIO_MMIO_QUEUE_NOTIFY Pos.eqb]. rewrite u32_small by assumption.
  unfold blkd_virtio_notify_queue, check_then, bind, gets. cbn [fst snd].
  rewrite (proj2 (Z.eqb_neq _ _) Hw). cbn [negb orb].
  unfold blkd_ack_notify, bind, gets, liftF, zoom. cbn [fst snd].
  destruct (has_bit _ _); eexists; reflexivity.
Qed.

(** A torn notification is found and ignored. When the guest's store of a queue number
    falls between the byte stores with which the daemon resets the notify register, the
    register is neither idle nor the number of a queue: the next scan calls the device
    with it, and neither daemon serves any queue. *)
Theorem torn_notify_ignored direct_read requests fuel k v pg (u : uio_state) c b :
  (1 <= k <= 3)%nat -> 0 <= v < 255 -> VIRTIO_MMIO_QUEUE_NOTIFY + 4 <= zlen pg ->
  let w := virtio_load_le32 (slice VIRTIO_MMIO_QUEUE_NOTIFY 4 (torn_reset k v pg)) in
  w <> UIO_NOTIFY_IDLE /\
  (exists u', cond_mmio_write requests fuel VIRTIO_MMIO_QUEUE_NOTIFY w 4 (u, c)
     = Done (true, (u', c))) /\
  (exists u', blkd_mmio_write direct_read requests fuel VIRTIO_MMIO_QUEUE_NOTIFY w 4 (u, b)
     = Done (true, (u', b))).
Proof.
  intros Hk Hv Hl w. assert (w = v + (2 ^ 32 - 2 ^ (8 * Z.of_nat k))) as Ew by now apply torn_value.
  assert (2 ^ 32 - 2 ^ 24 <= w < 2 ^ 32 - 1) as Hw.
  { rewrite Ew. destruct k as [|[|[|[|k]]]]; try lia; cbn [Z.of_nat Pos.of_succ_nat Pos.succ Z.mul Pos.mul];
      lia. }
  clearbody w. split; [unfold UIO_NOTIFY_IDLE; lia|].
  split; [apply cond_foreign_queue | apply blkd_foreign_queue];
    unfold COND_QUEUE_COUNT, in_width; lia.
Qed.
